(* ===== verification/_CoqProject ===== *)
-Q . S2P
Prelude.v
Platform.v
Concrete.v
Errs.v
Model.v
Database.v
GoM.v
Pipeline.v
Store.v
Books.v
Schema.v
Transfer.v
Example.v
TransferExamples.v
Funding.v
FundingExamples.v
Schedule.v
Concurrency.v
Locks.v
Strconv.v
Http.v
Json.v
RateLimit.v
RateTurns.v
RateConcurrency.v
Token.v
AuthMiddleware.v
Auth.v
Threads.v
Handlers.v
Wire.v
AccountHandler.v
Server.v
Replies.v
Session.v
Config.v
Email.v
Mail.v
Main.v
ConcurrencyExamples.v
ConcreteAuth.v
ConcreteText.v
ThreadsExamples.v
HttpExamples.v
MainExamples.v
WireExamples.v
