(* ===== verification/Prelude.v ===== *)
(** * OmniLedger: a verification development

    The repository is the back end of a small bank: an HTTP API in Go
    ([cmd/api/main.go], [internal/]) over PostgreSQL
    ([sql/V1__init_schema.sql]) and Redis.  Balances are not stored: they are
    sums over an append-only ledger.  A transfer is guarded by an idempotency
    key in Redis and moves money in one SQL transaction; a funding mints money;
    users register, log in and carry a signed token in a cookie; a sliding
    window in Redis limits requests; mails go through a pool of workers.

    This development translates that program into executable definitions, one
    file per part, and proves what the parts and the whole promise.

    ** How the program is modelled

    The world of a run ([GoM.World]) is the tables, the open SQL transaction,
    the Redis server, a counter of external calls and their trace.  A Go
    function that may fail is a function [M A := World -> result error A *
    World]; its statements are composed with a monadic notation in the order of
    the source, early returns are branches, deferred calls and explicitly
    ignored errors are written out.  Every external call takes a number, under
    which the environment ([Platform.Env]) says what the clock shows, which
    UUID is generated, in which order rows come back, and whether the call
    fails: before it takes effect or, with the reply lost, after it did.  A
    theorem without the hypothesis [no_faults] holds whatever fails.

    Third-party packages and services are type classes with the operations the
    program calls, and classes of laws that state their documented behaviour
    ([UuidLib], [DecimalLib], [RedisServer], [JwtLib], [BcryptLib],
    [DriverText], [DecimalText], [Services]); [Concrete], [ConcreteAuth] and
    [ConcreteText] implement them and prove the laws, so that every theorem
    applies to runs that evaluate.

    ** The files

    - [Prelude] (this file): results, sums, rounding, shared lemmas, the hint
      database [bank] and the rewrite database [bankrw];
    - [Platform]: the classes above; [Concrete]: executable instances;
    - [Errs] ([internal/errs]): sentinels, wrapping, [errors.Is];
    - [Model] ([internal/model]): the structs and enumerations;
    - [Database] ([sql/V1__init_schema.sql]): tables, constraints and the
      effect of each INSERT, UPDATE and aggregate; [db_wf], the invariant the
      schema enforces, and that every statement preserves it; [Schema]: the
      triggers of the ledger, the balance view and function, the seed;
    - [GoM]: the monad, SQL and Redis calls with their faults, frame lemmas and
      the tactics [solve_preserves] and [run_ok]; [Pipeline]: the pipelines of
      go-redis, and the life of a sorted set with a deadline;
    - [Store] ([internal/store/store.go]): every method, [WithTx] included;
    - [Books]: the contract: [books] (constraints, every transaction posted
      exactly once, no account overdrawn), the postings as relations between
      tables, and the abstract bank [bank_transfer];
    - [Transfer] ([internal/service/transfer.go]): [TransferFunds], cut into
      [transfer_tx] (the closure of the SQL transaction, ending in
      [transfer_post]), [transfer_body] and [transfer_deferred];
      [Service_GetBalance];
    - [Funding] ([internal/service/funding.go]): [FundAccount];
    - [Schedule]: threads that take turns on a shared state; [Concurrency]:
      many transfers at once, cut at their external steps; [Threads]: transfers,
      fundings and registrations at once; [Locks]: the row locks of the SQL
      transactions as a transition system;
    - [Strconv]: int64 and [strconv.Atoi]; [Http]: requests, responses,
      handlers; [Json]: the bodies as JSON trees, from the tags of [model.go];
    - [RateLimit] ([internal/middleware/ratelimit.go]), one request at a time;
      [RateTurns], many at once, one Redis command per turn, and
      [RateConcurrency], what holds of those runs; [Token] and [AuthMiddleware]
      ([internal/auth]); [Auth] ([internal/service/auth.go]); [Handlers] and
      [AccountHandler] ([internal/handler]); [Wire]: handlers between trees;
    - [Server] ([cmd/api/main.go]): the routes with their middleware and
      sessions of the server; [Replies]: the type of the API; [Session]: a user
      of it from registration to login;
    - [Config] ([internal/config]), [Email] and [Mail] ([internal/email]);
    - [Main] ([cmd/api/main.go], [internal/logger]): the process from its start
      to its exit;
    - [Example] and the files that end in [Examples]: a small bank, and each
      property applied to it.

    ** What is shown

    - Refinement: without faults [TransferFunds] is [bank_transfer], errors and
      their order included ([TransferFunds_refines_bank]), also when the request
      comes as JSON ([transfer_over_json]); [FundAccount] is its decision table
      ([FundAccount_refines_mint]); the limiter on Redis is a sliding window
      ([limiter_is_sliding_window]); the endpoints answer as their services do.
    - Safety under any faults: all or nothing, with a lost reply to COMMIT as
      the only doubt ([TransferFunds_all_or_nothing],
      [FundAccount_all_or_nothing]); the books are kept by every interleaving of
      transfers, fundings and registrations ([threads_keep_books]) and, with the
      total of the money, by every session of requests to all routes
      ([server_keeps_books]), which only add rows ([server_appends_only]); a key
      completes at most once, also concurrently ([interleave_key_once]), and a
      user name is registered at most once ([one_registration_per_name]);
      authentication fails closed ([Protect_fails_closed]), and nothing but a
      registration changes a table without an unrevoked session
      ([changes_need_session]).
    - Concurrency: what every account ends with ([threads_accounting]), that
      ordered locks cannot deadlock ([transfers_never_deadlock]), and by how
      much overlapping requests exceed the budget of the limiter: by no more
      than those that run between the count and the addition of another, and
      not at all if there are none ([concurrent_budget]).
    - The API: every reply of an endpoint has its type ([replies_typed]); the
      status of a transfer says what became of it, and is the one a table lists
      ([handleTransfer_correct]); the history endpoint shows the page that was
      asked for ([handleGetHistory_correct]).
    - The process: requests see open stores, a clean exit has handled every
      request and closes in reverse order ([stop_is_clean]), and a signal ends
      it ([signal_stops]).
    - Round trips: JSON requests, token issue and validation, registration and
      login over JSON with any session of requests in between
      ([Register_then_Login]), login and session.
    - Bounds: the limiter's budget up to the rounding of scores to doubles, and
      the answers to requests for page after page, which cover a history
      although offsets are int64 and the number of pages is computed in floating
      point ([pages_cover_history]), provided no two rows have the same time.
    - Equivalence: the balance of the program, of the view and of the SQL
      function ([balances_agree]).
    - What the program does although it should not: any user can pay from any
      account ([transfer_of_any_account]); the funding and logout routes are
      without authentication ([unprotected_routes]), so that a bank that starts
      from the migration never has any money ([migrated_bank_stays_empty]);
      transfers without a key share one ([keyless_transfers_collide]); fundings
      are not idempotent and can deadlock with transfers
      ([funding_can_deadlock]); a lost reply to SETNX blocks a key for a day; a
      registration can leave a user without an account ([Register_effects]);
      a name with spaces past its fiftieth character is registered without them
      and cannot log in as it was sent ([spaced_name_locks_out]); the pipeline
      of the limiter is not a transaction, so requests that overlap are admitted
      beyond the budget (the example of [concurrent_budget]); shutting down may
      leave mails unsent ([Shutdown_may_leave_mail]).

    ** Choices, bounds and what is left out

    Amounts are decimals of the library; columns are integers in units of
    10^-4, rounded half away from zero and below 10^18, as NUMERIC(18,4) does.
    A VARCHAR column drops excess characters that are spaces and refuses others;
    a text with a NUL byte is refused ([insert_user]; a look-up by such a text
    finds nobody where the server reports an error, which none of the callers
    tells apart).  Times are nanoseconds; deadlines in Redis are rounded to the unit go-redis
    sends (milliseconds for SET, seconds for EXPIRE).  [fresh_uuids n k db]
    asks that the UUIDs generated by the next [k] calls are new: [k] is the
    number of calls of one request.  The limiter is analysed for times at which
    a double has a precision of 256 ns, the years 2006 to 2043; its refinement
    and its budget for pipelines whose commands run within a second of the
    clock's reading, which is the second the code adds to the life of the key.
    The definitions need no fuel: all recursion is structural.

    An SQL transaction is atomic: [WithTx] asks for isolation level
    serializable, and a serialization failure is a fault of the statement that
    reports it.  A JSON body is the tree its scanner reads; scanning and
    escaping of text are the library's.  A session of the server takes one
    request after the other; what overlapping requests do to the tables and the
    limiter is the subject of [Threads] and [RateConcurrency].  In [Main] a
    request in flight is handled in one step.  Not modelled: log lines and
    latency measurements, the effect of CORS headers and of the server's read
    and write timeouts, the SMTP conversation, the indexes that constrain
    nothing, the React front end and the deployment files. *)

From stdpp Require Export base gmap strings list sorting.
From Stdlib Require Export QArith Qround.
From Stdlib Require Import Lqa.
#[local] Open Scope Z_scope.

(** ** Results of fallible Go calls *)

(** A Go call returning [(T, error)]: either a value with a nil error or a
    non-nil error. *)
Inductive result (E A : Type) : Type :=
| Ok (a : A)
| Err (e : E).

Arguments Ok {E A} a.
Arguments Err {E A} e.

Definition is_ok {E A} (r : result E A) : bool :=
  match r with Ok _ => true | Err _ => false end.

(** ** Sums of lists of integers *)

Fixpoint Zsum (l : list Z) : Z :=
  match l with
  | [] => 0
  | x :: l' => x + Zsum l'
  end.

(** Rounding a rational to an integer, ties away from zero. *)
Definition round_half_away (q : Q) : Z :=
  if Qle_bool 0 q then Qfloor (q + (1 # 2)) else - Qfloor (- q + (1 # 2)).

(** ** Automation *)

(** [bank] collects the facts about components that close routine goals. *)
Create HintDb bank.
Create Rewrite HintDb bankrw.

(** [split_run H] destructs every [match] a run equation is stuck on, and
    closes the cases that contradict each other. *)
Ltac split_run H :=
  repeat (simplify_eq/=; case_match; simplify_eq/=); simplify_eq/=.

(** ** Lemmas *)

Lemma Zsum_app l1 l2 : Zsum (l1 ++ l2) = Zsum l1 + Zsum l2.
Proof. induction l1; simpl; lia. Qed.

(** Numbers that are not negative and add up to zero are zero. *)
Lemma Zsum_zero {A} (f : A → Z) l x : (∀ y, 0 <= f y) → Zsum (f <$> l) = 0 → x ∈ l → f x = 0.
Proof.
  intros Hf. assert (∀ l, 0 <= Zsum (f <$> l)) as Hnn.
  { intros l'. induction l' as [|y l' IH]; csimpl; [done|]. specialize (Hf y). lia. }
  induction l as [|y l IH]; csimpl; intros Hs Hin; [by apply elem_of_nil in Hin|].
  pose proof (Hf y). pose proof (Hnn l). apply elem_of_cons in Hin as [->|Hin]; [lia|]. apply IH; [lia|done].
Qed.

Lemma Zsum_perm l1 l2 : l1 ≡ₚ l2 → Zsum l1 = Zsum l2.
Proof. induction 1; simpl; lia. Qed.

#[global] Instance Zsum_proper : Proper ((≡ₚ) ==> (=)) Zsum.
Proof. intros l1 l2. apply Zsum_perm. Qed.

Lemma Zsum_map_add {A} (f g : A → Z) l :
  Zsum ((λ x, f x + g x) <$> l) = Zsum (f <$> l) + Zsum (g <$> l).
Proof. induction l; csimpl; lia. Qed.

Lemma Zsum_map_zero {A} (f : A → Z) l :
  (∀ x, x ∈ l → f x = 0) → Zsum (f <$> l) = 0.
Proof.
  induction l as [|x l IH]; csimpl; intros Hz; [done|].
  rewrite (Hz x), IH; [lia| |]; set_solver.
Qed.

Lemma Zsum_map_ext {A} (f g : A → Z) l :
  (∀ x, x ∈ l → f x = g x) → Zsum (f <$> l) = Zsum (g <$> l).
Proof.
  induction l as [|x l IH]; csimpl; intros Hz; [done|].
  rewrite (Hz x), IH; [lia| |]; set_solver.
Qed.

(** The sum of point functions over a duplicate-free list: only the element
    itself contributes. *)
Lemma Zsum_map_point {A} `{EqDecision A} (a : A) v l :
  NoDup l → a ∈ l → Zsum ((λ x, if decide (x = a) then v else 0) <$> l) = v.
Proof.
  intros Hdup. induction Hdup as [|x l Hx Hnd IH]; csimpl; intros Hin; [by inversion Hin|].
  case_decide as Hxa.
  - subst. rewrite Zsum_map_zero; [lia|].
    intros y Hy. case_decide; [congruence|done].
  - apply elem_of_cons in Hin as [?|Hin]; [congruence|].
    rewrite IH by done. lia.
Qed.

(** Replacing an element of a list changes a sum by the difference. *)
Lemma Zsum_insert {A} (f : A → Z) l i x y :
  l !! i = Some x → Zsum (f <$> <[i := y]> l) = Zsum (f <$> l) - f x + f y.
Proof.
  revert i. induction l as [|z l IH]; intros [|i] Hi; csimpl; simplify_eq/=; [lia|].
  rewrite (IH i) by done. lia.
Qed.

(** *** Filters *)

Lemma length_filter_insert {A} (P : A → Prop) `{!∀ x, Decision (P x)} l i x y :
  l !! i = Some x →
  (length (filter P (<[i := y]> l)) + (if decide (P x) then 1 else 0) =
   length (filter P l) + (if decide (P y) then 1 else 0))%nat.
Proof.
  revert i. induction l as [|z l IH]; intros [|i] Hi; simplify_eq/=.
  - rewrite !filter_cons. repeat case_decide; simpl; lia.
  - specialize (IH i Hi). rewrite !filter_cons. repeat case_decide; simpl in *; lia.
Qed.

Lemma filter_none {A} (P : A → Prop) `{!∀ x, Decision (P x)} l :
  Forall (λ x, ¬ P x) l → filter P l = [].
Proof. induction 1; [done|]. by rewrite filter_cons_False. Qed.

Lemma filter_all {A} (P : A → Prop) `{!∀ x, Decision (P x)} l :
  Forall P l → filter P l = l.
Proof. induction 1; [done|]. rewrite filter_cons_True by done. by f_equal. Qed.

(** *** Rounding *)

Lemma Qfloor_half z : Qfloor (inject_Z z + (1 # 2)) = z.
Proof.
  unfold Qfloor, inject_Z, Qplus; simpl.
  rewrite Z.mul_comm, Z.mul_1_r, Z.add_comm, Z.mul_comm, Z.div_add by lia. done.
Qed.

Lemma round_half_away_nonneg q :
  (0 <= q)%Q → round_half_away q = Qfloor (q + (1 # 2)).
Proof.
  intros Hq. unfold round_half_away.
  apply Qle_bool_iff in Hq. by rewrite Hq.
Qed.

#[global] Instance round_half_away_proper : Proper (Qeq ==> (=)) round_half_away.
Proof.
  intros p q Hpq. unfold round_half_away.
  assert (Qle_bool 0 p = Qle_bool 0 q) as ->.
  { apply eq_true_iff_eq. by rewrite !Qle_bool_iff, Hpq. }
  case_match; [|f_equal]; apply Qfloor_comp; by rewrite Hpq.
Qed.

(** Rounding a nonnegative quantity never exceeds an integer bound on it. *)
Lemma round_half_away_le q b :
  (0 <= q)%Q → (q <= inject_Z b)%Q → round_half_away q <= b.
Proof.
  intros Hq Hb. rewrite round_half_away_nonneg by done.
  rewrite <-(Qfloor_half b). apply Qfloor_resp_le. lra.
Qed.

(** A run whose result is known. *)
Lemma run_split {A B} (p : A * B) a : p.1 = a → p = (a, p.2).
Proof. destruct p; simpl. by intros ->. Qed.

#[export] Hint Rewrite Zsum_app : bankrw.

(** *** Partial maps of a list *)

Lemma omap_cons_app {A B} (f : A → option B) (x : A) (l : list A) :
  omap f (x :: l) = option_list (f x) ++ omap f l.
Proof. simpl. by destruct (f x). Qed.

(** Replacing an element. *)
Lemma omap_insert_perm {A B} (f : A → option B) (l : list A) i x y :
  l !! i = Some x →
  omap f (<[i := y]> l) ++ option_list (f x) ≡ₚ omap f l ++ option_list (f y).
Proof.
  revert i. induction l as [|z l IH]; intros [|i] Hi; simplify_eq/=.
  - destruct (f x) as [a|], (f y) as [b|]; simpl; rewrite ?app_nil_r; try done.
    + rewrite Permutation_app_comm. simpl. rewrite (Permutation_app_comm _ [b]). simpl. constructor.
    + by rewrite Permutation_app_comm.
    + by rewrite (Permutation_app_comm _ [b]).
  - specialize (IH i Hi). destruct (f z); simpl; [by rewrite IH|done].
Qed.

Lemma omap_sublist {A B} (f g : A → option B) (l : list A) :
  (∀ x y, x ∈ l → f x = Some y → g x = Some y) → sublist (omap f l) (omap g l).
Proof.
  induction l as [|x l IH]; intros Hfg; simpl; [done|].
  assert (sublist (omap f l) (omap g l)) as Hl by (apply IH; intros; apply Hfg; [by right|done]).
  destruct (f x) as [y|] eqn:Hf; [rewrite (Hfg x y); [by constructor|by left|done]|].
  destruct (g x); [by constructor|done].
Qed.
