(* ===== verification/Platform.v ===== *)
(** * Platform: the code the program calls but does not contain

    Third-party packages and services, as interfaces.  Each class carries the
    operations the Go code calls; the matching [...Laws] class states the
    documented behaviour the proofs rely on.

    - [UuidLib]: [github.com/google/uuid] ([uuid.UUID], [uuid.Nil],
      [UUID.String], [uuid.Parse]; [uuid.New] is in [Env]).
    - [DecimalLib]: [github.com/shopspring/decimal] and the NUMERIC(18,4)
      coercion PostgreSQL applies to a value of it.
    - [RedisServer]: the Redis commands issued through [go-redis].
    - [Env]: what a run observes of the outside: which calls fail, the clock,
      the generated UUIDs, the order of unordered query results. *)

From S2P Require Import Prelude.
#[local] Open Scope Z_scope.

(** ** github.com/google/uuid *)

Class UuidLib := {
  UUID : Type;
  #[global] UUID_eq_dec :: EqDecision UUID;
  #[global] UUID_countable :: Countable UUID;
  uuid_Nil : UUID;
  uuid_String : UUID → string;
  (** [None]: [uuid.Parse] returned an error. *)
  uuid_Parse : string → option UUID
}.

(** [String] prints the canonical 36-character form, one per value. *)
Class UuidLaws `{UuidLib} := {
  uuid_String_inj : Inj (=) (=) uuid_String
}.

(** ** github.com/shopspring/decimal *)

Class DecimalLib := {
  Decimal : Type;
  dec_Zero : Decimal;
  dec_IsPositive : Decimal → bool;
  dec_LessThan : Decimal → Decimal → bool;
  dec_StringFixed : Decimal → Z → string;
  (** A NUMERIC column read back, in units of 10^-4. *)
  dec_of_units : Z → Decimal;
  (** The value PostgreSQL stores in a NUMERIC(18,4) column, in units of
      10^-4; [None]: numeric field overflow. *)
  numeric_18_4 : Decimal → option Z;
  (** The number a decimal denotes. *)
  dec_val : Decimal → Q
}.

(** The largest magnitude of a NUMERIC(18,4), in units of 10^-4, plus one. *)
Definition numeric_18_4_bound : Z := 10 ^ 18.

(** A decimal's value in units of 10^-4. *)
Definition dec_units `{DecimalLib} (d : Decimal) : Q := dec_val d * inject_Z 10000.

Class DecimalLaws `{DecimalLib} := {
  dec_IsPositive_spec d : dec_IsPositive d = true ↔ (0 < dec_val d)%Q;
  dec_LessThan_spec d1 d2 : dec_LessThan d1 d2 = true ↔ (dec_val d1 < dec_val d2)%Q;
  dec_of_units_spec n : (dec_units (dec_of_units n) == inject_Z n)%Q;
  (** Rounding to scale 4, ties away from zero, then the precision check. *)
  numeric_18_4_spec d :
    numeric_18_4 d =
      (let n := round_half_away (dec_units d) in
       if Z.abs n <? numeric_18_4_bound then Some n else None)
}.

(** ** Redis *)

(** Values under a key: a string, or a sorted set of members with scores. *)
Inductive rval : Type :=
| RStr (s : string)
| RZSet (z : gmap string Z).

(** The deadlines go-redis sends: a duration of SET or SETNX in whole
    milliseconds, one of EXPIRE in whole seconds, each at least one unit. *)
Definition in_units (unit ttl : Z) : Z := if ttl <? unit then unit else ttl / unit * unit.
Definition px (ttl : Z) : Z := in_units (10 ^ 6) ttl.
Definition ex (ttl : Z) : Z := in_units (10 ^ 9) ttl.

(** The commands the program issues.  The first [Z] is the server's clock in
    nanoseconds when the command runs, TTLs are durations in nanoseconds.
    [redis_view r t k] is what key [k] holds at time [t] when no command runs
    in between; [None]: absent or expired. *)
Class RedisServer := {
  redis : Type;
  redis_view : redis → Z → string → option rval;
  redis_SETNX : Z → string → string → Z → redis → bool * redis;
  redis_SET : Z → string → string → Z → redis → redis;
  redis_DEL : Z → string → redis → redis;
  redis_EXISTS : Z → string → redis → Z;
  (** Removes the members with score in [-inf, max]. *)
  redis_ZREMRANGEBYSCORE : Z → string → Z → redis → redis;
  redis_ZCARD : Z → string → redis → Z;
  redis_ZADD : Z → string → string → Z → redis → redis;
  redis_ZREM : Z → string → string → redis → redis;
  redis_EXPIRE : Z → string → Z → redis → redis
}.

(** The sorted set at a key, an absent key being an empty set. *)
Definition zset_view `{RedisServer} (r : redis) (t : Z) (k : string) : gmap string Z :=
  match redis_view r t k with Some (RZSet z) => z | _ => ∅ end.

(** A key whose sorted set becomes empty is removed. *)
Definition zset_val (z : gmap string Z) : option rval :=
  if decide (z = ∅) then None else Some (RZSet z).

Section redis_laws.
Context `{RedisServer}.

(** What key [k] holds after [f] rewrote the live sorted set there. *)
Definition zset_update (f : gmap string Z → gmap string Z) (v : option rval) : option rval :=
  match v with
  | Some (RZSet z) => zset_val (f z)
  | v => v
  end.

(** [wrong_type v]: a sorted-set command on this value is a WRONGTYPE error. *)
Definition wrong_type (v : option rval) : Prop := ∃ s, v = Some (RStr s).

Class RedisLaws := {
  SETNX_reply t k v ttl r :
    (redis_SETNX t k v ttl r).1 = bool_decide (redis_view r t k = None);
  SETNX_view t k v ttl r t' k' :
    t <= t' → 0 < ttl →
    redis_view (redis_SETNX t k v ttl r).2 t' k' =
      if decide (k' = k ∧ redis_view r t k = None)
      then (if t' <? t + px ttl then Some (RStr v) else None)
      else redis_view r t' k';
  SET_view t k v ttl r t' k' :
    t <= t' → 0 < ttl →
    redis_view (redis_SET t k v ttl r) t' k' =
      if decide (k' = k)
      then (if t' <? t + px ttl then Some (RStr v) else None)
      else redis_view r t' k';
  DEL_view t k r t' k' :
    t <= t' →
    redis_view (redis_DEL t k r) t' k' =
      if decide (k' = k) then None else redis_view r t' k';
  EXISTS_reply t k r :
    redis_EXISTS t k r = (if decide (redis_view r t k = None) then 0 else 1);
  ZREMRANGEBYSCORE_view t k max r t' k' :
    t <= t' →
    redis_view (redis_ZREMRANGEBYSCORE t k max r) t' k' =
      if decide (k' = k)
      then zset_update (filter (λ p, max < p.2)) (redis_view r t' k)
      else redis_view r t' k';
  ZCARD_reply t k r :
    redis_ZCARD t k r = Z.of_nat (size (zset_view r t k));
  ZADD_view t k m s r t' k' :
    t <= t' → ¬ wrong_type (redis_view r t k) →
    redis_view (redis_ZADD t k m s r) t' k' =
      if decide (k' = k)
      then (if decide (redis_view r t k = None)
            then Some (RZSet {[m := s]})
            else zset_update (insert m s) (redis_view r t' k))
      else redis_view r t' k';
  ZREM_view t k m r t' k' :
    t <= t' →
    redis_view (redis_ZREM t k m r) t' k' =
      if decide (k' = k)
      then zset_update (delete m) (redis_view r t' k)
      else redis_view r t' k';
  EXPIRE_view t k ttl r t' k' :
    t <= t' → 0 < ttl →
    redis_view (redis_EXPIRE t k ttl r) t' k' =
      if decide (k' = k)
      then (if t' <? t + ex ttl then redis_view r t k else None)
      else redis_view r t' k'
}.

End redis_laws.

Arguments RedisLaws {_}.

(** ** The environment of a run *)

(** How an external call can fail: before it takes effect, or after (the
    effect happened and the reply was lost). *)
Inductive fault := FaultLost | FaultApplied.

(** External calls are numbered in the order a run issues them; each field
    is indexed by that number.  [env_scan n l] is the order in which the
    server returns the rows [l] of a query with no ORDER BY. *)
Class Env `{UuidLib} := {
  env_fault : nat → option fault;
  env_now : nat → Z;
  env_uuid : nat → UUID;
  env_scan : nat → ∀ A : Type, list A → list A
}.

Class EnvLaws `{Env} := {
  env_now_mono n m : (n ≤ m)%nat → env_now n <= env_now m;
  env_scan_perm n A (l : list A) : env_scan n A l ≡ₚ l
}.

(** No external call fails. *)
Definition no_faults `{Env} : Prop := ∀ n, env_fault n = None.

#[export] Hint Resolve env_now_mono : bank.
