(* ===== verification/Concrete.v ===== *)
(** * Concrete: instances of the platform interfaces

    One executable instance per class of [Platform], with a proof of its laws.
    The witnesses evaluate the program on them; they also show that the laws
    the theorems assume can hold together. *)

From S2P Require Import Prelude Platform.
From stdpp Require Import pretty.
From Stdlib Require Import Lqa Qpower.
#[local] Open Scope Z_scope.

(** ** UUIDs as their canonical text *)

Definition text_uuid : UuidLib := {|
  UUID := string;
  uuid_Nil := "00000000-0000-0000-0000-000000000000";
  uuid_String := λ s, s;
  uuid_Parse := Some
|}.

Lemma text_uuid_laws : @UuidLaws text_uuid.
Proof. split. intros x y Hxy. exact Hxy. Qed.

(** ** Decimals as [coef * 10 ^ dexp] *)

Record dec := mkDec { coef : Z; dexp : Z }.

Definition dec_value (d : dec) : Q := inject_Z (coef d) * Qpower (inject_Z 10) (dexp d).

Definition dec_to_units (d : dec) : Q := dec_value d * inject_Z 10000.

(** Left-pads a digit string with zeros up to width [n]. *)
Definition zero_pad (n : nat) (s : string) : string :=
  (String.concat "" (replicate (n - String.length s) "0") ++ s)%string.

Definition dec_print (d : dec) (places : Z) : string :=
  let n := round_half_away (dec_value d * Qpower (inject_Z 10) places) in
  let p := 10 ^ places in
  ((if (n <? 0)%Z then "-" else "") ++ pretty (Z.abs n / p)%Z ++
   (if (places <=? 0)%Z then "" else "." ++ zero_pad (Z.to_nat places) (pretty (Z.abs n mod p)%Z)))%string.

Definition coef_decimal : DecimalLib := {|
  Decimal := dec;
  dec_Zero := mkDec 0 0;
  dec_IsPositive := λ d, 0 <? coef d;
  dec_LessThan := λ d1 d2, negb (Qle_bool (dec_value d2) (dec_value d1));
  dec_StringFixed := dec_print;
  dec_of_units := λ n, mkDec n (-4);
  numeric_18_4 := λ d,
    let n := round_half_away (dec_to_units d) in
    if Z.abs n <? numeric_18_4_bound then Some n else None;
  dec_val := dec_value
|}.

Lemma dec_value_pos d : (0 < dec_value d)%Q ↔ 0 < coef d.
Proof.
  unfold dec_value.
  assert (0 < Qpower (inject_Z 10) (dexp d))%Q as Hp by (by apply Qpower_0_lt).
  rewrite Zlt_Qlt. change (inject_Z 0) with 0%Q. split; intros Hd.
  - apply (Qmult_lt_r _ _ _ Hp). by rewrite Qmult_0_l.
  - apply (Qmult_lt_r _ _ _ Hp) in Hd. by rewrite Qmult_0_l in Hd.
Qed.

Lemma coef_decimal_laws : @DecimalLaws coef_decimal.
Proof.
  split; simpl.
  - intros d. rewrite dec_value_pos. lia.
  - intros d1 d2. rewrite negb_true_iff, <-not_true_iff_false, Qle_bool_iff.
    split; [apply Qnot_le_lt|apply Qlt_not_le].
  - intros n. unfold dec_units, dec_val, dec_of_units; simpl.
    unfold dec_value; simpl. rewrite <-Qmult_assoc. unfold Qeq; simpl. lia.
  - done.
Qed.

(** ** Redis as a map from keys to values with an optional deadline *)

#[local] Abbreviation store := (gmap string (rval * option Z)).

Definition store_view (r : store) (t : Z) (k : string) : option rval :=
  match r !! k with
  | Some (v, None) => Some v
  | Some (v, Some e) => if t <? e then Some v else None
  | None => None
  end.

(** Rewrites the live sorted set at [k], dropping the key when it is empty. *)
Definition store_zupd (f : gmap string Z → gmap string Z) (t : Z) (k : string) (r : store) : store :=
  match store_view r t k, r !! k with
  | Some (RZSet z), Some (_, e) =>
     match zset_val (f z) with
     | Some v => <[k := (v, e)]> r
     | None => delete k r
     end
  | _, _ => r
  end.

Definition map_redis : RedisServer := {|
  redis := store;
  redis_view := store_view;
  redis_SETNX := λ t k v ttl r,
    match store_view r t k with
    | Some _ => (false, r)
    | None => (true, <[k := (RStr v, Some (t + px ttl))]> r)
    end;
  redis_SET := λ t k v ttl r, <[k := (RStr v, Some (t + px ttl))]> r;
  redis_DEL := λ _ k r, delete k r;
  redis_EXISTS := λ t k r, match store_view r t k with Some _ => 1 | None => 0 end;
  redis_ZREMRANGEBYSCORE := λ t k max, store_zupd (filter (λ p, max < p.2)) t k;
  redis_ZCARD := λ t k r,
    match store_view r t k with Some (RZSet z) => Z.of_nat (size z) | _ => 0 end;
  redis_ZADD := λ t k m s r,
    match store_view r t k with
    | None => <[k := (RZSet {[m := s]}, None)]> r
    | Some _ => store_zupd (insert m s) t k r
    end;
  redis_ZREM := λ t k m, store_zupd (delete m) t k;
  redis_EXPIRE := λ t k ttl r,
    match store_view r t k with
    | Some v => <[k := (v, Some (t + ex ttl))]> r
    | None => r
    end
|}.

Lemma store_view_insert r k k' v e t :
  store_view (<[k := (v, e)]> r) t k' =
    if decide (k' = k)
    then match e with None => Some v | Some d => if t <? d then Some v else None end
    else store_view r t k'.
Proof.
  unfold store_view. case_decide as Hk; [subst; by rewrite lookup_insert_eq|].
  by rewrite lookup_insert_ne by done.
Qed.

Lemma store_view_delete r k k' t :
  store_view (delete k r) t k' = if decide (k' = k) then None else store_view r t k'.
Proof.
  unfold store_view. case_decide as Hk; [subst; by rewrite lookup_delete_eq|].
  by rewrite lookup_delete_ne by done.
Qed.

(** What is expired stays expired; a live value is the stored one. *)
Lemma store_view_later r k t t' :
  t <= t' → store_view r t' k = None ∨ store_view r t' k = store_view r t k.
Proof.
  intros Ht. unfold store_view.
  destruct (r !! k) as [[v [e|]]|]; auto.
  destruct (t' <? e) eqn:?, (t <? e) eqn:?; auto; lia.
Qed.

Lemma store_zupd_view f t k r t' k' :
  t <= t' →
  store_view (store_zupd f t k r) t' k' =
    if decide (k' = k) then zset_update f (store_view r t' k) else store_view r t' k'.
Proof.
  intros Ht. unfold store_zupd.
  destruct (store_view r t k) as [[s|z]|] eqn:Hv.
  1,3: destruct (store_view_later r k t t' Ht) as [Hl|Hl]; rewrite Hl, ?Hv;
       case_decide; subst; rewrite ?Hl, ?Hv; done.
  assert (∃ e, r !! k = Some (RZSet z, e) ∧
    ∀ t0, store_view r t0 k = match e with
      | Some d => if t0 <? d then Some (RZSet z) else None | None => Some (RZSet z) end) as (e & Hk & Hall).
  { unfold store_view in *. destruct (r !! k) as [[v e]|]; [|done].
    exists e. destruct e; repeat case_match; naive_solver. }
  rewrite Hk. rewrite (Hall t').
  destruct (zset_val (f z)) as [v|] eqn:Hz.
  - rewrite store_view_insert. case_decide; [|done].
    destruct e as [d|]; [destruct (t' <? d)|]; simpl; by rewrite ?Hz.
  - rewrite store_view_delete. case_decide; [|done].
    destruct e as [d|]; [destruct (t' <? d)|]; simpl; by rewrite ?Hz.
Qed.

Lemma map_redis_laws : @RedisLaws map_redis.
Proof.
  split; simpl.
  - intros t k v ttl r. by destruct (store_view r t k).
  - intros t k v ttl r t' k' Ht _. destruct (store_view r t k) eqn:Hv; simpl.
    + rewrite decide_False by naive_solver. done.
    + rewrite store_view_insert. repeat case_decide; naive_solver.
  - intros t k v ttl r t' k' Ht _. by rewrite store_view_insert.
  - intros t k r t' k' Ht. by rewrite store_view_delete.
  - intros t k r. by destruct (store_view r t k).
  - intros. by apply store_zupd_view.
  - intros t k r. unfold zset_view; simpl. by destruct (store_view r t k) as [[]|].
  - intros t k m s r t' k' Ht Hw. destruct (store_view r t k) eqn:Hv; simpl.
    + rewrite store_zupd_view by done. done.
    + rewrite store_view_insert. repeat case_decide; naive_solver.
  - intros. by apply store_zupd_view.
  - intros t k ttl r t' k' Ht Httl. destruct (store_view r t k) eqn:Hv; simpl.
    + by rewrite store_view_insert.
    + case_decide; [subst|done].
      destruct (store_view_later r k t t' Ht) as [->| ->]; rewrite ?Hv; by case_match.
Qed.

(** ** A deterministic environment

    The clock advances by one millisecond per external call; generated UUIDs
    are distinct from the hand-written ones of the examples. *)

Definition test_env (faults : nat → option fault) (start : Z) : @Env text_uuid :=
  @Build_Env text_uuid faults
    (λ n, start + Z.of_nat n * 1000000)
    (λ n, ("gen-" ++ pretty n)%string)
    (λ _ _ l, l).

Definition never : nat → option fault := λ _, None.

(** Exactly the [n]-th external call fails, in the given way. *)
Definition fault_at (n : nat) (f : fault) : nat → option fault :=
  λ m, if bool_decide (m = n) then Some f else None.

Lemma test_env_laws faults start : @EnvLaws text_uuid (test_env faults start).
Proof. split; simpl; [lia|done]. Qed.
