(* ===== verification/Errs.v ===== *)
(** * Errs: error values ([internal/errs/errors.go]) and their wrapping

    Go error values as the program builds and inspects them: the sentinel
    errors of package [errs], errors returned by the SQL and Redis drivers,
    plain texts, and [fmt.Errorf] wrappers with a [%w] verb; [errors.Is] walks
    the wrappers. *)

From S2P Require Import Prelude.

(** ** Sentinels *)

Inductive sentinel :=
| ErrInsufficientFunds
| ErrAccountNotFound
| ErrAccountNotActive
| ErrDuplicateTransaction
| ErrSameAccount
| ErrInvalidAmount
| ErrInvalidCredentials
| ErrUsernameTaken
| ErrEmailTaken
| ErrMissingFields
| ErrNotSystemUser.

#[global] Instance sentinel_eq_dec : EqDecision sentinel.
Proof. solve_decision. Defined.

Definition sentinel_text (s : sentinel) : string :=
  match s with
  | ErrInsufficientFunds => "insufficient funds"
  | ErrAccountNotFound => "account not found"
  | ErrAccountNotActive => "account is not active"
  | ErrDuplicateTransaction => "duplicate transaction: idempotency key already processed"
  | ErrSameAccount => "cannot transfer to the same account"
  | ErrInvalidAmount => "transfer amount must be positive"
  | ErrInvalidCredentials => "invalid username or password"
  | ErrUsernameTaken => "username already taken"
  | ErrEmailTaken => "email already taken"
  | ErrMissingFields => "missing required fields"
  | ErrNotSystemUser => "forbidden: system user access required"
  end.

(** ** Driver errors *)

(** What lib/pq, database/sql and go-redis return.  [ConnFailure] stands for
    every failure of the call itself: a lost connection, a timeout, a
    cancelled context, a serialization failure. *)
Inductive driver_error :=
| ErrNoRows
| ConnFailure
| UniqueViolation (constraint : string)
| ForeignKeyViolation (constraint : string)
| CheckViolation (constraint : string)
| NumericFieldOverflow
| StringTooLong (column : string)
| InvalidByteSequence
| NegativeOffset
| RaisedException
| WrongType.

#[global] Instance driver_error_eq_dec : EqDecision driver_error.
Proof. solve_decision. Defined.

(** ** Error values *)

Inductive error :=
| ErrSentinel (s : sentinel)
| ErrDriver (d : driver_error)
| ErrText (msg : string)
| Errorf (prefix : string) (wrapped : error).

#[global] Instance error_eq_dec : EqDecision error.
Proof. solve_decision. Defined.

(** [err.Error()]; the text of a driver error is the driver's. *)
Fixpoint Error (driver_text : driver_error → string) (e : error) : string :=
  match e with
  | ErrSentinel s => sentinel_text s
  | ErrDriver d => driver_text d
  | ErrText msg => msg
  | Errorf prefix e' => prefix ++ Error driver_text e'
  end.

(** [errors.Is(err, target)] for a sentinel target. *)
Fixpoint errors_Is (e : error) (target : sentinel) : bool :=
  match e with
  | ErrSentinel s => bool_decide (s = target)
  | Errorf _ e' => errors_Is e' target
  | _ => false
  end.

(** ** Lemmas *)

(** The sentinel at the end of a chain of wrappers, if any. *)
Fixpoint root_sentinel (e : error) : option sentinel :=
  match e with
  | ErrSentinel s => Some s
  | Errorf _ e' => root_sentinel e'
  | _ => None
  end.

Lemma errors_Is_root e s : errors_Is e s = true ↔ root_sentinel e = Some s.
Proof.
  induction e as [s'| | |p e IH]; simpl; try (split; congruence); [|done].
  rewrite bool_decide_eq_true. naive_solver.
Qed.

Lemma errors_Is_eq e s : errors_Is e s = bool_decide (root_sentinel e = Some s).
Proof. apply eq_true_iff_eq. by rewrite errors_Is_root, bool_decide_eq_true. Qed.

Lemma errors_Is_unique e s1 s2 :
  errors_Is e s1 = true → errors_Is e s2 = true → s1 = s2.
Proof. rewrite !errors_Is_root. congruence. Qed.
