(* ===== verification/Model.v ===== *)
(** * Model: the domain types ([internal/model/model.go])

    One record per struct, the fields named [<struct>_<field>]; the string
    enumerations are inductive types.  Times are nanoseconds since the epoch. *)

From S2P Require Import Prelude Platform.
#[local] Open Scope Z_scope.

Inductive AccountStatus := AccountStatusActive | AccountStatusFrozen | AccountStatusClosed.

Inductive TransactionStatus :=
| TxnStatusPending | TxnStatusCompleted | TxnStatusFailed | TxnStatusReversed.

Inductive EntryType := EntryTypeCredit | EntryTypeDebit.

#[global] Instance AccountStatus_eq_dec : EqDecision AccountStatus.
Proof. solve_decision. Defined.
#[global] Instance TransactionStatus_eq_dec : EqDecision TransactionStatus.
Proof. solve_decision. Defined.
#[global] Instance EntryType_eq_dec : EqDecision EntryType.
Proof. solve_decision. Defined.

(** The zero [time.Time]: 1 January, year 1. *)
Definition time_Zero : Z := -62135596800 * 10 ^ 9.

Section model.
Context `{UuidLib} `{DecimalLib}.

Record User := mkUser {
  User_ID : UUID;
  User_Username : string;
  User_Email : string;
  User_PasswordHash : string;
  User_FullName : string;
  User_IsSystemUser : bool;
  User_IsActive : bool;
  User_CreatedAt : Z;
  User_UpdatedAt : Z
}.

Record Account := mkAccount {
  Account_ID : UUID;
  Account_UserID : UUID;
  Account_Currency : string;
  Account_Status : AccountStatus;
  Account_CreatedAt : Z
}.

Record Transaction := mkTransaction {
  Transaction_ID : UUID;
  Transaction_FromAccountID : UUID;
  Transaction_ToAccountID : UUID;
  Transaction_Amount : Decimal;
  Transaction_Status : TransactionStatus;
  Transaction_IdempotencyKey : UUID;
  Transaction_CreatedAt : Z;
  Transaction_UpdatedAt : Z
}.

Record LedgerEntry := mkLedgerEntry {
  LedgerEntry_ID : UUID;
  LedgerEntry_AccountID : UUID;
  LedgerEntry_TransactionID : UUID;
  LedgerEntry_Amount : Decimal;
  LedgerEntry_EntryType : EntryType;
  LedgerEntry_CreatedAt : Z
}.

Record TransferRequest := mkTransferRequest {
  TransferRequest_FromAccountID : UUID;
  TransferRequest_ToAccountID : UUID;
  TransferRequest_Amount : Decimal;
  TransferRequest_IdempotencyKey : UUID
}.

Record TransferResponse := mkTransferResponse {
  TransferResponse_TransactionID : UUID;
  TransferResponse_Status : TransactionStatus;
  TransferResponse_Message : string
}.

Record RegisterRequest := mkRegisterRequest {
  RegisterRequest_Username : string;
  RegisterRequest_Email : string;
  RegisterRequest_Password : string;
  RegisterRequest_FullName : string
}.

Record LoginRequest := mkLoginRequest {
  LoginRequest_Username : string;
  LoginRequest_Password : string
}.

Record AuthResponse := mkAuthResponse {
  AuthResponse_User : User;
  AuthResponse_Token : string
}.

Record FundRequest := mkFundRequest {
  FundRequest_ToAccountID : UUID;
  FundRequest_Amount : Decimal
}.

Record FundResponse := mkFundResponse {
  FundResponse_TransactionID : UUID;
  FundResponse_ToAccountID : UUID;
  FundResponse_Amount : Decimal;
  FundResponse_Status : TransactionStatus;
  FundResponse_Message : string
}.

Inductive direction := Sent | Received.

Record TransactionHistoryItem := mkHistoryItem {
  HistoryItem_ID : UUID;
  HistoryItem_FromAccountID : UUID;
  HistoryItem_ToAccountID : UUID;
  HistoryItem_Amount : Decimal;
  HistoryItem_Status : TransactionStatus;
  HistoryItem_IdempotencyKey : UUID;
  HistoryItem_CreatedAt : Z;
  HistoryItem_UpdatedAt : Z;
  HistoryItem_Direction : direction
}.

Record PaginatedHistory := mkPaginatedHistory {
  PaginatedHistory_Items : list TransactionHistoryItem;
  PaginatedHistory_Total : Z;
  PaginatedHistory_Page : Z;
  PaginatedHistory_PerPage : Z;
  PaginatedHistory_TotalPages : Z
}.

Record BalanceResponse := mkBalanceResponse {
  BalanceResponse_AccountID : UUID;
  BalanceResponse_Currency : string;
  BalanceResponse_Balance : string
}.

#[global] Instance direction_eq_dec : EqDecision direction.
Proof. solve_decision. Defined.
#[global] Instance User_eq_dec : EqDecision User.
Proof. solve_decision. Defined.
#[global] Instance Account_eq_dec : EqDecision Account.
Proof. solve_decision. Defined.

End model.
