(* ===== verification/Database.v ===== *)
(** * Database: the PostgreSQL schema ([sql/V1__init_schema.sql])

    The four tables, the constraints the schema declares on them, and what an
    INSERT, an UPDATE or an aggregate of the program's SQL does to them.  A
    statement is a pure function of the tables and, where a column defaults to
    [now()], of the transaction's start time; it returns the new tables or
    the driver error of the first constraint it violates, in PostgreSQL's
    order: the encoding of the parameters, column coercion, CHECK constraints by
    name, unique indexes, foreign keys.  Amounts are stored in units of 10^-4
    ([NUMERIC(18,4)]); a [VARCHAR(n)] column cuts a text whose characters past
    the [n]-th are all spaces, and refuses it otherwise. *)

From S2P Require Import Prelude Platform Errs Model.
#[local] Open Scope Z_scope.

Section database.
Context `{UuidLib} `{DecimalLib}.

(** ** Tables *)

Record TxnRow := mkTxnRow {
  txn_id : UUID;
  txn_from_account_id : UUID;
  txn_to_account_id : UUID;
  txn_amount : Z;
  txn_status : TransactionStatus;
  txn_idempotency_key : UUID;
  txn_created_at : Z;
  txn_updated_at : Z
}.

Record LedgerRow := mkLedgerRow {
  led_id : UUID;
  led_account_id : UUID;
  led_transaction_id : UUID;
  led_amount : Z;
  led_entry_type : EntryType;
  led_created_at : Z
}.

(** The ledger is append-only: a list in insertion order. *)
Record DB := mkDB {
  users : gmap UUID User;
  accounts : gmap UUID Account;
  transactions : gmap UUID TxnRow;
  ledger : list LedgerRow
}.

Definition set_users (f : gmap UUID User → gmap UUID User) (db : DB) : DB :=
  mkDB (f (users db)) (accounts db) (transactions db) (ledger db).
Definition set_accounts (f : gmap UUID Account → gmap UUID Account) (db : DB) : DB :=
  mkDB (users db) (f (accounts db)) (transactions db) (ledger db).
Definition set_transactions (f : gmap UUID TxnRow → gmap UUID TxnRow) (db : DB) : DB :=
  mkDB (users db) (accounts db) (f (transactions db)) (ledger db).
Definition set_ledger (f : list LedgerRow → list LedgerRow) (db : DB) : DB :=
  mkDB (users db) (accounts db) (transactions db) (f (ledger db)).

(** ** Column types *)

Definition numeric_column (d : Decimal) : result driver_error Z :=
  match numeric_18_4 d with
  | Some n => Ok n
  | None => Err NumericFieldOverflow
  end.

(** Characters of a UTF-8 text: bytes other than continuation bytes. *)
Fixpoint utf8_length (s : string) : nat :=
  match s with
  | EmptyString => 0
  | String c s' =>
    (if N.land (Ascii.N_of_ascii c) 192 =? 128 then utf8_length s' else S (utf8_length s'))%N
  end.

(** The first [n] characters of a UTF-8 text, and what follows them. *)
Fixpoint cut (n : nat) (s : string) : string :=
  match s with
  | EmptyString => ""
  | String c s' =>
    if (N.land (Ascii.N_of_ascii c) 192 =? 128)%N then String c (cut n s')
    else match n with O => "" | S n' => String c (cut n' s') end
  end.

Fixpoint excess (n : nat) (s : string) : string :=
  match s with
  | EmptyString => ""
  | String c s' =>
    if (N.land (Ascii.N_of_ascii c) 192 =? 128)%N then excess n s'
    else match n with O => s | S n' => excess n' s' end
  end.

Fixpoint all_bytes (p : Ascii.ascii → bool) (s : string) : bool :=
  match s with
  | EmptyString => true
  | String c s' => p c && all_bytes p s'
  end.

(** A value a [VARCHAR(n)] column takes; what it stores is [cut n s]: characters
    past the [n]-th are dropped if they are spaces, and an error otherwise. *)
Definition varchar (n : nat) (s : string) : bool := all_bytes (λ c, Ascii.N_of_ascii c =? 32)%N (excess n s).

(** A text parameter may not contain the NUL byte. *)
Definition no_nul (s : string) : bool := all_bytes (λ c, negb (Ascii.N_of_ascii c =? 0)%N) s.

(** ** Rows that make a unique index fail *)

Definition key_used (k : UUID) (db : DB) : Prop :=
  map_Exists (λ _ t, txn_idempotency_key t = k) (transactions db).
Definition username_used (name : string) (db : DB) : Prop :=
  map_Exists (λ _ u, User_Username u = name) (users db).
Definition email_used (email : string) (db : DB) : Prop :=
  map_Exists (λ _ u, User_Email u = email) (users db).

#[global] Instance key_used_dec k db : Decision (key_used k db).
Proof. unfold key_used. apply _. Defined.
#[global] Instance username_used_dec k db : Decision (username_used k db).
Proof. unfold username_used. apply _. Defined.
#[global] Instance email_used_dec k db : Decision (email_used k db).
Proof. unfold email_used. apply _. Defined.

(** ** INSERT and UPDATE *)

Definition insert_transaction (now : Z) (t : Transaction) (db : DB) : result driver_error DB :=
  match numeric_column (Transaction_Amount t) with
  | Err e => Err e
  | Ok n =>
    if decide (Transaction_FromAccountID t = Transaction_ToAccountID t)
    then Err (CheckViolation "chk_different_accounts")
    else if negb (0 <? n) then Err (CheckViolation "transactions_amount_check")
    else if decide (is_Some (transactions db !! Transaction_ID t))
    then Err (UniqueViolation "transactions_pkey")
    else if decide (key_used (Transaction_IdempotencyKey t) db)
    then Err (UniqueViolation "transactions_idempotency_key_key")
    else if decide (accounts db !! Transaction_FromAccountID t = None)
    then Err (ForeignKeyViolation "transactions_from_account_id_fkey")
    else if decide (accounts db !! Transaction_ToAccountID t = None)
    then Err (ForeignKeyViolation "transactions_to_account_id_fkey")
    else Ok (set_transactions
      (<[Transaction_ID t := mkTxnRow (Transaction_ID t)
          (Transaction_FromAccountID t) (Transaction_ToAccountID t) n
          (Transaction_Status t) (Transaction_IdempotencyKey t) now now]>) db)
  end.

(** [UPDATE transactions SET status] and the [trg_transactions_updated_at]
    trigger; with the number of rows changed. *)
Definition update_transaction_status (now : Z) (status : TransactionStatus) (id : UUID)
    (db : DB) : Z * DB :=
  match transactions db !! id with
  | None => (0, db)
  | Some t =>
    (1, set_transactions
      (<[id := mkTxnRow (txn_id t) (txn_from_account_id t) (txn_to_account_id t)
          (txn_amount t) status (txn_idempotency_key t) (txn_created_at t) now]>) db)
  end.

Definition insert_ledger (now : Z) (e : LedgerEntry) (db : DB) : result driver_error DB :=
  match numeric_column (LedgerEntry_Amount e) with
  | Err e => Err e
  | Ok n =>
    if negb (0 <? n) then Err (CheckViolation "ledger_amount_check")
    else if decide (LedgerEntry_ID e ∈ (led_id <$> ledger db))
    then Err (UniqueViolation "ledger_pkey")
    else if decide (accounts db !! LedgerEntry_AccountID e = None)
    then Err (ForeignKeyViolation "ledger_account_id_fkey")
    else if decide (transactions db !! LedgerEntry_TransactionID e = None)
    then Err (ForeignKeyViolation "ledger_transaction_id_fkey")
    else Ok (set_ledger (λ l, l ++ [mkLedgerRow (LedgerEntry_ID e)
      (LedgerEntry_AccountID e) (LedgerEntry_TransactionID e) n
      (LedgerEntry_EntryType e) now]) db)
  end.

(** The row of a new user. *)
Definition user_row (u : User) (now : Z) : User :=
  mkUser (User_ID u) (cut 50 (User_Username u)) (cut 255 (User_Email u))
    (cut 255 (User_PasswordHash u)) (cut 100 (User_FullName u)) (User_IsSystemUser u)
    (User_IsActive u) now now.

Definition insert_user (now : Z) (u : User) (db : DB) : result driver_error DB :=
  if negb (forallb no_nul [User_Username u; User_Email u; User_PasswordHash u; User_FullName u])
  then Err InvalidByteSequence
  else if negb (varchar 50 (User_Username u)) then Err (StringTooLong "username")
  else if negb (varchar 255 (User_Email u)) then Err (StringTooLong "email")
  else if negb (varchar 255 (User_PasswordHash u)) then Err (StringTooLong "password_hash")
  else if negb (varchar 100 (User_FullName u)) then Err (StringTooLong "full_name")
  else
  let row := user_row u now in
  if decide (is_Some (users db !! User_ID u)) then Err (UniqueViolation "users_pkey")
  else if decide (username_used (User_Username row) db)
  then Err (UniqueViolation "users_username_key")
  else if decide (email_used (User_Email row) db) then Err (UniqueViolation "users_email_key")
  else Ok (set_users (<[User_ID u := row]>) db).

Definition insert_account (now : Z) (a : Account) (db : DB) : result driver_error DB :=
  if negb (no_nul (Account_Currency a)) then Err InvalidByteSequence
  else if negb (varchar 3 (Account_Currency a)) then Err (StringTooLong "currency")
  else if decide (is_Some (accounts db !! Account_ID a))
  then Err (UniqueViolation "accounts_pkey")
  else if decide (users db !! Account_UserID a = None)
  then Err (ForeignKeyViolation "accounts_user_id_fkey")
  else Ok (set_accounts
    (<[Account_ID a := mkAccount (Account_ID a) (Account_UserID a)
        (cut 3 (Account_Currency a)) (Account_Status a) now]>) db).

(** ** The balance query *)

(** [CASE WHEN entry_type = 'Credit' THEN amount WHEN 'Debit' THEN -amount END] *)
Definition entry_signed (l : LedgerRow) : Z :=
  match led_entry_type l with
  | EntryTypeCredit => led_amount l
  | EntryTypeDebit => - led_amount l
  end.

(** SUM over no rows is NULL. *)
Definition sql_sum (l : list Z) : option Z :=
  match l with [] => None | _ => Some (Zsum l) end.

Definition account_entries (id : UUID) (db : DB) : list LedgerRow :=
  filter (λ l, led_account_id l = id) (ledger db).

(** [SELECT COALESCE(SUM(CASE ... END), 0) FROM ledger WHERE account_id = $1] *)
Definition balance (id : UUID) (db : DB) : Z :=
  default 0 (sql_sum (entry_signed <$> account_entries id db)).

(** What one ledger row contributes to the balance of [id]. *)
Definition contribution (id : UUID) (l : LedgerRow) : Z :=
  if decide (led_account_id l = id) then entry_signed l else 0.

(** All the money on the books. *)
Definition total_supply (db : DB) : Z := Zsum (entry_signed <$> ledger db).

(** The balances of all accounts, added up. *)
Definition total_balance (db : DB) : Z :=
  Zsum ((λ id, balance id db) <$> (map_to_list (accounts db)).*1).

(** ** The invariant the schema enforces *)

Definition amount_ok (n : Z) : Prop := 0 < n < numeric_18_4_bound.

Definition user_row_ok (id : UUID) (u : User) : Prop := User_ID u = id.
Definition account_row_ok (db : DB) (id : UUID) (a : Account) : Prop :=
  Account_ID a = id ∧ is_Some (users db !! Account_UserID a).
Definition txn_row_ok (db : DB) (id : UUID) (t : TxnRow) : Prop :=
  txn_id t = id ∧ txn_from_account_id t ≠ txn_to_account_id t ∧ amount_ok (txn_amount t) ∧
  is_Some (accounts db !! txn_from_account_id t) ∧ is_Some (accounts db !! txn_to_account_id t).
Definition led_row_ok (db : DB) (l : LedgerRow) : Prop :=
  amount_ok (led_amount l) ∧ is_Some (accounts db !! led_account_id l) ∧
  is_Some (transactions db !! led_transaction_id l).

(** [f] is a key of the table [m] (a UNIQUE column). *)
Definition unique_on {A B} (f : A → B) (m : gmap UUID A) : Prop :=
  ∀ i j x y, m !! i = Some x → m !! j = Some y → f x = f y → i = j.

Record db_wf (db : DB) : Prop := {
  wf_users : map_Forall user_row_ok (users db);
  wf_usernames : unique_on User_Username (users db);
  wf_emails : unique_on User_Email (users db);
  wf_accounts : map_Forall (account_row_ok db) (accounts db);
  wf_transactions : map_Forall (txn_row_ok db) (transactions db);
  wf_keys : unique_on txn_idempotency_key (transactions db);
  wf_ledger : Forall (led_row_ok db) (ledger db);
  wf_ledger_ids : NoDup (led_id <$> ledger db)
}.

(** Rows referenced by foreign keys are never removed. *)
Definition db_grows (db db' : DB) : Prop :=
  (∀ id, is_Some (users db !! id) → is_Some (users db' !! id)) ∧
  (∀ id, is_Some (accounts db !! id) → is_Some (accounts db' !! id)) ∧
  (∀ id, is_Some (transactions db !! id) → is_Some (transactions db' !! id)).

(** ** Balances *)

Lemma sql_sum_default l : default 0 (sql_sum l) = Zsum l.
Proof. by destruct l. Qed.

Lemma balance_sum id db : balance id db = Zsum (entry_signed <$> account_entries id db).
Proof. apply sql_sum_default. Qed.

Lemma balance_ledger id db1 db2 : ledger db1 = ledger db2 → balance id db1 = balance id db2.
Proof. intros Hl. unfold balance, account_entries. by rewrite Hl. Qed.

Lemma balance_contributions id db : balance id db = Zsum (contribution id <$> ledger db).
Proof.
  rewrite balance_sum. unfold account_entries.
  induction (ledger db) as [|l ls IH]; csimpl; [done|].
  unfold contribution at 1. rewrite filter_cons. case_decide; csimpl; lia.
Qed.

Lemma balance_append id db db' ls :
  ledger db' = ledger db ++ ls →
  balance id db' = balance id db + Zsum (contribution id <$> ls).
Proof. intros Hl. rewrite !balance_contributions, Hl, fmap_app. apply Zsum_app. Qed.

Lemma total_supply_append db db' ls :
  ledger db' = ledger db ++ ls →
  total_supply db' = total_supply db + Zsum (entry_signed <$> ls).
Proof. intros Hl. unfold total_supply. rewrite Hl, fmap_app. apply Zsum_app. Qed.

(** Each ledger row is counted in the balance of exactly one account. *)
Lemma supply_of_accounts ids ls :
  NoDup ids → Forall (λ l, led_account_id l ∈ ids) ls →
  Zsum ((λ id, Zsum (contribution id <$> ls)) <$> ids) = Zsum (entry_signed <$> ls).
Proof.
  intros Hnd. induction 1 as [|l ls Hl Hls IH]; csimpl.
  - by apply Zsum_map_zero.
  - rewrite Zsum_map_add, IH. f_equal.
    rewrite <-(Zsum_map_point (led_account_id l) (entry_signed l) ids) by done.
    apply Zsum_map_ext. intros id _. unfold contribution.
    repeat case_decide; congruence.
Qed.

(** The balances of all accounts add up to the money on the books. *)
Lemma total_supply_balances db :
  db_wf db →
  total_supply db = total_balance db.
Proof.
  intros Hwf. unfold total_supply, total_balance.
  rewrite <-(supply_of_accounts (map_to_list (accounts db)).*1).
  - apply Zsum_map_ext. intros. by rewrite balance_contributions.
  - apply NoDup_fst_map_to_list.
  - eapply Forall_impl; [apply (wf_ledger _ Hwf)|]. intros l (_ & [a Ha] & _).
    apply list_elem_of_fmap. exists (led_account_id l, a).
    split; [done|]. by apply elem_of_map_to_list.
Qed.

(** ** Inversion of the statements *)

Lemma numeric_column_ok `{!DecimalLaws} d n :
  numeric_column d = Ok n →
  n = round_half_away (dec_units d) ∧ Z.abs n < numeric_18_4_bound.
Proof.
  unfold numeric_column. rewrite numeric_18_4_spec; cbn zeta.
  destruct (Z.ltb_spec (Z.abs (round_half_away (dec_units d))) numeric_18_4_bound); naive_solver.
Qed.

Lemma insert_transaction_ok now t db db' :
  insert_transaction now t db = Ok db' →
  ∃ n, numeric_column (Transaction_Amount t) = Ok n ∧ 0 < n ∧
    Transaction_FromAccountID t ≠ Transaction_ToAccountID t ∧
    transactions db !! Transaction_ID t = None ∧
    ¬ key_used (Transaction_IdempotencyKey t) db ∧
    is_Some (accounts db !! Transaction_FromAccountID t) ∧
    is_Some (accounts db !! Transaction_ToAccountID t) ∧
    db' = set_transactions
      (<[Transaction_ID t := mkTxnRow (Transaction_ID t)
          (Transaction_FromAccountID t) (Transaction_ToAccountID t) n
          (Transaction_Status t) (Transaction_IdempotencyKey t) now now]>) db.
Proof.
  unfold insert_transaction. intros Hi.
  destruct (numeric_column _) as [n|] eqn:Hn; [|done]. exists n.
  case_decide; [done|]. destruct (Z.ltb_spec 0 n); simpl in Hi; [|done].
  case_decide as Hid; [done|]. case_decide; [done|].
  case_decide as Hf; [done|]. case_decide as Ht; [done|].
  rewrite <-eq_None_not_Some in Hid. rewrite <-not_eq_None_Some.
  rewrite <-not_eq_None_Some. naive_solver.
Qed.

Lemma insert_ledger_ok now e db db' :
  insert_ledger now e db = Ok db' →
  ∃ n, numeric_column (LedgerEntry_Amount e) = Ok n ∧ 0 < n ∧
    ¬ (LedgerEntry_ID e ∈ (led_id <$> ledger db)) ∧
    is_Some (accounts db !! LedgerEntry_AccountID e) ∧
    is_Some (transactions db !! LedgerEntry_TransactionID e) ∧
    db' = set_ledger (λ l, l ++ [mkLedgerRow (LedgerEntry_ID e)
      (LedgerEntry_AccountID e) (LedgerEntry_TransactionID e) n
      (LedgerEntry_EntryType e) now]) db.
Proof.
  unfold insert_ledger. intros Hi.
  destruct (numeric_column _) as [n|] eqn:Hn; [|done]. exists n.
  destruct (Z.ltb_spec 0 n); simpl in Hi; [|done].
  case_decide; [done|]. case_decide; [done|]. case_decide; [done|].
  rewrite <-!not_eq_None_Some. naive_solver.
Qed.

(** ** Statements that succeed *)

Lemma insert_transaction_run now t db :
  Transaction_FromAccountID t ≠ Transaction_ToAccountID t →
  transactions db !! Transaction_ID t = None →
  is_Some (accounts db !! Transaction_FromAccountID t) →
  is_Some (accounts db !! Transaction_ToAccountID t) →
  insert_transaction now t db =
    match numeric_column (Transaction_Amount t) with
    | Err e => Err e
    | Ok n =>
      if negb (0 <? n) then Err (CheckViolation "transactions_amount_check")
      else if bool_decide (key_used (Transaction_IdempotencyKey t) db)
      then Err (UniqueViolation "transactions_idempotency_key_key")
      else Ok (set_transactions
        (<[Transaction_ID t := mkTxnRow (Transaction_ID t)
            (Transaction_FromAccountID t) (Transaction_ToAccountID t) n
            (Transaction_Status t) (Transaction_IdempotencyKey t) now now]>) db)
    end.
Proof.
  intros Hne Hid Hf Ht. unfold insert_transaction.
  destruct (numeric_column _) as [n|]; [|done].
  rewrite decide_False by done. destruct (negb _); [done|].
  rewrite decide_False by (rewrite Hid; by intros []).
  case_decide; [by rewrite bool_decide_true|]. rewrite bool_decide_false by done.
  rewrite <-not_eq_None_Some in Hf. rewrite <-not_eq_None_Some in Ht. by rewrite !decide_False.
Qed.

Lemma insert_ledger_run now e n db :
  numeric_column (LedgerEntry_Amount e) = Ok n → 0 < n →
  ¬ (LedgerEntry_ID e ∈ (led_id <$> ledger db)) →
  is_Some (accounts db !! LedgerEntry_AccountID e) →
  is_Some (transactions db !! LedgerEntry_TransactionID e) →
  insert_ledger now e db =
    Ok (set_ledger (λ l, l ++ [mkLedgerRow (LedgerEntry_ID e)
      (LedgerEntry_AccountID e) (LedgerEntry_TransactionID e) n
      (LedgerEntry_EntryType e) now]) db).
Proof.
  intros Hn Hpos Hid Ha Ht. unfold insert_ledger. rewrite Hn.
  rewrite <-not_eq_None_Some in Ha. rewrite <-not_eq_None_Some in Ht.
  destruct (Z.ltb_spec 0 n); [simpl|lia]. by rewrite !decide_False.
Qed.

(** ** Every statement preserves the invariant *)

Lemma led_rows_grow db db' ls :
  db_grows db db' → Forall (led_row_ok db) ls → Forall (led_row_ok db') ls.
Proof.
  intros (_ & Ha & Ht) Hls. eapply Forall_impl; [done|].
  unfold led_row_ok. naive_solver.
Qed.

Lemma txn_rows_grow db db' (m : gmap UUID TxnRow) :
  db_grows db db' → map_Forall (txn_row_ok db) m → map_Forall (txn_row_ok db') m.
Proof.
  intros (_ & Ha & _) Hm id t Hid. destruct (Hm id t Hid) as (?&?&?&?&?).
  unfold txn_row_ok. naive_solver.
Qed.

Lemma lookup_insert_grows {A} (m : gmap UUID A) k x id :
  is_Some (m !! id) → is_Some (<[k := x]> m !! id).
Proof. rewrite lookup_insert_is_Some'. naive_solver. Qed.
#[local] Hint Resolve lookup_insert_grows : core.

Lemma unique_on_insert {A B} (f : A → B) (m : gmap UUID A) k x :
  unique_on f m → (∀ i y, i ≠ k → m !! i = Some y → f y ≠ f x) →
  unique_on f (<[k := x]> m).
Proof.
  intros Hm Hx i j y z Hi Hj Hf.
  apply lookup_insert_Some in Hi as [[<- <-]|[Hne Hi]];
    apply lookup_insert_Some in Hj as [[<- <-]|[Hne' Hj]]; try done.
  - destruct (Hx j z); auto.
  - destruct (Hx i y); auto.
  - by apply (Hm i j y z).
Qed.

Lemma insert_transaction_wf `{!DecimalLaws} now t db db' :
  db_wf db → insert_transaction now t db = Ok db' → db_wf db'.
Proof.
  intros [] (n & Hn & Hpos & Hne & Hid & Hkey & Hfrom & Hto & ->)%insert_transaction_ok.
  apply numeric_column_ok in Hn as [_ Hn].
  set (db' := set_transactions _ db).
  assert (db_grows db db') as Hg by (split_and!; simpl; auto).
  split; simpl; auto.
  - apply map_Forall_insert_2; [|by eapply txn_rows_grow].
    unfold txn_row_ok, amount_ok; simpl. split_and!; auto; lia.
  - apply unique_on_insert; [done|]. simpl. intros i y _ Hi Hk. apply Hkey. by exists i, y.
  - by eapply led_rows_grow.
Qed.

Lemma update_transaction_status_wf now status id db :
  db_wf db → db_wf (update_transaction_status now status id db).2.
Proof.
  intros []. unfold update_transaction_status.
  destruct (transactions db !! id) as [t|] eqn:Ht; [|by constructor].
  simpl. set (db' := set_transactions _ db).
  assert (db_grows db db') as Hg by (split_and!; simpl; auto).
  split; simpl; auto.
  - apply map_Forall_insert_2; [|by eapply txn_rows_grow].
    pose proof (wf_transactions0 _ _ Ht) as (?&?&?&?&?). by split_and!.
  - apply unique_on_insert; [done|]. simpl. intros i y Hi Hy Hk.
    apply Hi. by eapply wf_keys0.
  - by eapply led_rows_grow.
Qed.

Lemma insert_ledger_wf `{!DecimalLaws} now e db db' :
  db_wf db → insert_ledger now e db = Ok db' → db_wf db'.
Proof.
  intros [] (n & Hn & Hpos & Hid & Ha & Ht & ->)%insert_ledger_ok.
  apply numeric_column_ok in Hn as [_ Hn].
  split; simpl; auto.
  - apply Forall_app. split; [done|]. constructor; [|done].
    unfold led_row_ok, amount_ok; simpl. split_and!; auto; lia.
  - rewrite fmap_app. apply NoDup_app. split_and!; [done| |apply NoDup_singleton].
    simpl. intros x Hx ->%list_elem_of_singleton. done.
Qed.

(** An insertion that went through. *)
Lemma insert_user_ok now u db db' :
  insert_user now u db = Ok db' →
  users db !! User_ID u = None ∧ ¬ username_used (cut 50 (User_Username u)) db ∧
  ¬ email_used (cut 255 (User_Email u)) db ∧ db' = set_users (<[User_ID u := user_row u now]>) db.
Proof.
  unfold insert_user. intros Hi. do 5 (match type of Hi with (if negb ?b then _ else _) = _ =>
    destruct b; cbn [negb] in Hi; [|done] end). cbv zeta in Hi.
  case_decide as Hid; [done|]. case_decide; [done|]. case_decide; [done|].
  injection Hi as <-. rewrite <-eq_None_not_Some in Hid. done.
Qed.

Lemma insert_account_ok now a db db' :
  insert_account now a db = Ok db' →
  accounts db !! Account_ID a = None ∧ is_Some (users db !! Account_UserID a) ∧
  db' = set_accounts (<[Account_ID a := mkAccount (Account_ID a) (Account_UserID a)
    (cut 3 (Account_Currency a)) (Account_Status a) now]>) db.
Proof.
  unfold insert_account. intros Hi. destruct (no_nul _); cbn [negb] in Hi; [|done].
  destruct (varchar _ _); cbn [negb] in Hi; [|done].
  case_decide as Hid; [done|]. case_decide as Hu; [done|]. injection Hi as <-.
  rewrite <-eq_None_not_Some in Hid. rewrite <-not_eq_None_Some. done.
Qed.

Lemma insert_user_wf now u db db' :
  db_wf db → insert_user now u db = Ok db' → db_wf db'.
Proof.
  intros [] (Hid & Hn & He & ->)%insert_user_ok. set (db' := set_users _ db).
  assert (db_grows db db') as Hg.
  { split_and!; simpl; try done. intros id Hs. rewrite lookup_insert_is_Some'. auto. }
  split; simpl; auto.
  - by apply map_Forall_insert_2.
  - apply unique_on_insert; [done|]. simpl. intros i y _ Hy Hk. apply Hn. by exists i, y.
  - apply unique_on_insert; [done|]. simpl. intros i y _ Hy Hk. apply He. by exists i, y.
  - intros id a Ha. destruct (wf_accounts0 id a Ha). split; simpl; [done|].
    rewrite lookup_insert_is_Some'. auto.
Qed.

Lemma insert_account_wf now a db db' :
  db_wf db → insert_account now a db = Ok db' → db_wf db'.
Proof.
  intros [] (Hid & Hu & ->)%insert_account_ok. set (db' := set_accounts _ db).
  assert (db_grows db db') as Hg.
  { split_and!; simpl; try done. intros id Hs. rewrite lookup_insert_is_Some'. auto. }
  split; simpl; auto.
  - by apply map_Forall_insert_2.
  - by eapply txn_rows_grow.
  - by eapply led_rows_grow.
Qed.

(** ** What a column stores *)

Lemma cut_fits n s : (utf8_length s ≤ n)%nat → cut n s = s.
Proof.
  revert n. induction s as [|c s IH]; intros n Hn; [done|]. simpl in *.
  destruct (_ =? 128)%N; [by rewrite IH|]. destruct n as [|n]; [lia|]. rewrite IH by lia. done.
Qed.

Lemma utf8_length_bytes s : (utf8_length s ≤ String.length s)%nat.
Proof. induction s as [|c s IH]; simpl; [lia|]. destruct (_ =? 128)%N; lia. Qed.

Lemma cut_empty n s : cut (S n) s = ""%string → s = ""%string.
Proof. destruct s; simpl; [done|]. by destruct (_ =? 128)%N. Qed.

End database.

#[export] Hint Resolve insert_transaction_wf update_transaction_status_wf
  insert_ledger_wf insert_user_wf insert_account_wf : bank.
