(* ===== verification/GoM.v ===== *)
(** * GoM: running Go code against a database and a Redis server

    A call that may fail is a function of type [M A]: it takes the world (the
    tables, the open SQL transaction, the Redis server, the number of external
    calls made so far, their trace) and returns a value or an error, with the
    new world.  Every external call consumes one tick: tick [n] of the run
    looks up [env_fault n], [env_now n] and [env_uuid n]. *)

From S2P Require Import Prelude Platform Errs Model Database.
#[local] Open Scope Z_scope.

Section gom.
Context `{UuidLib} `{DecimalLib} `{RedisServer} `{!Env}.

(** The external calls, as they appear in the trace of a run. *)
Inductive event :=
| EvBegin
| EvCommit
| EvRollback
| EvLockAccount (id : UUID)
| EvSelectBalance (id : UUID)
| EvInsertTransaction (id : UUID)
| EvUpdateTransaction (id : UUID)
| EvInsertLedger (account : UUID) (t : EntryType)
| EvInsertUser (id : UUID)
| EvInsertAccount (id : UUID)
| EvSelect (table : string)
| EvRedis (cmd key : string).

(** [w_tx]: the tables when the open transaction began, and the time. *)
Record World := mkWorld {
  w_db : DB;
  w_tx : option (DB * Z);
  w_redis : redis;
  w_tick : nat;
  w_trace : list event
}.

Definition set_db (db : DB) (w : World) : World :=
  mkWorld db (w_tx w) (w_redis w) (w_tick w) (w_trace w).
Definition set_tx (tx : option (DB * Z)) (w : World) : World :=
  mkWorld (w_db w) tx (w_redis w) (w_tick w) (w_trace w).
Definition set_redis (r : redis) (w : World) : World :=
  mkWorld (w_db w) (w_tx w) r (w_tick w) (w_trace w).
Definition advance (w : World) : World :=
  mkWorld (w_db w) (w_tx w) (w_redis w) (S (w_tick w)) (w_trace w).
Definition emit (ev : event) (w : World) : World :=
  mkWorld (w_db w) (w_tx w) (w_redis w) (S (w_tick w)) (w_trace w ++ [ev]).

(** The time on the clock of the servers and of the program. *)
Definition w_now (w : World) : Z := env_now (w_tick w).

(** ** The monad *)

Definition M (A : Type) : Type := World → result error A * World.

#[global] Instance M_ret : MRet M := λ A a w, (Ok a, w).
#[global] Instance M_bind : MBind M := λ A B f m w,
  match m w with
  | (Ok a, w') => f a w'
  | (Err e, w') => (Err e, w')
  end.

Definition fail {A} (e : error) : M A := λ w, (Err e, w).

(** [if err != nil { return f(err) }]. *)
Definition map_err {A} (f : error → error) (m : M A) : M A := λ w,
  match m w with
  | (Ok a, w') => (Ok a, w')
  | (Err e, w') => (Err (f e), w')
  end.

(** [if err != nil { return fmt.Errorf("prefix%w", err) }]. *)
Definition wrap {A} (prefix : string) (m : M A) : M A := map_err (Errorf prefix) m.

(** [_ = call()]: the error is dropped. *)
Definition ignore {A} (m : M A) : M unit := λ w, (Ok tt, (m w).2).

(** [v, err := call()]: the caller inspects the error. *)
Definition try_ {A} (m : M A) : M (result error A) := λ w, (Ok (m w).1, (m w).2).

(** ** External calls *)

(** [uuid.New()] and [time.Now()]. *)
Definition uuid_New : M UUID := λ w, (Ok (env_uuid (w_tick w)), advance w).
Definition time_Now : M Z := λ w, (Ok (w_now w), advance w).

(** [now()] inside a statement: the start of the transaction. *)
Definition pg_now (w : World) : Z :=
  match w_tx w with Some (_, t) => t | None => w_now w end.

(** One SQL statement: a function of [now()] and the tables. *)
Definition db_call {A} (ev : event) (q : Z → DB → result driver_error (A * DB)) : M A := λ w,
  match env_fault (w_tick w), q (pg_now w) (w_db w) with
  | Some FaultLost, _ => (Err (ErrDriver ConnFailure), emit ev w)
  | Some FaultApplied, Ok (_, db') => (Err (ErrDriver ConnFailure), set_db db' (emit ev w))
  | Some FaultApplied, Err _ => (Err (ErrDriver ConnFailure), emit ev w)
  | None, Ok (a, db') => (Ok a, set_db db' (emit ev w))
  | None, Err e => (Err (ErrDriver e), emit ev w)
  end.

(** A query, which leaves the tables as they are. *)
Definition db_query {A} (ev : event) (q : DB → result driver_error A) : M A :=
  db_call ev (λ _ db, match q db with Ok a => Ok (a, db) | Err e => Err e end).

(** A statement that writes, for its effect. *)
Definition db_exec (ev : event) (q : Z → DB → result driver_error DB) : M unit :=
  db_call ev (λ now db, match q now db with Ok db' => Ok (tt, db') | Err e => Err e end).

(** [BEGIN ISOLATION LEVEL SERIALIZABLE], [COMMIT], [ROLLBACK].  A failed
    BEGIN leaves no transaction open; a failed COMMIT has rolled back, or has
    committed and lost the reply; the server rolls back even when the ROLLBACK
    command is lost with its connection. *)
Definition tx_begin : M unit := λ w,
  match env_fault (w_tick w) with
  | Some _ => (Err (ErrDriver ConnFailure), emit EvBegin w)
  | None => (Ok tt, set_tx (Some (w_db w, w_now w)) (emit EvBegin w))
  end.

Definition tx_restore (w : World) : World :=
  match w_tx w with
  | Some (db, _) => set_tx None (set_db db w)
  | None => w
  end.

Definition tx_rollback : M unit := λ w, (Ok tt, tx_restore (emit EvRollback w)).

Definition tx_commit : M unit := λ w,
  match env_fault (w_tick w) with
  | None => (Ok tt, set_tx None (emit EvCommit w))
  | Some FaultApplied => (Err (ErrDriver ConnFailure), set_tx None (emit EvCommit w))
  | Some FaultLost => (Err (ErrDriver ConnFailure), tx_restore (emit EvCommit w))
  end.

(** One Redis command: a function of the server's clock and state. *)
Definition redis_call {A} (cmd key : string) (c : Z → redis → A * redis) : M A := λ w,
  let '(a, r') := c (w_now w) (w_redis w) in
  match env_fault (w_tick w) with
  | None => (Ok a, set_redis r' (emit (EvRedis cmd key) w))
  | Some FaultApplied => (Err (ErrDriver ConnFailure), set_redis r' (emit (EvRedis cmd key) w))
  | Some FaultLost => (Err (ErrDriver ConnFailure), emit (EvRedis cmd key) w)
  end.

Definition rdb_SetNX (key value : string) (ttl : Z) : M bool :=
  redis_call "SETNX" key (λ t r, redis_SETNX t key value ttl r).
Definition rdb_Set (key value : string) (ttl : Z) : M unit :=
  redis_call "SET" key (λ t r, (tt, redis_SET t key value ttl r)).
Definition rdb_Del (key : string) : M unit :=
  redis_call "DEL" key (λ t r, (tt, redis_DEL t key r)).
Definition rdb_Exists (key : string) : M Z :=
  redis_call "EXISTS" key (λ t r, (redis_EXISTS t key r, r)).

(** What [uuid.New] returns in the [k] ticks from [n] on are values that are
    pairwise distinct and not yet used as a key of [transactions] or [ledger]. *)
Definition fresh_uuids (n k : nat) (db : DB) : Prop :=
  (∀ i j, (n ≤ i < n + k)%nat → (n ≤ j < n + k)%nat → env_uuid i = env_uuid j → i = j) ∧
  (∀ i, (n ≤ i < n + k)%nat → transactions db !! env_uuid i = None) ∧
  (∀ i, (n ≤ i < n + k)%nat → ¬ (env_uuid i ∈ (led_id <$> ledger db))).

(** ** What a call preserves *)

(** [m] relates the world before to the world after by [R], whatever happens. *)
Definition preserves (R : relation World) {A} (m : M A) : Prop := ∀ w, R w (m w).2.

(** The relations used: same tables, same Redis state, same open transaction. *)
Definition same_db : relation World := λ w w', w_db w' = w_db w.
Definition same_redis : relation World := λ w w', w_redis w' = w_redis w.
Definition same_tx : relation World := λ w w', w_tx w' = w_tx w.

(** The trace only grows, and the clock never goes back. *)
Definition trace_grows : relation World := λ w w', w_trace w `prefix_of` w_trace w'.
Definition tick_grows : relation World := λ w w', (w_tick w ≤ w_tick w')%nat.

(** [emits evs m]: a successful [m] makes exactly the calls [evs], in order; a
    failing one stops somewhere along them. *)
Definition emits (evs : list event) {A} (m : M A) : Prop := ∀ w,
  match m w with
  | (Ok _, w') => w_trace w' = w_trace w ++ evs
  | (Err _, w') => ∃ k, w_trace w' = w_trace w ++ take k evs
  end.

#[global] Instance same_db_preorder : PreOrder same_db.
Proof. split; [done|]. intros w1 w2 w3 H12 H23. unfold same_db in *. congruence. Qed.
#[global] Instance same_redis_preorder : PreOrder same_redis.
Proof. split; [done|]. intros w1 w2 w3 H12 H23. unfold same_redis in *. congruence. Qed.
#[global] Instance same_tx_preorder : PreOrder same_tx.
Proof. split; [done|]. intros w1 w2 w3 H12 H23. unfold same_tx in *. congruence. Qed.
#[global] Instance trace_grows_preorder : PreOrder trace_grows.
Proof. split; unfold trace_grows; [by intros ?|]. intros ??? H12 H23. by etrans. Qed.
#[global] Instance tick_grows_preorder : PreOrder tick_grows.
Proof. split; unfold tick_grows; intros ?; lia. Qed.

Lemma fresh_uuids_shift n k n' k' db :
  (n ≤ n')%nat → (n' + k' ≤ n + k)%nat → fresh_uuids n k db → fresh_uuids n' k' db.
Proof. intros ?? (Hi & Ht & Hl). split_and!; intros; [apply Hi|apply Ht|apply Hl]; auto; lia. Qed.

(** ** Running a sequence of calls *)

Lemma bind_ok {A B} (m : M A) (f : A → M B) w b w2 :
  (m ≫= f) w = (Ok b, w2) → ∃ a w1, m w = (Ok a, w1) ∧ f a w1 = (Ok b, w2).
Proof. unfold mbind, M_bind. intros Hr. destruct (m w) as [[a|e] w1]; naive_solver. Qed.

Lemma bind_run_ok {A B} (m : M A) (f : A → M B) w a w1 :
  m w = (Ok a, w1) → (m ≫= f) w = f a w1.
Proof. unfold mbind, M_bind. by intros ->. Qed.

Lemma bind_try {A B} (m : M A) (f : result error A → M B) w :
  (try_ m ≫= f) w = f (m w).1 (m w).2.
Proof. done. Qed.

(** A call that fails ends the run, with the wrapped error. *)
Lemma bind_wrap {A B} p (m : M A) (f : A → M B) w :
  (wrap p m ≫= f) w =
    match m w with (Ok a, w') => f a w' | (Err e, w') => (Err (Errorf p e), w') end.
Proof. unfold mbind, M_bind, wrap, map_err. by destruct (m w) as [[]]. Qed.

Lemma map_err_ok {A} f (m : M A) w a w' :
  map_err f m w = (Ok a, w') → m w = (Ok a, w').
Proof. unfold map_err. destruct (m w) as [[]]; naive_solver. Qed.

Lemma map_err_run_ok {A} f (m : M A) w a w' :
  m w = (Ok a, w') → map_err f m w = (Ok a, w').
Proof. unfold map_err. by intros ->. Qed.

Lemma wrap_ok {A} p (m : M A) w a w' : wrap p m w = (Ok a, w') → m w = (Ok a, w').
Proof. apply map_err_ok. Qed.

Lemma fail_ok {A} e w (a : A) w' : fail e w = (Ok a, w') → False.
Proof. done. Qed.

Lemma ret_ok {A} (a b : A) w w' : (mret a : M A) w = (Ok b, w') → a = b ∧ w = w'.
Proof. unfold mret, M_ret. naive_solver. Qed.

Lemma db_call_ok {A} ev q w (a : A) w' :
  db_call ev q w = (Ok a, w') →
  env_fault (w_tick w) = None ∧
  ∃ db', q (pg_now w) (w_db w) = Ok (a, db') ∧ w' = set_db db' (emit ev w).
Proof. unfold db_call. repeat case_match; naive_solver. Qed.

Lemma db_query_ok {A} ev q w (a : A) w' :
  db_query ev q w = (Ok a, w') → q (w_db w) = Ok a ∧ w' = emit ev w.
Proof.
  intros (_ & db' & Hq & ->)%db_call_ok. destruct (q (w_db w)); [|done].
  injection Hq as -> <-. by destruct w.
Qed.

Lemma db_exec_ok ev q w w' :
  db_exec ev q w = (Ok tt, w') →
  ∃ db', q (pg_now w) (w_db w) = Ok db' ∧ w' = set_db db' (emit ev w).
Proof.
  intros (_ & db' & Hq & ->)%db_call_ok. exists db'.
  destruct (q (pg_now w) (w_db w)); naive_solver.
Qed.

(** Without faults a call does what the server does. *)

Lemma db_call_run {A} ev (q : Z → DB → result driver_error (A * DB)) w :
  no_faults →
  db_call ev q w =
    match q (pg_now w) (w_db w) with
    | Ok (a, db') => (Ok a, set_db db' (emit ev w))
    | Err e => (Err (ErrDriver e), emit ev w)
    end.
Proof. intros Hnf. unfold db_call. by rewrite Hnf. Qed.

Lemma db_query_run {A} ev (q : DB → result driver_error A) w :
  no_faults →
  db_query ev q w =
    (match q (w_db w) with Ok a => Ok a | Err e => Err (ErrDriver e) end, emit ev w).
Proof.
  intros Hnf. unfold db_query. rewrite db_call_run by done.
  destruct (q (w_db w)); [|done]. by destruct w.
Qed.

Lemma db_exec_run ev q w :
  no_faults →
  db_exec ev q w =
    match q (pg_now w) (w_db w) with
    | Ok db' => (Ok tt, set_db db' (emit ev w))
    | Err e => (Err (ErrDriver e), emit ev w)
    end.
Proof.
  intros Hnf. unfold db_exec. rewrite db_call_run by done.
  by destruct (q (pg_now w) (w_db w)).
Qed.

(** ** Preservation *)

Section preservation.
Context (R : relation World) `{!PreOrder R}.

Lemma preserves_ret {A} (a : A) : preserves R (mret a : M A).
Proof. intros w. simpl. reflexivity. Qed.

Lemma preserves_fail {A} e : preserves R (fail (A := A) e).
Proof. intros w. simpl. reflexivity. Qed.

Lemma preserves_bind {A B} (m : M A) (f : A → M B) :
  preserves R m → (∀ a, preserves R (f a)) → preserves R (m ≫= f).
Proof.
  intros Hm Hf w. unfold mbind, M_bind. specialize (Hm w).
  destruct (m w) as [[a|e] w1]; simpl in *; [|done].
  etrans; [done|]. apply Hf.
Qed.

Lemma preserves_map_err {A} f (m : M A) : preserves R m → preserves R (map_err f m).
Proof. intros Hm w. specialize (Hm w). unfold map_err. by destruct (m w) as [[]]. Qed.

Lemma preserves_wrap {A} p (m : M A) : preserves R m → preserves R (wrap p m).
Proof. apply preserves_map_err. Qed.

Lemma preserves_ignore {A} (m : M A) : preserves R m → preserves R (ignore m).
Proof. intros Hm w. apply Hm. Qed.

Lemma preserves_try {A} (m : M A) : preserves R m → preserves R (try_ m).
Proof. intros Hm w. apply Hm. Qed.

End preservation.

Lemma db_call_redis {A} ev q : preserves same_redis (db_call (A := A) ev q).
Proof. intros w. unfold db_call, same_redis. by repeat case_match. Qed.
Lemma db_call_tx {A} ev q : preserves same_tx (db_call (A := A) ev q).
Proof. intros w. unfold db_call, same_tx. by repeat case_match. Qed.
Lemma db_query_db {A} ev q : preserves same_db (db_query (A := A) ev q).
Proof.
  intros w. unfold db_query, db_call, same_db. repeat case_match; naive_solver.
Qed.
Lemma db_query_redis {A} ev q : preserves same_redis (db_query (A := A) ev q).
Proof. apply db_call_redis. Qed.
Lemma db_query_tx {A} ev q : preserves same_tx (db_query (A := A) ev q).
Proof. apply db_call_tx. Qed.
Lemma db_exec_redis ev q : preserves same_redis (db_exec ev q).
Proof. apply db_call_redis. Qed.
Lemma db_exec_tx ev q : preserves same_tx (db_exec ev q).
Proof. apply db_call_tx. Qed.

Lemma redis_call_db {A} cmd key c : preserves same_db (redis_call (A := A) cmd key c).
Proof. intros w. unfold redis_call, same_db. by repeat case_match. Qed.
Lemma redis_call_tx {A} cmd key c : preserves same_tx (redis_call (A := A) cmd key c).
Proof. intros w. unfold redis_call, same_tx. by repeat case_match. Qed.

Lemma rdb_Set_db key v ttl w : w_db (rdb_Set key v ttl w).2 = w_db w.
Proof. apply redis_call_db. Qed.
Lemma rdb_Set_tx key v ttl w : w_tx (rdb_Set key v ttl w).2 = w_tx w.
Proof. apply redis_call_tx. Qed.
Lemma rdb_Del_db key w : w_db (rdb_Del key w).2 = w_db w.
Proof. apply redis_call_db. Qed.
Lemma rdb_Del_tx key w : w_tx (rdb_Del key w).2 = w_tx w.
Proof. apply redis_call_tx. Qed.

Lemma redis_call_frame {A} cmd key (c : Z → redis → A * redis) w r w' :
  redis_call cmd key c w = (r, w') → w_db w' = w_db w ∧ w_tx w' = w_tx w.
Proof.
  intros Hr. pose proof (redis_call_db cmd key c w) as Hd.
  pose proof (redis_call_tx cmd key c w) as Ht. by rewrite Hr in Hd, Ht.
Qed.

Lemma redis_call_trace {A} cmd key (c : Z → redis → A * redis) w r w' :
  redis_call cmd key c w = (r, w') → w_trace w' = w_trace w ++ [EvRedis cmd key].
Proof. unfold redis_call. destruct (c _ _). repeat case_match; naive_solver. Qed.

Lemma redis_call_trace_eq {A} cmd key (c : Z → redis → A * redis) w :
  w_trace (redis_call cmd key c w).2 = w_trace w ++ [EvRedis cmd key].
Proof. destruct (redis_call cmd key c w) as [r w'] eqn:Hr. by apply redis_call_trace in Hr. Qed.

Lemma redis_call_run {A} cmd key (c : Z → redis → A * redis) w :
  no_faults →
  redis_call cmd key c w =
    (Ok (c (w_now w) (w_redis w)).1,
     set_redis (c (w_now w) (w_redis w)).2 (emit (EvRedis cmd key) w)).
Proof. intros Hnf. unfold redis_call. destruct (c _ _). by rewrite Hnf. Qed.

Lemma db_call_tick {A} ev q : preserves tick_grows (db_call (A := A) ev q).
Proof. intros w. unfold db_call, tick_grows. repeat case_match; simpl; lia. Qed.
Lemma db_query_tick {A} ev q : preserves tick_grows (db_query (A := A) ev q).
Proof. apply db_call_tick. Qed.
Lemma db_exec_tick ev q : preserves tick_grows (db_exec ev q).
Proof. apply db_call_tick. Qed.
Lemma redis_call_tick {A} cmd key c : preserves tick_grows (redis_call (A := A) cmd key c).
Proof. intros w. unfold redis_call, tick_grows. repeat case_match; simpl; lia. Qed.
Lemma uuid_New_tick : preserves tick_grows uuid_New.
Proof. intros w. unfold tick_grows. simpl. lia. Qed.
Lemma uuid_New_db : preserves same_db uuid_New.
Proof. done. Qed.
Lemma uuid_New_redis : preserves same_redis uuid_New.
Proof. done. Qed.
Lemma uuid_New_tx : preserves same_tx uuid_New.
Proof. done. Qed.

(** ** Traces *)

Lemma emits_ret {A} (a : A) : emits [] (mret a : M A).
Proof. intros w. simpl. by rewrite app_nil_r. Qed.

Lemma emits_fail {A} evs e : emits evs (fail (A := A) e).
Proof. intros w. exists 0%nat. simpl. by rewrite app_nil_r. Qed.

Lemma emits_bind {A B} evs1 evs2 (m : M A) (f : A → M B) :
  emits evs1 m → (∀ a, emits evs2 (f a)) → emits (evs1 ++ evs2) (m ≫= f).
Proof.
  intros Hm Hf w. unfold mbind, M_bind. specialize (Hm w).
  destruct (m w) as [[a|e] w1].
  - specialize (Hf a w1). destruct (f a w1) as [[b|e] w2].
    + by rewrite Hf, Hm, app_assoc.
    + destruct Hf as [k Hk]. exists (length evs1 + k)%nat.
      by rewrite take_app_add, Hk, Hm, app_assoc.
  - destruct Hm as [k Hk]. exists (k `min` length evs1)%nat.
    rewrite take_app_le by lia. rewrite Hk. f_equal.
    destruct (decide (k ≤ length evs1)%nat); [by rewrite Nat.min_l|].
    rewrite Nat.min_r by lia. rewrite !take_ge; [done|lia|lia].
Qed.

Lemma emits_map_err {A} evs f (m : M A) : emits evs m → emits evs (map_err f m).
Proof. intros Hm w. specialize (Hm w). unfold map_err. by destruct (m w) as [[]]. Qed.

Lemma emits_db_call {A} ev q : emits [ev] (db_call (A := A) ev q).
Proof. intros w. unfold db_call. repeat case_match; simplify_eq; try by exists 1%nat. done. Qed.

Lemma emits_uuid_New : emits [] uuid_New.
Proof. intros w. simpl. by rewrite app_nil_r. Qed.

End gom.

#[export] Hint Resolve db_call_tick db_query_tick db_exec_tick redis_call_tick uuid_New_tick : bank.
#[export] Hint Resolve preserves_ret preserves_fail db_call_redis db_call_tx db_query_db
  db_query_redis db_query_tx db_exec_redis db_exec_tx redis_call_db redis_call_tx
  uuid_New_db uuid_New_redis uuid_New_tx : bank.

(** [run_ok] turns a run [_ w = (Ok _, w')] of a composed call into the runs of
    its parts. *)
Ltac run_ok :=
  repeat match goal with
  | Hr : mbind _ _ _ = (Ok _, _) |- _ => apply bind_ok in Hr as (? & ? & ? & ?)
  | Hr : wrap _ _ _ = (Ok _, _) |- _ => apply wrap_ok in Hr
  | Hr : map_err _ _ _ = (Ok _, _) |- _ => apply map_err_ok in Hr
  | Hr : fail _ _ = (Ok _, _) |- _ => by apply fail_ok in Hr
  | Hr : mret _ _ = (Ok _, _) |- _ => apply ret_ok in Hr as [? ?]; subst
  end.

(** [solve_preserves] proves that a composed call preserves a relation each of
    its parts preserves. *)
Ltac solve_preserves :=
  repeat lazymatch goal with
  | |- preserves _ (mbind _ _) => refine (preserves_bind _ _ _ _ _); [|intros ?]
  | |- preserves _ (wrap _ _) => apply preserves_wrap
  | |- preserves _ (map_err _ _) => apply preserves_map_err
  | |- preserves _ (ignore _) => apply preserves_ignore
  | |- preserves _ (try_ _) => apply preserves_try
  | |- preserves _ (mret _) => apply preserves_ret; apply _
  | |- preserves _ (fail _) => apply preserves_fail; apply _
  | |- preserves _ (if ?b then _ else _) => destruct b
  | |- preserves _ (match ?b with _ => _ end) => destruct b
  | |- preserves _ _ => solve [auto with bank]
  end.
