(* ===== verification/Pipeline.v ===== *)
(** * Pipeline: the pipelines of go-redis, and the life of a sorted set

    [Pipeline] collects commands and sends them together; the server runs them
    one by one, and commands of other clients may run in between ([TxPipeline]
    would prevent that).  So a pipeline is a list of single calls, each with its
    own time and its own fault, and [pipe_Exec] answers with the first error.
    [key_state] says what a key with a sorted set holds from a time on: its
    members and the deadline it expires at; one lemma per command follows it. *)

From S2P Require Import Prelude Platform Errs Model Database GoM.
#[local] Open Scope Z_scope.

Section pipeline.
Context `{UuidLib} `{DecimalLib} `{RedisServer} `{!Env}.

(** ** Commands *)

(** A command that was queued: its name, and what the server does; the answer
    is kept where it is a number somebody looks at. *)
Definition command : Type := string * (Z → redis → result driver_error (option Z) * redis).

(** A sorted-set command fails on a key that holds a string. *)
Definition zset_command (key : string) (f : Z → redis → option Z * redis) (t : Z) (r : redis)
    : result driver_error (option Z) * redis :=
  match redis_view r t key with
  | Some (RStr _) => (Err WrongType, r)
  | _ => let '(a, r') := f t r in (Ok a, r')
  end.

Definition run_command (key : string) (c : command) : M (option Z) :=
  reply ← redis_call c.1 key c.2;
  match reply with Ok a => mret a | Err e => fail (ErrDriver e) end.

(** ** Exec *)

(** Every command runs, whatever became of the ones before it. *)
Fixpoint pipe_replies (key : string) (cs : list command) (w : World)
    : list (result error (option Z)) * World :=
  match cs with
  | [] => ([], w)
  | c :: cs' =>
    let '(a, w1) := run_command key c w in
    let '(l, w2) := pipe_replies key cs' w1 in (a :: l, w2)
  end.

(** The error of a pipeline is the first error of its commands. *)
Fixpoint cmdsFirstErr {A} (rs : list (result error A)) : result error (list A) :=
  match rs with
  | [] => Ok []
  | Err e :: _ => Err e
  | Ok a :: rs' =>
    match cmdsFirstErr rs' with Ok l => Ok (a :: l) | Err e => Err e end
  end.

Definition pipe_Exec (key : string) (cs : list command) : M (list (option Z)) := λ w,
  ((cmdsFirstErr (pipe_replies key cs w).1), (pipe_replies key cs w).2).

(** ** What a pipeline preserves *)

(** The keys other than [k] are as they were, from now on. *)
Definition leaves_others (k : string) : relation World := λ w w',
  tick_grows w w' ∧
  ∀ k' t, k' ≠ k → w_now w' <= t → redis_view (w_redis w') t k' = redis_view (w_redis w) t k'.

Lemma preserves_pipe_Exec (R : relation World) `{!PreOrder R} key cs :
  Forall (λ c : command, preserves R (redis_call c.1 key c.2)) cs → preserves R (pipe_Exec key cs).
Proof.
  intros Hcs w. simpl. revert w. induction Hcs as [|c cs Hc _ IH]; intros w; simpl; [reflexivity|].
  assert (preserves R (run_command key c)) as Hrun.
  { unfold run_command. apply (preserves_bind R); [done|].
    intros [a|e]; [by apply preserves_ret|by apply preserves_fail]. }
  specialize (Hrun w). destruct (run_command key c w) as [a w1]. specialize (IH w1).
  destruct (pipe_replies key cs w1) as [l w2]. simpl in *. by etrans.
Qed.

Lemma pipe_Exec_frame key cs :
  preserves same_db (pipe_Exec key cs) ∧ preserves same_tx (pipe_Exec key cs) ∧
  preserves tick_grows (pipe_Exec key cs).
Proof.
  split_and!; apply (preserves_pipe_Exec _); apply Forall_true; auto with bank.
Qed.

Lemma run_command_run key c w :
  no_faults →
  run_command key c w =
    (match (c.2 (w_now w) (w_redis w)).1 with Ok a => Ok a | Err e => Err (ErrDriver e) end,
     set_redis (c.2 (w_now w) (w_redis w)).2 (emit (EvRedis c.1 key) w)).
Proof.
  intros Hnf. unfold run_command, mbind, M_bind. rewrite redis_call_run by done.
  by destruct (c.2 _ _) as [[a|e] r'].
Qed.

Lemma run_command_tick key c w : w_tick (run_command key c w).2 = S (w_tick w).
Proof.
  unfold run_command, mbind, M_bind, redis_call. destruct (c.2 _ _) as [[a|e] r'].
  all: by destruct (env_fault (w_tick w)) as [[]|].
Qed.

(** A call of a pipeline that fails fails the pipeline. *)
Lemma pipe_Exec_fault key cs k w :
  (k < length cs)%nat → env_fault (k + w_tick w) ≠ None → is_ok (pipe_Exec key cs w).1 = false.
Proof.
  simpl. revert k w. induction cs as [|c cs IH]; intros k w Hk Hf; simpl in *; [lia|].
  pose proof (run_command_tick key c w) as Ht. destruct (run_command key c w) as [a w1] eqn:Hc. simpl in Ht.
  specialize (IH (pred k) w1). destruct (pipe_replies key cs w1) as [l w2]. simpl in *.
  destruct k as [|k]; simpl in *.
  - destruct a as [a|e]; [|done]. exfalso. apply bind_ok in Hc as (x & w3 & Hc & _).
    unfold redis_call in Hc. destruct (c.2 _ _), (env_fault (w_tick w)) as [[]|]; done.
  - destruct a as [a|e]; [|done]. rewrite Ht, Nat.add_succ_r in IH.
    specialize (IH ltac:(lia) Hf). by destruct (cmdsFirstErr l).
Qed.

(** ** A sorted set with a deadline *)

(** Before the deadline, if there is one. *)
Definition alive (d : option Z) (t : Z) : bool := match d with Some D => t <? D | None => true end.

(** From [t] on, [key] holds the sorted set [z], until the deadline [d]. *)
Definition key_state (r : redis) (key : string) (t : Z) (z : gmap string Z) (d : option Z) : Prop :=
  ∀ t', t <= t' → redis_view r t' key = if alive d t' then zset_val z else None.

(** The deadline has not passed, and an empty set has none. *)
Definition tidy (z : gmap string Z) (d : option Z) (t : Z) : Prop :=
  alive d t = true ∧ (z = ∅ → d = None).

Lemma zset_val_set z : match zset_val z with Some (RZSet z) => z | _ => ∅ end = z.
Proof. unfold zset_val. by case_decide. Qed.

Lemma zset_val_some z : z ≠ ∅ → zset_val z = Some (RZSet z).
Proof. intros Hz. unfold zset_val. by case_decide. Qed.

Lemma zset_val_right z : ¬ wrong_type (zset_val z).
Proof. intros [s Hs]. unfold zset_val in Hs. by case_decide. Qed.

Lemma zset_update_val f z : f ∅ = ∅ → zset_update f (zset_val z) = zset_val (f z).
Proof. intros Hf. unfold zset_val at 1. case_decide as Hz; [|done]. by rewrite Hz, Hf. Qed.

(** The deadline of a set that may have become empty. *)
Definition deadline (z : gmap string Z) (d : option Z) : option Z := if decide (z = ∅) then None else d.

Lemma key_state_later r key t t1 z d : key_state r key t z d → t <= t1 → key_state r key t1 z d.
Proof. intros Hk Ht t' Ht'. apply Hk. lia. Qed.

Lemma key_state_right r key t z d : key_state r key t z d → ¬ wrong_type (redis_view r t key).
Proof. intros Hk. rewrite Hk by lia. destruct (alive d t); [apply zset_val_right|by intros []]. Qed.

Lemma key_state_absent r key t :
  (∀ t', t <= t' → redis_view r t' key = None) ↔ key_state r key t ∅ None.
Proof. done. Qed.

(** A set that is empty has lost its deadline. *)
Lemma key_state_deadline r key t z d : key_state r key t z d → key_state r key t z (deadline z d).
Proof.
  intros Hk t' Ht'. rewrite Hk by done. unfold deadline. case_decide as Hz; [|done].
  subst z. simpl. by destruct (alive d t').
Qed.

(** At any later time either the members are as they were, or the deadline has
    passed and the key is gone. *)
Lemma key_state_tidy r key t t1 z d :
  key_state r key t z d → t <= t1 →
  (alive d t1 = true ∧ key_state r key t1 z (deadline z d) ∧ tidy z (deadline z d) t1) ∨
  (∃ D, d = Some D ∧ D <= t1 ∧ key_state r key t1 ∅ None).
Proof.
  intros Hk Ht. destruct (alive d t1) eqn:Ha.
  - left. split; [done|]. split; [by eapply key_state_deadline, key_state_later|].
    unfold tidy, deadline. by case_decide.
  - right. destruct d as [D|]; [|done]. simpl in Ha. exists D. split; [done|]. split; [lia|].
    intros t' Ht'. rewrite Hk by lia. simpl. by destruct (Z.ltb_spec t' D); [lia|].
Qed.

Section laws.
Context `{!RedisLaws}.

Lemma key_state_trim r key t z d max :
  key_state r key t z d →
  key_state (redis_ZREMRANGEBYSCORE t key max r) key t (filter (λ p, max < p.2) z)
    (deadline (filter (λ p, max < p.2) z) d).
Proof.
  intros Hk. apply key_state_deadline. intros t' Ht'.
  rewrite ZREMRANGEBYSCORE_view by done. rewrite decide_True by done. rewrite Hk by done.
  destruct (alive d t'); [|done]. apply zset_update_val, map_filter_empty.
Qed.

Lemma key_state_card r key t z d :
  key_state r key t z d → alive d t = true → redis_ZCARD t key r = Z.of_nat (size z).
Proof.
  intros Hk Ha. rewrite ZCARD_reply. unfold zset_view. rewrite Hk by lia. by rewrite Ha, zset_val_set.
Qed.

Lemma key_state_add r key t z d m s :
  key_state r key t z d → tidy z d t → key_state (redis_ZADD t key m s r) key t (<[m := s]> z) d.
Proof.
  intros Hk [Ha Hz] t' Ht'. rewrite ZADD_view by (try done; by eapply key_state_right).
  rewrite decide_True by done. rewrite !Hk by lia. rewrite Ha. destruct (decide (z = ∅)) as [->|Hne].
  - rewrite (Hz eq_refl). simpl. rewrite decide_True by done. rewrite insert_empty. by rewrite zset_val_some
      by apply map_non_empty_singleton.
  - rewrite (zset_val_some z) by done. rewrite decide_False by done.
    by destruct (alive d t').
Qed.

Lemma key_state_expire r key t z d ttl :
  0 < ttl → key_state r key t z d → alive d t = true →
  key_state (redis_EXPIRE t key ttl r) key t z (Some (t + ex ttl)).
Proof.
  intros Httl Hk Ha t' Ht'. rewrite EXPIRE_view by done. rewrite decide_True by done.
  rewrite Hk by lia. by rewrite Ha.
Qed.

Lemma key_state_rem r key t z d m :
  key_state r key t z d →
  key_state (redis_ZREM t key m r) key t (delete m z) (deadline (delete m z) d).
Proof.
  intros Hk. apply key_state_deadline. intros t' Ht'.
  rewrite ZREM_view by done. rewrite decide_True by done. rewrite Hk by done.
  destruct (alive d t'); [|done]. apply zset_update_val, delete_empty.
Qed.

(** A command that changes its key only, as a call. *)
Lemma leaves_others_call {A} cmd key (c : Z → redis → A * redis) :
  (∀ t r k' t', k' ≠ key → t <= t' → redis_view (c t r).2 t' k' = redis_view r t' k') →
  EnvLaws → preserves (leaves_others key) (redis_call cmd key c).
Proof.
  intros Hc HE w. pose proof (redis_call_tick cmd key c w) as Ht. split; [done|]. intros k' t Hk Hnow.
  apply env_now_mono in Ht. specialize (Hc (w_now w) (w_redis w) k' t Hk). unfold redis_call in *.
  destruct (c _ _) as [a r'], (env_fault (w_tick w)) as [[]|]; simpl in *; try done;
    apply Hc; unfold w_now in *; simpl in *; lia.
Qed.

Lemma zset_command_others key f :
  (∀ t r k' t', ¬ wrong_type (redis_view r t key) → k' ≠ key → t <= t' →
    redis_view (f t r).2 t' k' = redis_view r t' k') →
  ∀ t r k' t', k' ≠ key → t <= t' → redis_view (zset_command key f t r).2 t' k' = redis_view r t' k'.
Proof.
  intros Hf t r k' t' Hk Ht. specialize (Hf t r k' t'). unfold zset_command. destruct (f t r) as [a r'].
  destruct (redis_view r t key) as [[s|z]|]; [done|..]; apply Hf; try done; by intros [].
Qed.

(** On a key without a string a sorted-set command runs. *)
Lemma zset_command_runs key f t r :
  ¬ wrong_type (redis_view r t key) → zset_command key f t r = (Ok (f t r).1, (f t r).2).
Proof.
  intros Hw. unfold zset_command. destruct (f t r).
  destruct (redis_view r t key) as [[s|]|]; [|done..]. destruct Hw. by exists s.
Qed.

End laws.

End pipeline.

Arguments command {_}.

#[global] Instance leaves_others_preorder `{EnvLaws} `{DecimalLib} `{RedisServer} k : PreOrder (leaves_others k).
Proof.
  split.
  - intros w. by split; [unfold tick_grows|].
  - intros w1 w2 w3 [H12 Hv12] [H23 Hv23]. split; [by etrans|]. intros k' t Hk Ht.
    rewrite Hv23 by done. apply Hv12; [done|]. apply env_now_mono in H23. unfold w_now in *. lia.
Qed.
