(* ===== verification/Store.v ===== *)
(** * Store: the data-access layer ([internal/store/store.go])

    One definition per method of [Store], with its error wrapping; the SQL text
    of each method is the statement it passes to [db_query] or [db_exec]. *)

From S2P Require Import Prelude Platform Errs Model Database GoM.
#[local] Open Scope Z_scope.

Section store.
Context `{UuidLib} `{DecimalLib} `{RedisServer} `{!Env}.

(** [if err == sql.ErrNoRows { return absent }; return fmt.Errorf(prefix, err)] *)
Definition no_rows (absent : error) (prefix : string) (e : error) : error :=
  if decide (e = ErrDriver ErrNoRows) then absent else Errorf prefix e.

(** A query that returns one row: [sql.ErrNoRows] when there is none. *)
Definition one_row {A} (o : option A) : result driver_error A :=
  match o with Some a => Ok a | None => Err ErrNoRows end.

(** The rows of a query with no ORDER BY, in the order the server returns them. *)
Definition db_scan {A} (ev : event) (q : (∀ B, list B → list B) → DB → result driver_error A) : M A :=
  λ w, db_query ev (q (env_scan (w_tick w))) w.

(** ** Transactions *)

(** [WithTx]: begin, run [fn], roll back if it fails, commit otherwise. *)
Definition WithTx {A} (fn : M A) : M A := λ w,
  match wrap "begin tx: " tx_begin w with
  | (Err e, w1) => (Err e, w1)
  | (Ok _, w1) =>
    match fn w1 with
    | (Err e, w2) => (Err e, (tx_rollback w2).2)
    | (Ok a, w2) =>
      match wrap "commit tx: " tx_commit w2 with
      | (Err e, w3) => (Err e, w3)
      | (Ok _, w3) => (Ok a, w3)
      end
    end
  end.

Definition GetAccountForUpdate (accountID : UUID) : M Account :=
  map_err (no_rows (ErrSentinel ErrAccountNotFound) "get account for update: ")
    (db_query (EvLockAccount accountID) (λ db, one_row (accounts db !! accountID))).

Definition GetBalance (accountID : UUID) : M Decimal :=
  wrap "get balance: "
    (db_query (EvSelectBalance accountID) (λ db, Ok (dec_of_units (balance accountID db)))).

Definition CreateTransaction (t : Transaction) : M unit :=
  wrap "create transaction: "
    (db_exec (EvInsertTransaction (Transaction_ID t)) (λ now db, insert_transaction now t db)).

Definition UpdateTransactionStatus (txnID : UUID) (status : TransactionStatus) : M unit :=
  rows ← wrap "update transaction status: "
    (db_call (EvUpdateTransaction txnID)
      (λ now db, Ok (update_transaction_status now status txnID db)));
  if rows =? 0
  then fail (ErrText ("transaction " ++ uuid_String txnID ++ " not found"))
  else mret ().

Definition InsertLedgerEntry (entry : LedgerEntry) : M unit :=
  wrap "insert ledger entry: "
    (db_exec (EvInsertLedger (LedgerEntry_AccountID entry) (LedgerEntry_EntryType entry))
      (λ now db, insert_ledger now entry db)).

(** ** Users *)

(** The row of the [users] table with a given unique column value. *)
Definition find_user (P : User → Prop) `{!∀ u, Decision (P u)} (db : DB) : option User :=
  head (filter P (map_to_list (users db)).*2).

Definition GetUserByUsername (username : string) : M User :=
  map_err (no_rows (ErrText "user not found") "get user by username: ")
    (db_query (EvSelect "users")
      (λ db, one_row (find_user (λ u, User_Username u = username) db))).

Definition GetUserByEmail (email : string) : M User :=
  map_err (no_rows (ErrText "user not found") "get user by email: ")
    (db_query (EvSelect "users") (λ db, one_row (find_user (λ u, User_Email u = email) db))).

Definition IsFirstUser : M bool :=
  count ← wrap "count users: "
    (db_query (EvSelect "users") (λ db, Ok (Z.of_nat (size (users db)))));
  mret (count =? 0).

Definition CreateUser (u : User) : M unit :=
  wrap "create user: " (db_exec (EvInsertUser (User_ID u)) (λ now db, insert_user now u db)).

(** ** Accounts *)

Definition CreateAccount (a : Account) : M unit :=
  wrap "create account: "
    (db_exec (EvInsertAccount (Account_ID a)) (λ now db, insert_account now a db)).

Definition accounts_of (userID : UUID) (db : DB) : list Account :=
  filter (λ a, Account_UserID a = userID) (map_to_list (accounts db)).*2.

Definition GetAccountByUserID (userID : UUID) : M Account :=
  map_err (no_rows (ErrSentinel ErrAccountNotFound) "get account by user: ")
    (db_scan (EvSelect "accounts")
      (λ scan db, one_row (head (scan _
        (filter (λ a, Account_Status a = AccountStatusActive) (accounts_of userID db)))))).

(** [ORDER BY created_at ASC]. *)
Definition created_before (a b : Account) : Prop := Account_CreatedAt a <= Account_CreatedAt b.
#[global] Instance created_before_dec : RelDecision created_before.
Proof. intros a b. unfold created_before. apply _. Defined.

Definition GetAccountsByUserID (userID : UUID) : M (list Account) :=
  wrap "get accounts by user: "
    (db_scan (EvSelect "accounts")
      (λ scan db, Ok (merge_sort created_before (scan _ (accounts_of userID db))))).

Definition GetBalanceReadOnly (accountID : UUID) : M Decimal :=
  wrap "get balance read-only: "
    (db_query (EvSelectBalance accountID) (λ db, Ok (dec_of_units (balance accountID db)))).

(** ** Transaction history *)

(** [WHERE from_account_id = $1 OR to_account_id = $1]. *)
Definition history_rows (accountID : UUID) (db : DB) : list TxnRow :=
  filter (λ t, txn_from_account_id t = accountID ∨ txn_to_account_id t = accountID)
    (map_to_list (transactions db)).*2.

(** [ORDER BY created_at DESC]. *)
Definition created_after (t u : TxnRow) : Prop := txn_created_at u <= txn_created_at t.
#[global] Instance created_after_dec : RelDecision created_after.
Proof. intros t u. unfold created_after. apply _. Defined.

Definition history_item (accountID : UUID) (t : TxnRow) : TransactionHistoryItem :=
  mkHistoryItem (txn_id t) (txn_from_account_id t) (txn_to_account_id t)
    (dec_of_units (txn_amount t)) (txn_status t) (txn_idempotency_key t)
    (txn_created_at t) (txn_updated_at t)
    (if decide (txn_from_account_id t = accountID) then Sent else Received).

(** [LIMIT $2 OFFSET $3]; PostgreSQL refuses a negative one. *)
Definition limit_offset {A} (limit offset : Z) (l : list A) : result driver_error (list A) :=
  if (limit <? 0) || (offset <? 0) then Err NegativeOffset
  else Ok (take (Z.to_nat limit) (drop (Z.to_nat offset) l)).

Definition GetTransactionHistory (accountID : UUID) (limit offset : Z)
    : M (list TransactionHistoryItem * Z) :=
  total ← wrap "count transactions: "
    (db_query (EvSelect "transactions")
      (λ db, Ok (Z.of_nat (length (history_rows accountID db)))));
  items ← wrap "get transaction history: "
    (db_scan (EvSelect "transactions")
      (λ scan db, limit_offset limit offset
        (history_item accountID <$>
          merge_sort created_after (scan _ (history_rows accountID db)))));
  mret (items, total).

(** The error of a commit whose reply was lost, or that did not take place. *)
Definition commit_lost : error := Errorf "commit tx: " (ErrDriver ConnFailure).

(** ** What the methods return and change *)

Lemma db_scan_db {A} ev q : preserves same_db (db_scan (A := A) ev q).
Proof. intros w. apply db_query_db. Qed.
Lemma db_scan_tx {A} ev q : preserves same_tx (db_scan (A := A) ev q).
Proof. intros w. apply db_query_tx. Qed.

Lemma GetAccountForUpdate_ok id w a w' :
  GetAccountForUpdate id w = (Ok a, w') →
  accounts (w_db w) !! id = Some a ∧ w' = emit (EvLockAccount id) w.
Proof.
  intros [Hq ->]%map_err_ok%db_query_ok. unfold one_row in Hq. by case_match; simplify_eq.
Qed.

Lemma GetAccountForUpdate_run id w :
  no_faults →
  GetAccountForUpdate id w =
    (match accounts (w_db w) !! id with
     | Some a => Ok a
     | None => Err (ErrSentinel ErrAccountNotFound)
     end, emit (EvLockAccount id) w).
Proof.
  intros Hnf. unfold GetAccountForUpdate, map_err. rewrite db_query_run by done.
  unfold one_row. by destruct (accounts (w_db w) !! id).
Qed.

Lemma GetBalance_ok id w d w' :
  GetBalance id w = (Ok d, w') →
  d = dec_of_units (balance id (w_db w)) ∧ w' = emit (EvSelectBalance id) w.
Proof. intros [Hq ->]%wrap_ok%db_query_ok. by simplify_eq. Qed.

Lemma GetBalance_run id w :
  no_faults →
  GetBalance id w = (Ok (dec_of_units (balance id (w_db w))), emit (EvSelectBalance id) w).
Proof. intros Hnf. unfold GetBalance, wrap, map_err. by rewrite db_query_run. Qed.

Lemma CreateTransaction_ok t w w' :
  CreateTransaction t w = (Ok (), w') →
  ∃ db', insert_transaction (pg_now w) t (w_db w) = Ok db' ∧
    w' = set_db db' (emit (EvInsertTransaction (Transaction_ID t)) w).
Proof. intros Hr%wrap_ok%db_exec_ok. done. Qed.

Lemma CreateTransaction_run t w :
  no_faults →
  CreateTransaction t w =
    match insert_transaction (pg_now w) t (w_db w) with
    | Ok db' => (Ok (), set_db db' (emit (EvInsertTransaction (Transaction_ID t)) w))
    | Err e => (Err (Errorf "create transaction: " (ErrDriver e)),
                emit (EvInsertTransaction (Transaction_ID t)) w)
    end.
Proof.
  intros Hnf. unfold CreateTransaction, wrap, map_err. rewrite db_exec_run by done.
  by destruct (insert_transaction _ _ _).
Qed.

Lemma InsertLedgerEntry_ok e w w' :
  InsertLedgerEntry e w = (Ok (), w') →
  ∃ db', insert_ledger (pg_now w) e (w_db w) = Ok db' ∧
    w' = set_db db' (emit (EvInsertLedger (LedgerEntry_AccountID e) (LedgerEntry_EntryType e)) w).
Proof. intros Hr%wrap_ok%db_exec_ok. done. Qed.

Lemma InsertLedgerEntry_run e w :
  no_faults →
  InsertLedgerEntry e w =
    match insert_ledger (pg_now w) e (w_db w) with
    | Ok db' => (Ok (), set_db db'
        (emit (EvInsertLedger (LedgerEntry_AccountID e) (LedgerEntry_EntryType e)) w))
    | Err e' => (Err (Errorf "insert ledger entry: " (ErrDriver e')),
        emit (EvInsertLedger (LedgerEntry_AccountID e) (LedgerEntry_EntryType e)) w)
    end.
Proof.
  intros Hnf. unfold InsertLedgerEntry, wrap, map_err. rewrite db_exec_run by done.
  by destruct (insert_ledger _ _ _).
Qed.

(** The update of an existing row. *)
Lemma UpdateTransactionStatus_ok id status w w' :
  UpdateTransactionStatus id status w = (Ok (), w') →
  is_Some (transactions (w_db w) !! id) ∧
  w' = set_db (update_transaction_status (pg_now w) status id (w_db w)).2
         (emit (EvUpdateTransaction id) w).
Proof.
  unfold UpdateTransactionStatus. intros (rows & w1 & Hc & Hr)%bind_ok.
  apply wrap_ok, db_call_ok in Hc as (_ & db' & Hq & ->).
  unfold update_transaction_status in *.
  destruct (transactions (w_db w) !! id); simplify_eq/=.
  apply ret_ok in Hr as [_ <-]. eauto.
Qed.

Lemma UpdateTransactionStatus_run id status w :
  no_faults → is_Some (transactions (w_db w) !! id) →
  UpdateTransactionStatus id status w =
    (Ok (), set_db (update_transaction_status (pg_now w) status id (w_db w)).2
              (emit (EvUpdateTransaction id) w)).
Proof.
  intros Hnf [t Ht]. unfold UpdateTransactionStatus, mbind, M_bind, wrap, map_err.
  rewrite db_call_run by done. unfold update_transaction_status. by rewrite Ht.
Qed.

(** Reading a locked account again finds it. *)
Lemma wrap_lock_run {B} p id a w (k : Account → M B) :
  no_faults → accounts (w_db w) !! id = Some a →
  (wrap p (GetAccountForUpdate id) ≫= k) w = k a (emit (EvLockAccount id) w).
Proof.
  intros Hnf Ha. apply bind_run_ok, map_err_run_ok. rewrite GetAccountForUpdate_run by done.
  by rewrite Ha.
Qed.

Lemma lock_run {B} id w (k : Account → M B) :
  no_faults →
  (GetAccountForUpdate id ≫= k) w =
    match accounts (w_db w) !! id with
    | Some a => k a (emit (EvLockAccount id) w)
    | None => (Err (ErrSentinel ErrAccountNotFound), emit (EvLockAccount id) w)
    end.
Proof.
  intros Hnf. unfold mbind, M_bind. rewrite GetAccountForUpdate_run by done.
  by destruct (accounts (w_db w) !! id).
Qed.

Lemma store_preserves_redis :
  (∀ id, preserves same_redis (GetAccountForUpdate id)) ∧
  (∀ id, preserves same_redis (GetBalance id)) ∧
  (∀ t, preserves same_redis (CreateTransaction t)) ∧
  (∀ e, preserves same_redis (InsertLedgerEntry e)) ∧
  (∀ id s, preserves same_redis (UpdateTransactionStatus id s)).
Proof.
  unfold GetAccountForUpdate, GetBalance, CreateTransaction, InsertLedgerEntry,
    UpdateTransactionStatus.
  split_and!; intros; solve_preserves.
Qed.

Lemma store_preserves_tx :
  (∀ id, preserves same_tx (GetAccountForUpdate id)) ∧
  (∀ id, preserves same_tx (GetBalance id)) ∧
  (∀ t, preserves same_tx (CreateTransaction t)) ∧
  (∀ e, preserves same_tx (InsertLedgerEntry e)) ∧
  (∀ id s, preserves same_tx (UpdateTransactionStatus id s)).
Proof.
  unfold GetAccountForUpdate, GetBalance, CreateTransaction, InsertLedgerEntry,
    UpdateTransactionStatus.
  split_and!; intros; solve_preserves.
Qed.

Lemma store_preserves_tick :
  (∀ id, preserves tick_grows (GetAccountForUpdate id)) ∧
  (∀ id, preserves tick_grows (GetBalance id)) ∧
  (∀ t, preserves tick_grows (CreateTransaction t)) ∧
  (∀ e, preserves tick_grows (InsertLedgerEntry e)) ∧
  (∀ id s, preserves tick_grows (UpdateTransactionStatus id s)).
Proof.
  unfold GetAccountForUpdate, GetBalance, CreateTransaction, InsertLedgerEntry,
    UpdateTransactionStatus.
  split_and!; intros; solve_preserves.
Qed.

(** Each method is one statement on the wire. *)
Lemma store_emits :
  (∀ id, emits [EvLockAccount id] (GetAccountForUpdate id)) ∧
  (∀ id, emits [EvSelectBalance id] (GetBalance id)) ∧
  (∀ t, emits [EvInsertTransaction (Transaction_ID t)] (CreateTransaction t)) ∧
  (∀ e, emits [EvInsertLedger (LedgerEntry_AccountID e) (LedgerEntry_EntryType e)]
          (InsertLedgerEntry e)) ∧
  (∀ id s, emits [EvUpdateTransaction id] (UpdateTransactionStatus id s)).
Proof.
  split_and!; intros; try by apply emits_map_err, emits_db_call.
  apply (emits_bind [_] []); [by apply emits_map_err, emits_db_call|].
  intros a. case_match; [apply emits_fail|apply emits_ret].
Qed.

(** ** WithTx is all or nothing *)

(** The three ways a transaction ends, whatever fails: the tables are those
    from before, with an error; or [fn] succeeded on them and its tables are
    kept, with its value or with the error of a commit whose reply was lost. *)
Lemma WithTx_cases {A} (fn : M A) w r w' :
  preserves same_tx fn → w_tx w = None →
  WithTx fn w = (r, w') →
  w_tx w' = None ∧
  ((∃ e, r = Err e ∧ w_db w' = w_db w) ∨
   (∃ a w2, fn (set_tx (Some (w_db w, w_now w)) (emit EvBegin w)) = (Ok a, w2) ∧
      w_db w' = w_db w2 ∧
      (r = Ok a ∨
       r = Err commit_lost ∧
         env_fault (w_tick w2) = Some FaultApplied))).
Proof.
  intros Hfn Htx. unfold WithTx, wrap, map_err, tx_begin.
  destruct (env_fault (w_tick w)) eqn:Hb; [intros; simplify_eq/=; eauto|].
  specialize (Hfn (set_tx (Some (w_db w, w_now w)) (emit EvBegin w))).
  destruct (fn _) as [[a|e] w2]; unfold same_tx in Hfn; simpl in Hfn.
  - unfold tx_commit.
    destruct (env_fault (w_tick w2)) as [[]|] eqn:Hc; intros; simplify_eq/=.
    + unfold tx_restore; simpl. rewrite Hfn. simpl. eauto.
    + split; [done|]. right. exists a, w2. eauto.
    + split; [done|]. right. exists a, w2. eauto.
  - unfold tx_rollback, tx_restore; simpl. rewrite Hfn; simpl.
    intros; simplify_eq/=. eauto.
Qed.

Lemma tx_restore_redis w : w_redis (tx_restore w) = w_redis w.
Proof. unfold tx_restore. by destruct (w_tx w) as [[]|]. Qed.
Lemma tx_restore_tick w : w_tick (tx_restore w) = w_tick w.
Proof. unfold tx_restore. by destruct (w_tx w) as [[]|]. Qed.
Lemma tx_restore_trace w : w_trace (tx_restore w) = w_trace w.
Proof. unfold tx_restore. by destruct (w_tx w) as [[]|]. Qed.

Lemma WithTx_redis {A} (fn : M A) :
  preserves same_redis fn → preserves same_redis (WithTx fn).
Proof.
  intros Hfn w. unfold WithTx, wrap, map_err, tx_begin, same_redis.
  destruct (env_fault (w_tick w)); [done|].
  specialize (Hfn (set_tx (Some (w_db w, w_now w)) (emit EvBegin w))).
  unfold same_redis in Hfn; simpl in Hfn.
  destruct (fn _) as [[a|e] w2]; simpl in *.
  - unfold tx_commit. by destruct (env_fault (w_tick w2)) as [[]|]; simpl;
      rewrite ?tx_restore_redis.
  - by rewrite tx_restore_redis.
Qed.

Lemma WithTx_tick {A} (fn : M A) :
  preserves tick_grows fn → preserves tick_grows (WithTx fn).
Proof.
  intros Hfn w. unfold WithTx, wrap, map_err, tx_begin, tick_grows.
  destruct (env_fault (w_tick w)); [simpl; lia|].
  specialize (Hfn (set_tx (Some (w_db w, w_now w)) (emit EvBegin w))).
  unfold tick_grows in Hfn; simpl in Hfn.
  destruct (fn _) as [[a|e] w2]; simpl in *.
  - unfold tx_commit. destruct (env_fault (w_tick w2)) as [[]|]; simpl;
      rewrite ?tx_restore_tick; simpl; lia.
  - rewrite tx_restore_tick; simpl; lia.
Qed.

(** BEGIN, the statements of [fn], and COMMIT; or BEGIN, some of the statements,
    and ROLLBACK; or BEGIN alone. *)
Lemma WithTx_trace {A} (fn : M A) evs w :
  emits evs fn →
  ∃ tl, w_trace (WithTx fn w).2 = w_trace w ++ EvBegin :: tl ∧
    (tl = [] ∨ tl = evs ++ [EvCommit] ∨ ∃ k, tl = take k evs ++ [EvRollback]) ∧
    (is_ok (WithTx fn w).1 = true → tl = evs ++ [EvCommit]).
Proof.
  intros Hfn. unfold WithTx, wrap, map_err, tx_begin.
  destruct (env_fault (w_tick w)); [exists []; naive_solver|].
  specialize (Hfn (set_tx (Some (w_db w, w_now w)) (emit EvBegin w))). simpl in Hfn.
  destruct (fn _) as [[a|e] w2]; simpl in *.
  - exists (evs ++ [EvCommit]). unfold tx_commit.
    destruct (env_fault (w_tick w2)) as [[]|]; simpl; rewrite ?tx_restore_trace; simpl;
      rewrite Hfn, <-!app_assoc; naive_solver.
  - destruct Hfn as [k Hk]. exists (take k evs ++ [EvRollback]).
    rewrite tx_restore_trace; simpl. rewrite Hk, <-!app_assoc. naive_solver.
Qed.

Lemma WithTx_run {A} (fn : M A) w :
  no_faults → preserves same_tx fn → w_tx w = None →
  WithTx fn w =
    match fn (set_tx (Some (w_db w, w_now w)) (emit EvBegin w)) with
    | (Ok a, w2) => (Ok a, set_tx None (emit EvCommit w2))
    | (Err e, w2) => (Err e, set_tx None (set_db (w_db w) (emit EvRollback w2)))
    end.
Proof.
  intros Hnf Hfn Htx. unfold WithTx, wrap, map_err, tx_begin. rewrite Hnf.
  specialize (Hfn (set_tx (Some (w_db w, w_now w)) (emit EvBegin w))).
  unfold same_tx in Hfn; simpl in Hfn.
  destruct (fn _) as [[a|e] w2]; simpl in Hfn.
  - unfold tx_commit. by rewrite Hnf.
  - unfold tx_rollback, tx_restore. simpl. by rewrite Hfn.
Qed.

End store.

#[export] Hint Resolve db_scan_db db_scan_tx : bank.

