(* ===== verification/Books.v ===== *)
(** * Books: the bookkeeping contract of the ledger

    What a completed transfer and a completed funding do to the tables, as
    relations between the tables before and after; the invariant of the books
    (every completed transaction is posted exactly once, no account is
    overdrawn); and the abstract bank the services implement: a status and a
    balance per account, and the set of idempotency keys already processed. *)

From S2P Require Import Prelude Platform Errs Model Database.
#[local] Open Scope Z_scope.

Section books.
Context `{UuidLib} `{DecimalLib}.

(** ** Postings *)

(** One Completed transaction row, one Debit row and one Credit row. *)
Definition post_transfer (from to key txnID debitID creditID : UUID) (n now : Z) (db : DB) : DB :=
  set_ledger (λ l, l ++
      [mkLedgerRow debitID from txnID n EntryTypeDebit now;
       mkLedgerRow creditID to txnID n EntryTypeCredit now])
    (set_transactions
      (<[txnID := mkTxnRow txnID from to n TxnStatusCompleted key now now]>) db).

(** One Completed transaction row and a single Credit row. *)
Definition post_funding (system to key txnID creditID : UUID) (n now : Z) (db : DB) : DB :=
  set_ledger (λ l, l ++ [mkLedgerRow creditID to txnID n EntryTypeCredit now])
    (set_transactions
      (<[txnID := mkTxnRow txnID system to n TxnStatusCompleted key now now]>) db).

Definition active (id : UUID) (db : DB) : Prop :=
  ∃ a, accounts db !! id = Some a ∧ Account_Status a = AccountStatusActive.

(** A committed transfer of [n] units. *)
Definition transfer_step (from to key txnID : UUID) (n : Z) (db db' : DB) : Prop :=
  from ≠ to ∧ active from db ∧ active to db ∧
  0 < n < numeric_18_4_bound ∧ n <= balance from db ∧
  transactions db !! txnID = None ∧ ¬ key_used key db ∧
  ∃ debitID creditID now,
    debitID ≠ creditID ∧
    ¬ (debitID ∈ (led_id <$> ledger db)) ∧ ¬ (creditID ∈ (led_id <$> ledger db)) ∧
    db' = post_transfer from to key txnID debitID creditID n now db.

(** A committed funding of [n] units. *)
Definition funding_step (system to txnID : UUID) (n : Z) (db db' : DB) : Prop :=
  system ≠ to ∧ is_Some (accounts db !! system) ∧ active to db ∧
  0 < n < numeric_18_4_bound ∧ transactions db !! txnID = None ∧
  ∃ key creditID now,
    ¬ key_used key db ∧ ¬ (creditID ∈ (led_id <$> ledger db)) ∧
    db' = post_funding system to key txnID creditID n now db.

(** ** The invariant of the books *)

Definition entries_of (txnID : UUID) (db : DB) : list LedgerRow :=
  filter (λ l, led_transaction_id l = txnID) (ledger db).

(** [row_is l account n ty]: what [l] records, its id and time aside. *)
Definition row_is (l : LedgerRow) (account : UUID) (n : Z) (ty : EntryType) : Prop :=
  led_account_id l = account ∧ led_amount l = n ∧ led_entry_type l = ty.

(** The ledger rows of a transaction: a debit of the sender and a credit of
    the receiver, or the single credit of a funding. *)
Inductive posted (t : TxnRow) : list LedgerRow → Prop :=
| posted_transfer d c :
    row_is d (txn_from_account_id t) (txn_amount t) EntryTypeDebit →
    row_is c (txn_to_account_id t) (txn_amount t) EntryTypeCredit →
    posted t [d; c]
| posted_funding c :
    row_is c (txn_to_account_id t) (txn_amount t) EntryTypeCredit →
    posted t [c].

Record books (db : DB) : Prop := {
  books_wf : db_wf db;
  books_posted : map_Forall (λ id t,
    txn_status t = TxnStatusCompleted ∧ posted t (entries_of id db)) (transactions db);
  books_solvent : ∀ id, 0 <= balance id db
}.

(** Adding a transaction row with its ledger rows. *)
Definition post (t : TxnRow) (ls : list LedgerRow) (db : DB) : DB :=
  set_ledger (λ l, l ++ ls) (set_transactions (<[txn_id t := t]>) db).

(** The rows of [post t ls] are what the schema and the books ask for. *)
Record postable (t : TxnRow) (ls : list LedgerRow) (db : DB) : Prop := {
  post_row : txn_row_ok db (txn_id t) t;
  post_fresh : transactions db !! txn_id t = None;
  post_key : ¬ key_used (txn_idempotency_key t) db;
  post_status : txn_status t = TxnStatusCompleted;
  post_entries : Forall (λ l, led_transaction_id l = txn_id t ∧ amount_ok (led_amount l) ∧
    is_Some (accounts db !! led_account_id l)) ls;
  post_ids : NoDup (led_id <$> ls);
  post_fresh_ids : Forall (λ i, ¬ (i ∈ (led_id <$> ledger db))) (led_id <$> ls);
  post_shape : posted t ls
}.

(** The empty books. *)
Definition empty_db : DB := mkDB ∅ ∅ ∅ [].

(** ** The abstract bank *)

Record Bank := mkBank {
  bank_status : UUID → option AccountStatus;
  bank_balance : UUID → Z;
  bank_key_used : UUID → bool
}.

(** Banks are compared pointwise. *)
#[global] Instance bank_equiv : Equiv Bank := λ b1 b2,
  (∀ id, bank_status b1 id = bank_status b2 id) ∧
  (∀ id, bank_balance b1 id = bank_balance b2 id) ∧
  (∀ k, bank_key_used b1 k = bank_key_used b2 k).

(** The bank a database holds. *)
Definition bank_of (db : DB) : Bank := mkBank
  (λ id, Account_Status <$> accounts db !! id)
  (λ id, balance id db)
  (λ k, bool_decide (key_used k db)).

Definition add_at (id : UUID) (n : Z) (f : UUID → Z) : UUID → Z :=
  λ x, if decide (x = id) then f x + n else f x.

(** What a transfer is supposed to do: move [n] units, remember the key. *)
Definition bank_move (from to key : UUID) (n : Z) (b : Bank) : Bank := mkBank
  (bank_status b)
  (add_at to n (add_at from (- n) (bank_balance b)))
  (λ k, bool_decide (k = key) || bank_key_used b k).

(** The amount a transfer will post: it must fit the column and round to a
    positive number of units, and the key must be new. *)
Definition posting_result (req : TransferRequest) (b : Bank) : result error Z :=
  match numeric_column (TransferRequest_Amount req) with
  | Err e => Err (Errorf "create transaction: " (ErrDriver e))
  | Ok n =>
    if negb (0 <? n)
    then Err (Errorf "create transaction: " (ErrDriver (CheckViolation "transactions_amount_check")))
    else if bank_key_used b (TransferRequest_IdempotencyKey req)
    then Err (Errorf "create transaction: "
               (ErrDriver (UniqueViolation "transactions_idempotency_key_key")))
    else Ok n
  end.

(** The decision table of a transfer, errors included: the amount moved. *)
Definition transfer_decision (req : TransferRequest) (b : Bank) : result error Z :=
  match bank_status b (TransferRequest_FromAccountID req),
        bank_status b (TransferRequest_ToAccountID req) with
  | Some sf, Some st =>
    if decide (sf ≠ AccountStatusActive)
    then Err (Errorf "sender " (ErrSentinel ErrAccountNotActive))
    else if decide (st ≠ AccountStatusActive)
    then Err (Errorf "receiver " (ErrSentinel ErrAccountNotActive))
    else if dec_LessThan (dec_of_units (bank_balance b (TransferRequest_FromAccountID req)))
              (TransferRequest_Amount req)
    then Err (ErrSentinel ErrInsufficientFunds)
    else posting_result req b
  | _, _ => Err (ErrSentinel ErrAccountNotFound)
  end.

(** What a transfer request is supposed to do to the bank; [held]: its key is
    being processed, or was less than a day ago. *)
Definition bank_transfer (held : bool) (req : TransferRequest) (b : Bank) : result error Bank :=
  if decide (TransferRequest_FromAccountID req = TransferRequest_ToAccountID req)
  then Err (ErrSentinel ErrSameAccount)
  else if negb (dec_IsPositive (TransferRequest_Amount req))
  then Err (ErrSentinel ErrInvalidAmount)
  else if held then Err (ErrSentinel ErrDuplicateTransaction)
  else match transfer_decision req b with
  | Err e => Err e
  | Ok n => Ok (bank_move (TransferRequest_FromAccountID req) (TransferRequest_ToAccountID req)
                 (TransferRequest_IdempotencyKey req) n b)
  end.

#[global] Instance bank_equivalence : Equivalence (≡@{Bank}).
Proof.
  split; unfold equiv, bank_equiv.
  - done.
  - intros b1 b2 (?&?&?). split_and!; done.
  - intros b1 b2 b3 (H12 & H12' & H12'') (H23 & H23' & H23'').
    split_and!; intros; [rewrite H12|rewrite H12'|rewrite H12'']; auto.
Qed.

#[global] Instance bank_move_proper from to key n : Proper ((≡) ==> (≡)) (bank_move from to key n).
Proof.
  intros b1 b2 (Hs & Hb & Hk). split_and!; simpl; intros; [done| |by rewrite Hk].
  unfold add_at. by rewrite !Hb.
Qed.

(** ** Rounding never overdraws *)

(** A decimal not above a whole number of units rounds to at most that many:
    checking the balance against the unrounded amount is enough. *)
Lemma not_less_rounds_within `{!DecimalLaws} d n bal :
  dec_LessThan (dec_of_units bal) d = false → numeric_column d = Ok n → 0 < n → n <= bal.
Proof.
  intros Hlt [-> _]%numeric_column_ok Hpos.
  assert (dec_units d <= inject_Z bal)%Q as Hle.
  { rewrite <-(dec_of_units_spec bal). unfold dec_units.
    apply Qmult_le_compat_r; [|done]. apply Qnot_lt_le.
    rewrite <-dec_LessThan_spec. by rewrite Hlt. }
  destruct (Qlt_le_dec (dec_units d) 0) as [Hneg|Hnn].
  - exfalso. revert Hpos. unfold round_half_away.
    destruct (Qle_bool 0 (dec_units d)) eqn:Hq.
    { apply Qle_bool_iff in Hq. by apply Qle_not_lt in Hq. }
    assert (0 <= Qfloor (- dec_units d + (1 # 2))); [|lia].
    change 0 with (Qfloor 0). apply Qfloor_resp_le.
    apply Qlt_le_weak in Hneg. apply Qopp_le_compat in Hneg.
    apply (Qle_trans _ (- dec_units d + 0)); [by rewrite Qplus_0_r|].
    by apply Qplus_le_compat; [apply Qle_refl|].
  - by apply round_half_away_le.
Qed.

(** ** Effects of a posting *)

Lemma post_transfer_balance id from to key txnID did cid n now db :
  from ≠ to →
  balance id (post_transfer from to key txnID did cid n now db) =
    balance id db + (if decide (id = to) then n else 0) - (if decide (id = from) then n else 0).
Proof.
  intros Hne.
  rewrite (balance_append id db (post_transfer from to key txnID did cid n now db) _ eq_refl).
  unfold contribution, entry_signed; simpl. repeat case_decide; subst; try done; lia.
Qed.

Lemma post_funding_balance id system to key txnID cid n now db :
  balance id (post_funding system to key txnID cid n now db) =
    balance id db + (if decide (id = to) then n else 0).
Proof.
  rewrite (balance_append id db (post_funding system to key txnID cid n now db) _ eq_refl).
  unfold contribution, entry_signed; simpl. repeat case_decide; subst; try done; lia.
Qed.

Lemma transfer_step_balance id from to key txnID n db db' :
  transfer_step from to key txnID n db db' →
  balance id db' =
    balance id db + (if decide (id = to) then n else 0) - (if decide (id = from) then n else 0).
Proof. intros (Hne & _ & _ & _ & _ & _ & _ & ? & ? & ? & _ & _ & _ & ->). by apply post_transfer_balance. Qed.

Lemma transfer_step_supply from to key txnID n db db' :
  transfer_step from to key txnID n db db' → total_supply db' = total_supply db.
Proof.
  intros (_ & _ & _ & _ & _ & _ & _ & did & cid & now & _ & _ & _ & ->).
  rewrite (total_supply_append db (post_transfer from to key txnID did cid n now db) _ eq_refl). unfold entry_signed; simpl. lia.
Qed.

Lemma funding_step_balance id system to txnID n db db' :
  funding_step system to txnID n db db' →
  balance id db' = balance id db + (if decide (id = to) then n else 0).
Proof. intros (_ & _ & _ & _ & _ & ? & ? & ? & _ & _ & ->). apply post_funding_balance. Qed.

Lemma funding_step_supply system to txnID n db db' :
  funding_step system to txnID n db db' → total_supply db' = total_supply db + n.
Proof.
  intros (_ & _ & _ & _ & _ & key & cid & now & _ & _ & ->).
  rewrite (total_supply_append db (post_funding system to key txnID cid n now db) _ eq_refl). unfold entry_signed; simpl. lia.
Qed.

(** Nothing but the transactions and the ledger changes, and the ledger only
    grows. *)
Lemma transfer_step_frame from to key txnID n db db' :
  transfer_step from to key txnID n db db' →
  users db' = users db ∧ accounts db' = accounts db ∧ ledger db `prefix_of` ledger db' ∧
  transactions db ⊆ transactions db' ∧ key_used key db'.
Proof.
  intros (_ & _ & _ & _ & _ & Hid & _ & ? & ? & ? & _ & _ & _ & ->). simpl.
  split_and!; [done|done|by eexists|by apply insert_subseteq|].
  eexists txnID, _. simpl. by rewrite lookup_insert_eq.
Qed.

Lemma funding_step_frame system to txnID n db db' :
  funding_step system to txnID n db db' →
  users db' = users db ∧ accounts db' = accounts db ∧ ledger db `prefix_of` ledger db' ∧
  transactions db ⊆ transactions db'.
Proof.
  intros (_ & _ & _ & _ & Hid & ? & ? & ? & _ & _ & ->). simpl.
  split_and!; [done|done|by eexists|by apply insert_subseteq].
Qed.

(** A key in use stays in use as transactions are added. *)
Lemma key_used_mono k db db' :
  transactions db ⊆ transactions db' → key_used k db → key_used k db'.
Proof. intros Hsub (id & t & Hid & Hk). exists id, t. split; [|done]. by eapply lookup_weaken. Qed.

(** ** Postings keep the books *)

Lemma empty_books : books empty_db.
Proof.
  split; [split|..]; simpl; try apply map_Forall_empty; try constructor; try done.
  all: intros ???? [].
Qed.

Lemma books_same_ledger db db' :
  books db → db_wf db' → transactions db' = transactions db → ledger db' = ledger db → books db'.
Proof.
  intros [_ Hp Hs] Hwf Ht Hl. split; [done| |].
  - rewrite Ht. unfold entries_of in *. by rewrite Hl.
  - intros id. rewrite (balance_ledger id db' db) by done. apply Hs.
Qed.

Lemma post_wf t ls db : db_wf db → postable t ls db → db_wf (post t ls db).
Proof.
  intros [] [].
  assert (db_grows db (post t ls db)) as Hg.
  { split_and!; simpl; try done. intros id Hid. rewrite lookup_insert_is_Some'. auto. }
  split; simpl; try done.
  - apply map_Forall_insert_2; [|by eapply txn_rows_grow]. done.
  - apply unique_on_insert; [done|]. intros i y _ Hy Hk. apply post_key0. by exists i, y.
  - apply Forall_app. split; [by eapply led_rows_grow|].
    eapply Forall_impl; [exact post_entries0|]. intros l (Hl & Hn & Ha).
    split_and!; [done..|]. simpl. rewrite Hl, lookup_insert_eq. eauto.
  - rewrite fmap_app. apply NoDup_app. split_and!; [done| |done].
    intros i Hi Hin. rewrite Forall_forall in post_fresh_ids0.
    by apply (post_fresh_ids0 i).
Qed.

(** No ledger row refers to a transaction that does not exist. *)
Lemma entries_of_absent id db :
  db_wf db → transactions db !! id = None → entries_of id db = [].
Proof.
  intros Hwf Hid. unfold entries_of. apply filter_none, Forall_forall.
  intros l Hl <-. pose proof (wf_ledger _ Hwf) as Hf. rewrite Forall_forall in Hf.
  destruct (Hf l Hl) as (_ & _ & [t Ht]). congruence.
Qed.

Lemma entries_of_post id t ls db :
  db_wf db → postable t ls db →
  entries_of id (post t ls db) = if decide (id = txn_id t) then ls else entries_of id db.
Proof.
  intros Hwf Hp. unfold entries_of; simpl. rewrite filter_app.
  fold (entries_of id db). pose proof (post_entries _ _ _ Hp) as Hls.
  case_decide as Hid.
  - subst. rewrite entries_of_absent by (done || apply Hp). simpl.
    apply filter_all. eapply Forall_impl; [exact Hls|]. by intros l (? & _).
  - rewrite (filter_none _ ls); [apply app_nil_r|].
    eapply Forall_impl; [exact Hls|]. intros l (-> & _). congruence.
Qed.

Lemma post_books t ls db :
  books db → postable t ls db → (∀ id, 0 <= balance id (post t ls db)) → books (post t ls db).
Proof.
  intros [Hwf Hposted Hsolv] Hp Hs. split; [by apply post_wf| |done].
  intros id t' Hid. simpl in Hid. rewrite entries_of_post by done.
  apply lookup_insert_Some in Hid as [[<- <-]|[Hne Hid]].
  - rewrite decide_True by done. split; apply Hp.
  - rewrite decide_False by done. by apply Hposted.
Qed.

Lemma transfer_step_books from to key txnID n db db' :
  books db → transfer_step from to key txnID n db db' → books db'.
Proof.
  intros Hb Hstep. pose proof Hstep as
    (Hne & (af & Haf & _) & (at_ & Hat & _) & Hn & Hbal & Hid & Hkey & did & cid & now & Hdc & Hd & Hc & ->).
  apply (post_books (mkTxnRow txnID from to n TxnStatusCompleted key now now)
    [mkLedgerRow did from txnID n EntryTypeDebit now;
     mkLedgerRow cid to txnID n EntryTypeCredit now]); [done| |].
  - split; simpl; try done.
    + rewrite ?Forall_cons, Forall_nil. unfold amount_ok. simpl. split_and!; eauto; lia.
    + apply NoDup_cons. rewrite list_elem_of_singleton. split; [done|apply NoDup_singleton].
    + simpl. rewrite ?Forall_cons, Forall_nil. by split_and!.
    + by constructor.
  - intros id. pose proof (post_transfer_balance id from to key txnID did cid n now db Hne) as Hp.
    unfold post_transfer in Hp. unfold post; simpl. rewrite Hp.
    pose proof (books_solvent _ Hb id). repeat case_decide; subst; try done; lia.
Qed.

Lemma funding_step_books system to txnID n db db' :
  books db → funding_step system to txnID n db db' → books db'.
Proof.
  intros Hb (Hne & [as_ Has] & (at_ & Hat & _) & Hn & Hid & key & cid & now & Hkey & Hc & ->).
  apply (post_books (mkTxnRow txnID system to n TxnStatusCompleted key now now)
    [mkLedgerRow cid to txnID n EntryTypeCredit now]); [done| |].
  - split; simpl; try done.
    + rewrite ?Forall_cons, Forall_nil. unfold amount_ok. simpl. split_and!; eauto; lia.
    + apply NoDup_singleton.
    + simpl. rewrite ?Forall_cons, Forall_nil. by split_and!.
    + by constructor.
  - intros id. pose proof (post_funding_balance id system to key txnID cid n now db) as Hp.
    unfold post_funding in Hp. unfold post; simpl. rewrite Hp.
    pose proof (books_solvent _ Hb id). repeat case_decide; lia.
Qed.

(** A committed transfer is the abstract bank's move. *)
Lemma transfer_step_bank from to key txnID n db db' :
  transfer_step from to key txnID n db db' →
  bank_of db' ≡ bank_move from to key n (bank_of db).
Proof.
  intros Hstep. split_and!; simpl.
  - intros id. by destruct (transfer_step_frame _ _ _ _ _ _ _ Hstep) as (_ & -> & _).
  - intros id. rewrite (transfer_step_balance id _ _ _ _ _ _ _ Hstep).
    unfold add_at. repeat case_decide; lia.
  - intros k. apply eq_true_iff_eq. rewrite orb_true_iff, !bool_decide_eq_true.
    pose proof (transfer_step_frame _ _ _ _ _ _ _ Hstep) as (_ & _ & _ & Hsub & Hkey).
    split; [|intros [->|Hk]; [done|by eapply key_used_mono]].
    destruct Hstep as (_ & _ & _ & _ & _ & Hid & _ & did & cid & now & _ & _ & _ & ->).
    intros (id & t & Hl & Hk). simpl in Hl.
    apply lookup_insert_Some in Hl as [[_ <-]|[_ Hl]]; [by left|]. right. by exists id, t.
Qed.

End books.

#[export] Hint Resolve transfer_step_books funding_step_books : bank.
