(* ===== verification/Schema.v ===== *)
(** * Schema: what the migration sets up besides the tables

    The rest of [sql/V1__init_schema.sql]: the triggers that make the ledger
    append-only, the view [v_account_balances] and the function
    [fn_get_balance] with their agreement with the balance the program computes
    itself, and the rows of the seed.  [extends] says that a run of the program
    only adds rows. *)

From S2P Require Import Prelude Platform Errs Model Database Books.
#[local] Open Scope Z_scope.

Section schema.
Context `{UuidLib} `{DecimalLib}.

(** ** The triggers of the ledger *)

(** A row trigger that raises: a statement that meets a row fails as a whole. *)
Definition fn_ledger_immutable (rows : list LedgerRow) (db : DB) : result driver_error DB :=
  match rows with
  | [] => Ok db
  | _ => Err RaisedException
  end.

(** [UPDATE ledger SET ... WHERE P] and [DELETE FROM ledger WHERE P]. *)
Definition update_ledger (P : LedgerRow → bool) (f : LedgerRow → LedgerRow) (db : DB) : result driver_error DB :=
  fn_ledger_immutable (filter P (ledger db)) db.
Definition delete_ledger (P : LedgerRow → bool) (db : DB) : result driver_error DB :=
  fn_ledger_immutable (filter P (ledger db)) db.

(** ** [v_account_balances] *)

Record BalanceRow := mkBalanceRow {
  bal_account_id : UUID;
  bal_user_id : UUID;
  bal_currency : string;
  bal_status : AccountStatus;
  bal_balance : Z
}.

(** [accounts a LEFT JOIN ledger l ON l.account_id = a.id]: an account without
    ledger rows comes once, with NULL. *)
Definition joined (db : DB) (p : UUID * Account) : list (UUID * Account * option LedgerRow) :=
  match filter (λ l, led_account_id l = p.1) (ledger db) with
  | [] => [(p, None)]
  | ls => (λ l, (p, Some l)) <$> ls
  end.
Definition left_join (db : DB) : list (UUID * Account * option LedgerRow) :=
  map_to_list (accounts db) ≫= joined db.

(** What GROUP BY compares. *)
Definition group_key (r : UUID * Account * option LedgerRow) : UUID * UUID * string * AccountStatus :=
  (r.1.1, Account_UserID r.1.2, Account_Currency r.1.2, Account_Status r.1.2).

(** [COALESCE(SUM(CASE ... END), 0)] over the rows of a group; SUM skips NULL. *)
Definition group_balance (rows : list (UUID * Account * option LedgerRow)) : Z :=
  default 0 (sql_sum (omap (λ r, entry_signed <$> r.2) rows)).

Definition v_account_balances (db : DB) : list BalanceRow :=
  (λ k, mkBalanceRow k.1.1.1 k.1.1.2 k.1.2 k.2
     (group_balance (filter (λ r, group_key r = k) (left_join db))))
  <$> remove_dups (group_key <$> left_join db).

(** ** [fn_get_balance] *)

(** The sum is assigned to a variable of type NUMERIC(18,4). *)
Definition fn_get_balance (id : UUID) (db : DB) : result driver_error Z :=
  let n := default 0 (sql_sum (entry_signed <$> filter (λ l, led_account_id l = id) (ledger db))) in
  if Z.abs n <? numeric_18_4_bound then Ok n else Err NumericFieldOverflow.

(** ** The seed *)

Definition seed_user (id : UUID) (now : Z) : User :=
  mkUser id "the_vault_system" "system@thevault.internal" "--- SYSTEM ACCOUNT — NO LOGIN ---"
    "The Vault System" true true now now.
Definition seed_account (id : UUID) (now : Z) : Account := mkAccount id id "INR" AccountStatusActive now.

(** The tables after the migration; [id] is the UUID both rows carry. *)
Definition migrate (id : UUID) (now : Z) : result driver_error DB :=
  match insert_user now (seed_user id now) empty_db with
  | Err e => Err e
  | Ok db => insert_account now (seed_account id now) db
  end.

(** ** What the theorems speak of *)

(** From [db] to [db'] rows were only added. *)
Definition extends (db db' : DB) : Prop :=
  users db ⊆ users db' ∧ accounts db ⊆ accounts db' ∧ transactions db ⊆ transactions db' ∧
  ledger db `prefix_of` ledger db'.

#[global] Instance extends_preorder : PreOrder extends.
Proof.
  split.
  - intros db. by split_and!.
  - intros db1 db2 db3 (?&?&?&?) (?&?&?&?). split_and!; by etrans.
Qed.

(** A row of a table that a step leaves alone or adds. *)
Lemma extends_users f db : users db ⊆ f (users db) → extends db (set_users f db).
Proof. intros Hf. by split_and!. Qed.

Lemma extends_accounts f db : accounts db ⊆ f (accounts db) → extends db (set_accounts f db).
Proof. intros Hf. by split_and!. Qed.

Lemma transfer_step_extends from to key txnID n db db' :
  transfer_step from to key txnID n db db' → extends db db'.
Proof.
  intros (_ & _ & _ & _ & _ & Hfresh & _ & debitID & creditID & now & _ & _ & _ & ->).
  split_and!; simpl; [done|done|by apply insert_subseteq|by apply prefix_app_r].
Qed.

(** ** The migrated database *)

Lemma migrate_ok id now :
  ∃ db, migrate id now = Ok db ∧ books db ∧ users db = {[id := seed_user id now]} ∧
    accounts db = {[id := seed_account id now]} ∧ ledger db = [].
Proof.
  set (db1 := set_users (<[id := seed_user id now]>) empty_db).
  assert (insert_user now (seed_user id now) empty_db = Ok db1) as Hu.
  { unfold insert_user. set (texts := forallb no_nul _). assert (texts = true) as -> by reflexivity.
    assert (∀ n s, varchar n s = true → negb (varchar n s) = false) as Hv by by intros ? ? ->.
    rewrite !Hv by reflexivity. cbn [negb].
    assert (user_row (seed_user id now) now = seed_user id now) as -> by reflexivity. done. }
  set (db2 := set_accounts (<[id := seed_account id now]>) db1).
  assert (insert_account now (seed_account id now) db1 = Ok db2) as Ha.
  { unfold insert_account. simpl. rewrite decide_False by (rewrite lookup_empty; by intros []).
    by rewrite lookup_insert_eq. }
  exists db2. unfold migrate. rewrite Hu. split; [done|]. split_and!; [|done|done|done].
  eapply (books_same_ledger empty_db); [by apply empty_books|..]; [|done|done].
  eapply insert_account_wf, Ha. eapply insert_user_wf, Hu. by apply empty_books.
Qed.

(** ** The balance, three times *)

Lemma joined_balance db id a : group_balance (joined db (id, a)) = balance id db.
Proof.
  assert (∀ ls, omap (λ r : UUID * Account * option LedgerRow, entry_signed <$> r.2)
    ((λ l : LedgerRow, (id, a, Some l)) <$> ls : list _) = entry_signed <$> ls) as Hom.
  { induction ls as [|l ls IH]; simpl; [done|]. by f_equal. }
  unfold group_balance, balance, joined, account_entries. cbn [fst].
  destruct (filter _ (ledger db)) as [|l ls]; [done|]. exact (f_equal (default 0 ∘ sql_sum) (Hom (l :: ls))).
Qed.

Lemma joined_key db id a r : r ∈ joined db (id, a) → r.1 = (id, a).
Proof.
  unfold joined. cbn [fst]. destruct (filter _ _) as [|l ls]; [by intros ->%list_elem_of_singleton|].
  intros (x & -> & _)%list_elem_of_fmap. done.
Qed.

Lemma joined_nonempty db p : joined db p ≠ [].
Proof. unfold joined. by destruct (filter _ _). Qed.

Definition account_key (p : UUID * Account) : UUID * UUID * string * AccountStatus :=
  (p.1, Account_UserID p.2, Account_Currency p.2, Account_Status p.2).

(** The group of an account is what it is joined with. *)
Lemma group_of_account db ps p :
  NoDup ps.*1 → p ∈ ps →
  filter (λ r, group_key r = account_key p) (ps ≫= joined db) = joined db p.
Proof.
  intros Hnd Hin. induction ps as [|p' ps IH]; [by apply elem_of_nil in Hin|].
  apply NoDup_cons in Hnd as [Hni Hnd]. rewrite bind_cons, filter_app.
  assert (∀ p0, Forall (λ r, r.1 = p0) (joined db p0)) as Hj.
  { intros [id a]. apply Forall_forall. intros r. apply joined_key. }
  apply elem_of_cons in Hin as [->|Hin].
  - rewrite filter_all, filter_none; [apply app_nil_r|..].
    + apply Forall_forall. intros r (p0 & Hr & Hp0)%list_elem_of_bind [= Hk _ _ _].
      pose proof (Hj p0) as Hj0. rewrite Forall_forall in Hj0. specialize (Hj0 r Hr).
      apply Hni. rewrite <-Hk, Hj0. by apply list_elem_of_fmap_2.
    + eapply Forall_impl; [apply Hj|]. intros r Hr. unfold group_key, account_key. by rewrite Hr.
  - rewrite filter_none; [by apply IH|]. eapply Forall_impl; [apply Hj|].
    intros r Hr [= Hk _ _ _]. apply Hni. rewrite Hr in Hk. rewrite Hk. by apply list_elem_of_fmap_2.
Qed.

Lemma groups_are_accounts db :
  remove_dups (group_key <$> left_join db) ≡ₚ account_key <$> map_to_list (accounts db).
Proof.
  apply NoDup_Permutation.
  - apply NoDup_remove_dups.
  - apply NoDup_fmap_2_strong; [|apply NoDup_map_to_list].
    intros [i x] [j y] Hx Hy [= -> _ _ _]. apply elem_of_map_to_list in Hx, Hy. by simplify_eq.
  - intros k. rewrite elem_of_remove_dups. unfold left_join. split.
    + intros (r & -> & (p & Hr & Hp)%list_elem_of_bind)%list_elem_of_fmap.
      apply list_elem_of_fmap. exists p. split; [|done]. destruct p as [id a].
      apply joined_key in Hr. unfold group_key, account_key. by rewrite Hr.
    + intros (p & -> & Hp)%list_elem_of_fmap. destruct p as [id a].
      destruct (joined db (id, a)) as [|r ls] eqn:Hj; [by apply joined_nonempty in Hj|].
      assert (r ∈ joined db (id, a)) as Hr by (rewrite Hj; by left).
      apply list_elem_of_fmap. exists r. split.
      * apply joined_key in Hr. unfold group_key, account_key. by rewrite Hr.
      * apply list_elem_of_bind. eauto.
Qed.

(** ** Properties *)

(** C36. The three ways to a balance agree: the view, a left join grouped by
    account, has exactly one row per account, and its balance is that of the
    query in [store.go], also for accounts without ledger rows; the function
    returns the same number unless it does not fit NUMERIC(18,4). *)
Theorem balances_agree db :
  v_account_balances db ≡ₚ
    (λ p, mkBalanceRow p.1 (Account_UserID p.2) (Account_Currency p.2) (Account_Status p.2) (balance p.1 db))
      <$> map_to_list (accounts db) ∧
  ∀ id, fn_get_balance id db =
    if Z.abs (balance id db) <? numeric_18_4_bound then Ok (balance id db) else Err NumericFieldOverflow.
Proof.
  split; [|done]. unfold v_account_balances. rewrite groups_are_accounts, <-list_fmap_compose.
  apply Permutation_refl', list_fmap_ext. intros i [id a] Hp%list_elem_of_lookup_2.
  pose proof (group_of_account db _ _ (NoDup_fst_map_to_list _) Hp) as Hg.
  unfold compose, left_join. rewrite Hg, joined_balance. done.
Qed.

End schema.
