(* ===== verification/Transfer.v ===== *)
(** * Transfer: the transfer service ([internal/service/transfer.go])

    [TransferFunds] guards a request with a Redis key, then moves the money in
    one SQL transaction; [GetBalance] reads a balance under the row lock. *)

From S2P Require Import Prelude Platform Errs Model Database GoM Store Books.
#[local] Open Scope Z_scope.

Section transfer.
Context `{UuidLib} `{DecimalLib} `{RedisServer} `{!Env}.

(** [24 * time.Hour]. *)
Definition idempotencyTTL : Z := 24 * 3600 * 10 ^ 9.

Definition redisKeyPrefix : string := "vault:idempotency:".

Definition idemp_key (key : UUID) : string := redisKeyPrefix ++ uuid_String key.

(** Locks are taken in the order of the accounts' text. *)
Definition lock_order (from to : UUID) : UUID * UUID :=
  if String.ltb (uuid_String to) (uuid_String from) then (to, from) else (from, to).

(** Steps 5 to 7 inside the SQL transaction: the Pending transaction row, the
    two ledger rows, the promotion to Completed. *)
Definition transfer_post (req : TransferRequest) (txnID : UUID) : M unit :=
  _ ← CreateTransaction (mkTransaction txnID (TransferRequest_FromAccountID req)
        (TransferRequest_ToAccountID req) (TransferRequest_Amount req) TxnStatusPending
        (TransferRequest_IdempotencyKey req) time_Zero time_Zero);
  debitID ← uuid_New;
  creditID ← uuid_New;
  let debitEntry := mkLedgerEntry debitID (TransferRequest_FromAccountID req) txnID
        (TransferRequest_Amount req) EntryTypeDebit time_Zero in
  let creditEntry := mkLedgerEntry creditID (TransferRequest_ToAccountID req) txnID
        (TransferRequest_Amount req) EntryTypeCredit time_Zero in
  _ ← wrap "debit ledger: " (InsertLedgerEntry debitEntry);
  _ ← wrap "credit ledger: " (InsertLedgerEntry creditEntry);
  UpdateTransactionStatus txnID TxnStatusCompleted.

(** The function passed to [WithTx]: locks, validation, balance check, then
    the posting. *)
Definition transfer_tx (req : TransferRequest) (txnID firstLock secondLock : UUID) : M unit :=
  _ ← GetAccountForUpdate firstLock;
  _ ← GetAccountForUpdate secondLock;
  fromAcct ← wrap "sender account: " (GetAccountForUpdate (TransferRequest_FromAccountID req));
  toAcct ← wrap "receiver account: " (GetAccountForUpdate (TransferRequest_ToAccountID req));
  if decide (Account_Status fromAcct ≠ AccountStatusActive)
  then fail (Errorf "sender " (ErrSentinel ErrAccountNotActive))
  else if decide (Account_Status toAcct ≠ AccountStatusActive)
  then fail (Errorf "receiver " (ErrSentinel ErrAccountNotActive))
  else
  senderBalance ← wrap "sender balance: " (GetBalance (TransferRequest_FromAccountID req));
  if dec_LessThan senderBalance (TransferRequest_Amount req)
  then fail (ErrSentinel ErrInsufficientFunds)
  else transfer_post req txnID.

(** The body of [TransferFunds] once the key is set and the cleanup deferred;
    the boolean is the final value of [rollbackIdemKey]. *)
Definition transfer_body (req : TransferRequest) (idempKey : string) (w : World)
    : bool * result error TransferResponse * World :=
  let rollbackIdemKey := true in
  let txnID := env_uuid (w_tick w) in
  let '(firstLock, secondLock) :=
    lock_order (TransferRequest_FromAccountID req) (TransferRequest_ToAccountID req) in
  match WithTx (transfer_tx req txnID firstLock secondLock) (advance w) with
  | (Err e, w1) => (rollbackIdemKey, Err e, w1)
  | (Ok _, w1) =>
    let rollbackIdemKey := false in
    let w2 := (rdb_Set idempKey (uuid_String txnID) idempotencyTTL w1).2 in
    (rollbackIdemKey,
     Ok (mkTransferResponse txnID TxnStatusCompleted "Transfer completed successfully"), w2)
  end.

(** The deferred cleanup. *)
Definition transfer_deferred (idempKey : string) (rollbackIdemKey : bool) (w : World) : World :=
  if rollbackIdemKey then (rdb_Del idempKey w).2 else w.

Definition TransferFunds (req : TransferRequest) : M TransferResponse :=
  if decide (TransferRequest_FromAccountID req = TransferRequest_ToAccountID req)
  then fail (ErrSentinel ErrSameAccount)
  else if negb (dec_IsPositive (TransferRequest_Amount req))
  then fail (ErrSentinel ErrInvalidAmount)
  else
  let idempKey := idemp_key (TransferRequest_IdempotencyKey req) in
  wasSet ← wrap "redis idempotency check: " (rdb_SetNX idempKey "processing" idempotencyTTL);
  if negb wasSet then fail (ErrSentinel ErrDuplicateTransaction)
  else λ w,
    let '(rollback, r, w') := transfer_body req idempKey w in
    (r, transfer_deferred idempKey rollback w').

(** Requests served one after the other. *)
Fixpoint serve (reqs : list TransferRequest) (w : World)
    : list (TransferRequest * result error TransferResponse) * World :=
  match reqs with
  | [] => ([], w)
  | req :: reqs' =>
    let '(r, w1) := TransferFunds req w in
    let '(rs, w2) := serve reqs' w1 in
    ((req, r) :: rs, w2)
  end.

(** The answered requests with key [k] that completed. *)
Definition completed_with (k : UUID)
    (rs : list (TransferRequest * result error TransferResponse)) :=
  filter (λ p, TransferRequest_IdempotencyKey p.1 = k ∧ is_ok p.2 = true) rs.

(** [TransferService.GetBalance]. *)
Definition read_balance (accountID : UUID) : M Decimal :=
  _ ← GetAccountForUpdate accountID;
  b ← GetBalance accountID;
  mret b.

Definition Service_GetBalance (accountID : UUID) : M Decimal := WithTx (read_balance accountID).

(** ** What the theorems speak of *)

(** A request committed as transaction [txnID]. *)
Definition committed (req : TransferRequest) (txnID : UUID) (db db' : DB) : Prop :=
  ∃ n, numeric_column (TransferRequest_Amount req) = Ok n ∧
    transfer_step (TransferRequest_FromAccountID req) (TransferRequest_ToAccountID req)
      (TransferRequest_IdempotencyKey req) txnID n db db'.

Definition transfer_ok (txnID : UUID) : TransferResponse :=
  mkTransferResponse txnID TxnStatusCompleted "Transfer completed successfully".

(** The outcome of a request, as a relation between the tables. *)
Definition transfer_outcome (req : TransferRequest) (r : result error TransferResponse)
    (db db' : DB) : Prop :=
  (∃ e, r = Err e ∧ db' = db) ∨
  (∃ txnID, committed req txnID db db' ∧ (r = Ok (transfer_ok txnID) ∨ r = Err commit_lost)).

(** [held r t key]: a request with this idempotency key is refused at time [t]. *)
Definition held (r : redis) (t : Z) (key : UUID) : bool :=
  bool_decide (redis_view r t (idemp_key key) ≠ None).

(** Locks in order, the two re-reads, the balance, then the posting. *)
Definition transfer_script (req : TransferRequest) (txnID f s : UUID) : list event :=
  let from := TransferRequest_FromAccountID req in
  let to := TransferRequest_ToAccountID req in
  [EvLockAccount f; EvLockAccount s; EvLockAccount from; EvLockAccount to;
   EvSelectBalance from; EvInsertTransaction txnID;
   EvInsertLedger from EntryTypeDebit; EvInsertLedger to EntryTypeCredit;
   EvUpdateTransaction txnID].

(** The calls of a request that passed the gate, between SETNX and the end. *)
Definition sql_trace (ok : bool) (script sql : list event) : Prop :=
  (ok = true → sql = EvBegin :: script ++ [EvCommit]) ∧
  (sql = [EvBegin] ∨ sql = EvBegin :: script ++ [EvCommit] ∨
   ∃ j, sql = EvBegin :: take j script ++ [EvRollback]).

(** ** The SQL transaction of a transfer *)

Lemma transfer_tx_redis req txnID f s : preserves same_redis (transfer_tx req txnID f s).
Proof.
  destruct store_preserves_redis as (? & ? & ? & ? & ?).
  unfold transfer_tx, transfer_post. solve_preserves.
Qed.

Lemma transfer_tx_tx req txnID f s : preserves same_tx (transfer_tx req txnID f s).
Proof.
  destruct store_preserves_tx as (? & ? & ? & ? & ?).
  unfold transfer_tx, transfer_post. solve_preserves.
Qed.

Lemma transfer_tx_tick req txnID f s : preserves tick_grows (transfer_tx req txnID f s).
Proof.
  destruct store_preserves_tick as (? & ? & ? & ? & ?).
  unfold transfer_tx, transfer_post. solve_preserves.
Qed.

Lemma transfer_post_ok req txnID w w' :
  is_Some (w_tx w) → transfer_post req txnID w = (Ok (), w') →
  ∃ n debitID creditID now,
    numeric_column (TransferRequest_Amount req) = Ok n ∧ 0 < n ∧
    TransferRequest_FromAccountID req ≠ TransferRequest_ToAccountID req ∧
    transactions (w_db w) !! txnID = None ∧
    ¬ key_used (TransferRequest_IdempotencyKey req) (w_db w) ∧
    debitID ≠ creditID ∧
    ¬ (debitID ∈ (led_id <$> ledger (w_db w))) ∧ ¬ (creditID ∈ (led_id <$> ledger (w_db w))) ∧
    w_db w' = post_transfer (TransferRequest_FromAccountID req) (TransferRequest_ToAccountID req)
      (TransferRequest_IdempotencyKey req) txnID debitID creditID n now (w_db w).
Proof.
  intros [[db0 t0] Htx] Hr. destruct w as [db tx r t tr]. simpl in *. subst tx.
  apply bind_ok in Hr as ([] & w6 & (db1 & Hdb1 & ->)%CreateTransaction_ok & Hr).
  apply bind_ok in Hr as (did & w7 & Hd & Hr). injection Hd as <- <-.
  apply bind_ok in Hr as (cid & w8 & Hc & Hr). injection Hc as <- <-.
  apply bind_ok in Hr as ([] & w9 & (db2 & Hdb2 & ->)%wrap_ok%InsertLedgerEntry_ok & Hr).
  apply bind_ok in Hr as ([] & w10 & (db3 & Hdb3 & ->)%wrap_ok%InsertLedgerEntry_ok & Hr).
  apply UpdateTransactionStatus_ok in Hr as [_ ->]. simpl in *.
  apply insert_transaction_ok in Hdb1 as (n & Hn & Hpos & Hne & Hid & Hkey & _ & _ & ->).
  apply insert_ledger_ok in Hdb2 as (n2 & Hn2 & _ & Hdid & _ & _ & ->).
  apply insert_ledger_ok in Hdb3 as (n3 & Hn3 & _ & Hcid & _ & _ & ->).
  simpl in *. rewrite Hn in Hn2, Hn3. injection Hn2 as <-. injection Hn3 as <-.
  rewrite fmap_app, elem_of_app in Hcid. simpl in Hcid.
  rewrite list_elem_of_singleton in Hcid.
  exists n, (env_uuid (S t)), (env_uuid (S (S t))), t0. split_and!; try done; [|by intros ?; apply Hcid; left|].
  - intros Heq. apply Hcid. right. symmetry. exact Heq.
  - unfold update_transaction_status, post_transfer, set_ledger, set_transactions; simpl.
    rewrite lookup_insert_eq. simpl. rewrite insert_insert_eq, <-app_assoc. done.
Qed.

Lemma transfer_tx_ok `{!DecimalLaws} req txnID f s w w' :
  is_Some (w_tx w) → transfer_tx req txnID f s w = (Ok (), w') →
  ∃ n, numeric_column (TransferRequest_Amount req) = Ok n ∧
    transfer_step (TransferRequest_FromAccountID req) (TransferRequest_ToAccountID req)
      (TransferRequest_IdempotencyKey req) txnID n (w_db w) (w_db w').
Proof.
  intros Htx Hr. unfold transfer_tx in Hr.
  apply bind_ok in Hr as (a1 & w1 & [_ ->]%GetAccountForUpdate_ok & Hr).
  apply bind_ok in Hr as (a2 & w2 & [_ ->]%GetAccountForUpdate_ok & Hr).
  apply bind_ok in Hr as (fa & w3 & [Hfa ->]%wrap_ok%GetAccountForUpdate_ok & Hr).
  apply bind_ok in Hr as (ta & w4 & [Hta ->]%wrap_ok%GetAccountForUpdate_ok & Hr).
  case_decide as Hfs; [done|]. case_decide as Hts; [done|].
  apply bind_ok in Hr as (bal & w5 & [-> ->]%wrap_ok%GetBalance_ok & Hr).
  destruct (dec_LessThan _ _) eqn:Hlt; [done|].
  apply transfer_post_ok in Hr as
    (n & did & cid & now & Hn & Hpos & Hne & Hid & Hkey & Hdc & Hd & Hc & Hdb); [|done].
  exists n. split; [done|]. simpl in *.
  pose proof (numeric_column_ok _ _ Hn) as [_ ?].
  unfold transfer_step, active. split_and!; eauto; [lia| |].
  - by eapply not_less_rounds_within.
  - by exists did, cid, now.
Qed.

(** ** Every way a transfer can end *)

Lemma transfer_failed req e db : transfer_outcome req (Err e) db db.
Proof. left. eauto. Qed.
#[local] Hint Resolve transfer_failed : core.

Lemma transfer_body_cases `{!DecimalLaws} req key w b r w' :
  w_tx w = None → transfer_body req key w = (b, r, w') →
  w_tx w' = None ∧ b = negb (is_ok r) ∧ transfer_outcome req r (w_db w) (w_db w').
Proof.
  intros Htx. unfold transfer_body. destruct (lock_order _ _) as [f s].
  destruct (WithTx _ (advance w)) as [res w2] eqn:Hwt.
  apply WithTx_cases in Hwt as (Htx2 & Hcases); [|apply transfer_tx_tx|done].
  destruct Hcases as [(e & -> & Hdb2)|([] & w3 & Hfn & Hdb2 & Hres)].
  { intros Hr. injection Hr as <- <- <-. rewrite Hdb2. auto. }
  apply transfer_tx_ok in Hfn as (n & Hn & Hstep); [|by eauto].
  simpl in Hstep. rewrite <-Hdb2 in Hstep.
  destruct Hres as [->|[-> _]]; intros Hr; injection Hr as <- <- <-;
    rewrite ?rdb_Set_db, ?rdb_Set_tx; split_and!; try done; right;
    eexists; (split; [by exists n|auto]).
Qed.

Lemma transfer_body_flag req key w b r w' :
  transfer_body req key w = (b, r, w') → b = negb (is_ok r).
Proof.
  unfold transfer_body. destruct (lock_order _ _) as [f s].
  by destruct (WithTx _ _) as [[]]; intros Hr; injection Hr as <- <- <-.
Qed.

Lemma TransferFunds_cases `{!DecimalLaws} req w r w' :
  w_tx w = None → TransferFunds req w = (r, w') →
  w_tx w' = None ∧ transfer_outcome req r (w_db w) (w_db w').
Proof.
  intros Htx. unfold TransferFunds, fail, mbind, M_bind, wrap, map_err.
  case_decide; [intros Hr; injection Hr as <- <-; auto|].
  destruct (dec_IsPositive _); simpl; [|intros Hr; injection Hr as <- <-; auto].
  destruct (rdb_SetNX _ _ _ w) as [res w1] eqn:Hs.
  unfold rdb_SetNX in Hs. apply redis_call_frame in Hs as [<- Htx1]. destruct res as [[]|e]; simpl.
  2,3: intros Hr; injection Hr as <- <-; rewrite Htx1; auto.
  destruct (transfer_body req _ w1) as [[b res] w2] eqn:Hb.
  apply transfer_body_cases in Hb as (Htx2 & -> & Ho); [|by rewrite Htx1].
  intros Hr. injection Hr as <- <-. unfold transfer_deferred.
  destruct (negb _); rewrite ?rdb_Del_db, ?rdb_Del_tx; auto.
Qed.

(** ** Without faults: the run follows the bank's decision table *)

Lemma lock_order_perm from to : [(lock_order from to).1; (lock_order from to).2] ≡ₚ [from; to].
Proof. unfold lock_order. case_match; [constructor|done]. Qed.

Lemma transfer_post_run req txnID w :
  no_faults →
  TransferRequest_FromAccountID req ≠ TransferRequest_ToAccountID req →
  is_Some (accounts (w_db w) !! TransferRequest_FromAccountID req) →
  is_Some (accounts (w_db w) !! TransferRequest_ToAccountID req) →
  transactions (w_db w) !! txnID = None →
  fresh_uuids (w_tick w) 3 (w_db w) →
  (transfer_post req txnID w).1 =
    match posting_result req (bank_of (w_db w)) with Ok _ => Ok () | Err e => Err e end.
Proof.
  intros Hnf Hne Hf Ht Hid (Hinj & _ & Hfresh). unfold transfer_post, posting_result.
  unfold mbind, M_bind. rewrite CreateTransaction_run, insert_transaction_run by done. simpl.
  destruct (numeric_column _) as [n|] eqn:Hn; [|done].
  destruct (Z.ltb_spec 0 n); simpl; [|done].
  case_bool_decide; [done|]. unfold wrap, map_err.
  rewrite InsertLedgerEntry_run by done. erewrite insert_ledger_run; simpl; [|done|done| |done|].
  2:{ apply Hfresh. lia. }
  2:{ rewrite lookup_insert_eq. eauto. }
  rewrite InsertLedgerEntry_run by done. erewrite insert_ledger_run; simpl; [|done|done| |done|].
  2:{ rewrite fmap_app, elem_of_app; simpl. rewrite list_elem_of_singleton.
      intros [Hin|Heq]; [by eapply Hfresh; [|exact Hin]; lia|].
      apply Hinj in Heq; lia. }
  2:{ rewrite lookup_insert_eq. eauto. }
  rewrite UpdateTransactionStatus_run; simpl; [done|done|]. rewrite lookup_insert_eq. eauto.
Qed.

Lemma transfer_tx_run req txnID f s w :
  no_faults → [f; s] ≡ₚ [TransferRequest_FromAccountID req; TransferRequest_ToAccountID req] →
  TransferRequest_FromAccountID req ≠ TransferRequest_ToAccountID req →
  transactions (w_db w) !! txnID = None →
  fresh_uuids (w_tick w) 8 (w_db w) →
  (transfer_tx req txnID f s w).1 =
    match transfer_decision req (bank_of (w_db w)) with Ok _ => Ok () | Err e => Err e end.
Proof.
  intros Hnf Hperm Hne Hid Hfr. unfold transfer_tx, transfer_decision; simpl.
  rewrite lock_run by done.
  destruct (accounts (w_db w) !! f) as [a1|] eqn:Hl1.
  2:{ apply Permutation_length_2_inv in Hperm as [Hp|Hp]; injection Hp as <- <-;
      rewrite Hl1; simpl; try done; by destruct (accounts (w_db w) !! TransferRequest_FromAccountID req). }
  rewrite lock_run by done; simpl.
  destruct (accounts (w_db w) !! s) as [a2|] eqn:Hl2.
  2:{ apply Permutation_length_2_inv in Hperm as [Hp|Hp]; injection Hp as <- <-;
      rewrite Hl2; simpl; try done; by destruct (accounts (w_db w) !! TransferRequest_FromAccountID req). }
  assert (∃ fa ta, accounts (w_db w) !! TransferRequest_FromAccountID req = Some fa ∧
    accounts (w_db w) !! TransferRequest_ToAccountID req = Some ta) as (fa & ta & Hfa & Hta).
  { apply Permutation_length_2_inv in Hperm as [Hp|Hp]; injection Hp as <- <-; eauto. }
  erewrite !wrap_lock_run by (simpl; done). rewrite Hfa, Hta; simpl.
  case_decide; [done|]. case_decide; [done|].
  unfold mbind, M_bind, wrap, map_err. rewrite GetBalance_run by done. simpl.
  destruct (dec_LessThan _ _); [done|].
  rewrite transfer_post_run; simpl; eauto.
  eapply fresh_uuids_shift; [| |exact Hfr]; lia.
Qed.

Lemma transfer_decision_amount req b n :
  transfer_decision req b = Ok n → numeric_column (TransferRequest_Amount req) = Ok n.
Proof. unfold transfer_decision, posting_result. repeat case_match; naive_solver. Qed.

(** The result and the tables of a fault-free request that got past the gate. *)
Lemma transfer_body_run `{!DecimalLaws} req key w :
  no_faults → w_tx w = None → fresh_uuids (w_tick w) 10 (w_db w) →
  TransferRequest_FromAccountID req ≠ TransferRequest_ToAccountID req →
  let txnID := env_uuid (w_tick w) in
  ∃ w', match transfer_decision req (bank_of (w_db w)) with
    | Ok n => transfer_body req key w = (false, Ok (transfer_ok txnID), w') ∧
        transfer_step (TransferRequest_FromAccountID req) (TransferRequest_ToAccountID req)
          (TransferRequest_IdempotencyKey req) txnID n (w_db w) (w_db w')
    | Err e => transfer_body req key w = (true, Err e, w') ∧ w_db w' = w_db w
    end.
Proof.
  intros Hnf Htx Hfr Hne. unfold transfer_body.
  pose proof (lock_order_perm (TransferRequest_FromAccountID req)
    (TransferRequest_ToAccountID req)) as Hperm.
  destruct (lock_order _ _) as [f s].
  rewrite WithTx_run by (done || apply transfer_tx_tx).
  set (w1 := set_tx _ _).
  pose proof (transfer_tx_run req (env_uuid (w_tick w)) f s w1 Hnf Hperm Hne) as Hrun.
  assert ((transfer_tx req (env_uuid (w_tick w)) f s w1).1 =
    match transfer_decision req (bank_of (w_db w)) with Ok _ => Ok () | Err e => Err e end) as Hr.
  { apply Hrun; simpl; [apply Hfr; lia|]. eapply fresh_uuids_shift; [| |exact Hfr]; lia. }
  destruct (transfer_tx _ _ _ _ w1) as [[[]|e] w2] eqn:Htr; simpl in Hr;
    destruct (transfer_decision _ _) as [n|] eqn:Hdec; simplify_eq; [|by eexists].
  eexists. split; [done|]. rewrite rdb_Set_db.
  apply transfer_tx_ok in Htr as (n' & Hn' & Hstep); [|by eexists].
  apply transfer_decision_amount in Hdec. rewrite Hn' in Hdec. injection Hdec as <-.
  exact Hstep.
Qed.

(** ** The Redis key *)

(** A successful body may overwrite the key; a failed one leaves Redis alone. *)
Lemma transfer_body_redis req key w b r w' :
  transfer_body req key w = (b, r, w') →
  tick_grows w w' ∧
  (w_redis w' = w_redis w ∨
   is_ok r = true ∧ ∃ n v, (w_tick w ≤ n ≤ w_tick w')%nat ∧
     w_redis w' = redis_SET (env_now n) key v idempotencyTTL (w_redis w)).
Proof.
  unfold transfer_body. destruct (lock_order _ _) as [f s].
  pose proof (WithTx_redis _ (transfer_tx_redis req (env_uuid (w_tick w)) f s) (advance w)) as Hr.
  pose proof (WithTx_tick _ (transfer_tx_tick req (env_uuid (w_tick w)) f s) (advance w)) as Ht.
  unfold same_redis, tick_grows in *. simpl in Hr, Ht.
  destruct (WithTx _ (advance w)) as [[a|e] w2]; simpl in Hr, Ht;
    intros Heq; injection Heq as <- <- <-; [|split; [lia|by left]].
  unfold rdb_Set, redis_call. rewrite <-Hr.
  destruct (env_fault (w_tick w2)) as [[]|]; simpl; (split; [lia|]); eauto;
    right; (split; [done|]); exists (w_tick w2), (uuid_String (env_uuid (w_tick w)));
    (split; [lia|done]).
Qed.

Lemma TransferFunds_tick req : preserves tick_grows (TransferFunds req).
Proof.
  unfold TransferFunds. case_decide; [apply (preserves_fail _)|]. destruct (negb _); [apply (preserves_fail _)|].
  cbv zeta. refine (preserves_bind _ _ _ _ _); [apply preserves_wrap, redis_call_tick|]. intros b.
  destruct b; simpl; [|apply (preserves_fail _)]. intros w1.
  pose proof (transfer_body_redis req (idemp_key (TransferRequest_IdempotencyKey req)) w1) as Hb.
  destruct (transfer_body _ _ w1) as [[rollback r] w2]. destruct (Hb _ _ _ eq_refl) as [Ht _].
  unfold transfer_deferred. destruct rollback; simpl; [|done]. etrans; [exact Ht|].
  apply (preserves_ignore _ (rdb_Del _)). apply redis_call_tick.
Qed.

(** *** Held and free keys *)

(** The lifetime of a key is a whole number of milliseconds. *)
Lemma px_idempotencyTTL : px idempotencyTTL = idempotencyTTL.
Proof. reflexivity. Qed.

Lemma held_spec r t key : held r t key = true ↔ redis_view r t (idemp_key key) ≠ None.
Proof. apply bool_decide_eq_true. Qed.

Lemma not_held_spec r t key : held r t key = false ↔ redis_view r t (idemp_key key) = None.
Proof. unfold held. rewrite bool_decide_eq_false. split; [apply dec_stable|congruence]. Qed.

(** The gate: what SETNX does to a request that passed the first two checks. *)
Lemma TransferFunds_gate `{!RedisLaws} req w :
  env_fault (w_tick w) = None →
  TransferRequest_FromAccountID req ≠ TransferRequest_ToAccountID req →
  dec_IsPositive (TransferRequest_Amount req) = true →
  let k := idemp_key (TransferRequest_IdempotencyKey req) in
  let w1 := set_redis (redis_SETNX (w_now w) k "processing" idempotencyTTL (w_redis w)).2
              (emit (EvRedis "SETNX" k) w) in
  TransferFunds req w =
    if held (w_redis w) (w_now w) (TransferRequest_IdempotencyKey req)
    then (Err (ErrSentinel ErrDuplicateTransaction), w1)
    else let '(b, r, w2) := transfer_body req k w1 in (r, transfer_deferred k b w2).
Proof.
  intros Hnf Hne Hpos k w1. unfold TransferFunds. rewrite decide_False, Hpos by done. simpl.
  fold k. unfold mbind, M_bind, wrap, map_err, rdb_SetNX, redis_call.
  pose proof (SETNX_reply (w_now w) k "processing" idempotencyTTL (w_redis w)) as Hrep.
  subst w1. destruct (redis_SETNX _ _ _ _ _) as [b r1]. simpl in *. subst b. rewrite Hnf.
  unfold held. fold k. rewrite bool_decide_not. by destruct (bool_decide _).
Qed.

(** A request refused as a duplicate leaves the key as it was. *)
Lemma SETNX_held `{!RedisLaws} r t k v ttl t' k' :
  redis_view r t k ≠ None → t <= t' → 0 < ttl →
  redis_view (redis_SETNX t k v ttl r).2 t' k' = redis_view r t' k'.
Proof. intros Hv Ht Httl. rewrite SETNX_view by done. rewrite decide_False; naive_solver. Qed.

(** *** Traces *)

Lemma transfer_tx_emits req txnID f s :
  emits (transfer_script req txnID f s) (transfer_tx req txnID f s).
Proof.
  destruct store_emits as (Hlock & Hbal & Htxn & Hled & Hupd).
  unfold transfer_tx, transfer_script.
  apply (emits_bind [_]); [apply Hlock|intros _].
  apply (emits_bind [_]); [apply Hlock|intros _].
  apply (emits_bind [_]); [apply emits_map_err, Hlock|intros fa].
  apply (emits_bind [_]); [apply emits_map_err, Hlock|intros ta].
  case_decide; [apply emits_fail|]. case_decide; [apply emits_fail|].
  apply (emits_bind [_]); [apply emits_map_err, Hbal|intros b].
  destruct (dec_LessThan _ _); [apply emits_fail|]. unfold transfer_post.
  apply (emits_bind [_]); [apply (Htxn (mkTransaction _ _ _ _ _ _ _ _))|intros _].
  apply (emits_bind []); [apply emits_uuid_New|intros did].
  apply (emits_bind []); [apply emits_uuid_New|intros cid].
  apply (emits_bind [_]); [apply emits_map_err, (Hled (mkLedgerEntry _ _ _ _ _ _))|intros _].
  apply (emits_bind [_]); [apply emits_map_err, (Hled (mkLedgerEntry _ _ _ _ _ _))|intros _].
  apply Hupd.
Qed.

(** ** Properties of the service *)

(** The run of a request without faults. *)
Lemma TransferFunds_run_bank `{!DecimalLaws, !RedisLaws} req w :
  no_faults → w_tx w = None → fresh_uuids (w_tick w) 11 (w_db w) →
  match bank_transfer
      (held (w_redis w) (w_now w) (TransferRequest_IdempotencyKey req)) req (bank_of (w_db w)) with
  | Ok b => ∃ txnID w', TransferFunds req w = (Ok (transfer_ok txnID), w') ∧ bank_of (w_db w') ≡ b
  | Err e => ∃ w', TransferFunds req w = (Err e, w') ∧ w_db w' = w_db w
  end.
Proof.
  intros Hnf Htx (Hinj & Htxn & Hled). unfold bank_transfer.
  case_decide as Hne; [unfold TransferFunds; rewrite decide_True by done; by eexists|].
  destruct (dec_IsPositive _) eqn:Hpos; simpl.
  2:{ unfold TransferFunds. rewrite decide_False, Hpos by done. by eexists. }
  rewrite TransferFunds_gate by done. destruct (held _ _ _); [by eexists|].
  set (k := idemp_key _). set (w1 := set_redis _ _).
  destruct (transfer_body_run req k w1) as [w2 Hb]; try done.
  { split_and!; simpl; intros; [apply Hinj|apply Htxn|apply Hled]; auto; lia. }
  change (w_db w1) with (w_db w) in Hb.
  destruct (transfer_decision _ _) as [n|e]; destruct Hb as [-> Hb].
  - eexists _, _. split; [done|]. by apply transfer_step_bank in Hb.
  - eexists. split; [done|]. unfold transfer_deferred. by rewrite rdb_Del_db.
Qed.

(** C1. Refinement: without faults, [TransferFunds] is the abstract bank's
    transfer.  It answers exactly what the bank's decision table answers, error
    wrapping included, in that order of checks; on success the new tables hold
    the bank after the move, on an error the tables are untouched. *)
Theorem TransferFunds_refines_bank `{!DecimalLaws, !RedisLaws} req w :
  no_faults → w_tx w = None → fresh_uuids (w_tick w) 11 (w_db w) →
  match bank_transfer
      (held (w_redis w) (w_now w) (TransferRequest_IdempotencyKey req)) req (bank_of (w_db w)) with
  | Ok b => ∃ txnID w', TransferFunds req w = (Ok (transfer_ok txnID), w') ∧ bank_of (w_db w') ≡ b
  | Err e => ∃ w', TransferFunds req w = (Err e, w') ∧ w_db w' = w_db w
  end.
Proof. apply TransferFunds_run_bank. Qed.

(** C2. All or nothing, whatever external calls fail: an answer without error
    means exactly one posting of the request was committed, under the
    transaction id of the answer; an error means the tables are unchanged, or
    the request was committed and the reply to COMMIT was lost. *)
Theorem TransferFunds_all_or_nothing `{!DecimalLaws} req w r w' :
  w_tx w = None → TransferFunds req w = (r, w') →
  w_tx w' = None ∧
  match r with
  | Ok resp => resp = transfer_ok (TransferResponse_TransactionID resp) ∧
      committed req (TransferResponse_TransactionID resp) (w_db w) (w_db w')
  | Err e => w_db w' = w_db w ∨ e = commit_lost ∧ ∃ txnID, committed req txnID (w_db w) (w_db w')
  end.
Proof.
  intros Htx Hr. apply TransferFunds_cases in Hr as [Htx' Ho]; [|done]. split; [done|].
  destruct Ho as [(e & -> & ->)|(txnID & Hc & [-> | ->])]; eauto.
Qed.

Lemma TransferFunds_in_order `{!DecimalLaws} req w :
  w_tx w = None → books (w_db w) →
  let db' := w_db (TransferFunds req w).2 in
  books db' ∧ total_balance db' = total_balance (w_db w).
Proof.
  intros Htx Hb. destruct (TransferFunds req w) as [r w'] eqn:Hr; cbv zeta; simpl.
  apply TransferFunds_cases in Hr as [_ Ho]; [|done].
  assert (books (w_db w') ∧ total_supply (w_db w') = total_supply (w_db w)) as [Hb' Hs].
  { destruct Ho as [(e & _ & ->)|(txnID & (n & _ & Hs) & _)];
      eauto using transfer_step_books, transfer_step_supply. }
  split; [done|]. rewrite <-(total_supply_balances (w_db w')) by apply Hb'.
  by rewrite <-(total_supply_balances (w_db w)) by apply Hb.
Qed.

(** The books stay in order under any request and any failures: the
    schema's constraints hold, every transaction is Completed and posted
    exactly once, no account is overdrawn, and the balances of all accounts add
    up to what they did. *)
Theorem TransferFunds_keeps_books `{!DecimalLaws} req w :
  w_tx w = None → books (w_db w) →
  let db' := w_db (TransferFunds req w).2 in
  books db' ∧ total_balance db' = total_balance (w_db w).
Proof. apply TransferFunds_in_order. Qed.

(** What the answer means for every account: on success the sender lost and
    the receiver gained the rounded amount, the sender had it, and every other
    balance is what it was. *)
Theorem TransferFunds_balances `{!DecimalLaws} req w resp w' id :
  w_tx w = None → TransferFunds req w = (Ok resp, w') →
  let n := round_half_away (dec_units (TransferRequest_Amount req)) in
  let from := TransferRequest_FromAccountID req in
  let to := TransferRequest_ToAccountID req in
  0 < n <= balance from (w_db w) ∧
  balance id (w_db w') = balance id (w_db w)
    + (if decide (id = to) then n else 0) - (if decide (id = from) then n else 0).
Proof.
  intros Htx Hr n from to. apply TransferFunds_cases in Hr as [_ Ho]; [|done].
  destruct Ho as [(e & ? & _)|(txnID & (m & Hm & Hs) & _)]; [done|].
  pose proof (numeric_column_ok _ _ Hm) as [-> _]. split.
  { by destruct Hs as (_ & _ & _ & [? _] & ? & _). }
  by apply (transfer_step_balance id) in Hs.
Qed.

Lemma transfer_outcome_keys req r db db' :
  transfer_outcome req r db db' →
  (∀ k, key_used k db → key_used k db') ∧
  (is_ok r = true → ¬ key_used (TransferRequest_IdempotencyKey req) db ∧
     key_used (TransferRequest_IdempotencyKey req) db').
Proof.
  intros [(e & -> & ->)|(txnID & (n & _ & Hs) & Hr)]; [done|].
  pose proof (transfer_step_frame _ _ _ _ _ _ _ Hs) as (_ & _ & _ & Hsub & Hk).
  split; [intros k; by apply key_used_mono|]. intros _. split; [by apply Hs|done].
Qed.

(** Exactly-once: among any number of requests with one idempotency key,
    under any failures and whatever Redis forgot or still holds, at most one
    completes; none does if the key was processed before. *)
Theorem TransferFunds_key_completes_once `{!DecimalLaws} reqs w k :
  w_tx w = None →
  (length (completed_with k (serve reqs w).1) ≤ 1)%nat ∧
  (key_used k (w_db w) → completed_with k (serve reqs w).1 = []).
Proof.
  revert w. induction reqs as [|req reqs IH]; intros w Htx; simpl; [auto|].
  destruct (TransferFunds req w) as [r w1] eqn:Hr.
  apply TransferFunds_cases in Hr as [Htx1 Ho]; [|done].
  apply transfer_outcome_keys in Ho as [Hmono Hok].
  specialize (IH w1 Htx1). destruct (serve reqs w1) as [rs w2]; simpl in IH |- *.
  destruct IH as [Hle Hnone]. unfold completed_with in *. rewrite filter_cons. simpl.
  case_decide as Hc; [|auto]. destruct Hc as [<- Hc]. destruct (Hok Hc) as [Hnk Hk].
  rewrite Hnone by done. simpl. split; [lia|done].
Qed.

(** A key that a completed request left is held for a day. *)
Lemma replay_refused `{!DecimalLaws, !RedisLaws, !EnvLaws} req w resp w' req2 w2 :
  TransferFunds req w = (Ok resp, w') →
  TransferRequest_IdempotencyKey req2 = TransferRequest_IdempotencyKey req →
  TransferRequest_FromAccountID req2 ≠ TransferRequest_ToAccountID req2 →
  dec_IsPositive (TransferRequest_Amount req2) = true →
  w_redis w2 = w_redis w' → w_now w' <= w_now w2 < w_now w + idempotencyTTL →
  env_fault (w_tick w2) = None →
  let k := idemp_key (TransferRequest_IdempotencyKey req) in
  ∃ w3, TransferFunds req2 w2 = (Err (ErrSentinel ErrDuplicateTransaction), w3) ∧
    w_db w3 = w_db w2 ∧ w_trace w3 = w_trace w2 ++ [EvRedis "SETNX" k] ∧
    (∀ t k', w_now w2 <= t → redis_view (w_redis w3) t k' = redis_view (w_redis w2) t k').
Proof.
  intros Hr Hk Hne2 Hpos2 Hred Hnow Hnf2 k.
  assert (env_fault (w_tick w) = None ∧ TransferRequest_FromAccountID req ≠ TransferRequest_ToAccountID req
    ∧ dec_IsPositive (TransferRequest_Amount req) = true) as (Hnf & Hne & Hpos).
  { unfold TransferFunds in Hr. case_decide as Hne; [done|].
    destruct (dec_IsPositive _); [|done]. split_and!; [|done|done]. simpl in Hr.
    unfold mbind, M_bind, wrap, map_err, rdb_SetNX, redis_call in Hr.
    destruct (redis_SETNX _ _ _ _ _). by destruct (env_fault (w_tick w)) as [[]|]. }
  rewrite TransferFunds_gate in Hr by done. fold k in Hr.
  destruct (held _ _ _) eqn:Hh; [done|].
  apply not_held_spec in Hh. fold k in Hh.
  set (w1 := set_redis _ _) in Hr. destruct (transfer_body req k w1) as [[b r] w4] eqn:Hb.
  pose proof (transfer_body_flag _ _ _ _ _ _ Hb) as ->. injection Hr as -> <-. simpl in *.
  apply transfer_body_redis in Hb as [Htick Hbr].
  assert (redis_view (w_redis w4) (w_now w2) k ≠ None) as Hview.
  { assert (w_now w <= w_now w4) by (apply env_now_mono; unfold tick_grows in Htick; simpl in Htick; lia).
    assert (redis_view (w_redis w1) (w_now w2) k ≠ None) as Hv1.
    { unfold w1; simpl. rewrite SETNX_view, decide_True, px_idempotencyTTL by (done || lia).
      destruct (Z.ltb_spec (w_now w2) (w_now w + idempotencyTTL)); [done|lia]. }
    destruct Hbr as [-> |(_ & n & v & Hn & ->)]; [done|].
    assert (w_now w <= env_now n <= w_now w4).
    { unfold w1 in Hn; simpl in Hn. split; apply env_now_mono; lia. }
    rewrite SET_view, decide_True, px_idempotencyTTL by (done || lia).
    destruct (Z.ltb_spec (w_now w2) (env_now n + idempotencyTTL)); [done|lia]. }
  rewrite TransferFunds_gate by done. rewrite Hk, Hred. fold k.
  assert (held (w_redis w4) (w_now w2) (TransferRequest_IdempotencyKey req) = true) as ->
    by by apply held_spec.
  eexists. split_and!; [done|done|done|]. simpl. intros t k' Ht.
  by apply SETNX_held.
Qed.

(** C18. The Redis gate: for 24 hours after a request completed, a well-formed
    request (a positive amount, two accounts) with the same key is refused as a
    duplicate by SETNX alone, if nobody touched Redis in between and SETNX meets
    no fault: no SQL is run, and neither the tables nor the key's deadline
    change. *)
Theorem TransferFunds_replay_refused `{!DecimalLaws, !RedisLaws, !EnvLaws} req w resp w' req2 w2 :
  TransferFunds req w = (Ok resp, w') →
  TransferRequest_IdempotencyKey req2 = TransferRequest_IdempotencyKey req →
  TransferRequest_FromAccountID req2 ≠ TransferRequest_ToAccountID req2 →
  dec_IsPositive (TransferRequest_Amount req2) = true →
  w_redis w2 = w_redis w' → w_now w' <= w_now w2 < w_now w + idempotencyTTL →
  env_fault (w_tick w2) = None →
  let k := idemp_key (TransferRequest_IdempotencyKey req) in
  ∃ w3, TransferFunds req2 w2 = (Err (ErrSentinel ErrDuplicateTransaction), w3) ∧
    w_db w3 = w_db w2 ∧ w_trace w3 = w_trace w2 ++ [EvRedis "SETNX" k] ∧
    (∀ t k', w_now w2 <= t → redis_view (w_redis w3) t k' = redis_view (w_redis w2) t k').
Proof. apply replay_refused. Qed.

(** C19. A failed request can be retried: when nothing is lost on the way to
    Redis, a request that passed the gate and failed leaves its key free and
    every other key as it was. *)
Theorem TransferFunds_failure_releases_key `{!RedisLaws, !EnvLaws} req w e w' t k' :
  no_faults →
  TransferRequest_FromAccountID req ≠ TransferRequest_ToAccountID req →
  dec_IsPositive (TransferRequest_Amount req) = true →
  held (w_redis w) (w_now w) (TransferRequest_IdempotencyKey req) = false →
  TransferFunds req w = (Err e, w') → w_now w' <= t →
  redis_view (w_redis w') t k' =
    if decide (k' = idemp_key (TransferRequest_IdempotencyKey req))
    then None else redis_view (w_redis w) t k'.
Proof.
  intros Hnf Hne Hpos Hheld Hr Ht. rewrite TransferFunds_gate, Hheld in Hr by done.
  set (k := idemp_key _) in *. set (w1 := set_redis _ _) in Hr.
  destruct (transfer_body req k w1) as [[b r] w2] eqn:Hb.
  pose proof (transfer_body_flag _ _ _ _ _ _ Hb) as ->. injection Hr as -> <-.
  apply transfer_body_redis in Hb as [Htick [Hred|[? _]]]; [|done].
  unfold transfer_deferred, rdb_Del in *; simpl in *. rewrite redis_call_run in * by done.
  simpl in *. assert (w_now w <= w_now w2 <= t) as [? ?].
  { unfold w_now in *; simpl in *. unfold tick_grows in Htick; simpl in Htick.
    split; [apply env_now_mono; lia|]. etrans; [|exact Ht]. apply env_now_mono. lia. }
  rewrite DEL_view by done. case_decide; [done|]. rewrite Hred. unfold w1; simpl.
  rewrite SETNX_view by (done || lia). rewrite decide_False; naive_solver.
Qed.

(** C37. A gap in the cleanup: when the reply to SETNX is lost after Redis set
    the key, the request fails before the cleanup is deferred.  No money moved,
    and yet its key is held, so that retries are refused as duplicates, for
    the whole 24 hours. *)
Theorem TransferFunds_lost_setnx_reply_keeps_key `{!RedisLaws} req w :
  env_fault (w_tick w) = Some FaultApplied →
  TransferRequest_FromAccountID req ≠ TransferRequest_ToAccountID req →
  dec_IsPositive (TransferRequest_Amount req) = true →
  held (w_redis w) (w_now w) (TransferRequest_IdempotencyKey req) = false →
  ∃ w', TransferFunds req w =
      (Err (Errorf "redis idempotency check: " (ErrDriver ConnFailure)), w') ∧
    w_db w' = w_db w ∧
    ∀ t, w_now w <= t < w_now w + idempotencyTTL →
      held (w_redis w') t (TransferRequest_IdempotencyKey req) = true.
Proof.
  intros Hf Hne Hpos Hfree%not_held_spec. unfold TransferFunds.
  rewrite decide_False, Hpos by done. simpl.
  unfold mbind, M_bind, wrap, map_err, rdb_SetNX, redis_call.
  destruct (redis_SETNX _ _ _ _ _) as [b r1] eqn:Hs. rewrite Hf.
  eexists. split_and!; [done|done|]. simpl. intros t Ht. apply held_spec.
  replace r1 with (redis_SETNX (w_now w) (idemp_key (TransferRequest_IdempotencyKey req))
    "processing" idempotencyTTL (w_redis w)).2 by by rewrite Hs.
  rewrite SETNX_view, decide_True, px_idempotencyTTL by (done || lia).
  destruct (Z.ltb_spec t (w_now w + idempotencyTTL)); [done|lia].
Qed.

Lemma lock_order_lt `{!UuidLaws} from to :
  from ≠ to →
  String.ltb (uuid_String (lock_order from to).1) (uuid_String (lock_order from to).2) = true.
Proof.
  intros Hne. unfold lock_order. destruct (String.ltb (uuid_String to) _) eqn:Hlt; [done|].
  simpl. revert Hlt. unfold String.ltb. rewrite (String.compare_antisym (uuid_String from)).
  destruct (String.compare _ _) eqn:Hc; simpl; try done.
  apply String.compare_eq_iff in Hc. by apply uuid_String_inj in Hc.
Qed.

(** C20. The order of the calls, whatever fails: SETNX comes before any SQL;
    inside the transaction the two account rows are locked first, in the strict
    order of their texts, before the balance is read, which is before anything
    is written; a failure stops along this script and rolls back; SET or DEL of
    the key is last, SET exactly when the request completed. *)
Theorem TransferFunds_call_order `{!UuidLaws} req w r w' :
  TransferFunds req w = (r, w') →
  let k := idemp_key (TransferRequest_IdempotencyKey req) in
  ∃ evs, w_trace w' = w_trace w ++ evs ∧
    (evs = [] ∨ evs = [EvRedis "SETNX" k] ∨
     ∃ f s txnID sql,
       [f; s] ≡ₚ [TransferRequest_FromAccountID req; TransferRequest_ToAccountID req] ∧
       String.ltb (uuid_String f) (uuid_String s) = true ∧
       sql_trace (is_ok r) (transfer_script req txnID f s) sql ∧
       evs = EvRedis "SETNX" k :: sql ++ [EvRedis (if is_ok r then "SET" else "DEL") k]).
Proof.
  intros Hr k. unfold TransferFunds, fail in Hr.
  case_decide as Hne; [injection Hr as <- <-; exists []; rewrite app_nil_r; auto|].
  destruct (dec_IsPositive _);
    [simpl in Hr|injection Hr as <- <-; exists []; rewrite app_nil_r; auto].
  unfold mbind, M_bind, wrap, map_err in Hr.
  destruct (rdb_SetNX _ _ _ w) as [res w1] eqn:Hs.
  unfold rdb_SetNX in Hs. apply redis_call_trace in Hs. fold k in Hs, Hr.
  destruct res as [[]|e]; simpl in Hr;
    [|injection Hr as <- <-; exists [EvRedis "SETNX" k]; auto..].
  unfold transfer_body in Hr.
  pose proof (lock_order_perm (TransferRequest_FromAccountID req) (TransferRequest_ToAccountID req)) as Hp.
  pose proof (lock_order_lt _ _ Hne) as Hlt.
  destruct (lock_order _ _) as [f s]. simpl in Hp, Hlt. set (txnID := env_uuid _) in Hr.
  pose proof (WithTx_trace _ _ (advance w1) (transfer_tx_emits req txnID f s))
    as (tl & Htl & Hshape & Hall). simpl in Htl. rewrite Hs, <-app_assoc in Htl.
  assert (sql_trace (is_ok (WithTx (transfer_tx req txnID f s) (advance w1)).1)
    (transfer_script req txnID f s) (EvBegin :: tl)) as Hsql.
  { split; [intros Hok; by rewrite (Hall Hok)|]. destruct Hshape as [->|[->|[j ->]]]; eauto. }
  destruct (WithTx _ _) as [[[]|e] w2]; simpl in Htl, Hsql; injection Hr as <- <-;
    unfold transfer_deferred, rdb_Set, rdb_Del; simpl; eexists;
    (split; [erewrite redis_call_trace_eq, Htl, <-app_assoc; reflexivity|]);
    right; right; exists f, s, txnID, (EvBegin :: tl); auto.
Qed.

(** [GetBalance] reads: the tables never change; an answer is the sum of
    credits minus debits of an existing account; without faults an existing
    account is answered and a missing one is not found. *)
Theorem Service_GetBalance_correct id w r w' :
  w_tx w = None → Service_GetBalance id w = (r, w') →
  w_db w' = w_db w ∧
  match r with
  | Ok d => is_Some (accounts (w_db w) !! id) ∧ d = dec_of_units (balance id (w_db w))
  | Err e => no_faults → accounts (w_db w) !! id = None ∧ e = ErrSentinel ErrAccountNotFound
  end.
Proof.
  intros Htx Hr. set (w1 := set_tx (Some (w_db w, w_now w)) (emit EvBegin w)).
  assert (preserves same_tx (read_balance id)) as Hrtx.
  { destruct store_preserves_tx as (? & ? & _). unfold read_balance. solve_preserves. }
  assert (∀ d w2, read_balance id w1 = (Ok d, w2) → w_db w2 = w_db w ∧
    is_Some (accounts (w_db w) !! id) ∧ d = dec_of_units (balance id (w_db w))) as Hok.
  { intros d w2 (a & w3 & [Ha ->]%GetAccountForUpdate_ok & Hd)%bind_ok.
    apply bind_ok in Hd as (b & w4 & [-> ->]%GetBalance_ok & [<- <-]%ret_ok). eauto. }
  split.
  - apply WithTx_cases in Hr as (_ & [(e & -> & Hdb)|(d & w2 & Hfn & Hdb & _)]); [done| |done..].
    apply Hok in Hfn as [<- _]. done.
  - destruct r as [d|e].
    + apply WithTx_cases in Hr as (_ & [(e & ? & _)|(d' & w2 & Hfn & _ & Hd)]); [done| |done..].
      apply Hok in Hfn as [_ ?]. destruct Hd as [?|[? _]]; simplify_eq. done.
    + intros Hnf. unfold Service_GetBalance in Hr. rewrite WithTx_run in Hr by done.
      unfold read_balance in Hr. rewrite lock_run in Hr by done. simpl in Hr.
      destruct (accounts (w_db w) !! id); [|by simplify_eq].
      unfold mbind, M_bind in Hr. by rewrite GetBalance_run in Hr.
Qed.

End transfer.
