(* ===== verification/Example.v ===== *)
(** * Example: a small bank to evaluate the program on

    Three accounts on the concrete instances of [Concrete]: the system account
    of the schema's seed, alice (funded with 5000.0000) and bob, and a frozen
    account of carol; the witnesses of the theorems run the program on it. *)

From S2P Require Import Prelude Platform Concrete Errs Model Database GoM Store Books.
From stdpp Require Import pretty.
#[local] Open Scope Z_scope.

#[export] Existing Instances text_uuid coef_decimal map_redis.
#[export] Existing Instances text_uuid_laws coef_decimal_laws map_redis_laws test_env_laws.

Module Ex.

Definition uid (s : string) : @UUID text_uuid := s.

Definition system_user : User :=
  mkUser "u-system" "the_vault_system" "system@thevault.internal" "none" "The Vault System"
    true true 0 0.
Definition alice : User := mkUser "u-alice" "alice" "alice@x.org" "h" "Alice" false true 0 0.
Definition bob : User := mkUser "u-bob" "bob" "bob@x.org" "h" "Bob" false true 0 0.
Definition carol : User := mkUser "u-carol" "carol" "carol@x.org" "h" "Carol" false true 0 0.

Definition account (id user : string) (st : AccountStatus) : Account := mkAccount id user "INR" st 0.

(** Runs an insertion that is known to succeed. *)
Definition ok_or_same (f : DB → result driver_error DB) (db : DB) : DB :=
  match f db with Ok db' => db' | Err _ => db end.

Definition base_db : DB :=
  ok_or_same (insert_account 0 (account "a-carol" "u-carol" AccountStatusFrozen))
  (ok_or_same (insert_account 0 (account "a-bob" "u-bob" AccountStatusActive))
  (ok_or_same (insert_account 0 (account "a-alice" "u-alice" AccountStatusActive))
  (ok_or_same (insert_account 0 (account "a-system" "u-system" AccountStatusActive))
  (ok_or_same (insert_user 0 carol)
  (ok_or_same (insert_user 0 bob)
  (ok_or_same (insert_user 0 alice)
  (ok_or_same (insert_user 0 system_user) empty_db))))))).

Definition db : DB := post_funding "a-system" "a-alice" "k-seed" "t-seed" "l-seed" 50000000 0 base_db.

(** The clock starts at 10^18 nanoseconds. *)
Definition start : Z := 10 ^ 18.

Definition world (faults : nat → option fault) : @World _ map_redis := mkWorld db None ∅ 0 [].

(** Pay [units] of 10^-4 from alice to bob. *)
Definition pay (units : Z) : TransferRequest :=
  mkTransferRequest "a-alice" "a-bob" (mkDec units (-4)) "k-1".

Lemma base_wf : db_wf base_db.
Proof.
  unfold base_db, ok_or_same.
  repeat match goal with
  | |- db_wf (match insert_account ?n ?a ?d with Ok _ => _ | Err _ => _ end) =>
     destruct (insert_account n a d) eqn:?; [eapply insert_account_wf; [|eassumption]|]
  | |- db_wf (match insert_user ?n ?u ?d with Ok _ => _ | Err _ => _ end) =>
     destruct (insert_user n u d) eqn:?; [eapply insert_user_wf; [|eassumption]|]
  end; apply empty_books.
Qed.

Lemma base_books : books base_db.
Proof.
  split; [apply base_wf| |].
  - apply map_Forall_to_list. vm_compute. constructor.
  - intros id. by vm_compute.
Qed.

Lemma db_books : books db.
Proof.
  apply (funding_step_books (uid "a-system") (uid "a-alice") (uid "t-seed") 50000000 base_db); [apply base_books|].
  unfold funding_step, active. split; [done|]. split; [by eexists|]. split; [by eexists|].
  split; [done|]. split; [by vm_compute|].
  exists (uid "k-seed"), (uid "l-seed"), 0.
  split; [apply (bool_decide_unpack _); by vm_compute|].
  split; [apply (bool_decide_unpack _); by vm_compute|reflexivity].
Qed.

(** Generated identifiers are not the ones written above. *)
Lemma test_fresh faults t (d : DB) n k :
  Forall (λ id, String.prefix "gen-" id = false) (map_to_list (transactions d)).*1 →
  Forall (λ id, String.prefix "gen-" id = false) (led_id <$> ledger d) →
  @fresh_uuids _ (test_env faults t) n k d.
Proof.
  intros Ht Hl. split_and!; simpl.
  - intros i j _ _ Hij. by apply (inj pretty), (inj (String.append "gen-")).
  - intros i _. match goal with |- ?x = None => destruct x as [r|] eqn:Hr; [|done] end.
    rewrite Forall_forall in Ht. specialize (Ht ("gen-" ++ pretty i)%string).
    exfalso. assert (false = true); [|done]. rewrite <-Ht; [by destruct (pretty i)|].
    apply list_elem_of_fmap. eexists (_, r). split; [done|]. by apply elem_of_map_to_list.
  - intros i _ Hin. rewrite Forall_forall in Hl. specialize (Hl _ Hin).
    revert Hl. by destruct (pretty i).
Qed.

(** Conversion compares the example tables by name before it computes them. *)
#[global] Strategy 1000 [db base_db].

End Ex.
