(* ===== verification/TransferExamples.v ===== *)
(** * TransferExamples: the transfer service on the example bank

    Each property of [Transfer] that has hypotheses, applied to a concrete run
    on the bank of [Example] where they hold. *)

From S2P Require Import Prelude Platform Concrete Errs Model Database GoM Store Books Example Transfer.
#[local] Open Scope Z_scope.

(** ** Witnesses: the properties at work on the example bank *)

Section witnesses.

#[local] Instance quiet : @Env text_uuid := test_env never Ex.start.

(** The reply to the first call (SETNX) is lost. *)
Definition setnx_reply_lost : @Env text_uuid := test_env (fault_at 0 FaultApplied) Ex.start.

Lemma quiet_no_faults : no_faults.
Proof. done. Qed.

#[local] Abbreviation ex_db := (w_db (Ex.world never)).

Lemma ex_books : books ex_db.
Proof. exact Ex.db_books. Qed.

Lemma ex_fresh n k : fresh_uuids n k ex_db.
Proof. apply Ex.test_fresh; vm_compute; repeat constructor. Qed.

(** Paying 10.0000 out of 5000.0000, and the resulting world. *)
#[local] Abbreviation ex_paid := (TransferFunds (Ex.pay 100000) (Ex.world never)).2.

(** Trying to pay 9999.0000. *)
#[local] Abbreviation ex_refused := (TransferFunds (Ex.pay 99990000) (Ex.world never)).2.

Lemma ex_paid_run :
  TransferFunds (Ex.pay 100000) (Ex.world never) = (Ok (transfer_ok (Ex.uid "gen-1")), ex_paid).
Proof. apply run_split. vm_compute. reflexivity. Qed.

Lemma ex_refused_run :
  TransferFunds (Ex.pay 99990000) (Ex.world never) = (Err (ErrSentinel ErrInsufficientFunds), ex_refused).
Proof. apply run_split. vm_compute. reflexivity. Qed.

Lemma TransferFunds_refines_bank_witness :
  is_ok (bank_transfer false (Ex.pay 100000) (bank_of ex_db)) = true ∧
  match bank_transfer (held (w_redis (Ex.world never)) (w_now (Ex.world never)) (Ex.uid "k-1"))
          (Ex.pay 100000) (bank_of (w_db (Ex.world never))) with
  | Ok b => ∃ txnID w', TransferFunds (Ex.pay 100000) (Ex.world never) = (Ok (transfer_ok txnID), w') ∧
      bank_of (w_db w') ≡ b
  | Err e => ∃ w', TransferFunds (Ex.pay 100000) (Ex.world never) = (Err e, w') ∧
      w_db w' = w_db (Ex.world never)
  end.
Proof.
  split; [by vm_compute|].
  apply (TransferFunds_refines_bank (Ex.pay 100000) (Ex.world never));
    [apply quiet_no_faults|reflexivity|apply ex_fresh].
Defined.

Lemma TransferFunds_all_or_nothing_witness :
  w_tx ex_paid = None ∧ transfer_ok (Ex.uid "gen-1") = transfer_ok (Ex.uid "gen-1") ∧
  committed (Ex.pay 100000) (Ex.uid "gen-1") (w_db (Ex.world never)) (w_db ex_paid).
Proof.
  exact (TransferFunds_all_or_nothing (Ex.pay 100000) (Ex.world never)
    (Ok (transfer_ok (Ex.uid "gen-1"))) ex_paid eq_refl ex_paid_run).
Defined.

Lemma TransferFunds_keeps_books_witness :
  books (w_db ex_paid) ∧ total_balance (w_db ex_paid) = total_balance ex_db.
Proof. exact (TransferFunds_keeps_books (Ex.pay 100000) (Ex.world never) eq_refl ex_books). Defined.

Lemma TransferFunds_balances_witness :
  balance (Ex.uid "a-bob") (w_db ex_paid) = 100000 ∧
  let n := round_half_away (dec_units (TransferRequest_Amount (Ex.pay 100000))) in
  0 < n <= balance (Ex.uid "a-alice") ex_db ∧
  balance (Ex.uid "a-bob") (w_db ex_paid) = balance (Ex.uid "a-bob") ex_db
    + (if decide (Ex.uid "a-bob" = Ex.uid "a-bob") then n else 0)
    - (if decide (Ex.uid "a-bob" = Ex.uid "a-alice") then n else 0).
Proof.
  split; [by vm_compute|].
  exact (TransferFunds_balances (Ex.pay 100000) (Ex.world never) (transfer_ok (Ex.uid "gen-1"))
    ex_paid (Ex.uid "a-bob") eq_refl ex_paid_run).
Defined.

Lemma TransferFunds_key_completes_once_witness :
  (length (completed_with (Ex.uid "k-1")
     (serve [Ex.pay 100000; Ex.pay 100000] (Ex.world never)).1) ≤ 1)%nat ∧
  (key_used (Ex.uid "k-1") ex_db →
   completed_with (Ex.uid "k-1") (serve [Ex.pay 100000; Ex.pay 100000] (Ex.world never)).1 = []).
Proof.
  exact (TransferFunds_key_completes_once [Ex.pay 100000; Ex.pay 100000] (Ex.world never)
    (Ex.uid "k-1") eq_refl).
Defined.

Lemma TransferFunds_replay_refused_witness :
  ∃ w3, TransferFunds (Ex.pay 7) ex_paid = (Err (ErrSentinel ErrDuplicateTransaction), w3) ∧
    w_db w3 = w_db ex_paid ∧
    w_trace w3 = w_trace ex_paid ++ [EvRedis "SETNX" (idemp_key (Ex.uid "k-1"))] ∧
    (∀ t k', w_now ex_paid <= t → redis_view (w_redis w3) t k' = redis_view (w_redis ex_paid) t k').
Proof.
  refine (TransferFunds_replay_refused (Ex.pay 100000) (Ex.world never)
    (transfer_ok (Ex.uid "gen-1")) ex_paid (Ex.pay 7) ex_paid ex_paid_run eq_refl _ eq_refl eq_refl _ eq_refl).
  - by apply (bool_decide_unpack _).
  - split; [reflexivity|]. apply Z.ltb_lt. vm_compute. reflexivity.
Defined.

Lemma TransferFunds_failure_releases_key_witness :
  let k := idemp_key (Ex.uid "k-1") in
  redis_view (w_redis ex_refused) (w_now ex_refused) k =
    if decide (k = idemp_key (TransferRequest_IdempotencyKey (Ex.pay 99990000)))
    then None else redis_view (w_redis (Ex.world never)) (w_now ex_refused) k.
Proof.
  refine (TransferFunds_failure_releases_key (Ex.pay 99990000) (Ex.world never)
    (ErrSentinel ErrInsufficientFunds) ex_refused (w_now ex_refused) (idemp_key (Ex.uid "k-1"))
    quiet_no_faults _ eq_refl _ ex_refused_run _);
    [by apply (bool_decide_unpack _)|vm_compute; reflexivity|reflexivity].
Defined.

Lemma TransferFunds_lost_setnx_reply_keeps_key_witness :
  ∃ w', @TransferFunds _ _ _ setnx_reply_lost (Ex.pay 100000) (Ex.world never) =
      (Err (Errorf "redis idempotency check: " (ErrDriver ConnFailure)), w') ∧
    w_db w' = ex_db ∧
    ∀ t, Ex.start <= t < Ex.start + idempotencyTTL → held (w_redis w') t (Ex.uid "k-1") = true.
Proof.
  apply (@TransferFunds_lost_setnx_reply_keeps_key _ _ _ setnx_reply_lost _
    (Ex.pay 100000) (Ex.world never));
    [reflexivity|by apply (bool_decide_unpack _)|reflexivity|vm_compute; reflexivity].
Defined.

Lemma TransferFunds_call_order_witness :
  let k := idemp_key (Ex.uid "k-1") in
  ∃ evs, w_trace ex_paid = [] ++ evs ∧
    (evs = [] ∨ evs = [EvRedis "SETNX" k] ∨
     ∃ f s txnID sql,
       [f; s] ≡ₚ [Ex.uid "a-alice"; Ex.uid "a-bob"] ∧
       String.ltb (uuid_String f) (uuid_String s) = true ∧
       sql_trace true (transfer_script (Ex.pay 100000) txnID f s) sql ∧
       evs = EvRedis "SETNX" k :: sql ++ [EvRedis "SET" k]).
Proof.
  exact (TransferFunds_call_order (Ex.pay 100000) (Ex.world never)
    (Ok (transfer_ok (Ex.uid "gen-1"))) ex_paid ex_paid_run).
Defined.

Lemma Service_GetBalance_correct_witness :
  w_db (Service_GetBalance (Ex.uid "a-alice") (Ex.world never)).2 = ex_db ∧
  is_Some (accounts ex_db !! Ex.uid "a-alice") ∧
  dec_of_units 50000000 = dec_of_units (balance (Ex.uid "a-alice") ex_db).
Proof.
  apply (Service_GetBalance_correct (Ex.uid "a-alice") (Ex.world never) (Ok (dec_of_units 50000000)));
    [reflexivity|apply run_split; vm_compute; reflexivity].
Defined.

End witnesses.
