(* ===== verification/Funding.v ===== *)
(** * Funding: the funding service ([internal/service/funding.go])

    [FundAccount] mints money: a Completed transaction from the system user's
    account with a single credit row of the target.  Nothing bounds how often a
    funding request takes effect: its idempotency key is generated anew. *)

From S2P Require Import Prelude Platform Errs Model Database GoM Store Books.
#[local] Open Scope Z_scope.

Section funding.
Context `{UuidLib} `{DecimalLib} `{RedisServer} `{!Env}.

(** The function passed to [WithTx]. *)
Definition fund_tx (req : FundRequest) (systemAcct : Account) (txnID : UUID) : M unit :=
  targetAcct ← GetAccountForUpdate (FundRequest_ToAccountID req);
  if decide (Account_Status targetAcct ≠ AccountStatusActive)
  then fail (Errorf "target " (ErrSentinel ErrAccountNotActive))
  else
  key ← uuid_New;
  _ ← CreateTransaction (mkTransaction txnID (Account_ID systemAcct)
        (FundRequest_ToAccountID req) (FundRequest_Amount req) TxnStatusPending
        key time_Zero time_Zero);
  creditID ← uuid_New;
  let creditEntry := mkLedgerEntry creditID (FundRequest_ToAccountID req) txnID
        (FundRequest_Amount req) EntryTypeCredit time_Zero in
  _ ← wrap "credit ledger: " (InsertLedgerEntry creditEntry);
  UpdateTransactionStatus txnID TxnStatusCompleted.

Definition fund_response (req : FundRequest) (txnID : UUID) : FundResponse :=
  mkFundResponse txnID (FundRequest_ToAccountID req) (FundRequest_Amount req)
    TxnStatusCompleted "Funds minted successfully".

Definition FundAccount (req : FundRequest) (systemUserID : UUID) : M FundResponse :=
  if negb (dec_IsPositive (FundRequest_Amount req)) then fail (ErrSentinel ErrInvalidAmount)
  else
  txnID ← uuid_New;
  systemAcct ← wrap "system account lookup: " (GetAccountByUserID systemUserID);
  _ ← WithTx (fund_tx req systemAcct txnID);
  mret (fund_response req txnID).

(** Fundings served one after the other. *)
Fixpoint serve_fundings (reqs : list (FundRequest * UUID)) (w : World)
    : list (FundRequest * result error FundResponse) * World :=
  match reqs with
  | [] => ([], w)
  | (req, user) :: reqs' =>
    let '(r, w1) := FundAccount req user w in
    let '(rs, w2) := serve_fundings reqs' w1 in
    ((req, r) :: rs, w2)
  end.

(** ** What the theorems speak of *)

(** The account fundings of [user] are drawn on. *)
Definition active_account_of (user : UUID) (sys : Account) (db : DB) : Prop :=
  accounts db !! Account_ID sys = Some sys ∧ Account_UserID sys = user ∧
  Account_Status sys = AccountStatusActive.

(** The decision table of a funding, errors included: the amount minted.
    [sys]: the id of the system account found, if any. *)
Definition fund_decision (req : FundRequest) (sys : option UUID) (b : Bank) : result error Z :=
  if negb (dec_IsPositive (FundRequest_Amount req)) then Err (ErrSentinel ErrInvalidAmount)
  else match sys, bank_status b (FundRequest_ToAccountID req) with
  | None, _ => Err (Errorf "system account lookup: " (ErrSentinel ErrAccountNotFound))
  | Some _, None => Err (ErrSentinel ErrAccountNotFound)
  | Some s, Some st =>
    if decide (st ≠ AccountStatusActive)
    then Err (Errorf "target " (ErrSentinel ErrAccountNotActive))
    else match numeric_column (FundRequest_Amount req) with
    | Err e => Err (Errorf "create transaction: " (ErrDriver e))
    | Ok n =>
      if decide (s = FundRequest_ToAccountID req)
      then Err (Errorf "create transaction: " (ErrDriver (CheckViolation "chk_different_accounts")))
      else if negb (0 <? n)
      then Err (Errorf "create transaction: " (ErrDriver (CheckViolation "transactions_amount_check")))
      else Ok n
    end
  end.

(** A request committed as transaction [txnID], minting [n] units. *)
Definition minted (req : FundRequest) (user txnID : UUID) (n : Z) (db db' : DB) : Prop :=
  numeric_column (FundRequest_Amount req) = Ok n ∧
  ∃ sys, active_account_of user sys db ∧
    funding_step (Account_ID sys) (FundRequest_ToAccountID req) txnID n db db'.

Definition fund_outcome (req : FundRequest) (user : UUID) (r : result error FundResponse)
    (db db' : DB) : Prop :=
  (∃ e, r = Err e ∧ db' = db) ∨
  (∃ txnID n, minted req user txnID n db db' ∧
    (r = Ok (fund_response req txnID) ∨ r = Err commit_lost)).

(** The units minted by the answered requests. *)
Definition minted_units (rs : list (FundRequest * result error FundResponse)) : Z :=
  Zsum ((λ p, if is_ok p.2 then round_half_away (dec_units (FundRequest_Amount p.1)) else 0) <$> rs).

(** Identifiers generated in the [k] ticks from [n] on are not in use as
    idempotency keys. *)
Definition fresh_keys (n k : nat) (db : DB) : Prop :=
  ∀ i, (n ≤ i < n + k)%nat → ¬ key_used (env_uuid i) db.

(** The statements of the SQL transaction, in order. *)
Definition fund_script (req : FundRequest) (txnID : UUID) : list event :=
  [EvLockAccount (FundRequest_ToAccountID req); EvInsertTransaction txnID;
   EvInsertLedger (FundRequest_ToAccountID req) EntryTypeCredit; EvUpdateTransaction txnID].

(** ** The SQL transaction of a funding *)

Lemma fund_tx_emits req sys txnID : emits (fund_script req txnID) (fund_tx req sys txnID).
Proof.
  destruct store_emits as (Hlock & Hbal & Htxn & Hled & Hupd). unfold fund_tx, fund_script.
  apply (emits_bind [_]); [apply Hlock|intros a]. case_decide; [apply emits_fail|].
  apply (emits_bind []); [apply emits_uuid_New|intros key].
  apply (emits_bind [_]); [apply (Htxn (mkTransaction _ _ _ _ _ _ _ _))|intros _].
  apply (emits_bind []); [apply emits_uuid_New|intros cid].
  apply (emits_bind [_]); [apply emits_map_err, (Hled (mkLedgerEntry _ _ _ _ _ _))|intros _].
  apply Hupd.
Qed.

Lemma fund_tx_tx req sys txnID : preserves same_tx (fund_tx req sys txnID).
Proof.
  destruct store_preserves_tx as (? & ? & ? & ? & ?). unfold fund_tx. solve_preserves.
Qed.

Lemma fund_tx_ok `{!DecimalLaws} req sys txnID w w' :
  is_Some (w_tx w) → is_Some (accounts (w_db w) !! Account_ID sys) →
  fund_tx req sys txnID w = (Ok (), w') →
  ∃ n, numeric_column (FundRequest_Amount req) = Ok n ∧
    funding_step (Account_ID sys) (FundRequest_ToAccountID req) txnID n (w_db w) (w_db w').
Proof.
  intros [[db0 t0] Htx] Hsys Hr. destruct w as [db tx rd t tr]. simpl in *. subst tx.
  unfold fund_tx in Hr.
  apply bind_ok in Hr as (ta & w1 & [Hta ->]%GetAccountForUpdate_ok & Hr).
  case_decide as Hst; [done|].
  apply bind_ok in Hr as (key & w2 & Hk & Hr). injection Hk as <- <-.
  apply bind_ok in Hr as ([] & w3 & (db1 & Hdb1 & ->)%CreateTransaction_ok & Hr).
  apply bind_ok in Hr as (cid & w4 & Hc & Hr). injection Hc as <- <-.
  apply bind_ok in Hr as ([] & w5 & (db2 & Hdb2 & ->)%wrap_ok%InsertLedgerEntry_ok & Hr).
  apply UpdateTransactionStatus_ok in Hr as [_ ->]. simpl in *.
  apply insert_transaction_ok in Hdb1 as (n & Hn & Hpos & Hne & Hid & Hkey & _ & _ & ->).
  apply insert_ledger_ok in Hdb2 as (n2 & Hn2 & _ & Hcid & _ & _ & ->).
  simpl in *. rewrite Hn in Hn2. injection Hn2 as <-.
  pose proof (numeric_column_ok _ _ Hn) as [_ ?].
  exists n. split; [done|]. unfold funding_step, active.
  split_and!; try done; [by exists ta|lia|].
  eexists _, _, t0. split_and!; [exact Hkey|exact Hcid|].
  unfold update_transaction_status, post_funding, set_ledger, set_transactions; simpl.
  rewrite lookup_insert_eq. simpl. by rewrite insert_insert_eq.
Qed.

Lemma GetAccountByUserID_frame user w :
  same_db w (GetAccountByUserID user w).2 ∧ same_tx w (GetAccountByUserID user w).2.
Proof.
  unfold GetAccountByUserID, map_err, db_scan.
  match goal with |- context [db_query ?ev ?q w] =>
    pose proof (db_query_db ev q w); pose proof (db_query_tx ev q w);
    by destruct (db_query ev q w) as [[]] end.
Qed.

(** The lookup of the system account: an active account of the user, if it has
    one; the one the server returns first, if it has several. *)
Lemma GetAccountByUserID_ok `{!EnvLaws} user w a w' :
  db_wf (w_db w) → GetAccountByUserID user w = (Ok a, w') →
  active_account_of user a (w_db w) ∧ w_db w' = w_db w ∧ w_tx w' = w_tx w.
Proof.
  intros Hwf [Hq ->]%map_err_ok%db_query_ok. split; [|done]. unfold one_row in Hq.
  destruct (head _) as [a'|] eqn:Hh; [|done]. injection Hq as ->.
  apply head_Some_elem_of in Hh. rewrite (env_scan_perm _ _ _) in Hh.
  apply list_elem_of_filter in Hh as [Hact Hin].
  apply list_elem_of_filter in Hin as [Hu Hin].
  apply list_elem_of_fmap in Hin as ([id a'] & -> & Hin%elem_of_map_to_list). simpl in *.
  destruct (wf_accounts _ Hwf id a' Hin) as [<- _]. done.
Qed.

(** ** Every way a funding can end *)

Lemma FundAccount_cases `{!DecimalLaws, !EnvLaws} req user w r w' :
  w_tx w = None → db_wf (w_db w) → FundAccount req user w = (r, w') →
  w_tx w' = None ∧ fund_outcome req user r (w_db w) (w_db w').
Proof.
  intros Htx Hwf. unfold FundAccount, fail, mbind, M_bind.
  destruct (negb _); [intros Hr; injection Hr as <- <-; by split; [|left; eauto]|].
  simpl. set (txnID := env_uuid _).
  destruct (wrap _ _ (advance w)) as [[sys|e] w1] eqn:Hg.
  - apply wrap_ok, GetAccountByUserID_ok in Hg as (Hsys & Hdb1 & Htx1); [|done].
    simpl in Hsys, Hdb1, Htx1. rewrite Htx in Htx1.
    destruct (WithTx _ w1) as [res w2] eqn:Hwt.
    apply WithTx_cases in Hwt as (Htx2 & Hcases); [|apply fund_tx_tx|done].
    destruct Hcases as [(e & -> & Hdb2)|([] & w3 & Hfn & Hdb2 & Hres)].
    { intros Hr. injection Hr as <- <-. split; [done|]. left. exists e. by rewrite Hdb2. }
    apply fund_tx_ok in Hfn as (n & Hn & Hstep); [|by eexists|].
    2:{ simpl. rewrite Hdb1. eexists. apply Hsys. }
    simpl in Hstep. rewrite <-Hdb2, Hdb1 in Hstep.
    assert (minted req user txnID n (w_db w) (w_db w2)) by (split; [done|by exists sys]).
    destruct Hres as [->|[-> _]]; intros Hr; injection Hr as <- <-;
      (split; [done|right; exists txnID, n; auto]).
  - intros Hr. injection Hr as <- <-.
    pose proof (GetAccountByUserID_frame user (advance w)) as [Hd Ht].
    unfold wrap, map_err in Hg. destruct (GetAccountByUserID _ _) as [[] w3]; [done|].
    injection Hg as _ <-. simpl in Hd, Ht. rewrite Hd, Ht. by split; [|left; eauto].
Qed.

(** ** Without faults *)

Lemma fund_tx_run req sys txnID w :
  no_faults →
  transactions (w_db w) !! txnID = None → is_Some (accounts (w_db w) !! Account_ID sys) →
  fresh_uuids (w_tick w) 4 (w_db w) → fresh_keys (w_tick w) 4 (w_db w) →
  dec_IsPositive (FundRequest_Amount req) = true →
  (fund_tx req sys txnID w).1 =
    match fund_decision req (Some (Account_ID sys)) (bank_of (w_db w)) with
    | Ok _ => Ok ()
    | Err e => Err e
    end.
Proof.
  intros Hnf Hid Hsys (_ & _ & Hled) Hkey Hpos. unfold fund_tx, fund_decision. rewrite Hpos; simpl.
  rewrite lock_run by done.
  destruct (accounts (w_db w) !! FundRequest_ToAccountID req) as [ta|] eqn:Hta; simpl; [|done].
  case_decide; [done|]. unfold mbind, M_bind; simpl.
  rewrite CreateTransaction_run by done. simpl.
  destruct (decide (Account_ID sys = FundRequest_ToAccountID req)) as [Heq|Hne].
  { unfold insert_transaction; simpl. destruct (numeric_column _); [|done]. by rewrite decide_True. }
  rewrite insert_transaction_run by (simpl; eauto). simpl.
  destruct (numeric_column _) as [n|] eqn:Hn; [|done].
  destruct (Z.ltb_spec 0 n); simpl; [|done].
  rewrite bool_decide_false by (apply Hkey; lia). unfold wrap, map_err.
  rewrite InsertLedgerEntry_run by done. erewrite insert_ledger_run; simpl; [|done|done| | |].
  - rewrite UpdateTransactionStatus_run; simpl; [done|done|]. rewrite lookup_insert_eq. eauto.
  - apply Hled. lia.
  - eauto.
  - rewrite lookup_insert_eq. eauto.
Qed.

Lemma fund_decision_ok req sys b n :
  fund_decision req sys b = Ok n → numeric_column (FundRequest_Amount req) = Ok n.
Proof. unfold fund_decision. repeat case_match; naive_solver. Qed.

Lemma GetAccountByUserID_run `{!EnvLaws} user w :
  no_faults → db_wf (w_db w) →
  ∃ w', same_db w w' ∧ same_tx w w' ∧ w_tick w' = S (w_tick w) ∧
    match GetAccountByUserID user w with
    | (Ok a, w1) => w1 = w' ∧ active_account_of user a (w_db w)
    | (Err e, w1) => w1 = w' ∧ e = ErrSentinel ErrAccountNotFound ∧
        ∀ a, ¬ active_account_of user a (w_db w)
    end.
Proof.
  intros Hnf Hwf. exists (emit (EvSelect "accounts") w). split_and!; [done..|].
  destruct (GetAccountByUserID user w) as [r w1] eqn:Hg.
  destruct r as [a|e].
  - pose proof Hg as Hg'. apply GetAccountByUserID_ok in Hg' as [? _]; [|done].
    split; [|done]. by apply map_err_ok, db_query_ok in Hg as [_ ->].
  - unfold GetAccountByUserID, map_err, db_scan in Hg. rewrite db_query_run in Hg by done.
    unfold one_row in Hg. destruct (head _) eqn:Hh; [done|]. injection Hg as <- <-.
    split_and!; [done|done|]. intros a (Ha & Hu & Hact). apply head_None in Hh.
    assert (a ∈ filter (λ a, Account_Status a = AccountStatusActive) (accounts_of user (w_db w))) as Hin.
    { apply list_elem_of_filter. split; [done|]. apply list_elem_of_filter. split; [done|].
      apply list_elem_of_fmap. exists (Account_ID a, a). split; [done|]. by apply elem_of_map_to_list. }
    rewrite <-(env_scan_perm (w_tick w)), Hh in Hin. by apply not_elem_of_nil in Hin.
Qed.

(** [FundAccount], spelled out. *)
Lemma FundAccount_run req user w :
  FundAccount req user w =
    if negb (dec_IsPositive (FundRequest_Amount req)) then (Err (ErrSentinel ErrInvalidAmount), w)
    else match GetAccountByUserID user (advance w) with
    | (Ok sys, w1) =>
      match WithTx (fund_tx req sys (env_uuid (w_tick w))) w1 with
      | (Ok _, w2) => (Ok (fund_response req (env_uuid (w_tick w))), w2)
      | (Err e, w2) => (Err e, w2)
      end
    | (Err e, w1) => (Err (Errorf "system account lookup: " e), w1)
    end.
Proof.
  unfold FundAccount, fail, mbind, M_bind, wrap, map_err. destruct (negb _); [done|]. simpl.
  by destruct (GetAccountByUserID _ _) as [[]].
Qed.

(** ** Properties of the service *)

(** C12. Refinement: without faults, [FundAccount] follows the decision table
    of a funding, errors and their order included: it draws on an active account
    of the given user (any one, if there are several), mints the rounded amount
    as one posting, and otherwise leaves the tables untouched.  In particular a
    user cannot fund the very account the funding is drawn on. *)
Theorem FundAccount_refines_mint `{!DecimalLaws, !EnvLaws} req user w :
  no_faults → w_tx w = None → db_wf (w_db w) →
  fresh_uuids (w_tick w) 7 (w_db w) → fresh_keys (w_tick w) 7 (w_db w) →
  ∃ sys w',
    match sys with
    | Some s => ∃ a, active_account_of user a (w_db w) ∧ Account_ID a = s
    | None => ∀ a, ¬ active_account_of user a (w_db w)
    end ∧
    match fund_decision req sys (bank_of (w_db w)) with
    | Ok n => ∃ txnID, FundAccount req user w = (Ok (fund_response req txnID), w') ∧
        minted req user txnID n (w_db w) (w_db w')
    | Err e => FundAccount req user w = (Err e, w') ∧ w_db w' = w_db w
    end.
Proof.
  intros Hnf Htx Hwf Hfr Hfk.
  destruct (GetAccountByUserID_run user (advance w) Hnf Hwf) as (w1 & Hdb & Htx1 & Htick & Hg).
  unfold same_db, same_tx in *. simpl in Hdb, Htx1, Htick, Hg.
  rewrite FundAccount_run.
  destruct (GetAccountByUserID user (advance w)) as [[sys|e] w2].
  - destruct Hg as [-> Hsys]. exists (Some (Account_ID sys)).
    destruct (dec_IsPositive (FundRequest_Amount req)) eqn:Hpos; simpl.
    2:{ eexists. split; [by exists sys|]. unfold fund_decision. by rewrite Hpos. }
    set (txnID := env_uuid (w_tick w)).
    rewrite (WithTx_run (fund_tx req sys txnID) w1) by (done || apply fund_tx_tx || by rewrite Htx1).
    set (w2 := set_tx _ _).
    assert ((fund_tx req sys txnID w2).1 =
      match fund_decision req (Some (Account_ID sys)) (bank_of (w_db w)) with
      | Ok _ => Ok () | Err e => Err e end) as Hrun.
    { change (w_db w1) with (w_db w2) in Hdb. rewrite <-Hdb.
      apply (fund_tx_run req sys txnID w2); rewrite ?Hdb; simpl; rewrite ?Htick; try done.
      - apply Hfr. lia.
      - eexists. apply Hsys.
      - eapply fresh_uuids_shift; [| |exact Hfr]; lia.
      - intros i Hi. apply Hfk. lia. }
    destruct (fund_tx _ _ _ w2) as [[[]|e] w3] eqn:Hft; simpl in Hrun;
      destruct (fund_decision _ _ _) as [n|] eqn:Hdec; simplify_eq; simpl.
    + eexists. split; [by exists sys|]. exists txnID. split; [done|].
      apply fund_tx_ok in Hft as (n' & Hn' & Hstep); [|by eexists|simpl; rewrite Hdb; eexists; apply Hsys].
      apply fund_decision_ok in Hdec. rewrite Hn' in Hdec. injection Hdec as ->.
      simpl in Hstep. rewrite Hdb in Hstep. split; [done|]. by exists sys.
    + eexists. split; [by exists sys|]. by split.
  - destruct Hg as (-> & -> & Hno). exists None.
    destruct (dec_IsPositive (FundRequest_Amount req)) eqn:Hpos; simpl;
      unfold fund_decision; rewrite Hpos; simpl; eexists; (split; [exact Hno|]); by split.
Qed.

(** C30. All or nothing, whatever external calls fail: a success means exactly
    one posting was committed under the transaction id of the answer, with a
    single credit row and from an active account of the caller; an error means
    the tables are unchanged, or the reply to COMMIT was lost. *)
Theorem FundAccount_all_or_nothing `{!DecimalLaws, !EnvLaws} req user w r w' :
  w_tx w = None → db_wf (w_db w) → FundAccount req user w = (r, w') →
  match r with
  | Ok resp => resp = fund_response req (FundResponse_TransactionID resp) ∧
      ∃ n, minted req user (FundResponse_TransactionID resp) n (w_db w) (w_db w')
  | Err e => w_db w' = w_db w ∨
      e = commit_lost ∧ ∃ txnID n, minted req user txnID n (w_db w) (w_db w')
  end.
Proof.
  intros Htx Hwf Hr. apply FundAccount_cases in Hr as [_ Ho]; [|done..].
  destruct Ho as [(e & -> & ->)|(txnID & n & Hm & [-> | ->])]; eauto.
Qed.

(** The books stay in order under any funding and any failures: the
    constraints of the schema, one posting per transaction, no overdrawn account. *)
Lemma FundAccount_keeps_books `{!DecimalLaws, !EnvLaws} req user w :
  w_tx w = None → books (w_db w) → books (w_db (FundAccount req user w).2).
Proof.
  intros Htx Hb. destruct (FundAccount req user w) as [r w'] eqn:Hr.
  apply FundAccount_cases in Hr as [_ Ho]; [|done|apply Hb]; simpl.
  destruct Ho as [(e & _ & ->)|(txnID & n & (_ & sys & _ & Hs) & _)]; eauto with bank.
Qed.

(** What a success means for every account: the target gained the rounded
    amount and nobody lost it, the account it was drawn on included; the money
    on the books grew by exactly that much. *)
Lemma FundAccount_balances `{!DecimalLaws, !EnvLaws} req user w resp w' id :
  w_tx w = None → books (w_db w) → FundAccount req user w = (Ok resp, w') →
  let n := round_half_away (dec_units (FundRequest_Amount req)) in
  0 < n < numeric_18_4_bound ∧
  balance id (w_db w') =
    balance id (w_db w) + (if decide (id = FundRequest_ToAccountID req) then n else 0) ∧
  total_balance (w_db w') = total_balance (w_db w) + n.
Proof.
  intros Htx Hb Hr n. apply FundAccount_cases in Hr as [_ Ho]; [|done|apply Hb].
  destruct Ho as [(e & ? & _)|(txnID & m & (Hn & sys & _ & Hs) & _)]; [done|].
  pose proof (numeric_column_ok _ _ Hn) as [-> _].
  assert (books (w_db w')) as Hb' by eauto with bank.
  split; [apply Hs|]. split; [by eapply funding_step_balance|].
  rewrite <-(total_supply_balances (w_db w')), <-(total_supply_balances (w_db w))
    by (apply Hb || apply Hb'). by eapply funding_step_supply.
Qed.

(** Fundings are not idempotent: over any sequence of requests in which no
    answer is a lost commit, the money on the books grows by the rounded amount
    of every success, repetitions of one request included. *)
Theorem serve_fundings_mint `{!DecimalLaws, !EnvLaws} reqs w :
  w_tx w = None → books (w_db w) →
  let '(rs, w') := serve_fundings reqs w in
  Forall (λ p, p.2 ≠ Err commit_lost) rs →
  books (w_db w') ∧ total_balance (w_db w') = total_balance (w_db w) + minted_units rs.
Proof.
  revert w. induction reqs as [|[req user] reqs IH]; intros w Htx Hb; simpl.
  { intros _. split; [done|]. unfold minted_units. simpl. lia. }
  destruct (FundAccount req user w) as [r w1] eqn:Hr.
  pose proof (FundAccount_keeps_books req user w Htx Hb) as Hb1. rewrite Hr in Hb1.
  pose proof (FundAccount_cases _ _ _ _ _ Htx (books_wf _ Hb) Hr) as [Htx1 Ho]. simpl in Hb1.
  specialize (IH w1 Htx1 Hb1). destruct (serve_fundings reqs w1) as [rs w'].
  intros [Hok [Hb' IHt]%IH]%Forall_cons. split; [done|]. simpl in Hok.
  unfold minted_units in *. csimpl. rewrite IHt.
  destruct r as [resp|e]; simpl.
  - pose proof (FundAccount_balances req user w resp w1 uuid_Nil Htx Hb Hr) as (_ & _ & ->). lia.
  - destruct Ho as [(_ & _ & ->)|(txnID & n & _ & [?|?])]; [lia|done|naive_solver].
Qed.

End funding.
