(* ===== verification/FundingExamples.v ===== *)
(** * FundingExamples: the funding service on the example bank

    Each property of [Funding], applied to a concrete run on the bank of
    [Example] where its hypotheses hold. *)

From S2P Require Import Prelude Platform Concrete Errs Model Database GoM Store Books Example Funding.
#[local] Open Scope Z_scope.

Section funding_examples.

#[local] Instance quiet_env : @Env text_uuid := test_env never Ex.start.

(** 12.3456 to bob, drawn on the system user's account. *)
Definition fund_bob : FundRequest := mkFundRequest "a-bob" (mkDec 123456 (-4)).

#[local] Abbreviation ex_world := (Ex.world never).
#[local] Abbreviation ex_db := (w_db (Ex.world never)).
#[local] Abbreviation ex_funded := (FundAccount fund_bob "u-system"%string ex_world).2.

Lemma fund_books : books ex_db.
Proof. exact Ex.db_books. Qed.

Lemma fund_fresh n k : fresh_uuids n k ex_db.
Proof. apply Ex.test_fresh; vm_compute; repeat constructor. Qed.

Lemma fund_fresh_keys : fresh_keys 0 7 ex_db.
Proof.
  intros i Hi. do 7 (destruct i as [|i]; [apply (bool_decide_unpack _); vm_compute; reflexivity|]).
  simpl in Hi. lia.
Qed.

Lemma ex_funded_run :
  FundAccount fund_bob "u-system"%string ex_world = (Ok (fund_response fund_bob "gen-0"%string), ex_funded).
Proof. apply run_split. vm_cast_no_check (@eq_refl (result error FundResponse) (Ok (fund_response fund_bob "gen-0"%string))). Qed.

Lemma FundAccount_refines_mint_witness :
  ∃ sys w',
    match sys with
    | Some s => ∃ a, active_account_of (Ex.uid "u-system") a ex_db ∧ Account_ID a = s
    | None => ∀ a, ¬ active_account_of (Ex.uid "u-system") a ex_db
    end ∧
    match fund_decision fund_bob sys (bank_of ex_db) with
    | Ok n => ∃ txnID, FundAccount fund_bob (Ex.uid "u-system") ex_world = (Ok (fund_response fund_bob txnID), w') ∧
        minted fund_bob (Ex.uid "u-system") txnID n ex_db (w_db w')
    | Err e => FundAccount fund_bob (Ex.uid "u-system") ex_world = (Err e, w') ∧ w_db w' = ex_db
    end.
Proof.
  exact (FundAccount_refines_mint fund_bob (Ex.uid "u-system") ex_world (λ n, eq_refl) eq_refl
    (books_wf _ fund_books) (fund_fresh 0 7) fund_fresh_keys).
Defined.

Lemma FundAccount_all_or_nothing_witness :
  fund_response fund_bob (Ex.uid "gen-0") = fund_response fund_bob (Ex.uid "gen-0") ∧
  ∃ n, minted fund_bob (Ex.uid "u-system") (Ex.uid "gen-0") n ex_db (w_db ex_funded).
Proof.
  exact (FundAccount_all_or_nothing fund_bob (Ex.uid "u-system") ex_world
    (Ok (fund_response fund_bob (Ex.uid "gen-0"))) ex_funded eq_refl (books_wf _ fund_books) ex_funded_run).
Defined.

(** The same request twice: both take effect. *)
#[local] Abbreviation ex_twice :=
  (serve_fundings [(fund_bob, Ex.uid "u-system"); (fund_bob, Ex.uid "u-system")] ex_world).

Lemma ex_twice_answers : ex_twice.1 =
  [(fund_bob, Ok (fund_response fund_bob "gen-0"%string)); (fund_bob, Ok (fund_response fund_bob "gen-10"%string))].
Proof.
  vm_cast_no_check (@eq_refl (list (FundRequest * result error FundResponse))
    [(fund_bob, Ok (fund_response fund_bob "gen-0"%string)); (fund_bob, Ok (fund_response fund_bob "gen-10"%string))]).
Qed.

Lemma serve_fundings_mint_witness :
  minted_units ex_twice.1 = 2 * 123456 ∧
  books (w_db ex_twice.2) ∧ total_balance (w_db ex_twice.2) = total_balance ex_db + minted_units ex_twice.1.
Proof.
  split; [vm_compute; reflexivity|].
  refine (_ (serve_fundings_mint [(fund_bob, Ex.uid "u-system"); (fund_bob, Ex.uid "u-system")]
    ex_world eq_refl fund_books)).
  assert (Forall (λ p, p.2 ≠ Err commit_lost) ex_twice.1) as Hok
    by (rewrite ex_twice_answers; repeat constructor; discriminate).
  revert Hok. destruct ex_twice as [rs w']. simpl. auto.
Defined.

End funding_examples.
