(* ===== verification/Schedule.v ===== *)
(** * Schedule: interleavings of threads that share a state

    The goroutines of the server as a list of threads.  A [turn] is what one of
    them does between two points where others may run; a schedule is the list
    of the threads that take the next turn. *)

From S2P Require Import Prelude.

Section schedule.
Context {T S : Type} (turn : T → S → T * S).

(** Runs a schedule: the positions of the threads that take a turn, in order. *)
Fixpoint run_schedule (sched : list nat) (ts : list T) (s : S) : list T * S :=
  match sched with
  | [] => (ts, s)
  | i :: sched' =>
    match ts !! i with
    | None => run_schedule sched' ts s
    | Some t => let '(t', s') := turn t s in run_schedule sched' (<[i := t']> ts) s'
    end
  end.

(** One thread that takes [n] turns in a row. *)
Definition turns (n : nat) (t : T) (s : S) : T * S := Nat.iter n (λ p, turn p.1 p.2) (t, s).

(** An invariant of turns is an invariant of schedules. *)
Lemma run_schedule_ind (I : list T → S → Prop) :
  (∀ ts s i t, ts !! i = Some t → I ts s → I (<[i := (turn t s).1]> ts) (turn t s).2) →
  ∀ sched ts s, I ts s → I (run_schedule sched ts s).1 (run_schedule sched ts s).2.
Proof.
  intros Hstep sched. induction sched as [|i sched IH]; intros ts s Hi; simpl; [done|].
  destruct (ts !! i) as [t|] eqn:Ht; [|by apply IH].
  specialize (Hstep ts s i t Ht Hi). destruct (turn t s) as [t' s']. by apply IH.
Qed.

(** A measure that every turn takes down to zero: who has as many turns as its
    measure says has reached the end. *)
Lemma run_schedule_progress (left : T → nat) :
  (∀ t s, left (turn t s).1 ≤ left t - 1)%nat →
  ∀ sched ts s i t', (run_schedule sched ts s).1 !! i = Some t' →
    ∃ t, ts !! i = Some t ∧ (left t' ≤ left t - length (filter (i =.) sched))%nat.
Proof.
  intros Hturn sched. induction sched as [|j sched IH]; intros ts s i t' Hi; simpl in Hi.
  { exists t'. split; [done|]. simpl. lia. }
  rewrite filter_cons. destruct (ts !! j) as [t|] eqn:Hj.
  - specialize (Hturn t s). destruct (turn t s) as [t1 s1]; simpl in *.
    apply IH in Hi as (t2 & Ht2 & Hle). case_decide as Hij; simpl.
    + subst. rewrite list_lookup_insert_eq in Ht2 by by eapply lookup_lt_Some.
      simplify_eq. exists t. split; [done|]. lia.
    + rewrite list_lookup_insert_ne in Ht2 by done. eauto.
  - apply IH in Hi as (t & Ht & Hle). exists t. split; [done|].
    case_decide; [congruence|done].
Qed.

End schedule.
