(* ===== verification/Concurrency.v ===== *)
(** * Concurrency: many transfers at once

    The goroutines of the HTTP server run [TransferFunds] concurrently on one
    database and one Redis server.  Redis executes a command at a time, and
    PostgreSQL runs the transactions of [WithTx] at isolation level
    serializable, so a run is an interleaving of the segments between them: a
    request takes the gate (SETNX), runs its SQL transaction, then settles its
    key (SET or DEL).  Any call may fail, a serialization failure included.

    [turn] is one segment of one request, [interleave] runs a schedule
    ([Schedule]), [turns_run_transfer] shows that
    three turns in a row are [TransferFunds]. *)

From S2P Require Import Prelude Platform Errs Model Database GoM Store Books Transfer Schedule.
#[local] Open Scope Z_scope.

Section concurrency.
Context `{UuidLib} `{DecimalLib} `{RedisServer} `{!Env}.

(** Where a request is. *)
Inductive tstate :=
| Ready (req : TransferRequest)
| Gated (req : TransferRequest)
| Settling (req : TransferRequest) (r : result error UUID)
| Done (req : TransferRequest) (r : result error TransferResponse).

(** One segment: the checks and SETNX; the SQL transaction; SET, or the
    deferred DEL. *)
Definition turn (t : tstate) (w : World) : tstate * World :=
  match t with
  | Ready req =>
    if decide (TransferRequest_FromAccountID req = TransferRequest_ToAccountID req)
    then (Done req (Err (ErrSentinel ErrSameAccount)), w)
    else if negb (dec_IsPositive (TransferRequest_Amount req))
    then (Done req (Err (ErrSentinel ErrInvalidAmount)), w)
    else
    match wrap "redis idempotency check: "
        (rdb_SetNX (idemp_key (TransferRequest_IdempotencyKey req)) "processing" idempotencyTTL) w with
    | (Err e, w1) => (Done req (Err e), w1)
    | (Ok wasSet, w1) =>
      if negb wasSet then (Done req (Err (ErrSentinel ErrDuplicateTransaction)), w1)
      else (Gated req, w1)
    end
  | Gated req =>
    let txnID := env_uuid (w_tick w) in
    let '(firstLock, secondLock) :=
      lock_order (TransferRequest_FromAccountID req) (TransferRequest_ToAccountID req) in
    match WithTx (transfer_tx req txnID firstLock secondLock) (advance w) with
    | (Err e, w1) => (Settling req (Err e), w1)
    | (Ok _, w1) => (Settling req (Ok txnID), w1)
    end
  | Settling req r =>
    let key := idemp_key (TransferRequest_IdempotencyKey req) in
    match r with
    | Ok txnID =>
      (Done req (Ok (mkTransferResponse txnID TxnStatusCompleted "Transfer completed successfully")),
       (rdb_Set key (uuid_String txnID) idempotencyTTL w).2)
    | Err e => (Done req (Err e), transfer_deferred key true w)
    end
  | Done req r => (t, w)
  end.

(** A run of a schedule of transfers. *)
Definition interleave : list nat → list tstate → World → list tstate * World := run_schedule turn.

(** ** What the theorems speak of *)

Definition request_of (t : tstate) : TransferRequest :=
  match t with Ready req | Gated req | Settling req _ | Done req _ => req end.

(** The request has been told, or is about to be told, that it completed. *)
Definition succeeded (t : tstate) : bool :=
  match t with Settling _ (Ok _) | Done _ (Ok _) => true | _ => false end.

(** The answer to COMMIT was lost: the request may have completed or not. *)
Definition in_doubt (t : tstate) : Prop :=
  match t with Settling _ (Err e) | Done _ (Err e) => e = commit_lost | _ => False end.

(** Turns left. *)
Definition turns_left (t : tstate) : nat :=
  match t with Ready _ => 3 | Gated _ => 2 | Settling _ _ => 1 | Done _ _ => 0 end%nat.

Definition finished (t : tstate) : Prop := turns_left t = 0%nat.

(** The units a request moves, and what it does to the balance of [id] once it
    succeeded. *)
Definition units (req : TransferRequest) : Z :=
  round_half_away (dec_units (TransferRequest_Amount req)).

Definition net_effect (id : UUID) (t : tstate) : Z :=
  if succeeded t then
    (if decide (id = TransferRequest_ToAccountID (request_of t)) then units (request_of t) else 0)
    - (if decide (id = TransferRequest_FromAccountID (request_of t)) then units (request_of t) else 0)
  else 0.

(** The requests with key [k] that succeeded. *)
Definition winners (k : UUID) (ts : list tstate) : list tstate :=
  filter (λ t, succeeded t = true ∧ TransferRequest_IdempotencyKey (request_of t) = k) ts.

(** The effect of a turn: nothing on the tables, or one committed posting. *)
Definition turn_effect (t t' : tstate) (db db' : DB) : Prop :=
  (db' = db ∧ succeeded t' = succeeded t) ∨
  (∃ txnID, committed (request_of t) txnID db db' ∧ succeeded t = false ∧
     (succeeded t' = true ∨ in_doubt t')).

(** ** One turn *)

Lemma turn_request t w : request_of (turn t w).1 = request_of t.
Proof.
  destruct t as [req|req|req r|req r]; simpl; [| | |done].
  - repeat case_match; done.
  - destruct (lock_order _ _). by destruct (WithTx _ _) as [[]].
  - by destruct r.
Qed.

Lemma turn_cases `{!DecimalLaws} t w t' w' :
  w_tx w = None → turn t w = (t', w') →
  w_tx w' = None ∧ turn_effect t t' (w_db w) (w_db w').
Proof.
  intros Htx. unfold turn_effect. destruct t as [req|req|req r|req r]; simpl.
  - case_decide; [intros Hr; injection Hr as <- <-; auto|].
    destruct (dec_IsPositive _); simpl; [|intros Hr; injection Hr as <- <-; auto].
    unfold wrap, map_err. destruct (rdb_SetNX _ _ _ w) as [res w1] eqn:Hs.
    unfold rdb_SetNX in Hs. apply redis_call_frame in Hs as [<- Htx1].
    destruct res as [[]|e]; simpl; intros Hr; injection Hr as <- <-; rewrite Htx1; auto.
  - destruct (lock_order _ _) as [f s]. destruct (WithTx _ _) as [res w2] eqn:Hwt.
    apply WithTx_cases in Hwt as (Htx2 & Hcases); [|apply transfer_tx_tx|done].
    destruct Hcases as [(e & -> & Hdb2)|([] & w3 & Hfn & Hdb2 & Hres)].
    { intros Hr. injection Hr as <- <-. auto. }
    apply transfer_tx_ok in Hfn as (n & Hn & Hstep); [|by eauto].
    simpl in Hstep. rewrite <-Hdb2 in Hstep.
    destruct Hres as [->|[-> _]]; intros Hr; injection Hr as <- <-; (split; [done|]); right;
      exists (env_uuid (w_tick w)); simpl; (split; [by exists n|auto]).
  - destruct r as [id|e]; intros Hr; injection Hr as <- <-; unfold transfer_deferred;
      rewrite ?rdb_Set_db, ?rdb_Set_tx, ?rdb_Del_db, ?rdb_Del_tx; auto.
  - intros Hr; injection Hr as <- <-. auto.
Qed.

Lemma turn_in_doubt t w : in_doubt t → in_doubt (turn t w).1.
Proof. destruct t as [|?|? []|? []]; simpl; done. Qed.

Lemma turn_progress t w : (turns_left (turn t w).1 ≤ turns_left t - 1)%nat.
Proof.
  destruct t as [req|req|req r|req r]; simpl; [| | |lia].
  - repeat case_match; simpl; lia.
  - destruct (lock_order _ _). destruct (WithTx _ _) as [[]]; simpl; lia.
  - destruct r; simpl; lia.
Qed.

(** ** Runs of a schedule *)

Lemma committed_balance `{!DecimalLaws} req txnID db db' id :
  committed req txnID db db' →
  balance id db' = balance id db
    + (if decide (id = TransferRequest_ToAccountID req) then units req else 0)
    - (if decide (id = TransferRequest_FromAccountID req) then units req else 0).
Proof.
  intros (n & Hn & Hs). apply numeric_column_ok in Hn as [-> _].
  by apply (transfer_step_balance id) in Hs.
Qed.

Lemma committed_keys req txnID db db' k :
  committed req txnID db db' →
  ¬ key_used (TransferRequest_IdempotencyKey req) db ∧
  key_used (TransferRequest_IdempotencyKey req) db' ∧ (key_used k db → key_used k db').
Proof.
  intros (n & _ & Hs). pose proof (transfer_step_frame _ _ _ _ _ _ _ Hs) as (_ & _ & _ & Hsub & Hk).
  split; [by destruct Hs as (_ & _ & _ & _ & _ & _ & ? & _)|]. split; [done|by apply key_used_mono].
Qed.

(** A request that takes its turns in a row is served exactly as
    [TransferFunds] serves it: the turns cut the code at its external steps and
    leave nothing out. *)
Theorem turns_run_transfer req w :
  let '(t1, w1) := turn (Ready req) w in
  let '(t2, w2) := turn t1 w1 in
  turn t2 w2 = (Done req (TransferFunds req w).1, (TransferFunds req w).2).
Proof.
  cbn [turn]. unfold TransferFunds, fail, mbind, M_bind.
  case_decide; [done|]. destruct (negb _); [done|].
  destruct (wrap _ _ w) as [[wasSet|e] w1]; [|done]. destruct (negb wasSet); [done|].
  cbn [turn]. unfold transfer_body. destruct (lock_order _ _) as [f s].
  by destruct (WithTx _ _) as [[[]|e] w2].
Qed.

(** Whatever the interleaving and the failures, the books stay in order (no
    account is ever overdrawn by concurrent transfers, every transaction is
    posted exactly once) and no money is created or lost. *)
Theorem interleave_keeps_books `{!DecimalLaws} sched reqs w :
  w_tx w = None → books (w_db w) →
  let w' := (interleave sched (Ready <$> reqs) w).2 in
  books (w_db w') ∧ total_balance (w_db w') = total_balance (w_db w).
Proof.
  intros Htx Hb.
  assert (∀ ts, w_tx (interleave sched ts w).2 = None ∧ books (w_db (interleave sched ts w).2) ∧
    total_supply (w_db (interleave sched ts w).2) = total_supply (w_db w)) as Hinv.
  { intros ts. apply (run_schedule_ind turn (λ _ w', w_tx w' = None ∧ books (w_db w') ∧
      total_supply (w_db w') = total_supply (w_db w))); [|done].
    intros ts' w' i t _ (Htx' & Hb' & Hs'). destruct (turn t w') as [t' w''] eqn:Ht.
    apply turn_cases in Ht as [? He]; [|done]. simpl. split; [done|].
    destruct He as [[-> _]|(txnID & (n & _ & Hst) & _)]; [done|].
    split; [eauto with bank|]. rewrite <-Hs'. by eapply transfer_step_supply. }
  specialize (Hinv (Ready <$> reqs)) as (_ & Hb' & Hs). split; [done|].
  rewrite <-!total_supply_balances by (apply Hb || apply Hb'). done.
Qed.

(** C3. Exactly-once under concurrency: however requests with one idempotency
    key are interleaved, and whatever fails or Redis forgets, at most one of
    them succeeds, and none if the key was used before. *)
Theorem interleave_key_once `{!DecimalLaws} sched reqs w k :
  w_tx w = None →
  let ts' := (interleave sched (Ready <$> reqs) w).1 in
  (length (winners k ts') ≤ 1)%nat ∧ (key_used k (w_db w) → winners k ts' = []).
Proof.
  intros Htx ts'.
  set (I := λ ts w', w_tx w' = None ∧ (key_used k (w_db w) → key_used k (w_db w')) ∧
    (length (winners k ts) + (if decide (key_used k (w_db w)) then 1 else 0) ≤
     if decide (key_used k (w_db w')) then 1 else 0)%nat).
  assert (I ts' (interleave sched (Ready <$> reqs) w).2) as (_ & Hm & Hle).
  { apply (run_schedule_ind turn I); unfold I.
    - intros ts w' i t Hi (Htx' & Hm & Hle). pose proof (turn_request t w') as Hreq.
      destruct (turn t w') as [t' w''] eqn:Ht. apply turn_cases in Ht as [? He]; [|done].
      simpl in *. split; [done|].
      pose proof (length_filter_insert (λ t, succeeded t = true ∧
        TransferRequest_IdempotencyKey (request_of t) = k) ts i t t' Hi) as Hlen.
      cbv beta in Hlen. fold (winners k ts) (winners k (<[i := t']> ts)) in Hlen. rewrite Hreq in Hlen.
      destruct He as [[-> Hs]|(txnID & Hc & Hs & Hs')].
      + rewrite Hs in Hlen. split; [done|]. lia.
      + apply (committed_keys _ _ _ _ k) in Hc as (Hnk & Hk & Hmono). split; [auto|].
        rewrite Hs in Hlen. repeat case_decide; try lia; naive_solver.
    - split_and!; [done|done|]. unfold winners. rewrite filter_none; [simpl; lia|].
      apply Forall_fmap, Forall_true. by intros req [? _]. }
  split; [repeat case_decide; lia|]. intros Hk. apply nil_length_inv.
  rewrite !decide_True in Hle by auto. lia.
Qed.

(** Accounting under concurrency (what the repository's chaos test checks):
    unless the outcome of some request is in doubt, every account ends with what
    it had, plus what successful requests paid it, minus what they took from it,
    whatever the interleaving. *)
Theorem interleave_accounting `{!DecimalLaws} sched reqs w id :
  w_tx w = None →
  let '(ts', w') := interleave sched (Ready <$> reqs) w in
  Forall (λ t, ¬ in_doubt t) ts' →
  balance id (w_db w') = balance id (w_db w) + Zsum (net_effect id <$> ts').
Proof.
  intros Htx.
  set (I := λ ts w', w_tx w' = None ∧ ((∃ j u, ts !! j = Some u ∧ in_doubt u) ∨
    balance id (w_db w') = balance id (w_db w) + Zsum (net_effect id <$> ts))).
  assert (I (interleave sched (Ready <$> reqs) w).1 (interleave sched (Ready <$> reqs) w).2) as [_ Hi].
  { apply (run_schedule_ind turn I); unfold I.
    - intros ts w' i t Hi (Htx' & Hbal). pose proof (turn_request t w') as Hreq.
      pose proof (turn_in_doubt t w') as Hdoubt.
      destruct (turn t w') as [t' w''] eqn:Ht. apply turn_cases in Ht as [? He]; [|done].
      simpl in *. split; [done|].
      pose proof (lookup_lt_Some _ _ _ Hi) as Hlt.
      destruct Hbal as [(j & u & Hu & Hd)|Hbal].
      { left. destruct (decide (i = j)) as [<-|].
        - exists i, t'. rewrite list_lookup_insert_eq by done. simplify_eq. auto.
        - exists j, u. by rewrite list_lookup_insert_ne. }
      rewrite (Zsum_insert _ _ _ _ _ Hi). unfold net_effect at 2 3. rewrite Hreq.
      destruct He as [[-> Hs]|(txnID & Hc & Hs & [Hs'|Hd])].
      + rewrite Hs. right. lia.
      + right. rewrite Hs, Hs'. rewrite (committed_balance _ _ _ _ id Hc). lia.
      + left. exists i, t'. by rewrite list_lookup_insert_eq.
    - split; [done|]. right. rewrite Zsum_map_zero; [lia|].
      intros t (req & -> & _)%list_elem_of_fmap. done. }
  destruct (interleave _ _ _) as [ts' w']; simpl in Hi.
  intros Hf. destruct Hi as [(j & u & Hu & Hd)|?]; [|done]. by destruct (Forall_lookup_1 _ _ _ _ Hf Hu).
Qed.

(** Every request is answered: a schedule that gives each request three
    turns, however interleaved, leaves all of them answered. *)
Lemma interleave_finishes sched reqs w :
  (∀ i, (i < length reqs)%nat → (3 ≤ length (filter (i =.) sched))%nat) →
  Forall finished (interleave sched (Ready <$> reqs) w).1.
Proof.
  intros Hfair.
  apply Forall_lookup. intros i t' Hi.
  apply (run_schedule_progress turn turns_left turn_progress) in Hi as (t & Ht & Hle). unfold finished.
  rewrite list_lookup_fmap in Ht. destruct (reqs !! i) as [req|] eqn:Hr; simplify_eq/=.
  specialize (Hfair i (lookup_lt_Some _ _ _ Hr)). lia.
Qed.

End concurrency.
