(* ===== verification/Locks.v ===== *)
(** * Locks: what the SQL transactions wait for

    PostgreSQL locks a row FOR UPDATE for [GetAccountForUpdate], takes FOR KEY
    SHARE on the rows a foreign key of an INSERT refers to, and makes an INSERT
    of a unique key wait for a transaction that inserted the same key; locks
    are kept until COMMIT or ROLLBACK.  [locks_of] reads the lock requests off
    the statements of a service's SQL transaction; the step relation grants
    them to many transactions at once. *)

From S2P Require Import Prelude Platform Errs Model Database GoM Store Books Transfer Funding.
#[local] Open Scope Z_scope.

Section locks.
Context `{UuidLib} `{DecimalLib} `{RedisServer} `{!Env}.

Inductive mode := ForUpdate | KeyShare.

(** A row of [accounts], or an entry of the unique index on the keys. *)
Inductive resource := Row (account : UUID) | Key (key : UUID).

#[global] Instance mode_eq_dec : EqDecision mode.
Proof. solve_decision. Defined.
#[global] Instance resource_eq_dec : EqDecision resource.
Proof. solve_decision. Defined.

Definition conflict (m1 m2 : mode) : bool :=
  match m1, m2 with KeyShare, KeyShare => false | _, _ => true end.

(** A transaction in progress: the locks it was granted, and those its
    remaining statements ask for. *)
Record locker := mkLocker {
  granted : list (mode * resource);
  wanted : list (mode * resource)
}.

(** The lock requests of a statement of a transaction between [from] and [to]
    under idempotency key [key]. *)
Definition locks_of (from to key : UUID) (ev : event) : list (mode * resource) :=
  match ev with
  | EvLockAccount id => [(ForUpdate, Row id)]
  | EvInsertTransaction _ => [(ForUpdate, Key key); (KeyShare, Row from); (KeyShare, Row to)]
  | EvInsertLedger id _ => [(KeyShare, Row id)]
  | _ => []
  end.

Definition transfer_locker (req : TransferRequest) : locker :=
  let from := TransferRequest_FromAccountID req in
  let to := TransferRequest_ToAccountID req in
  let '(f, s) := lock_order from to in
  mkLocker [] (transfer_script req uuid_Nil f s
    ≫= locks_of from to (TransferRequest_IdempotencyKey req)).

(** A funding drawn on account [system], under the generated key [key]. *)
Definition funding_locker (system key : UUID) (req : FundRequest) : locker :=
  mkLocker [] (fund_script req uuid_Nil ≫= locks_of system (FundRequest_ToAccountID req) key).

(** The balance read of [Service_GetBalance]. *)
Definition balance_locker (account : UUID) : locker := mkLocker [] [(ForUpdate, Row account)].

(** A request waits for every other transaction that holds a conflicting lock. *)
Definition blocks (l : locker) (q : mode * resource) : bool :=
  existsb (λ g, bool_decide (g.2 = q.2) && conflict g.1 q.1) (granted l).

Definition grantable (ls : list locker) (i : nat) (q : mode * resource) : Prop :=
  ∀ j l, ls !! j = Some l → j ≠ i → blocks l q = false.

(** Transactions run on: a lock is granted, or all locks are taken and the
    transaction commits; or it fails and rolls back. *)
Inductive lock_step : relation (list locker) :=
| step_grant ls i l q rest :
    ls !! i = Some l → wanted l = q :: rest → grantable ls i q →
    lock_step ls (<[i := mkLocker (q :: granted l) rest]> ls)
| step_commit ls i l :
    ls !! i = Some l → wanted l = [] → lock_step ls (<[i := mkLocker [] []]> ls)
| step_rollback ls i l :
    ls !! i = Some l → lock_step ls (<[i := mkLocker [] []]> ls).

(** Every transaction that still wants a lock has to wait for another one, and
    there is one that does. *)
Definition waits (ls : list locker) (i : nat) (l : locker) : Prop :=
  ∃ q rest, wanted l = q :: rest ∧ ∃ j l', ls !! j = Some l' ∧ j ≠ i ∧ blocks l' q = true.

Definition deadlock (ls : list locker) : Prop :=
  (∃ l, l ∈ ls ∧ wanted l ≠ []) ∧
  ∀ i l, ls !! i = Some l → wanted l = [] ∧ granted l = [] ∨ waits ls i l.

(** ** Locks taken in order *)

(** Rows in the order of their text, then keys. *)
Definition below (r1 r2 : resource) : Prop :=
  match r1, r2 with
  | Row a, Row b => String.ltb (uuid_String a) (uuid_String b) = true
  | Row _, Key _ => True
  | Key _, _ => False
  end.

(** Every lock that is wanted, and not covered by one already granted, is above
    all locks granted by then. *)
Fixpoint ordered (held : list (mode * resource)) (ws : list (mode * resource)) : Prop :=
  match ws with
  | [] => True
  | q :: ws' =>
    ((ForUpdate, q.2) ∈ held ∨ Forall (λ g, below g.2 q.2) held) ∧ ordered (q :: held) ws'
  end.

(** At most one transaction holds a row FOR UPDATE. *)
Definition exclusive (ls : list locker) : Prop :=
  ∀ i j l l' r m, ls !! i = Some l → ls !! j = Some l' → i ≠ j →
    (ForUpdate, r) ∈ granted l → (m, r) ∈ granted l' → False.

Definition lock_inv (ls : list locker) : Prop :=
  exclusive ls ∧ Forall (λ l, ordered (granted l) (wanted l)) ls.

Lemma blocks_spec l q :
  blocks l q = true ↔ ∃ m, (m, q.2) ∈ granted l ∧ conflict m q.1 = true.
Proof.
  unfold blocks. rewrite existsb_exists. setoid_rewrite andb_true_iff.
  setoid_rewrite bool_decide_eq_true. setoid_rewrite <-list_elem_of_In. split.
  - intros ([m r] & Hin & Hr & Hc). simpl in *. subst. eauto.
  - intros (m & Hin & Hc). by exists (m, q.2).
Qed.

Lemma string_ltb_trans a b c :
  String.ltb a b = true → String.ltb b c = true → String.ltb a c = true.
Proof.
  unfold String.ltb. revert b c. induction a as [|x a IH]; intros [|y b] [|z c]; simpl; try done.
  unfold Ascii.compare.
  destruct (N.compare_spec (Ascii.N_of_ascii x) (Ascii.N_of_ascii y)) as [Hxy|Hxy|Hxy];
  destruct (N.compare_spec (Ascii.N_of_ascii y) (Ascii.N_of_ascii z)) as [Hyz|Hyz|Hyz]; try done; intros;
  destruct (N.compare_spec (Ascii.N_of_ascii x) (Ascii.N_of_ascii z)) as [Hxz|Hxz|Hxz]; try done; try lia.
  by eapply IH.
Qed.

Lemma string_ltb_irrefl a : String.ltb a a = false.
Proof.
  unfold String.ltb. induction a as [|x a IH]; simpl; [done|].
  unfold Ascii.compare. by rewrite N.compare_refl.
Qed.

Lemma below_trans r1 r2 r3 : below r1 r2 → below r2 r3 → below r1 r3.
Proof. destruct r1, r2, r3; simpl; try done. apply string_ltb_trans. Qed.

Lemma below_irrefl r : ¬ below r r.
Proof. destruct r; simpl; [|tauto]. by rewrite string_ltb_irrefl. Qed.

#[global] Instance below_dec r1 r2 : Decision (below r1 r2).
Proof. destruct r1, r2; simpl; apply _. Defined.

(** Some resource of a finite list has none above it. *)
Lemma top_resource (rs : list resource) :
  rs ≠ [] → ∃ r, r ∈ rs ∧ ∀ r', r' ∈ rs → ¬ below r r'.
Proof.
  induction rs as [|r rs IH]; intros Hne; [done|].
  destruct (decide (rs = [])) as [->|Hrs].
  { exists r. split; [by left|]. intros r' ->%list_elem_of_singleton. apply below_irrefl. }
  destruct (IH Hrs) as (t & Ht & Htop). destruct (decide (below t r)) as [Htr|Htr].
  - exists r. split; [by left|]. intros r' [->|Hr']%elem_of_cons; [apply below_irrefl|].
    intros Hrr'. apply (Htop r' Hr'). by eapply below_trans.
  - exists t. split; [by right|]. intros r' [->|Hr']%elem_of_cons; auto.
Qed.

Lemma exclusive_release ls i : exclusive ls → exclusive (<[i := mkLocker [] []]> ls).
Proof.
  intros Hex j k l l' r m Hj Hk Hjk Hr Hm.
  apply list_lookup_insert_Some in Hj as [(-> & <- & _)|[_ Hj]]; [by apply not_elem_of_nil in Hr|].
  apply list_lookup_insert_Some in Hk as [(-> & <- & _)|[_ Hk]]; [by apply not_elem_of_nil in Hm|].
  by eapply (Hex j k).
Qed.

Lemma exclusive_grant ls i l q ws :
  exclusive ls → ls !! i = Some l → grantable ls i q →
  exclusive (<[i := mkLocker (q :: granted l) ws]> ls).
Proof.
  intros Hex Hi Hg j k l1 l2 r m Hj Hk Hjk Hr Hm.
  assert (∀ n l', ls !! n = Some l' → n ≠ i → ∀ m', (m', q.2) ∈ granted l' → conflict m' q.1 = true → False) as Hno.
  { intros n l' Hn Hni m' Hin Hc. specialize (Hg n l' Hn Hni).
    assert (blocks l' q = true) by (apply blocks_spec; eauto). congruence. }
  apply list_lookup_insert_Some in Hj as [(-> & <- & _)|[Hij Hj]];
  apply list_lookup_insert_Some in Hk as [(<- & <- & _)|[Hik Hk]]; try done; simpl in *.
  - apply elem_of_cons in Hr as [<-|Hr]; [|by eapply (Hex j k)].
    eapply (Hno k); [done|done|exact Hm|]. by destruct m.
  - apply elem_of_cons in Hm as [<-|Hm]; [|by eapply (Hex j i)].
    eapply (Hno j); [done|congruence|exact Hr|]. done.
  - by eapply (Hex j k).
Qed.

Lemma lock_step_inv ls ls' : lock_step ls ls' → lock_inv ls → lock_inv ls'.
Proof.
  intros Hs [Hex Hord]. destruct Hs as [ls i l q rest Hi Hw Hg|ls i l Hi Hw|ls i l Hi].
  - split; [by apply exclusive_grant|]. apply Forall_insert; [done|].
    simpl. pose proof (Forall_lookup_1 _ _ _ _ Hord Hi) as Ho; cbv beta in Ho. rewrite Hw in Ho. apply Ho.
  - split; [by apply exclusive_release|]. by apply Forall_insert.
  - split; [by apply exclusive_release|]. by apply Forall_insert.
Qed.

(** Ordered lock requests cannot wait for each other in a cycle. *)
Lemma lock_inv_no_deadlock ls : lock_inv ls → ¬ deadlock ls.
Proof.
  intros [Hex Hord] [(l0 & Hl0 & Hw0) Hall].
  set (rs := omap (λ l, snd <$> head (wanted l)) ls).
  assert (∀ l q ws, l ∈ ls → wanted l = q :: ws → q.2 ∈ rs) as Hin.
  { intros l q ws Hl Hw. apply list_elem_of_omap. exists l. split; [done|]. by rewrite Hw. }
  destruct (top_resource rs) as (r & Hr & Htop).
  { destruct (wanted l0) as [|q ws] eqn:Hw; [done|]. intros Hnil.
    specialize (Hin _ _ _ Hl0 Hw). rewrite Hnil in Hin. by apply not_elem_of_nil in Hin. }
  apply list_elem_of_omap in Hr as (l & Hl & Hq). apply list_elem_of_lookup in Hl as [i Hi].
  destruct (Hall i l Hi) as [[Hw _]|(q & ws & Hw & j & l' & Hj & Hji & Hb)]; [by rewrite Hw in Hq|].
  rewrite Hw in Hq. injection Hq as <-. apply blocks_spec in Hb as (m & Hm & _).
  destruct (Hall j l' Hj) as [[_ Hg]|(q' & ws' & Hw' & k & l'' & Hk & Hkj & Hb')].
  { rewrite Hg in Hm. by apply not_elem_of_nil in Hm. }
  apply blocks_spec in Hb' as (m' & Hm' & _).
  pose proof (Forall_lookup_1 _ _ _ _ Hord Hj) as Ho; cbv beta in Ho. rewrite Hw' in Ho.
  destruct Ho as [[Hheld|Hbelow] _]; [by eapply (Hex j k)|].
  rewrite Forall_forall in Hbelow. apply (Htop q'.2); [|by apply (Hbelow _ Hm)].
  apply (Hin l' q' ws'); [by eapply list_elem_of_lookup_2|exact Hw'].
Qed.

Lemma transfer_locker_ordered `{!UuidLaws} req :
  TransferRequest_FromAccountID req ≠ TransferRequest_ToAccountID req →
  granted (transfer_locker req) = [] ∧ ordered [] (wanted (transfer_locker req)).
Proof.
  intros Hne. unfold transfer_locker.
  pose proof (lock_order_perm (TransferRequest_FromAccountID req) (TransferRequest_ToAccountID req)) as Hp.
  pose proof (lock_order_lt _ _ Hne) as Hlt. destruct (lock_order _ _) as [f s]. simpl in Hp, Hlt |- *.
  set (from := TransferRequest_FromAccountID req) in *. set (to := TransferRequest_ToAccountID req) in *.
  assert (from ∈ [f; s] ∧ to ∈ [f; s]) as [Hf Ht] by (rewrite Hp; set_solver).
  split; [done|]. rewrite !elem_of_cons, ?Forall_cons in *. unfold below; simpl.
  set_unfold. naive_solver.
Qed.

(** Locks of a balance read. *)
Lemma balance_locker_ordered id :
  granted (balance_locker id) = [] ∧ ordered [] (wanted (balance_locker id)).
Proof. simpl. auto. Qed.

Lemma start_inv ls :
  Forall (λ l, granted l = [] ∧ ordered [] (wanted l)) ls → lock_inv ls.
Proof.
  intros Hls. split.
  - intros i j l l' r m Hi _ _ Hr _. destruct (Forall_lookup_1 _ _ _ _ Hls Hi) as [Hg _].
    rewrite Hg in Hr. by apply not_elem_of_nil in Hr.
  - eapply Forall_impl; [exact Hls|]. by intros l [-> ?].
Qed.

(** C17. Ordering the locks rules deadlocks out: any number of transfers (with
    distinct accounts, as [TransferFunds] requires) and balance reads, at any
    point of any run, either are all done or one of them can go on. *)
Theorem transfers_never_deadlock `{!UuidLaws} reqs ids ls :
  Forall (λ req, TransferRequest_FromAccountID req ≠ TransferRequest_ToAccountID req) reqs →
  rtc lock_step ((transfer_locker <$> reqs) ++ (balance_locker <$> ids)) ls →
  ¬ deadlock ls.
Proof.
  intros Hreqs Hrtc. apply lock_inv_no_deadlock.
  assert (lock_inv ((transfer_locker <$> reqs) ++ (balance_locker <$> ids))) as Hinv.
  { apply start_inv, Forall_app. split; apply Forall_fmap.
    - eapply Forall_impl; [exact Hreqs|]. intros req. apply transfer_locker_ordered.
    - apply Forall_true. intros id. apply balance_locker_ordered. }
  induction Hrtc; eauto using lock_step_inv.
Qed.

(** C38. A funding is not part of that order: it locks its target first, and the
    system account when the foreign key of its INSERT is checked.  Together with
    a transfer out of the system account it can deadlock, when the system
    account comes first. *)
Theorem funding_can_deadlock system to key fkey amount famount :
  String.ltb (uuid_String system) (uuid_String to) = true →
  ∃ ls, rtc lock_step
    [transfer_locker (mkTransferRequest system to amount key);
     funding_locker system fkey (mkFundRequest to famount)] ls ∧ deadlock ls.
Proof.
  intros Hlt. assert (lock_order system to = (system, to)) as Hlo.
  { unfold lock_order. destruct (String.ltb (uuid_String to) _) eqn:Hgt; [|done].
    pose proof (string_ltb_trans _ _ _ Hlt Hgt) as Hc. by rewrite string_ltb_irrefl in Hc. }
  assert (system ≠ to) as Hne by (intros ->; by rewrite string_ltb_irrefl in Hlt).
  unfold transfer_locker; simpl. rewrite Hlo. unfold funding_locker, fund_script, transfer_script; simpl.
  eexists. split.
  - eapply rtc_l; [eapply (step_grant _ 0); [done|done|]|].
    { intros [|[|j]] l Hl Hj; by simplify_eq/=. }
    eapply rtc_l; [eapply (step_grant _ 1); [done|done|]|].
    { intros [|[|j]] l Hl Hj; simplify_eq/=. unfold blocks; simpl.
      by rewrite bool_decide_false by naive_solver. }
    eapply rtc_l; [eapply (step_grant _ 1); [done|done|]|].
    { intros [|[|j]] l Hl Hj; by simplify_eq/=. }
    apply rtc_refl.
  - simpl. split.
    + eexists. split; [by left|done].
    + intros [|[|i]] l Hl; simplify_eq/=; right; do 2 eexists; (split; [done|]).
      * exists 1%nat. eexists. split_and!; [done|done|]. apply blocks_spec. exists ForUpdate. simpl.
        set_solver.
      * exists 0%nat. eexists. split_and!; [done|done|]. apply blocks_spec. exists ForUpdate. simpl.
        set_solver.
Qed.

End locks.
