(* ===== verification/Strconv.v ===== *)
(** * Strconv: 64-bit integers and [strconv.Atoi]

    What the program uses of Go's [int] on a 64-bit platform, and the parsing
    of decimal numbers, with the value that comes along with an error. *)

From S2P Require Import Prelude.
From Stdlib Require Import Ascii.
From stdpp Require Import pretty.
#[local] Open Scope Z_scope.

(** The value of an int64 computation that may overflow. *)
Definition int64 (z : Z) : Z := (z + 2 ^ 63) mod 2 ^ 64 - 2 ^ 63.

Inductive num_error := ErrSyntax | ErrRange.

Definition digit_value (c : ascii) : option Z :=
  let n := Z.of_N (N_of_ascii c) in
  if (48 <=? n) && (n <=? 57) then Some (n - 48) else None.

(** The digits of [ParseUint], base 10, 64 bits: the first overflow ends the
    scan, before what follows is looked at. *)
Fixpoint parse_digits (acc : Z) (s : string) : Z * option num_error :=
  match s with
  | EmptyString => (acc, None)
  | String c s' =>
    match digit_value c with
    | None => (0, Some ErrSyntax)
    | Some d =>
      if 2 ^ 64 <=? 10 * acc + d then (2 ^ 64 - 1, Some ErrRange) else parse_digits (10 * acc + d) s'
    end
  end.

Definition ParseUint (s : string) : Z * option num_error :=
  match s with EmptyString => (0, Some ErrSyntax) | _ => parse_digits 0 s end.

(** An optional sign, then digits; out of range the nearest int64. *)
Definition Atoi (s : string) : Z * option num_error :=
  let '(neg, digits) :=
    match s with
    | String c s' => if decide (c = "+"%char) then (false, s') else if decide (c = "-"%char) then (true, s') else (false, s)
    | EmptyString => (false, s)
    end in
  match ParseUint digits with
  | (_, Some ErrSyntax) => (0, Some ErrSyntax)
  | (un, err) =>
    if negb neg && (2 ^ 63 <=? un) then (2 ^ 63 - 1, Some ErrRange)
    else if neg && (2 ^ 63 <? un) then (- 2 ^ 63, Some ErrRange)
    else (if neg then - un else un, err)
  end.

(** ** Properties *)

Lemma int64_id z : - 2 ^ 63 <= z < 2 ^ 63 → int64 z = z.
Proof. intros Hz. unfold int64. rewrite Z.mod_small by lia. lia. Qed.

(** The int64 with the same value modulo [2^64]. *)
Lemma int64_mod z :
  int64 z = if z mod 2 ^ 64 <? 2 ^ 63 then z mod 2 ^ 64 else z mod 2 ^ 64 - 2 ^ 64.
Proof.
  unfold int64. pose proof (Z.mod_pos_bound z (2 ^ 64) ltac:(done)).
  rewrite <-Zplus_mod_idemp_l. destruct (Z.ltb_spec (z mod 2 ^ 64) (2 ^ 63)).
  - rewrite Z.mod_small; lia.
  - replace (z mod 2 ^ 64 + 2 ^ 63) with (z mod 2 ^ 64 - 2 ^ 63 + 1 * 2 ^ 64) by lia.
    rewrite Z.mod_add, Z.mod_small by lia. lia.
Qed.

Lemma digit_value_range c d : digit_value c = Some d → 0 <= d < 10.
Proof.
  unfold digit_value. destruct ((48 <=? _) && _) eqn:Hc; [|done]. intros Hd. injection Hd as <-.
  apply andb_true_iff in Hc as [?%Z.leb_le ?%Z.leb_le]. lia.
Qed.

Lemma parse_digits_range s acc : 0 <= acc < 2 ^ 64 → 0 <= (parse_digits acc s).1 < 2 ^ 64.
Proof.
  revert acc. induction s as [|c s IH]; intros acc Hacc; simpl; [done|].
  destruct (digit_value c) as [d|] eqn:Hd; [|done]. apply digit_value_range in Hd.
  destruct (Z.leb_spec (2 ^ 64) (10 * acc + d)); [done|]. apply IH. lia.
Qed.

(** Whatever the text, the value is an int64. *)
Lemma Atoi_range s : - 2 ^ 63 <= (Atoi s).1 < 2 ^ 63.
Proof.
  unfold Atoi. destruct (match s with EmptyString => _ | _ => _ end) as [neg digits].
  assert (0 <= (ParseUint digits).1 < 2 ^ 64) as Hr.
  { unfold ParseUint. destruct digits; [done|]. by apply parse_digits_range. }
  destruct (ParseUint digits) as [un [[]|]]; simpl in *; [done|..];
    destruct neg; simpl; destruct (Z.leb_spec (2 ^ 63) un), (Z.ltb_spec (2 ^ 63) un); simpl; lia.
Qed.

Example Atoi_12 : Atoi "-12" = (-12, None).
Proof. reflexivity. Qed.
Example Atoi_sign : Atoi "+" = (0, Some ErrSyntax).
Proof. reflexivity. Qed.
Example Atoi_big : Atoi "99999999999999999999x" = (2 ^ 63 - 1, Some ErrRange).
Proof. reflexivity. Qed.
