(* ===== verification/Http.v ===== *)
(** * Http: requests, responses and handlers ([net/http], [encoding/json])

    What the program uses of the standard library's HTTP server.  A handler
    gets a request, the response header set so far, and the world; it replies
    or panics.  The values of the request context are fields of the request;
    the body is what [json.Decode] makes of it for each request type.  A JSON
    response body is the Go value that is encoded. *)

From S2P Require Import Prelude Platform Errs Model Database GoM.
#[local] Open Scope Z_scope.

(** The text of a driver's error: not under the program's control. *)
Class DriverText := driver_text : driver_error → string.

Section http.
Context `{UuidLib} `{DecimalLib} `{RedisServer} `{!Env} `{DriverText}.

(** [None]: the body does not decode into that type. *)
Record Body := mkBody {
  body_transfer : option TransferRequest;
  body_register : option RegisterRequest;
  body_login : option LoginRequest;
  body_fund : option FundRequest
}.

Record Request := mkRequest {
  req_header : gmap string string;
  req_cookies : gmap string string;
  req_remote_addr : string;
  req_path_id : string;
  req_query : gmap string string;
  req_body : Body;
  ctx_user_id : option UUID;
  ctx_username : option string;
  ctx_jti : option string
}.

(** [r.WithContext] after the three [context.WithValue] of the middleware. *)
Definition with_identity (user : UUID) (username jti : string) (r : Request) : Request :=
  mkRequest (req_header r) (req_cookies r) (req_remote_addr r) (req_path_id r) (req_query r)
    (req_body r) (Some user) (Some username) (Some jti).

Inductive SameSite := SameSiteLaxMode | SameSiteNoneMode.

Record Cookie := mkCookie {
  Cookie_Name : string;
  Cookie_Value : string;
  Cookie_Path : string;
  Cookie_HttpOnly : bool;
  Cookie_Secure : bool;
  Cookie_SameSite : SameSite;
  Cookie_MaxAge : Z
}.

(** The values the handlers encode. *)
Inductive json :=
| JError (msg : string)
| JMessage (msg : string)
| JHealth
| JTransfer (resp : TransferResponse)
| JFund (resp : FundResponse)
| JUser (msg : string) (u : User)
| JAccounts (accounts : list Account) (count : Z)
| JBalance (resp : BalanceResponse)
| JHistory (resp : PaginatedHistory).

(** The header of the response so far, with its cookies. *)
Record Header := mkHeader {
  h_values : gmap string string;
  h_cookies : list Cookie
}.

Definition no_header : Header := mkHeader ∅ [].

Definition header_Set (k v : string) (h : Header) : Header :=
  mkHeader (<[k := v]> (h_values h)) (h_cookies h).

Definition http_SetCookie (c : Cookie) (h : Header) : Header :=
  mkHeader (h_values h) (h_cookies h ++ [c]).

Record Response := mkResponse {
  resp_status : Z;
  resp_header : Header;
  resp_body : json
}.

(** A handler that panics is cut off by the server. *)
Inductive reply :=
| Replied (resp : Response)
| Panicked.

Definition Handler : Type := Request → Header → World → reply * World.

Definition status_OK : Z := 200.
Definition status_Created : Z := 201.
Definition status_BadRequest : Z := 400.
Definition status_Unauthorized : Z := 401.
Definition status_Forbidden : Z := 403.
Definition status_NotFound : Z := 404.
Definition status_Conflict : Z := 409.
Definition status_UnprocessableEntity : Z := 422.
Definition status_TooManyRequests : Z := 429.
Definition status_InternalServerError : Z := 500.

(** [writeJSON]: the content type, the status, the encoded value. *)
Definition writeJSON (status : Z) (data : json) (h : Header) : reply :=
  Replied (mkResponse status (header_Set "Content-Type" "application/json" h) data).

(** [err.Error()] in a response. *)
Definition error_json (e : error) : json := JError (Error driver_text e).

(** [r.Header.Get] and [r.URL.Query().Get]: empty when absent. *)
Definition get (m : gmap string string) (k : string) : string := default ""%string (m !! k).

(** The status of a reply, if there is one. *)
Definition reply_status (r : reply) : option Z :=
  match r with Replied resp => Some (resp_status resp) | Panicked => None end.

End http.
