(* ===== verification/Json.v ===== *)
(** * Json: request and response bodies ([encoding/json] and the tags of [model.go])

    What the struct tags make of the bodies.  A request body is the tree the
    JSON scanner reads ([jin]: a string literal with its text between the quotes
    and its value, a number as text); [decode_transfer] and its like are what
    [Decode] does with it for each request type.  A response body is the tree
    [Encode] writes ([jout]); members come in the order of the fields, those of
    a map in the order of its keys. *)

From S2P Require Import Prelude Platform Errs Model Database GoM Store Books Transfer Http.
From Stdlib Require Import Ascii.
#[local] Open Scope Z_scope.

(** [decimal.Decimal]: [String], and [NewFromString] ([None]: an error). *)
Class DecimalText `{DecimalLib} := {
  dec_String : Decimal → string;
  dec_NewFromString : string → option Decimal
}.

(** A decimal reads back as the number it denotes, a UUID as itself. *)
Class DecimalTextLaws `{DecimalText} := {
  dec_text_roundtrip d : ∃ d', dec_NewFromString (dec_String d) = Some d' ∧ (dec_val d' == dec_val d)%Q;
  dec_text_nonempty d : dec_String d ≠ ""%string
}.
Class UuidTextLaws `{UuidLib} := {
  uuid_text_roundtrip u : uuid_Parse (uuid_String u) = Some u
}.

(** ** Trees *)

Inductive jin :=
| INull
| IBool (b : bool)
| INumber (text : string)
| IString (raw value : string)
| IArray (elements : list jin)
| IObject (members : list (string * jin)).

Inductive jout :=
| OBool (b : bool)
| ONumber (n : Z)
| OString (s : string)
| OTime (t : Z)
| OArray (elements : list jout)
| OObject (members : list (string * jout)).

(** ** Names of members *)

(** [foldName], as far as it matters for ASCII names: letters to lower case,
    and the Kelvin sign and the long s to the letters they fold to. *)
Fixpoint fold_name (s : string) : string :=
  match s with
  | EmptyString => ""
  | String "226"%char (String "132"%char (String "170"%char s')) => String "k"%char (fold_name s')
  | String "197"%char (String "191"%char s') => String "s"%char (fold_name s')
  | String c s' =>
    let n := N_of_ascii c in
    String (if ((65 <=? n) && (n <=? 90))%N then ascii_of_N (n + 32) else c) (fold_name s')
  end.

Section json.
Context `{UuidLib} `{DecimalLib} `{DT : !DecimalText}.

(** ** Decoding *)

(** A field: its name, and what a value does to the struct; [None]: an error. *)
Definition field (A : Type) : Type := string * (jin → A → option A).

(** The field of a member: by its exact name, else by the folded one. *)
Definition find_field {A} (fields : list (field A)) (name : string) : option (jin → A → option A) :=
  match list_find (λ f, f.1 = name) fields with
  | Some (_, f) => Some f.2
  | None => snd ∘ snd <$> list_find (λ f, fold_name f.1 = fold_name name) fields
  end.

(** Members in order, the last one of a name wins, unknown ones are skipped. *)
Fixpoint decode_members {A} (fields : list (field A)) (members : list (string * jin)) (a : A) : option A :=
  match members with
  | [] => Some a
  | (name, v) :: members' =>
    match find_field fields name with
    | None => decode_members fields members' a
    | Some set => a' ← set v a; decode_members fields members' a'
    end
  end.

(** [null] leaves a struct as it is. *)
Definition decode_struct {A} (fields : list (field A)) (v : jin) (a : A) : option A :=
  match v with
  | INull => Some a
  | IObject members => decode_members fields members a
  | _ => None
  end.

Definition decode_string (v : jin) (old : string) : option string :=
  match v with INull => Some old | IString _ s => Some s | _ => None end.

(** [UUID.UnmarshalText]. *)
Definition decode_uuid (v : jin) (old : UUID) : option UUID :=
  match v with INull => Some old | IString _ s => uuid_Parse s | _ => None end.

(** [Decimal.UnmarshalJSON]: the text of the value, without quotes unless there
    is nothing between them. *)
Definition decode_decimal (v : jin) (old : Decimal) : option Decimal :=
  match v with
  | INull => Some old
  | INumber text => dec_NewFromString text
  | IString raw _ =>
    dec_NewFromString (if decide (raw = ""%string) then String "034"%char (String "034"%char "") else raw)
  | IBool b => dec_NewFromString (if b then "true" else "false")
  | _ => None
  end.

Definition transfer_fields : list (field TransferRequest) :=
  [("from_account_id"%string, λ v r, (λ x, mkTransferRequest x (TransferRequest_ToAccountID r)
      (TransferRequest_Amount r) (TransferRequest_IdempotencyKey r)) <$> decode_uuid v (TransferRequest_FromAccountID r));
   ("to_account_id"%string, λ v r, (λ x, mkTransferRequest (TransferRequest_FromAccountID r) x
      (TransferRequest_Amount r) (TransferRequest_IdempotencyKey r)) <$> decode_uuid v (TransferRequest_ToAccountID r));
   ("amount"%string, λ v r, (λ x, mkTransferRequest (TransferRequest_FromAccountID r) (TransferRequest_ToAccountID r)
      x (TransferRequest_IdempotencyKey r)) <$> decode_decimal v (TransferRequest_Amount r));
   ("idempotency_key"%string, λ v r, (λ x, mkTransferRequest (TransferRequest_FromAccountID r)
      (TransferRequest_ToAccountID r) (TransferRequest_Amount r) x) <$> decode_uuid v (TransferRequest_IdempotencyKey r))].

Definition register_fields : list (field RegisterRequest) :=
  [("username"%string, λ v r, (λ x, mkRegisterRequest x (RegisterRequest_Email r) (RegisterRequest_Password r)
      (RegisterRequest_FullName r)) <$> decode_string v (RegisterRequest_Username r));
   ("email"%string, λ v r, (λ x, mkRegisterRequest (RegisterRequest_Username r) x (RegisterRequest_Password r)
      (RegisterRequest_FullName r)) <$> decode_string v (RegisterRequest_Email r));
   ("password"%string, λ v r, (λ x, mkRegisterRequest (RegisterRequest_Username r) (RegisterRequest_Email r) x
      (RegisterRequest_FullName r)) <$> decode_string v (RegisterRequest_Password r));
   ("full_name"%string, λ v r, (λ x, mkRegisterRequest (RegisterRequest_Username r) (RegisterRequest_Email r)
      (RegisterRequest_Password r) x) <$> decode_string v (RegisterRequest_FullName r))].

Definition login_fields : list (field LoginRequest) :=
  [("username"%string, λ v r, (λ x, mkLoginRequest x (LoginRequest_Password r)) <$> decode_string v (LoginRequest_Username r));
   ("password"%string, λ v r, (λ x, mkLoginRequest (LoginRequest_Username r) x) <$> decode_string v (LoginRequest_Password r))].

Definition fund_fields : list (field FundRequest) :=
  [("to_account_id"%string, λ v r, (λ x, mkFundRequest x (FundRequest_Amount r)) <$> decode_uuid v (FundRequest_ToAccountID r));
   ("amount"%string, λ v r, (λ x, mkFundRequest (FundRequest_ToAccountID r) x) <$> decode_decimal v (FundRequest_Amount r))].

(** [var req T; Decode(&req)]. *)
Definition decode_transfer (v : jin) : option TransferRequest :=
  decode_struct transfer_fields v (mkTransferRequest uuid_Nil uuid_Nil dec_Zero uuid_Nil).
Definition decode_register (v : jin) : option RegisterRequest :=
  decode_struct register_fields v (mkRegisterRequest "" "" "" "").
Definition decode_login (v : jin) : option LoginRequest :=
  decode_struct login_fields v (mkLoginRequest "" "").
Definition decode_fund (v : jin) : option FundRequest :=
  decode_struct fund_fields v (mkFundRequest uuid_Nil dec_Zero).

(** The body of a request; [None]: no JSON value could be read. *)
Definition body_of (v : option jin) : Body :=
  mkBody (v ≫= decode_transfer) (v ≫= decode_register) (v ≫= decode_login) (v ≫= decode_fund).

(** ** Encoding *)

Definition status_text (s : TransactionStatus) : string :=
  match s with
  | TxnStatusPending => "Pending" | TxnStatusCompleted => "Completed"
  | TxnStatusFailed => "Failed" | TxnStatusReversed => "Reversed"
  end.
Definition account_status_text (s : AccountStatus) : string :=
  match s with
  | AccountStatusActive => "Active" | AccountStatusFrozen => "Frozen" | AccountStatusClosed => "Closed"
  end.
Definition direction_text (d : direction) : string :=
  match d with Sent => "sent" | Received => "received" end.

(** The tag of [PasswordHash] is a dash: it is left out. *)
Definition encode_user (u : User) : jout :=
  OObject [("id", OString (uuid_String (User_ID u))); ("username", OString (User_Username u));
    ("email", OString (User_Email u)); ("full_name", OString (User_FullName u));
    ("is_system_user", OBool (User_IsSystemUser u)); ("is_active", OBool (User_IsActive u));
    ("created_at", OTime (User_CreatedAt u)); ("updated_at", OTime (User_UpdatedAt u))]%string.

Definition encode_account (a : Account) : jout :=
  OObject [("id", OString (uuid_String (Account_ID a))); ("user_id", OString (uuid_String (Account_UserID a)));
    ("currency", OString (Account_Currency a)); ("status", OString (account_status_text (Account_Status a)));
    ("created_at", OTime (Account_CreatedAt a))]%string.

Definition encode_item (i : TransactionHistoryItem) : jout :=
  OObject [("id", OString (uuid_String (HistoryItem_ID i)));
    ("from_account_id", OString (uuid_String (HistoryItem_FromAccountID i)));
    ("to_account_id", OString (uuid_String (HistoryItem_ToAccountID i)));
    ("amount", OString (dec_String (HistoryItem_Amount i)));
    ("status", OString (status_text (HistoryItem_Status i)));
    ("idempotency_key", OString (uuid_String (HistoryItem_IdempotencyKey i)));
    ("created_at", OTime (HistoryItem_CreatedAt i)); ("updated_at", OTime (HistoryItem_UpdatedAt i));
    ("direction", OString (direction_text (HistoryItem_Direction i)))]%string.

(** What [writeJSON] writes for the values of the handlers; the health check of
    [main] writes the members of [JHealth] itself, the status first. *)
Definition encode (j : json) : jout :=
  match j with
  | JError msg => OObject [("error"%string, OString msg)]
  | JMessage msg => OObject [("message"%string, OString msg)]
  | JHealth => OObject [("service", OString "omniledger"); ("status", OString "ok")]%string
  | JTransfer r => OObject [("transaction_id", OString (uuid_String (TransferResponse_TransactionID r)));
      ("status", OString (status_text (TransferResponse_Status r)));
      ("message", OString (TransferResponse_Message r))]%string
  | JFund r => OObject [("transaction_id", OString (uuid_String (FundResponse_TransactionID r)));
      ("to_account_id", OString (uuid_String (FundResponse_ToAccountID r)));
      ("amount", OString (dec_String (FundResponse_Amount r)));
      ("status", OString (status_text (FundResponse_Status r)));
      ("message", OString (FundResponse_Message r))]%string
  | JUser msg u => OObject [("message", OString msg); ("user", encode_user u)]%string
  | JAccounts l n => OObject [("accounts", OArray (encode_account <$> l)); ("count", ONumber n)]%string
  | JBalance r => OObject [("account_id", OString (uuid_String (BalanceResponse_AccountID r)));
      ("currency", OString (BalanceResponse_Currency r)); ("balance", OString (BalanceResponse_Balance r))]%string
  | JHistory p => OObject [("items", OArray (encode_item <$> PaginatedHistory_Items p));
      ("total", ONumber (PaginatedHistory_Total p)); ("page", ONumber (PaginatedHistory_Page p));
      ("per_page", ONumber (PaginatedHistory_PerPage p)); ("total_pages", ONumber (PaginatedHistory_TotalPages p))]%string
  end.

(** ** What the theorems speak of *)

(** A string without characters to escape, as [Encode] writes it. *)
Definition text (s : string) : jin := IString s s.

(** The members a client sends for a request. *)
Definition transfer_members (r : TransferRequest) : list (string * jin) :=
  [("from_account_id", text (uuid_String (TransferRequest_FromAccountID r)));
   ("to_account_id", text (uuid_String (TransferRequest_ToAccountID r)));
   ("amount", text (dec_String (TransferRequest_Amount r)));
   ("idempotency_key", text (uuid_String (TransferRequest_IdempotencyKey r)))]%string.
Definition register_members (r : RegisterRequest) : list (string * jin) :=
  [("username", text (RegisterRequest_Username r)); ("email", text (RegisterRequest_Email r));
   ("password", text (RegisterRequest_Password r)); ("full_name", text (RegisterRequest_FullName r))]%string.
Definition login_members (r : LoginRequest) : list (string * jin) :=
  [("username", text (LoginRequest_Username r)); ("password", text (LoginRequest_Password r))]%string.

(** The same request up to the representation of the amount. *)
Definition same_request (r r' : TransferRequest) : Prop :=
  TransferRequest_FromAccountID r = TransferRequest_FromAccountID r' ∧
  TransferRequest_ToAccountID r = TransferRequest_ToAccountID r' ∧
  (dec_val (TransferRequest_Amount r) == dec_val (TransferRequest_Amount r'))%Q ∧
  TransferRequest_IdempotencyKey r = TransferRequest_IdempotencyKey r'.

(** No member sets the idempotency key. *)
Definition keyless (members : list (string * jin)) : Prop :=
  Forall (λ m, fold_name m.1 ≠ "idempotency_key"%string) members.

(** ** Decoding what was encoded *)

Lemma decode_string_text s old : decode_string (text s) old = Some s.
Proof. done. Qed.

Lemma decode_uuid_text `{!UuidTextLaws} u old : decode_uuid (text (uuid_String u)) old = Some u.
Proof. apply uuid_text_roundtrip. Qed.

Lemma decode_decimal_text `{!DecimalTextLaws} d old :
  ∃ d', decode_decimal (text (dec_String d)) old = Some d' ∧ (dec_val d' == dec_val d)%Q.
Proof. simpl. rewrite decide_False by apply dec_text_nonempty. apply dec_text_roundtrip. Qed.

Lemma decode_members_step {A} (fields : list (field A)) name v members set a a' :
  find_field fields name = Some set → set v a = Some a' →
  decode_members fields ((name, v) :: members) a = decode_members fields members a'.
Proof. simpl. by intros -> ->. Qed.

(** Decodes members in front whose values are rewritten by [tac]. *)
Ltac decode_all tac :=
  repeat (erewrite decode_members_step; [|reflexivity|simpl; tac; reflexivity]); reflexivity.

(** In whatever order a client sends the members, the request is decoded. *)
Lemma decode_transfer_members `{!UuidTextLaws, !DecimalTextLaws} r members :
  members ≡ₚ transfer_members r →
  ∃ r', decode_transfer (IObject members) = Some r' ∧ same_request r' r.
Proof.
  destruct r as [from to amt key]. intros Hm. symmetry in Hm. apply permutations_Permutation in Hm.
  destruct (decode_decimal_text amt dec_Zero) as (d & Hd & Hv).
  exists (mkTransferRequest from to d key). split; [|done].
  pose proof (uuid_text_roundtrip from) as Hf. pose proof (uuid_text_roundtrip to) as Ht.
  pose proof (uuid_text_roundtrip key) as Hk. simpl in Hd.
  unfold decode_transfer, decode_struct. unfold transfer_members in Hm. simpl in Hm.
  repeat (apply elem_of_cons in Hm as [->|Hm]; [decode_all ltac:(rewrite ?Hf, ?Ht, ?Hk, ?Hd)|]).
  by apply elem_of_nil in Hm.
Qed.

Lemma decode_register_members r members :
  members ≡ₚ register_members r → decode_register (IObject members) = Some r.
Proof.
  destruct r as [name email password full]. intros Hm. symmetry in Hm. apply permutations_Permutation in Hm.
  unfold decode_register, decode_struct. unfold register_members in Hm. simpl in Hm.
  repeat (apply elem_of_cons in Hm as [->|Hm]; [decode_all idtac|]). by apply elem_of_nil in Hm.
Qed.

Lemma decode_login_members r members :
  members ≡ₚ login_members r → decode_login (IObject members) = Some r.
Proof.
  destruct r as [name password]. intros Hm. symmetry in Hm. apply permutations_Permutation in Hm.
  unfold decode_login, decode_struct. unfold login_members in Hm. simpl in Hm.
  repeat (apply elem_of_cons in Hm as [->|Hm]; [decode_all idtac|]). by apply elem_of_nil in Hm.
Qed.

(** ** Members that are missing *)

(** [validate] tags are read by nobody: a member that is missing leaves the zero
    value of its field. *)
Lemma transfer_field_key name set v r r' :
  find_field transfer_fields name = Some set → fold_name name ≠ "idempotency_key"%string →
  set v r = Some r' → TransferRequest_IdempotencyKey r' = TransferRequest_IdempotencyKey r.
Proof.
  intros Hf Hn Hs. assert (name ≠ "idempotency_key"%string) as Hn' by (by intros ->).
  revert Hf. unfold find_field. simpl. repeat (case_decide; simpl); intros Hf; simplify_eq;
    by apply fmap_Some in Hs as (x & _ & ->).
Qed.

Lemma decode_members_keyless members r r' :
  keyless members → decode_members transfer_fields members r = Some r' →
  TransferRequest_IdempotencyKey r' = TransferRequest_IdempotencyKey r.
Proof.
  unfold keyless. intros Hk. revert r. induction Hk as [|[name v] ms Hn _ IH]; simpl; intros r Hd; [by simplify_eq|].
  destruct (find_field _ name) as [set|] eqn:Hf; [|by apply IH].
  apply bind_Some in Hd as (r1 & Hs & Hd). rewrite (IH _ Hd). by eapply transfer_field_key.
Qed.

Lemma decode_transfer_keyless members r :
  keyless members → decode_transfer (IObject members) = Some r →
  TransferRequest_IdempotencyKey r = uuid_Nil.
Proof. intros Hk Hd. by apply (decode_members_keyless members _ r Hk) in Hd. Qed.

(** ** Requests that are the same up to the representation of the amount *)

Section same.
Context `{!DecimalLaws}.

Lemma dec_IsPositive_val d d' : (dec_val d == dec_val d')%Q → dec_IsPositive d = dec_IsPositive d'.
Proof. intros Hd. apply eq_true_iff_eq. by rewrite !dec_IsPositive_spec, Hd. Qed.

Lemma dec_LessThan_val c d d' : (dec_val d == dec_val d')%Q → dec_LessThan c d = dec_LessThan c d'.
Proof. intros Hd. apply eq_true_iff_eq. by rewrite !dec_LessThan_spec, Hd. Qed.

Lemma numeric_column_val d d' : (dec_val d == dec_val d')%Q → numeric_column d = numeric_column d'.
Proof.
  intros Hd. unfold numeric_column. rewrite !numeric_18_4_spec.
  assert (round_half_away (dec_units d) = round_half_away (dec_units d')) as -> by (unfold dec_units; by rewrite Hd).
  done.
Qed.

Lemma bank_transfer_same r r' held b : same_request r r' → bank_transfer held r b = bank_transfer held r' b.
Proof.
  intros (Hf & Ht & Ha & Hk).
  unfold bank_transfer, transfer_decision, posting_result.
  by rewrite Hf, Ht, Hk, (dec_IsPositive_val _ _ Ha), (dec_LessThan_val _ _ _ Ha), (numeric_column_val _ _ Ha).
Qed.

End same.

(** ** Responses *)

(** No response carries the hash of a password. *)
Lemma encode_user_hides_hash u hash :
  encode_user u = encode_user (mkUser (User_ID u) (User_Username u) (User_Email u) hash (User_FullName u)
    (User_IsSystemUser u) (User_IsActive u) (User_CreatedAt u) (User_UpdatedAt u)).
Proof. done. Qed.

End json.
