(* ===== verification/RateLimit.v ===== *)
(** * RateLimit: the sliding-window rate limiter ([internal/middleware/ratelimit.go])

    [Limit] counts the requests of a client on a route in a Redis sorted set:
    the members are the times of the requests in nanoseconds, the scores the
    same times as 64-bit floats.  [check] sends four commands in a pipeline
    ([Pipeline]), each of which runs at its own time and may fail on its own.
    [sliding_window] is the sliding window it is meant to implement;
    [limiter_is_sliding_window] shows that it does for one request at a time, up
    to the rounding of the scores; [Limit_fails_open] that a fault at any of the
    commands lets the request through. *)

From S2P Require Import Prelude Platform Errs Model Database GoM Pipeline Http.
From stdpp Require Import pretty.
#[local] Open Scope Z_scope.

(** ** Conversion of an int64 to a float64 *)

(** Division by [2^s], rounding to nearest, ties to even. *)
Definition rne (s z : Z) : Z :=
  let q := Z.shiftr z s in
  let m := z mod 2 ^ s in
  let half := 2 ^ (s - 1) in
  if m <? half then q
  else if half <? m then q + 1
  else if Z.even q then q else q + 1.

(** [float64(z)]: 53 bits of precision; the value is an integer. *)
Definition f64_of_int64 (z : Z) : Z :=
  let a := Z.abs z in
  if a <? 2 ^ 53 then z
  else let s := Z.log2 a - 52 in Z.sgn z * (rne s a * 2 ^ s).

(** ** Printing a duration *)

(** The digits of a fraction, trailing zeros dropped: [f] has [n] digits. *)
Fixpoint fraction (n : nat) (f : Z) : string :=
  match n with
  | O => ""
  | S n' =>
    if f =? 0 then "" else (pretty (f / 10 ^ Z.of_nat n')%Z ++ fraction n' (f mod 10 ^ Z.of_nat n'))%string
  end.

(** [v] with [n] digits after the point, then a unit. *)
Definition with_fraction (n : nat) (v : Z) (unit : string) : string :=
  let f := v mod 10 ^ Z.of_nat n in
  (pretty (v / 10 ^ Z.of_nat n)%Z ++ (if (f =? 0)%Z then "" else "." ++ fraction n f) ++ unit)%string.

(** [Duration.String] of a nonnegative duration. *)
Definition duration_String (d : Z) : string :=
  if d =? 0 then "0s"
  else if d <? 10 ^ 3 then (pretty d ++ "ns")%string
  else if d <? 10 ^ 6 then with_fraction 3 d "µs"
  else if d <? 10 ^ 9 then with_fraction 6 d "ms"
  else
    let m := d / (60 * 10 ^ 9) in
    let s := with_fraction 9 (d mod (60 * 10 ^ 9)) "s" in
    if m =? 0 then s
    else if m / 60 =? 0 then (pretty m ++ "m" ++ s)%string
    else (pretty (m / 60)%Z ++ "h" ++ pretty (m mod 60)%Z ++ "m" ++ s)%string.

Section ratelimit.
Context `{UuidLib} `{DecimalLib} `{RedisServer} `{!Env}.

Record RateLimiterConfig := mkRateLimiterConfig {
  MaxRequests : Z;
  Window : Z
}.

(** The limiter of [main]: 5 requests per minute. *)
Definition main_limits : RateLimiterConfig := mkRateLimiterConfig 5 (60 * 10 ^ 9).

(** ** The middleware *)

(** The commands of [check], in the order they are queued. *)
Definition commands (cfg : RateLimiterConfig) (key nowStr : string) (windowStart now : Z) : list command :=
  [("ZREMRANGEBYSCORE"%string, zset_command key (λ t r,
     (None, redis_ZREMRANGEBYSCORE t key (f64_of_int64 windowStart) r)));
   ("ZCARD"%string, zset_command key (λ t r, (Some (redis_ZCARD t key r), r)));
   ("ZADD"%string, zset_command key (λ t r, (None, redis_ZADD t key nowStr (f64_of_int64 now) r)));
   ("EXPIRE"%string, λ t r, (Ok None, redis_EXPIRE t key (Window cfg + 10 ^ 9) r))].

(** [cardCmd.Val()]: the answer of the second command. *)
Definition cardCmd_Val (replies : list (option Z)) : Z := default 0 (mjoin (replies !! 1%nat)).

Definition rdb_ZRem (key member : string) : M unit :=
  redis_call "ZREM" key (λ t r, (tt, redis_ZREM t key member r)).

(** [check]: is the request allowed, and how many are left. *)
Definition check (cfg : RateLimiterConfig) (key nowStr : string) (windowStart now : Z) : M (bool * Z) :=
  replies ← pipe_Exec key (commands cfg key nowStr windowStart now);
  let count := cardCmd_Val replies in
  if MaxRequests cfg <=? count
  then _ ← ignore (rdb_ZRem key nowStr); mret (false, 0)
  else
  let remaining := MaxRequests cfg - count - 1 in
  mret (true, if remaining <? 0 then 0 else remaining).

Definition extractIP (r : Request) : string :=
  if decide (get (req_header r) "X-Forwarded-For" ≠ ""%string)
  then get (req_header r) "X-Forwarded-For"
  else if decide (get (req_header r) "X-Real-IP" ≠ ""%string)
  then get (req_header r) "X-Real-IP"
  else req_remote_addr r.

Definition limit_key (ip route : string) : string := "vault:ratelimit:" ++ ip ++ ":" ++ route.

Definition limit_message (cfg : RateLimiterConfig) : string :=
  "rate limit exceeded — max " ++ pretty (MaxRequests cfg) ++ " requests per " ++
  duration_String (Window cfg).

Definition Limit (cfg : RateLimiterConfig) (route : string) (next : Handler) : Handler := λ r h w,
  let key := limit_key (extractIP r) route in
  let now := w_now w in
  let nowStr := pretty now in
  let windowStart := now - Window cfg in
  match check cfg key nowStr windowStart now (advance w) with
  | (Err _, w1) => next r h w1
  | (Ok (allowed, remaining), w1) =>
    let h := header_Set "X-RateLimit-Limit" (pretty (MaxRequests cfg)) h in
    let h := header_Set "X-RateLimit-Remaining" (pretty remaining) h in
    let h := header_Set "X-RateLimit-Reset" (pretty ((now + Window cfg) / 10 ^ 9)) h in
    if negb allowed
    then
      let h := header_Set "Retry-After" (pretty (Window cfg / 10 ^ 9)) h in
      (writeJSON status_TooManyRequests (JError (limit_message cfg)) h, w1)
    else next r h w1
  end.

(** ** The specification: a sliding window *)

(** The requests of [log] inside the window that ends at [u]. *)
Definition live (cfg : RateLimiterConfig) (log : list Z) (u : Z) : list Z :=
  filter (λ ts, f64_of_int64 (u - Window cfg) < f64_of_int64 ts) log.

(** What the window answers to requests at the given times, after the requests
    of [log] were admitted. *)
Fixpoint sliding_window (cfg : RateLimiterConfig) (log times : list Z) : list bool :=
  match times with
  | [] => []
  | u :: times' =>
    if Z.of_nat (length (live cfg log u)) <? MaxRequests cfg
    then true :: sliding_window cfg (u :: log) times'
    else false :: sliding_window cfg log times'
  end.

(** A history of the limiter on one key: requests are checked, and in between
    anything happens that leaves the key alone.  The answers are recorded with
    the times of the requests. *)
Inductive limited (cfg : RateLimiterConfig) (key : string) : World → list (Z * bool) → World → Prop :=
| limited_nil w : limited cfg key w [] w
| limited_check w allowed remaining w1 obs w2 :
    check cfg key (pretty (w_now w)) (w_now w - Window cfg) (w_now w) (advance w)
      = (Ok (allowed, remaining), w1) →
    limited cfg key w1 obs w2 →
    limited cfg key w ((w_now w, allowed) :: obs) w2
| limited_other w w1 obs w2 :
    tick_grows w w1 →
    (∀ t, w_now w1 <= t → redis_view (w_redis w1) t key = redis_view (w_redis w) t key) →
    limited cfg key w1 obs w2 →
    limited cfg key w obs w2.

(** Four calls are made within a second: the pipeline of a request is over a
    second after the request read the clock. *)
Definition prompt : Prop := ∀ n, env_now (4 + n) <= env_now n + 10 ^ 9.

(** Times at which a double has a precision of 256 nanoseconds: 2006 to 2043. *)
Definition in_epoch (cfg : RateLimiterConfig) (t : Z) : Prop :=
  2 ^ 60 <= t - Window cfg ∧ t < 2 ^ 61.

(** What the theorems ask of a configuration: whole seconds. *)
Definition whole_seconds (cfg : RateLimiterConfig) : Prop :=
  0 <= Window cfg ∧ Window cfg mod 10 ^ 9 = 0.

(** The answered requests that were admitted within [[a, b)]. *)
Definition admitted_within (a b : Z) (obs : list (Z * bool)) : list Z :=
  (filter (λ p, p.2 = true ∧ a <= p.1 < b) obs).*1.

(** No window that ends at [t] or later sees a request made at [ts]. *)
Definition gone (cfg : RateLimiterConfig) (t ts : Z) : Prop :=
  ∃ v, v <= t ∧ in_epoch cfg v ∧ f64_of_int64 ts <= f64_of_int64 (v - Window cfg).

(** The sorted set at [key] holds requests of [log] only, each until it is gone;
    and a second longer than its window. *)
Definition holds_log (cfg : RateLimiterConfig) (r : redis) (key : string) (log : list Z) (t : Z) : Prop :=
  ∃ z d, key_state r key t z d ∧
    (∀ m s, z !! m = Some s → ∃ ts, ts ∈ log ∧ m = pretty ts ∧ s = f64_of_int64 ts) ∧
    (∀ ts, ts ∈ log → gone cfg t ts ∨
      z !! pretty ts = Some (f64_of_int64 ts) ∧ ∃ D, d = Some D ∧ ts + Window cfg + 10 ^ 9 <= D).

(** ** Rounding to a double *)

Lemma rne_near z : Z.abs (rne 8 z * 256 - z) <= 128.
Proof.
  unfold rne. rewrite Z.shiftr_div_pow2 by lia. change (2 ^ 8) with 256. change (2 ^ (8 - 1)) with 128.
  pose proof (Z.div_mod z 256 ltac:(done)). pose proof (Z.mod_pos_bound z 256 ltac:(done)).
  destruct (Z.ltb_spec (z mod 256) 128); [lia|]. destruct (Z.ltb_spec 128 (z mod 256)); [lia|].
  destruct (Z.even _); lia.
Qed.

Lemma rne_mono a b : a <= b → rne 8 a <= rne 8 b.
Proof.
  intros Hab. unfold rne. rewrite !Z.shiftr_div_pow2 by lia.
  change (2 ^ 8) with 256. change (2 ^ (8 - 1)) with 128.
  pose proof (Z.div_mod a 256 ltac:(done)). pose proof (Z.mod_pos_bound a 256 ltac:(done)).
  pose proof (Z.div_mod b 256 ltac:(done)). pose proof (Z.mod_pos_bound b 256 ltac:(done)).
  pose proof (Z.div_le_mono a b 256 ltac:(done) Hab).
  destruct (decide (a / 256 = b / 256)) as [Heq|Hne]; [|repeat case_match; lia].
  rewrite Heq in *. repeat case_match; lia.
Qed.

Lemma f64_epoch z : 2 ^ 60 <= z < 2 ^ 61 → f64_of_int64 z = rne 8 z * 256.
Proof.
  intros Hz. unfold f64_of_int64. rewrite Z.abs_eq, Z.sgn_pos by lia.
  destruct (Z.ltb_spec z (2 ^ 53)); [lia|].
  rewrite (Z.log2_unique z 60) by lia. change (60 - 52) with 8. lia.
Qed.

Lemma f64_mono a b : 2 ^ 60 <= a → a <= b → b < 2 ^ 61 → f64_of_int64 a <= f64_of_int64 b.
Proof.
  intros Ha Hab Hb. rewrite !f64_epoch by lia. pose proof (rne_mono a b Hab). lia.
Qed.

(** Times more than 256 nanoseconds apart are told apart. *)
Lemma f64_lt a b : 2 ^ 60 <= a → a + 256 < b → b < 2 ^ 61 → f64_of_int64 a < f64_of_int64 b.
Proof.
  intros Ha Hab Hb. rewrite !f64_epoch by lia. pose proof (rne_near a). pose proof (rne_near b). lia.
Qed.

(** ** The sorted set *)

Lemma pretty_Z_inj (a b : Z) : pretty a = pretty b → a = b.
Proof. apply (inj pretty). Qed.

(** A set of times is as large as their list. *)
Lemma size_of_times (z : gmap string Z) (l : list Z) :
  NoDup l →
  (∀ m s, z !! m = Some s ↔ ∃ ts, ts ∈ l ∧ m = pretty ts ∧ s = f64_of_int64 ts) →
  size z = length l.
Proof.
  intros Hnd Hz. rewrite <-(length_map_to_list z).
  rewrite <-(length_fmap (λ ts : Z, (pretty ts, f64_of_int64 ts)) l).
  apply Permutation_length, NoDup_Permutation.
  - apply NoDup_map_to_list.
  - apply NoDup_fmap_2_strong; [|done]. intros a b _ _ Hab. injection Hab. auto using pretty_Z_inj.
  - intros [m s]. rewrite elem_of_map_to_list, Hz, list_elem_of_fmap. naive_solver.
Qed.

(** ** One request *)

Lemma ex_window cfg : whole_seconds cfg → ex (Window cfg + 10 ^ 9) = Window cfg + 10 ^ 9.
Proof.
  intros [Hpos Hmod]. unfold ex, in_units. destruct (Z.ltb_spec (Window cfg + 10 ^ 9) (10 ^ 9)); [lia|].
  pose proof (Z.div_mod (Window cfg) (10 ^ 9) ltac:(done)).
  replace (Window cfg + 10 ^ 9) with ((Window cfg / 10 ^ 9 + 1) * 10 ^ 9) by lia.
  by rewrite Z.div_mul.
Qed.

(** The commands of a request at [u], on a set [z] that has just been trimmed:
    the answer counts [z], and [z] with the request ends up at the key. *)
Lemma pipe_run `{!RedisLaws, !EnvLaws} cfg key m ws u w z0 d0 :
  no_faults → 0 <= Window cfg → key_state (w_redis w) key (w_now w) z0 d0 →
  let z := filter (λ p, f64_of_int64 ws < p.2) z0 in
  let t3 := env_now (3 + w_tick w) in
  tidy z (deadline z d0) t3 →
  ∃ w1, pipe_Exec key (commands cfg key m ws u) w = (Ok [None; Some (Z.of_nat (size z)); None; None], w1) ∧
    same_db w w1 ∧ same_tx w w1 ∧ w_tick w1 = (4 + w_tick w)%nat ∧
    key_state (w_redis w1) key t3 (<[m := f64_of_int64 u]> z) (Some (t3 + ex (Window cfg + 10 ^ 9))).
Proof.
  intros Hnf HW Hk z t3 [Ha Hz].
  assert (∀ i j, (i <= j)%nat → env_now (i + w_tick w) <= env_now (j + w_tick w)) as Hmono
    by (intros; apply env_now_mono; lia).
  pose proof (Hmono 0%nat 1%nat ltac:(lia)) as H01. pose proof (Hmono 1%nat 2%nat ltac:(lia)) as H12.
  pose proof (Hmono 2%nat 3%nat ltac:(lia)) as H23.
  assert (∀ t, t <= t3 → tidy z (deadline z d0) t) as Htidy.
  { intros t Ht. split; [|done]. unfold alive in *. destruct (deadline z d0); [|done].
    apply Z.ltb_lt in Ha. apply Z.ltb_lt. lia. }
  pose proof (key_state_trim _ _ _ _ _ (f64_of_int64 ws) Hk) as Hk1. fold z in Hk1.
  set (r1 := redis_ZREMRANGEBYSCORE _ _ _ _) in Hk1.
  assert (key_state r1 key (env_now (1 + w_tick w)) z (deadline z d0)) as Hk2 by by eapply key_state_later.
  assert (key_state r1 key (env_now (2 + w_tick w)) z (deadline z d0)) as Hk3 by by eapply key_state_later.
  pose proof (key_state_add _ _ _ _ _ m (f64_of_int64 u) Hk3 ltac:(apply Htidy; subst t3; lia)) as Hk4.
  set (r3 := redis_ZADD _ _ _ _ _) in Hk4.
  assert (key_state r3 key t3 (<[m:=f64_of_int64 u]> z) (deadline z d0)) as Hk5 by by eapply key_state_later.
  eexists. split.
  { unfold pipe_Exec. simpl. rewrite !run_command_run by done. simpl.
    rewrite !zset_command_runs; simpl.
    - refine (f_equal (λ n, (Ok [None; Some n; None; None], _)) _).
      apply (key_state_card r1 key (env_now (1 + w_tick w)) z (deadline z d0) Hk2).
      apply Htidy. subst t3; lia.
    - exact (key_state_right _ _ _ _ _ Hk3).
    - exact (key_state_right _ _ _ _ _ Hk2).
    - exact (key_state_right _ _ _ _ _ Hk). }
  split_and!; [done..|]. apply (key_state_expire _ _ _ _ (deadline z d0)); [lia|exact Hk5|exact Ha].
Qed.

(** A request that is gone is in no later window. *)
Lemma gone_dead cfg t ts u :
  0 <= Window cfg → gone cfg t ts → t <= u → in_epoch cfg u →
  f64_of_int64 ts <= f64_of_int64 (u - Window cfg).
Proof.
  intros HW (v & Hv & [Hv1 Hv2] & Hs) Ht [Hu1 Hu2]. etrans; [exact Hs|]. apply f64_mono; lia.
Qed.

Lemma gone_later cfg t t1 ts : gone cfg t ts → t <= t1 → gone cfg t1 ts.
Proof. intros (v & ? & ? & ?) Ht. exists v. split_and!; try done. lia. Qed.

(** The trim of a request at [u] leaves the requests its window sees, on a key
    that lives for another second. *)
Lemma trim_log cfg r key log (u t1 : Z) :
  0 <= Window cfg → in_epoch cfg u → u <= t1 <= u + 10 ^ 9 →
  holds_log cfg r key log u → Forall (λ ts, 2 ^ 60 <= ts < u) log →
  ∃ z0 d0, key_state r key t1 z0 d0 ∧
    let z := filter (λ p, f64_of_int64 (u - Window cfg) < p.2) z0 in
    tidy z (deadline z d0) (u + 10 ^ 9) ∧
    ∀ m s, z !! m = Some s ↔ ∃ ts, ts ∈ live cfg log u ∧ m = pretty ts ∧ s = f64_of_int64 ts.
Proof.
  intros HW Hep Ht1 (z & d & Hk & Hin & Hlog) Hts. rewrite Forall_forall in Hts. unfold live.
  setoid_rewrite list_elem_of_filter.
  assert (∀ ts, ts ∈ log → f64_of_int64 (u - Window cfg) < f64_of_int64 ts → u - Window cfg < ts) as Hsee.
  { intros ts Hl Hs. apply Z.nle_gt. intros Hle. specialize (Hts ts Hl). destruct Hep.
    pose proof (f64_mono ts (u - Window cfg)). lia. }
  destruct (key_state_tidy r key u t1 z d Hk ltac:(lia)) as [(Ha & Hk1 & _)|(D & -> & HD & Hk1)].
  - exists z, d. split; [by eapply key_state_later; [exact Hk|lia]|]. split.
    + split; [|unfold deadline; by case_decide]. unfold deadline. case_decide as Hz; [done|].
      apply map_choose in Hz as (m & s & Hms). apply map_lookup_filter_Some in Hms as [Hms Hs]. simpl in Hs.
      destruct (Hin m s Hms) as (ts & Hl & _ & ->).
      destruct (Hlog ts Hl) as [Hg|(_ & D & -> & HD)].
      { pose proof (gone_dead cfg u ts u HW Hg ltac:(lia) Hep). lia. }
      simpl. apply Z.ltb_lt. specialize (Hsee ts Hl Hs). lia.
    + intros m s. rewrite map_lookup_filter_Some. simpl. split.
      * intros [Hms Hs]. destruct (Hin m s Hms) as (ts & ? & -> & ->). eauto.
      * intros (ts & [Hs Hl] & -> & ->). destruct (Hlog ts Hl) as [Hg|[Hz _]]; [|done].
        pose proof (gone_dead cfg u ts u HW Hg ltac:(lia) Hep). lia.
  - exists ∅, None. rewrite map_filter_empty. split; [done|]. split; [done|].
    intros m s. rewrite lookup_empty. split; [done|]. intros (ts & [Hs Hl] & _).
    specialize (Hsee ts Hl Hs). destruct (Hlog ts Hl) as [Hg|(_ & D' & [= <-] & ?)]; [|lia].
    pose proof (gone_dead cfg u ts u HW Hg ltac:(lia) Hep). lia.
Qed.

(** A set of requests of the log, the live ones among them, that expires after
    their windows, holds the log. *)
Lemma holds_log_intro cfg r key log u t z D :
  in_epoch cfg u → u <= t → key_state r key t z (deadline z (Some D)) → u + Window cfg + 10 ^ 9 <= D →
  Forall (λ ts, ts <= u) log →
  (∀ m s, z !! m = Some s → ∃ ts, ts ∈ log ∧ m = pretty ts ∧ s = f64_of_int64 ts) →
  (∀ ts, ts ∈ live cfg log u → z !! pretty ts = Some (f64_of_int64 ts)) →
  holds_log cfg r key log t.
Proof.
  intros Hep Ht Hk HD Hle Hin Hlive. exists z, (deadline z (Some D)). split; [done|]. split; [done|].
  intros ts Hl. destruct (decide (f64_of_int64 (u - Window cfg) < f64_of_int64 ts)) as [Hlt|Hge].
  - assert (z !! pretty ts = Some (f64_of_int64 ts)) as Hm by (apply Hlive, list_elem_of_filter; done).
    right. split; [done|]. exists D. rewrite Forall_forall in Hle. specialize (Hle ts Hl). split; [|lia].
    unfold deadline. rewrite decide_False; [done|]. intros ->. done.
  - left. exists u. split_and!; [done..|lia].
Qed.

(** The pipeline of a request at [u]: it counts the requests the window sees,
    and leaves them and itself in the set, for the life of the window. *)
Lemma pipe_counts `{!RedisLaws, !EnvLaws} cfg key log w :
  let u := w_now w in
  no_faults → prompt → whole_seconds cfg → in_epoch cfg u →
  holds_log cfg (w_redis w) key log u → NoDup log → Forall (λ ts, 2 ^ 60 <= ts < u) log →
  ∃ w1 replies z t4,
    pipe_Exec key (commands cfg key (pretty u) (u - Window cfg) u) (advance w) = (Ok replies, w1) ∧
    cardCmd_Val replies = Z.of_nat (length (live cfg log u)) ∧
    same_db w w1 ∧ same_tx w w1 ∧ tick_grows w w1 ∧ u <= t4 <= w_now w1 ∧
    key_state (w_redis w1) key t4 (<[pretty u := f64_of_int64 u]> z) (Some (t4 + (Window cfg + 10 ^ 9))) ∧
    ∀ m s, z !! m = Some s ↔ ∃ ts, ts ∈ live cfg log u ∧ m = pretty ts ∧ s = f64_of_int64 ts.
Proof.
  intros u Hnf Hprompt Hsec Hep Hlog Hnd Hts. destruct Hsec as [HW Hsec].
  assert (u <= w_now (advance w) <= env_now (4 + w_tick w) ∧ env_now (4 + w_tick w) <= u + 10 ^ 9) as [Hu1 Hu4].
  { specialize (Hprompt (w_tick w)). unfold w_now in *. simpl in *.
    split_and!; [apply env_now_mono; lia|apply env_now_mono; lia|subst u; lia]. }
  destruct (trim_log cfg (w_redis w) key log u (w_now (advance w))) as (z0 & d0 & Hk & Ht & Hz); [done..|lia|done|done|].
  set (z := filter _ z0) in Ht, Hz.
  destruct (pipe_run cfg key (pretty u) (u - Window cfg) u (advance w) z0 d0)
    as (w1 & Hrun & Hdb & Htx & Htick & Hk1); [done..| |].
  { fold z. destruct Ht as [Ht ?]. split; [|done]. unfold alive in *. destruct (deadline z d0); [|done].
    simpl in *. lia. }
  fold z in Hrun, Hk1. rewrite ex_window in Hk1 by done.
  eexists w1, _, z, _. split; [exact Hrun|]. unfold same_db, same_tx, tick_grows in *. simpl in *.
  split; [|split_and!; [done|done|lia| | |exact Hk1|done]].
  - unfold cardCmd_Val. simpl. f_equal. apply size_of_times; [by apply NoDup_filter|done].
  - subst u. unfold w_now. apply env_now_mono. simpl. lia.
  - unfold w_now. rewrite Htick. apply env_now_mono. simpl. lia.
Qed.

(** A request past the window's budget is refused and leaves no trace; another
    one is admitted and recorded. *)
Lemma check_step `{!RedisLaws, !EnvLaws} cfg key log w :
  let u := w_now w in
  let b := Z.of_nat (length (live cfg log u)) <? MaxRequests cfg in
  no_faults → prompt → whole_seconds cfg → in_epoch cfg u →
  holds_log cfg (w_redis w) key log u → NoDup log → Forall (λ ts, 2 ^ 60 <= ts < u) log →
  ∃ w1, check cfg key (pretty u) (u - Window cfg) u (advance w) =
      (Ok (b, if b then MaxRequests cfg - Z.of_nat (length (live cfg log u)) - 1 else 0), w1) ∧
    tick_grows w w1 ∧ same_db w w1 ∧ same_tx w w1 ∧
    holds_log cfg (w_redis w1) key (if b then u :: log else log) (w_now w1).
Proof.
  intros u b Hnf Hprompt Hsec Hep Hlog Hnd Hts.
  destruct (pipe_counts cfg key log w) as (w1 & replies & z & t4 & Hrun & Hcard & Hdb & Htx & Htick & [Ht4 Hw1] & Hk1 & Hz);
    [done..|]. destruct Hsec as [HW _].
  assert (∀ ts, ts ∈ live cfg log u → ts ∈ log ∧ ts ≠ u) as Hne.
  { intros ts [_ Hl]%list_elem_of_filter. rewrite Forall_forall in Hts. specialize (Hts ts Hl). split; [done|lia]. }
  assert (z !! pretty u = None) as Hfresh.
  { destruct (z !! pretty u) as [s|] eqn:Hs; [|done].
    apply Hz in Hs as (ts & Hl & Heq%pretty_Z_inj & _). by apply Hne in Hl as [_ []]. }
  assert (Forall (λ ts, ts <= u) log) as Hle by (eapply Forall_impl; [exact Hts|]; simpl; lia).
  unfold check, mbind, M_bind. fold u in Hrun, Hcard. rewrite Hrun, Hcard. subst b.
  destruct (Z.leb_spec (MaxRequests cfg) (Z.of_nat (length (live cfg log u)))) as [Hge|Hlt].
  - destruct (Z.ltb_spec (Z.of_nat (length (live cfg log u))) (MaxRequests cfg)); [lia|].
    unfold ignore, rdb_ZRem. rewrite redis_call_run by done. simpl.
    eexists. split; [done|]. unfold same_db, same_tx, tick_grows in *. simpl in *.
    split_and!; [lia|done|done|].
    pose proof (key_state_rem _ _ (w_now w1) _ _ (pretty u) (key_state_later _ _ _ _ _ _ Hk1 Hw1)) as Hk2.
    rewrite delete_insert_id in Hk2 by done.
    assert (w_now w1 <= env_now (S (w_tick w1))) by (apply env_now_mono; lia).
    eapply (holds_log_intro _ _ _ _ u); [done| |eapply key_state_later; [exact Hk2|done]|lia|done| |].
    + unfold w_now; simpl. lia.
    + intros m s (ts & Hl & ? & ?)%Hz. apply Hne in Hl as []. eauto.
    + intros ts Hl. apply Hz. eauto.
  - destruct (Z.ltb_spec (Z.of_nat (length (live cfg log u))) (MaxRequests cfg)); [|lia].
    destruct (Z.ltb_spec (MaxRequests cfg - Z.of_nat (length (live cfg log u)) - 1) 0); [lia|].
    exists w1. split; [done|]. unfold same_db, same_tx, tick_grows in *. simpl in *.
    split_and!; [lia|done|done|].
    eapply (holds_log_intro _ _ _ _ u _ _ (t4 + (Window cfg + 10 ^ 9))); [done|lia| |lia| | |].
    + unfold deadline. rewrite decide_False by apply insert_non_empty. by eapply key_state_later.
    + by apply Forall_cons.
    + intros m s [[<- <-]|[_ (ts & Hl & ? & ?)%Hz]]%lookup_insert_Some.
      * exists u. split_and!; [left|done|done].
      * apply Hne in Hl as []. exists ts. split_and!; [by right|done|done].
    + intros ts [Hs [->|Hl]%elem_of_cons]%list_elem_of_filter; [apply lookup_insert_eq|].
      assert (ts ∈ live cfg log u) as Hlive by by apply list_elem_of_filter.
      rewrite lookup_insert_ne by (intros Heq%pretty_Z_inj; by apply Hne in Hlive as [_ []]). apply Hz. eauto.
Qed.

(** ** The window's budget *)

Lemma filter_length_le {A} (P Q : A → Prop) `{!∀ x, Decision (P x), !∀ x, Decision (Q x)} (l : list A) :
  (∀ x, x ∈ l → P x → Q x) → (length (filter P l) ≤ length (filter Q l))%nat.
Proof.
  induction l as [|x l IH]; intros Hpq; [done|]. rewrite !filter_cons.
  assert (length (filter P l) ≤ length (filter Q l))%nat by (apply IH; set_solver).
  repeat case_decide; simpl; try lia. exfalso. set_solver.
Qed.

(** The admitted requests in a window a little shorter than [Window] are within
    the budget. *)
Lemma sliding_window_budget cfg a b log times :
  b <= a + Window cfg - 256 → 0 <= MaxRequests cfg →
  StronglySorted Z.lt times → Forall (in_epoch cfg) times →
  Forall (λ ts, ts < 2 ^ 61) log →
  Z.of_nat (length (filter (λ ts, a <= ts < b) log)) <= MaxRequests cfg →
  Z.of_nat (length (filter (λ ts, a <= ts < b) log)
    + length (admitted_within a b (zip times (sliding_window cfg log times)))) <= MaxRequests cfg.
Proof.
  intros Hb Hmax Hsort Hep. revert log.
  induction times as [|u times IH]; intros log Hlog Hle; [simpl; lia|].
  apply StronglySorted_inv in Hsort as [Hsort Hlt]. apply Forall_cons in Hep as [[Hu1 Hu2] Hep].
  unfold admitted_within in *. setoid_rewrite length_fmap in IH. rewrite length_fmap.
  simpl. destruct (Z.ltb_spec (Z.of_nat (length (live cfg log u))) (MaxRequests cfg)) as [Hadm|_];
    simpl; rewrite filter_cons; simpl.
  - case_decide as Hin; simpl.
    + specialize (IH Hsort Hep (u :: log)). rewrite filter_cons, decide_True in IH by tauto. simpl in IH.
      enough (Z.of_nat (length (filter (λ ts, a <= ts < b) log)) <= Z.of_nat (length (live cfg log u))).
      { rewrite Forall_cons in IH. specialize (IH ltac:(done) ltac:(lia)). lia. }
      apply Nat2Z.inj_le, filter_length_le. intros ts Hts Hab. rewrite Forall_forall in Hlog. specialize (Hlog ts Hts).
      apply f64_lt; lia.
    + specialize (IH Hsort Hep (u :: log)). rewrite filter_cons in IH.
      rewrite decide_False in IH by tauto. apply IH; [|done]. by apply Forall_cons.
  - by apply IH.
Qed.

Lemma holds_log_other cfg w w1 key log :
  (∀ t, w_now w1 <= t → redis_view (w_redis w1) t key = redis_view (w_redis w) t key) →
  w_now w <= w_now w1 →
  holds_log cfg (w_redis w) key log (w_now w) → holds_log cfg (w_redis w1) key log (w_now w1).
Proof.
  intros Hsame Hnow (z & d & Hk & Hin & Hlog). exists z, d. split; [|split; [done|]].
  - intros t' Ht'. rewrite Hsame by done. apply Hk. lia.
  - intros ts Hl. destruct (Hlog ts Hl) as [?|?]; [left; by eapply gone_later|by right].
Qed.

Lemma limited_window `{!RedisLaws, !EnvLaws} cfg key w obs w' log :
  no_faults → prompt → whole_seconds cfg →
  limited cfg key w obs w' →
  holds_log cfg (w_redis w) key log (w_now w) → NoDup log →
  StronglySorted Z.lt obs.*1 → Forall (in_epoch cfg) obs.*1 →
  Forall (λ ts, 2 ^ 60 <= ts ∧ Forall (λ u, ts < u) obs.*1) log →
  obs.*2 = sliding_window cfg log obs.*1.
Proof.
  intros Hnf Hp Hsec Hlim. revert log.
  induction Hlim as [w|w allowed remaining w1 obs w2 Hc Hlim IH|w w1 obs w2 Htick Hsame Hlim IH];
    intros log Hlog Hnd Hsort Hep Hts; [done| |].
  - simpl in *. apply StronglySorted_inv in Hsort as [Hsort Hgt].
    apply Forall_cons in Hep as [Hep1 Hep].
    destruct (check_step cfg key log w Hnf Hp Hsec Hep1 Hlog Hnd) as (w3 & Hc' & _ & _ & _ & Hlog').
    { eapply Forall_impl; [exact Hts|]. intros ts [? [? _]%Forall_cons]. done. }
    rewrite Hc in Hc'. injection Hc' as -> _ ->.
    assert (Forall (λ ts, 2 ^ 60 <= ts ∧ Forall (λ u, ts < u) obs.*1) log) as Hts'.
    { eapply Forall_impl; [exact Hts|]. intros ts [? [_ ?]%Forall_cons]. done. }
    destruct (Z.ltb_spec (Z.of_nat (length (live cfg log (w_now w)))) (MaxRequests cfg)); f_equal.
    + apply IH; try done.
      * apply NoDup_cons. split; [|done]. intros Hin. rewrite Forall_forall in Hts.
        destruct (Hts _ Hin) as [_ [? _]%Forall_cons]. lia.
      * apply Forall_cons. split; [|done]. split; [destruct Hep1, Hsec; lia|done].
    + by apply IH.
  - apply IH; try done. eapply holds_log_other; [exact Hsame| |exact Hlog].
    by apply env_now_mono.
Qed.

Lemma holds_log_empty cfg r key t :
  (∀ t', t <= t' → redis_view r t' key = None) → holds_log cfg r key [] t.
Proof.
  intros Hnone. exists ∅, None. split; [by apply key_state_absent|]. split; [done|].
  by intros ts []%not_elem_of_nil.
Qed.

(** ** Properties of the limiter *)

(** C15. Refinement: without faults the limiter, from an empty key, answers every
    history of requests on the key as the sliding window does that compares
    times as doubles: whatever other commands run in between, however many
    requests are refused, and although the key expires. *)
Theorem limiter_is_sliding_window `{!RedisLaws, !EnvLaws} cfg key w obs w' :
  no_faults → prompt → whole_seconds cfg →
  (∀ t, w_now w <= t → redis_view (w_redis w) t key = None) →
  limited cfg key w obs w' →
  StronglySorted Z.lt obs.*1 → Forall (in_epoch cfg) obs.*1 →
  obs.*2 = sliding_window cfg [] obs.*1.
Proof.
  intros Hnf Hp Hsec Hnone Hlim Hsort Hep.
  eapply limited_window; [done..|by apply holds_log_empty|constructor|done|done|constructor].
Qed.

(** The budget: in any stretch of time shorter than the window by the 256
    nanoseconds the scores may be off, at most [MaxRequests] requests of a
    client on a route are admitted. *)
Theorem limiter_budget `{!RedisLaws, !EnvLaws} cfg key w obs w' a b :
  no_faults → prompt → whole_seconds cfg → 0 <= MaxRequests cfg →
  (∀ t, w_now w <= t → redis_view (w_redis w) t key = None) →
  limited cfg key w obs w' →
  StronglySorted Z.lt obs.*1 → Forall (in_epoch cfg) obs.*1 →
  b <= a + Window cfg - 256 →
  Z.of_nat (length (admitted_within a b obs)) <= MaxRequests cfg.
Proof.
  intros Hnf Hp Hsec Hmax Hnone Hlim Hsort Hep Hab.
  assert (obs.*2 = sliding_window cfg [] obs.*1) as Hadm.
  { eapply limited_window; [done..|by apply holds_log_empty|constructor|done|done|constructor]. }
  pose proof (sliding_window_budget cfg a b [] obs.*1 Hab Hmax Hsort Hep (Forall_nil_2 _) ltac:(done)) as Hb.
  rewrite <-Hadm, zip_fst_snd in Hb. done.
Qed.

Lemma Limit_follows_check cfg route next r h w :
  let c := check cfg (limit_key (extractIP r) route) (pretty (w_now w)) (w_now w - Window cfg) (w_now w)
    (advance w) in
  same_db w c.2 ∧ same_tx w c.2 ∧
  match c with
  | (Err _, w1) => Limit cfg route next r h w = next r h w1
  | (Ok (true, remaining), w1) => ∃ h1,
      h_values h1 !! "X-RateLimit-Limit"%string = Some (pretty (MaxRequests cfg)) ∧
      h_values h1 !! "X-RateLimit-Remaining"%string = Some (pretty remaining) ∧
      Limit cfg route next r h w = next r h1 w1
  | (Ok (false, _), w1) => ∃ resp,
      resp_status resp = status_TooManyRequests ∧
      h_values (resp_header resp) !! "Retry-After"%string = Some (pretty (Window cfg / 10 ^ 9)) ∧
      resp_body resp = JError (limit_message cfg) ∧
      Limit cfg route next r h w = (Replied resp, w1)
  end.
Proof.
  unfold Limit. set (key := limit_key _ _).
  assert (preserves same_db (check cfg key (pretty (w_now w)) (w_now w - Window cfg) (w_now w)) ∧
    preserves same_tx (check cfg key (pretty (w_now w)) (w_now w - Window cfg) (w_now w))) as [Hdb Htx].
  { destruct (pipe_Exec_frame key (commands cfg key (pretty (w_now w)) (w_now w - Window cfg) (w_now w)))
      as (? & ? & _).
    unfold check, rdb_ZRem. split; solve_preserves. }
  specialize (Hdb (advance w)). specialize (Htx (advance w)). split; [done|]. split; [done|].
  destruct (check _ _ _ _ _ (advance w)) as [[[[] remaining]|e] w1]; simpl in *; [| |done].
  - eexists. split_and!; [| |done]; simpl; by simplify_map_eq.
  - eexists. split_and!; [| | |reflexivity]; simpl; [done|by simplify_map_eq|done].
Qed.

(** The limiter leaves all keys but its own alone. *)
Lemma commands_leave_others `{!RedisLaws, !EnvLaws} cfg key m ws u :
  0 <= Window cfg →
  Forall (λ c : command, preserves (leaves_others key) (redis_call c.1 key c.2)) (commands cfg key m ws u).
Proof.
  intros HW. repeat apply Forall_cons_2; [..|by apply Forall_nil_2];
    (apply leaves_others_call; [|done]); simpl; try apply zset_command_others; intros; simpl; try done.
  - rewrite ZREMRANGEBYSCORE_view by done. by rewrite decide_False.
  - rewrite ZADD_view by done. by rewrite decide_False.
  - rewrite EXPIRE_view by lia. by rewrite decide_False.
Qed.

Lemma rdb_ZRem_leaves_others `{!RedisLaws, !EnvLaws} key m : preserves (leaves_others key) (rdb_ZRem key m).
Proof.
  apply leaves_others_call; [|done]. intros; simpl. rewrite ZREM_view by done. by rewrite decide_False.
Qed.

Lemma check_leaves_others `{!RedisLaws, !EnvLaws} cfg key m ws u :
  0 <= Window cfg → preserves (leaves_others key) (check cfg key m ws u).
Proof.
  intros HW.
  pose proof (preserves_pipe_Exec _ key _ (commands_leave_others cfg key m ws u HW)) as Hpipe.
  pose proof (rdb_ZRem_leaves_others key m) as Hrem. unfold check. solve_preserves.
Qed.

(** What a client sees: a refused request gets 429 with the limit's headers
    and the handler behind does not run, no table changes; an admitted one is
    handled with the headers set; when Redis cannot be asked the request goes
    through as if there were no limit. *)
Theorem Limit_cases cfg route next r h w :
  ∃ w1, same_db w w1 ∧ same_tx w w1 ∧
  match check cfg (limit_key (extractIP r) route) (pretty (w_now w)) (w_now w - Window cfg) (w_now w)
          (advance w) with
  | (Err _, _) => Limit cfg route next r h w = next r h w1
  | (Ok (true, remaining), _) => ∃ h1,
      h_values h1 !! "X-RateLimit-Limit"%string = Some (pretty (MaxRequests cfg)) ∧
      h_values h1 !! "X-RateLimit-Remaining"%string = Some (pretty remaining) ∧
      Limit cfg route next r h w = next r h1 w1
  | (Ok (false, _), _) => ∃ resp,
      resp_status resp = status_TooManyRequests ∧
      h_values (resp_header resp) !! "Retry-After"%string = Some (pretty (Window cfg / 10 ^ 9)) ∧
      resp_body resp = JError (limit_message cfg) ∧
      Limit cfg route next r h w = (Replied resp, w1)
  end.
Proof.
  pose proof (Limit_follows_check cfg route next r h w) as Hc. destruct (check _ _ _ _ _ _) as [a w1].
  by exists w1.
Qed.

(** When a command of the pipeline fails the limiter lets the request through. *)
Lemma Limit_fails_open cfg route next r h w k :
  (k < 4)%nat → env_fault (k + S (w_tick w)) ≠ None →
  ∃ w1, Limit cfg route next r h w = next r h w1 ∧ same_db w w1 ∧ same_tx w w1.
Proof.
  intros Hk Hf. destruct (Limit_follows_check cfg route next r h w) as (Hdb & Htx & Hc).
  unfold check, mbind, M_bind in *.
  pose proof (pipe_Exec_fault (limit_key (extractIP r) route) (commands cfg (limit_key (extractIP r) route)
    (pretty (w_now w)) (w_now w - Window cfg) (w_now w)) k (advance w) Hk Hf) as He.
  destruct (pipe_Exec _ _ _) as [[l|e] w1]; [done|]. by exists w1.
Qed.

End ratelimit.
