(* ===== verification/RateTurns.v ===== *)
(** * RateTurns: requests that pass the limiter at the same time

    [Limit] of several goroutines at once ([internal/middleware/ratelimit.go]).
    [Pipeline] does not keep the commands of a request together ([TxPipeline]
    would), so a request takes a turn to read the clock, one for each command
    of its pipeline and one to remove itself when it is refused; between any two
    of them other requests run.  Requests that have counted before another one
    has added itself are not seen by it: [concurrent_budget] (in
    [RateConcurrency]) bounds how far the limiter goes over its budget by the
    number of those, in every such run, and the examples show that the bound is
    reached. *)

From S2P Require Import Prelude Platform Errs Model Database GoM Pipeline Store Books Http RateLimit Schedule.
From stdpp Require Import pretty.
#[local] Open Scope Z_scope.

Section rate_turns.
Context `{UuidLib} `{DecimalLib} `{RedisServer} `{!Env}.

(** ** Turns of a request *)

(** Where a request is; [now]: the time it read; [replies]: what the commands
    of its pipeline answered so far. *)
Inductive lstate :=
| LimReady (key : string)
| LimPipe (key : string) (now : Z) (replies : list (result error (option Z)))
| LimOver (key : string) (now : Z)
| LimDone (key : string) (now : Z) (r : result error (bool * Z)).

(** The pipeline is over: the budget is compared. *)
Definition limit_verdict (cfg : RateLimiterConfig) (key : string) (now : Z)
    (replies : list (result error (option Z))) : lstate :=
  match cmdsFirstErr replies with
  | Err e => LimDone key now (Err e)
  | Ok l =>
    let count := cardCmd_Val l in
    if MaxRequests cfg <=? count then LimOver key now
    else
    let remaining := MaxRequests cfg - count - 1 in
    LimDone key now (Ok (true, if remaining <? 0 then 0 else remaining))
  end.

Definition limit_turn (cfg : RateLimiterConfig) (t : lstate) (w : World) : lstate * World :=
  match t with
  | LimReady key => (LimPipe key (w_now w) [], advance w)
  | LimPipe key now replies =>
    match commands cfg key (pretty now) (now - Window cfg) now !! length replies with
    | None => (t, w)
    | Some c =>
      let '(a, w1) := run_command key c w in
      let replies := replies ++ [a] in
      (if (length replies <? 4)%nat then LimPipe key now replies else limit_verdict cfg key now replies, w1)
    end
  | LimOver key now => (LimDone key now (Ok (false, 0)), (ignore (rdb_ZRem key (pretty now)) w).2)
  | LimDone _ _ _ => (t, w)
  end.

(** The limiter among everything else that happens: a request takes a turn, or
    something leaves the key alone, or a request arrives. *)
Inductive limiter_step (cfg : RateLimiterConfig) (key : string) :
    list lstate * World → list lstate * World → Prop :=
| limiter_turn ts w i t :
    ts !! i = Some t →
    limiter_step cfg key (ts, w) (<[i := (limit_turn cfg t w).1]> ts, (limit_turn cfg t w).2)
| limiter_other ts w w1 :
    tick_grows w w1 →
    (∀ t, w_now w1 <= t → redis_view (w_redis w1) t key = redis_view (w_redis w) t key) →
    limiter_step cfg key (ts, w) (ts, w1)
| limiter_arrives ts w k : limiter_step cfg key (ts, w) (ts ++ [LimReady k], w).

(** ** What the theorems speak of *)

Definition at_key {A} (key k : string) (x : option A) : option A := if decide (k = key) then x else None.

(** Admitted on [key], with the time the request read. *)
Definition admission (key : string) (t : lstate) : option Z :=
  match t with
  | LimDone k now (Ok (true, _)) => at_key key k (Some now)
  | _ => None
  end.

(** The times that requests on [key] read. *)
Definition request_time (key : string) (t : lstate) : option Z :=
  match t with
  | LimPipe k now _ | LimOver k now | LimDone k now _ => at_key key k (Some now)
  | LimReady _ => None
  end.

(** The request has been counted, and is not in the set yet. *)
Definition between_time (key : string) (t : lstate) : option Z :=
  match t with
  | LimPipe k now replies => at_key key k (if (length replies =? 2)%nat then Some now else None)
  | _ => None
  end.

(** A pipeline is over [delay] after the clock was read. *)
Definition punctual (key : string) (delay : Z) (w : World) (t : lstate) : Prop :=
  match t with
  | LimPipe k now _ => k = key → w_now w <= now + delay
  | _ => True
  end.

(** What the bound asks of every state of a run: no two requests on [key] read
    the same time, the times are in the epoch, pipelines are punctual, and at
    most [S m] requests are between counting and adding themselves. *)
Definition orderly_state (cfg : RateLimiterConfig) (key : string) (delay : Z) (m : nat)
    (s : list lstate * World) : Prop :=
  NoDup (omap (request_time key) s.1) ∧ Forall (in_epoch cfg) (omap (request_time key) s.1) ∧
  Forall (punctual key delay s.2) s.1 ∧ (length (omap (between_time key) s.1) ≤ S m)%nat.

(** A step to an orderly state. *)
Definition orderly_step (cfg : RateLimiterConfig) (key : string) (delay : Z) (m : nat)
    (s s' : list lstate * World) : Prop :=
  limiter_step cfg key s s' ∧ orderly_state cfg key delay m s'.

Definition admitted_in (key : string) (a b : Z) (ts : list lstate) : list Z :=
  filter (λ now, a <= now < b) (omap (admission key) ts).

(** ** Turns make up [check] *)

Lemma limit_turns cfg key w :
  (turns (limit_turn cfg) 6 (LimReady key) w).1 =
    LimDone key (w_now w) (check cfg key (pretty (w_now w)) (w_now w - Window cfg) (w_now w) (advance w)).1 ∧
  (turns (limit_turn cfg) 6 (LimReady key) w).2 =
    (check cfg key (pretty (w_now w)) (w_now w - Window cfg) (w_now w) (advance w)).2.
Proof.
  unfold turns, check, mbind, M_bind, pipe_Exec, commands. simpl.
  do 4 (match goal with |- context [run_command key ?c ?w'] =>
    destruct (run_command key c w') as [[?a|?e] ?w1]; simpl end).
  all: unfold limit_verdict; simpl; try done.
  by destruct (MaxRequests cfg <=? _).
Qed.

(** ** Runs of a schedule *)

#[global] Instance in_epoch_dec cfg t : Decision (in_epoch cfg t).
Proof. unfold in_epoch. apply _. Defined.

#[global] Instance punctual_dec key delay w t : Decision (punctual key delay w t).
Proof. destruct t; simpl; apply _. Defined.

#[global] Instance orderly_state_dec cfg key delay m s : Decision (orderly_state cfg key delay m s).
Proof. unfold orderly_state. apply _. Defined.

(** Every state a schedule goes through is orderly. *)
Fixpoint orderly_schedule (cfg : RateLimiterConfig) (key : string) (delay : Z) (m : nat)
    (sched : list nat) (ts : list lstate) (w : World) : bool :=
  match sched with
  | [] => true
  | i :: sched' =>
    match ts !! i with
    | None => orderly_schedule cfg key delay m sched' ts w
    | Some t =>
      let '(t', w') := limit_turn cfg t w in
      bool_decide (orderly_state cfg key delay m (<[i := t']> ts, w')) &&
        orderly_schedule cfg key delay m sched' (<[i := t']> ts) w'
    end
  end.

Lemma schedule_run cfg key delay m sched ts w :
  orderly_schedule cfg key delay m sched ts w = true →
  rtc (orderly_step cfg key delay m) (ts, w) (run_schedule (limit_turn cfg) sched ts w).
Proof.
  revert ts w. induction sched as [|i sched IH]; intros ts w; simpl; [done|].
  destruct (ts !! i) as [t|] eqn:Hi; [|by apply IH]. pose proof (limiter_turn cfg key ts w i t Hi) as Hs.
  destruct (limit_turn cfg t w) as [t' w1]. intros [Ho%bool_decide_eq_true Hrest]%andb_true_iff.
  eapply rtc_l; [by split|by apply IH].
Qed.

End rate_turns.
