(* ===== verification/RateConcurrency.v ===== *)
(** * RateConcurrency: the budget of requests that pass the limiter together

    The invariant of the runs of [RateTurns] and the bound it gives.  [set_inv]
    says what the sorted set holds while commands mix: every request that is to
    stay in it is found as long as a window can see it, and the key does not
    expire while a pipeline is under way, since either the deadline is far
    enough or a request that has added itself is about to move it.  One lemma
    per command keeps it; [winners_bounded] counts the requests within the
    budget. *)

From S2P Require Import Prelude Platform Errs Model Database GoM Pipeline Store Books Http RateLimit Schedule.
From S2P Require Import RateTurns.
From stdpp Require Import pretty.
#[local] Open Scope Z_scope.

Section rate_concurrency.
Context `{UuidLib} `{DecimalLib} `{RedisServer} `{!Env}.

(** ** What the set holds *)

(** [trimmed]: the requests between their trim and their EXPIRE; [added]: those
    of them that have added themselves; [kept]: these and the admitted ones. *)
Definition set_inv (cfg : RateLimiterConfig) (delay : Z) (trimmed added kept : list Z) (now : Z)
    (z : gmap string Z) (d : option Z) : Prop :=
  (z = ∅ → d = None) ∧
  (∀ m s, z !! m = Some s → ∃ u, m = pretty u ∧ s = f64_of_int64 u ∧ 2 ^ 60 <= u <= now ∧
    (u ∈ added ∨ ∀ D, d = Some D → u + Window cfg + 10 ^ 9 <= D)) ∧
  (∀ D, d = Some D → (∀ u, u ∈ trimmed → u + delay < D) ∨ ∃ u, u ∈ added ∧ u + delay < D) ∧
  (∀ u, u ∈ kept → now - Window cfg + 256 < u → z !! pretty u = Some (f64_of_int64 u)).

Lemma set_inv_perm cfg delay trimmed trimmed' added added' kept kept' now z d :
  trimmed ≡ₚ trimmed' → added ≡ₚ added' → kept ≡ₚ kept' →
  set_inv cfg delay trimmed added kept now z d → set_inv cfg delay trimmed' added' kept' now z d.
Proof.
  intros Ht Ha Hk. unfold set_inv. setoid_rewrite Ht. setoid_rewrite Ha. setoid_rewrite Hk. done.
Qed.

Lemma set_inv_later cfg delay trimmed added kept now now' z d :
  now <= now' → set_inv cfg delay trimmed added kept now z d → set_inv cfg delay trimmed added kept now' z d.
Proof.
  intros Hnow (He & Hin & Hd & Hk). split; [done|]. split; [|split; [done|]].
  - intros m s Hm. destruct (Hin m s Hm) as (u & ? & ? & ? & ?). exists u. split_and!; try done; lia.
  - intros u Hu Hrec. apply Hk; [done|lia].
Qed.

(** When the key expires no request is between its trim and its EXPIRE, and the
    members are too old to be seen. *)
Lemma set_inv_expired cfg delay trimmed added kept now z D :
  added ⊆ trimmed → (∀ u, u ∈ trimmed → now <= u + delay) → D <= now →
  set_inv cfg delay trimmed added kept now z (Some D) → set_inv cfg delay trimmed added kept now ∅ None.
Proof.
  intros Hsub Hpun HD (_ & Hin & Hd & Hk). split_and!; [done..|].
  intros u Hu Hrec. exfalso. pose proof (Hk u Hu Hrec) as Hm.
  destruct (Hin _ _ Hm) as (u' & <-%pretty_Z_inj & _ & _ & [Ha|Hold]).
  - destruct (Hd D eq_refl) as [Hall|(q & Hq & ?)].
    + specialize (Hall u (Hsub u Ha)). specialize (Hpun u (Hsub u Ha)). lia.
    + specialize (Hpun q (Hsub q Hq)). lia.
  - specialize (Hold D eq_refl). lia.
Qed.

Lemma deadline_some z d D : deadline z d = Some D → z ≠ ∅ ∧ d = Some D.
Proof. unfold deadline. by case_decide. Qed.

(** The trim by a request at [u]. *)
Lemma set_inv_trim cfg delay trimmed added kept now z d u :
  delay + 256 < 10 ^ 9 → in_epoch cfg u → 0 <= Window cfg → u <= now →
  added ⊆ trimmed → (∀ v, v ∈ kept → v < 2 ^ 61) →
  set_inv cfg delay trimmed added kept now z d →
  let z' := filter (λ p, f64_of_int64 (u - Window cfg) < p.2) z in
  set_inv cfg delay (u :: trimmed) added kept now z' (deadline z' d).
Proof.
  intros Hdelay [He1 He2] HW Hu Hsub Hep (He & Hin & Hd & Hk) z'.
  split; [|split; [|split]].
  - unfold deadline. by case_decide.
  - intros m s [Hm _]%map_lookup_filter_Some. destruct (Hin m s Hm) as (v & ? & ? & ? & Hv).
    exists v. split_and!; try done; [lia..|]. destruct Hv as [?|Hv]; [by left|right].
    intros D [_ HD]%deadline_some. by apply Hv.
  - intros D [Hz HD]%deadline_some. specialize (Hd D HD).
    destruct Hd as [Hall|?]; [|by right]. apply map_choose in Hz as (m & s & Hm).
    apply map_lookup_filter_Some in Hm as [Hm Hs]. simpl in Hs.
    destruct (Hin m s Hm) as (v & -> & -> & Hv & [Ha|Hold]).
    + right. exists v. split; [done|]. apply Hall. by apply Hsub.
    + left. intros x [->|Hx]%elem_of_cons; [|by apply Hall]. specialize (Hold D HD).
      enough (u - Window cfg < v) by lia. apply Z.nle_gt. intros Hle.
      pose proof (f64_mono v (u - Window cfg)). lia.
  - intros v Hv Hrec. apply map_lookup_filter_Some. split; [by apply Hk|]. simpl.
    specialize (Hep v Hv). apply f64_lt; lia.
Qed.

(** The addition of a request. *)
Lemma set_inv_add cfg delay trimmed added kept now z d u :
  2 ^ 60 <= u <= now → set_inv cfg delay trimmed added kept now z d →
  set_inv cfg delay trimmed (u :: added) (u :: kept) now (<[pretty u := f64_of_int64 u]> z) d.
Proof.
  intros Hu (He & Hin & Hd & Hk). split; [|split; [|split]].
  - intros Hz. by apply insert_non_empty in Hz.
  - intros m s [[<- <-]|[_ Hm]]%lookup_insert_Some.
    + exists u. split_and!; try done; [lia..|]. left. left.
    + destruct (Hin m s Hm) as (v & ? & ? & ? & Hv). exists v. split_and!; try done; [lia..|].
      destruct Hv; [left; by right|by right].
  - intros D HD. destruct (Hd D HD) as [?|(v & ? & ?)]; [by left|right]. exists v. split; [by right|done].
  - intros v Hv Hrec. destruct (decide (v = u)) as [->|Hne]; [apply lookup_insert_eq|].
    rewrite lookup_insert_ne by (by intros ?%pretty_Z_inj).
    apply elem_of_cons in Hv as [->|Hv]; [done|by apply Hk].
Qed.

(** The EXPIRE of a request: everybody has time again. *)
Lemma set_inv_expire cfg delay trimmed added kept kept' now z d u :
  delay + 256 < Window cfg → delay < 10 ^ 9 → now <= u + delay → kept' ⊆ kept → u ∈ kept →
  (∀ v, v ∈ trimmed → v <= now) → set_inv cfg delay (u :: trimmed) (u :: added) kept now z d →
  set_inv cfg delay trimmed added kept' now z (Some (now + (Window cfg + 10 ^ 9))) ∧ z ≠ ∅.
Proof.
  intros HW Hdelay Hpun Hsub Hu Hle (He & Hin & _ & Hk).
  assert (z ≠ ∅) as Hz by (intros ->; by specialize (Hk u Hu ltac:(lia))).
  split; [|done]. split; [done|]. split; [|split].
  - intros m s Hm. destruct (Hin m s Hm) as (v & ? & ? & ? & _). exists v.
    split_and!; try done; [lia..|]. right. intros D [= <-]. lia.
  - intros D [= <-]. left. intros v Hv. specialize (Hle v Hv). lia.
  - intros v Hv. apply Hk. by apply Hsub.
Qed.

(** The removal of a refused request. *)
Lemma set_inv_rem cfg delay trimmed added kept now z d u :
  u ∉ kept → set_inv cfg delay trimmed added kept now z d →
  set_inv cfg delay trimmed added kept now (delete (pretty u) z) (deadline (delete (pretty u) z) d).
Proof.
  intros Hu (He & Hin & Hd & Hk). split; [|split; [|split]].
  - unfold deadline. by case_decide.
  - intros m s [_ Hm]%lookup_delete_Some. destruct (Hin m s Hm) as (v & ? & ? & ? & Hv).
    exists v. split_and!; try done; [lia..|]. destruct Hv as [?|Hv]; [by left|right].
    intros D [_ HD]%deadline_some. by apply Hv.
  - intros D [_ HD]%deadline_some. by apply Hd.
  - intros v Hv Hrec. rewrite lookup_delete_ne; [by apply Hk|]. intros <-%pretty_Z_inj. done.
Qed.

(** Kept requests that are still seen are counted. *)
Lemma set_inv_count cfg delay trimmed added kept now z d l :
  set_inv cfg delay trimmed added kept now z d → NoDup l →
  (∀ u, u ∈ l → u ∈ kept ∧ now - Window cfg + 256 < u) → (length l ≤ size z)%nat.
Proof.
  intros (_ & _ & _ & Hk) Hnd Hl. rewrite <-(length_map_to_list z), <-(length_fmap fst (map_to_list z)).
  rewrite <-(length_fmap (λ s : Z, pretty s) l). apply submseteq_length, NoDup_submseteq.
  { apply NoDup_fmap_2; [|done]. intros a b. apply pretty_Z_inj. }
  intros m (u & -> & [Hin Hrec]%Hl)%list_elem_of_fmap. apply list_elem_of_fmap.
  exists (pretty u, f64_of_int64 u). split; [done|]. apply elem_of_map_to_list. by apply Hk.
Qed.

(** ** Where the requests are *)

(** Between the trim and the EXPIRE. *)
Definition trimmed_time (key : string) (t : lstate) : option Z :=
  match t with
  | LimPipe k now replies => at_key key k (if (0 <? length replies)%nat then Some now else None)
  | _ => None
  end.

(** Between the ZADD and the EXPIRE. *)
Definition added_time (key : string) (t : lstate) : option Z :=
  match t with
  | LimPipe k now replies => at_key key k (if (length replies =? 3)%nat then Some now else None)
  | _ => None
  end.

(** To stay in the set: the latter, and the admitted ones. *)
Definition kept_time (key : string) (t : lstate) : option Z :=
  match t with
  | LimPipe _ _ _ => added_time key t
  | _ => admission key t
  end.

(** Counted within the budget: to be admitted. *)
Definition winner_time (cfg : RateLimiterConfig) (key : string) (t : lstate) : option Z :=
  match t with
  | LimPipe k now replies => at_key key k
      match replies !! 1%nat with
      | Some (Ok (Some count)) => if count <? MaxRequests cfg then Some now else None
      | _ => None
      end
  | _ => admission key t
  end.

(** The answers so far, when the count was [c]. *)
Definition replied (c : Z) (n : nat) : list (result error (option Z)) :=
  take n [Ok None; Ok (Some c); Ok None].

Definition well_replied (key : string) (t : lstate) : Prop :=
  match t with
  | LimPipe k _ replies => k = key → ∃ c n, (n < 4)%nat ∧ replies = replied c n
  | _ => True
  end.

Definition timed_before (w : World) (t : lstate) : Prop :=
  match t with
  | LimReady _ => True
  | LimPipe _ now _ | LimOver _ now | LimDone _ now _ => now <= w_now w
  end.

Definition holds_requests (cfg : RateLimiterConfig) (key : string) (delay : Z) (ts : list lstate) (w : World) : Prop :=
  ∃ z d, key_state (w_redis w) key (w_now w) z d ∧
    set_inv cfg delay (omap (trimmed_time key) ts) (omap (added_time key) ts) (omap (kept_time key) ts)
      (w_now w) z d.

Definition winners_bounded (cfg : RateLimiterConfig) (key : string) (delay : Z) (m : nat) (ts : list lstate) : Prop :=
  ∀ a b, b <= a + Window cfg - 256 - delay →
    Z.of_nat (length (filter (λ u, a <= u < b) (omap (winner_time cfg key) ts))) <= MaxRequests cfg + Z.of_nat m.

Definition limiter_inv (cfg : RateLimiterConfig) (key : string) (delay : Z) (m : nat) (ts : list lstate) (w : World) : Prop :=
  Forall (timed_before w) ts ∧ Forall (well_replied key) ts ∧
  holds_requests cfg key delay ts w ∧ winners_bounded cfg key delay m ts.

(** The stages are sublists of each other. *)
Lemma stage_times key t u :
  (admission key t = Some u → kept_time key t = Some u) ∧
  (added_time key t = Some u → trimmed_time key t = Some u ∧ kept_time key t = Some u) ∧
  (trimmed_time key t = Some u → request_time key t = Some u) ∧
  (kept_time key t = Some u → request_time key t = Some u).
Proof.
  destruct t as [k|k now rs|k now|k now [[[] n]|e]]; simpl; unfold at_key; repeat case_decide; try done.
  destruct rs as [|? [|? [|? [|]]]]; simpl; done.
Qed.

Lemma omap_subset {A B} (f g : A → option B) (l : list A) :
  (∀ x y, f x = Some y → g x = Some y) → omap f l ⊆ omap g l.
Proof.
  intros Hfg y (x & Hx & Hy)%list_elem_of_omap. apply list_elem_of_omap. eauto.
Qed.

Lemma admitted_wins cfg key t u : admission key t = Some u → winner_time cfg key t = Some u.
Proof. by destruct t. Qed.

(** A winner is kept, or about to add itself. *)
Lemma winner_stage cfg key t u :
  well_replied key t → winner_time cfg key t = Some u → kept_time key t = Some u ∨ between_time key t = Some u.
Proof.
  destruct t as [k|k now rs|k now|k now r]; simpl; auto. unfold at_key. case_decide as Hk; [|done].
  intros Hr. destruct (Hr Hk) as (c & n & Hn & ->).
  destruct n as [|[|[|[|n]]]]; simpl; try done; [..|lia]; destruct (c <? _); naive_solver.
Qed.

Lemma winners_split cfg key (P : Z → Prop) `{!∀ u, Decision (P u)} ts :
  Forall (well_replied key) ts →
  (length (filter P (omap (winner_time cfg key) ts)) ≤
   length (filter P (omap (kept_time key) ts)) + length (omap (between_time key) ts))%nat.
Proof.
  induction 1 as [|t ts Ht _ IH]; [simpl; lia|].
  pose proof (winner_stage cfg key t) as Hw. rewrite !omap_cons_app.
  destruct (winner_time cfg key t) as [u|]; [destruct (Hw u Ht eq_refl) as [Hu|Hu]; rewrite Hu|];
    destruct (kept_time key t); destruct (between_time key t); simplify_eq/=;
    rewrite ?filter_cons; repeat case_decide; simpl; lia.
Qed.

(** A change that moves nobody to another stage. *)
Lemma omap_keep {A B} (f : A → option B) (l : list A) i x y :
  l !! i = Some x → f y = f x → omap f (<[i := y]> l) = omap f l.
Proof.
  revert i. induction l as [|z l IH]; intros [|i] Hi Hf; simplify_eq/=; [by rewrite Hf|].
  by rewrite (IH i).
Qed.

Lemma omap_enter {A B} (f : A → option B) (l : list A) i x y b :
  l !! i = Some x → f x = None → f y = Some b → omap f (<[i := y]> l) ≡ₚ b :: omap f l.
Proof.
  intros Hi Hx Hy. pose proof (omap_insert_perm f l i x y Hi) as Hp.
  rewrite Hx, Hy, app_nil_r in Hp. simpl in Hp. by rewrite Hp, Permutation_app_comm.
Qed.

Lemma omap_leave {A B} (f : A → option B) (l : list A) i x y b :
  l !! i = Some x → f x = Some b → f y = None → omap f l ≡ₚ b :: omap f (<[i := y]> l).
Proof.
  intros Hi Hx Hy. pose proof (omap_insert_perm f l i x y Hi) as Hp.
  rewrite Hx, Hy, app_nil_r in Hp. simpl in Hp. by rewrite <-Hp, Permutation_app_comm.
Qed.

Lemma timed_before_grows `{!EnvLaws} w w1 t : tick_grows w w1 → timed_before w t → timed_before w1 t.
Proof. intros Hg%env_now_mono. unfold w_now in *. destruct t; simpl; unfold w_now; lia. Qed.

(** ** One turn *)

Section laws.
Context `{!RedisLaws, !EnvLaws}.
Context (cfg : RateLimiterConfig) (key : string) (delay : Z) (m : nat).
Context (Hnf : no_faults) (Hsec : whole_seconds cfg) (Hwin : 0 < Window cfg) (Hdelay : delay + 256 < 10 ^ 9).

#[local] Abbreviation inv := (limiter_inv cfg key delay m).
#[local] Abbreviation fine := (orderly_state cfg key delay m).

Lemma window_seconds : 10 ^ 9 <= Window cfg.
Proof.
  destruct Hsec as [_ Hmod]. pose proof (Z.div_mod (Window cfg) (10 ^ 9) ltac:(done)). lia.
Qed.

(** The times of a stage, in an orderly state. *)
Lemma stage_facts ts w u :
  fine (ts, w) → Forall (timed_before w) ts →
  (u ∈ omap (trimmed_time key) ts → w_now w <= u + delay) ∧
  (u ∈ omap (request_time key) ts → in_epoch cfg u ∧ u <= w_now w).
Proof.
  intros (_ & Hep & Hpun & _) Hb. simpl in *. rewrite Forall_forall in Hep. rewrite Forall_forall in Hpun.
  rewrite Forall_forall in Hb. split.
  - intros (t & Ht & Hu)%list_elem_of_omap. specialize (Hpun t Ht). destruct t as [|k now rs| |]; simpl in *; try done.
    unfold at_key in Hu. repeat case_decide; simplify_eq. destruct (0 <? length rs)%nat; simplify_eq. by apply Hpun.
  - intros Hu. split; [by apply Hep|]. apply list_elem_of_omap in Hu as (t & Ht & Hu). specialize (Hb t Ht).
    destruct t; simpl in *; unfold at_key in Hu; repeat case_decide; by simplify_eq.
Qed.

Lemma added_subset (ts : list lstate) : omap (added_time key) ts ⊆ omap (trimmed_time key) ts.
Proof. apply omap_subset. intros t u Hu. by apply stage_times in Hu as []. Qed.

Lemma kept_requests (ts : list lstate) : omap (kept_time key) ts ⊆ omap (request_time key) ts.
Proof. apply omap_subset. intros t u Hu. by apply stage_times in Hu. Qed.

(** The key has not expired, or holds nothing. *)
Lemma holds_requests_now ts w :
  fine (ts, w) → Forall (timed_before w) ts → holds_requests cfg key delay ts w →
  ∃ z d, key_state (w_redis w) key (w_now w) z d ∧ tidy z d (w_now w) ∧
    set_inv cfg delay (omap (trimmed_time key) ts) (omap (added_time key) ts) (omap (kept_time key) ts)
      (w_now w) z d.
Proof.
  intros Hf Hb (z & d & Hk & Hs). destruct (alive d (w_now w)) eqn:Ha.
  - exists z, d. split; [done|]. split; [|done]. split; [done|]. by destruct Hs.
  - destruct d as [D|]; [|done]. simpl in Ha. exists ∅, None. split; [|split; [done|]].
    + intros t Ht. rewrite Hk by done. simpl. by destruct (Z.ltb_spec t D); [lia|].
    + eapply (set_inv_expired _ _ _ _ _ _ _ D); [apply added_subset| |lia|exact Hs].
      intros u Hu. by apply (proj1 (stage_facts ts w u Hf Hb)).
Qed.

(** What a turn has to establish. *)
Lemma limiter_inv_turn_intro ts i t t' w w1 z d :
  ts !! i = Some t → inv ts w → tick_grows w w1 → timed_before w1 t' → well_replied key t' →
  key_state (w_redis w1) key (w_now w) z d →
  (∀ ts', ts' = <[i := t']> ts →
    set_inv cfg delay (omap (trimmed_time key) ts') (omap (added_time key) ts') (omap (kept_time key) ts')
      (w_now w) z d) →
  winner_time cfg key t' = winner_time cfg key t ∨ winners_bounded cfg key delay m (<[i := t']> ts) →
  inv (<[i := t']> ts) w1.
Proof.
  intros Hi (Hb & Hr & _ & Hw) Hg Ht' Hr' Hk Hs Hwin'. pose proof (env_now_mono _ _ Hg) as Hnow. split_and!.
  - apply Forall_insert; [|done]. eapply Forall_impl; [exact Hb|]. intros x. by apply timed_before_grows.
  - by apply Forall_insert.
  - exists z, d. split; [by eapply key_state_later|]. eapply set_inv_later; [exact Hnow|]. by apply Hs.
  - destruct Hwin' as [Heq|?]; [|done]. intros a b Hab. rewrite (omap_keep _ _ _ _ _ Hi Heq). by apply Hw.
Qed.

Lemma request_epoch ts w i t u :
  fine (ts, w) → Forall (timed_before w) ts → ts !! i = Some t → request_time key t = Some u →
  in_epoch cfg u ∧ u <= w_now w.
Proof.
  intros Hf Hb Hi Hu. apply (proj2 (stage_facts ts w u Hf Hb)).
  apply list_elem_of_omap. exists t. split; [|done]. by eapply list_elem_of_lookup_2.
Qed.

Lemma pipe_punctual ts w i u rs :
  fine (ts, w) → ts !! i = Some (LimPipe key u rs) → w_now w <= u + delay.
Proof. intros (_ & _ & Hp & _) Hi. apply (Forall_lookup_1 _ _ _ _ Hp Hi). done. Qed.

Lemma at_key_same {A} (x : option A) : at_key key key x = x.
Proof. unfold at_key. by rewrite decide_True. Qed.

Lemma at_key_other {A} k (x : option A) : k ≠ key → at_key key k x = None.
Proof. intros Hk. unfold at_key. by rewrite decide_False. Qed.

(** Relates the times of a stage before and after a turn of request [i]. *)
Ltac stage Hi :=
  symmetry; first
    [ erewrite (omap_keep _ _ _ _ _ Hi); [reflexivity|simpl; by rewrite ?at_key_same, ?at_key_other by done]
    | eapply (omap_enter _ _ _ _ _ _ Hi); simpl; rewrite at_key_same; reflexivity ].

(** ZREMRANGEBYSCORE. *)
Lemma turn_trim ts w i u :
  fine (ts, w) → inv ts w → ts !! i = Some (LimPipe key u []) →
  inv (<[i := (limit_turn cfg (LimPipe key u []) w).1]> ts) (limit_turn cfg (LimPipe key u []) w).2.
Proof.
  intros Hf Hinv Hi. pose proof Hinv as (Hb & _ & Hh & _). pose proof window_seconds.
  destruct (holds_requests_now ts w Hf Hb Hh) as (z & d & Hk & Ht & Hs).
  destruct (request_epoch ts w i _ u Hf Hb Hi) as [Hep Hu]; [simpl; by rewrite at_key_same|].
  simpl. rewrite run_command_run by done. simpl.
  rewrite zset_command_runs by by eapply key_state_right. simpl.
  eapply (limiter_inv_turn_intro ts i _ _ w); [exact Hi|done|unfold tick_grows; simpl; lia| | | | |].
  - simpl. etrans; [exact Hu|]. apply env_now_mono. simpl. lia.
  - intros _. exists 0, 1%nat. split; [lia|done].
  - simpl. by apply key_state_trim.
  - intros ts' ->. eapply set_inv_perm; [stage Hi..|].
    apply set_inv_trim; [done|done|lia|done|apply added_subset| |done].
    intros v Hv%kept_requests. destruct (proj2 (stage_facts ts w v Hf Hb) Hv) as [[_ ?] _]. done.
  - left. simpl. by rewrite !at_key_same.
Qed.

(** ZADD. *)
Lemma turn_add ts w i u c :
  fine (ts, w) → inv ts w → ts !! i = Some (LimPipe key u (replied c 2)) →
  inv (<[i := (limit_turn cfg (LimPipe key u (replied c 2)) w).1]> ts)
    (limit_turn cfg (LimPipe key u (replied c 2)) w).2.
Proof.
  intros Hf Hinv Hi. pose proof Hinv as (Hb & _ & Hh & _). pose proof window_seconds.
  destruct (holds_requests_now ts w Hf Hb Hh) as (z & d & Hk & Ht & Hs).
  destruct (request_epoch ts w i _ u Hf Hb Hi) as [[? ?] Hu]; [simpl; by rewrite at_key_same|].
  simpl. rewrite run_command_run by done. simpl.
  rewrite zset_command_runs by by eapply key_state_right. simpl.
  eapply (limiter_inv_turn_intro ts i _ _ w); [exact Hi|done|unfold tick_grows; simpl; lia| | | | |].
  - simpl. etrans; [exact Hu|]. apply env_now_mono. simpl. lia.
  - intros _. exists c, 3%nat. split; [lia|done].
  - simpl. by eapply key_state_add.
  - intros ts' ->. eapply set_inv_perm; [stage Hi..|]. apply set_inv_add; [lia|done].
  - left. simpl. by rewrite !at_key_same.
Qed.

(** A request within the budget wins: those before it are counted, or among the
    few that have not added themselves. *)
Lemma winners_count ts w i u z d rs :
  fine (ts, w) → inv ts w → ts !! i = Some (LimPipe key u [Ok None]) →
  set_inv cfg delay (omap (trimmed_time key) ts) (omap (added_time key) ts) (omap (kept_time key) ts)
    (w_now w) z d →
  rs = [Ok None; Ok (Some (Z.of_nat (size z)))] →
  (length (omap (between_time key) (<[i := LimPipe key u rs]> ts)) ≤ S m)%nat →
  winners_bounded cfg key delay m (<[i := LimPipe key u rs]> ts).
Proof.
  intros Hf Hinv Hi Hs -> Hm a b Hab. pose proof Hinv as (Hb & Hr & _ & Hw).
  pose proof (pipe_punctual ts w i u _ Hf Hi) as Hpun.
  set (t' := LimPipe key u [Ok None; _]) in *. specialize (Hw a b Hab).
  assert (omap (between_time key) (<[i := t']> ts) ≡ₚ u :: omap (between_time key) ts) as Hbet
    by (subst t'; apply (omap_enter _ _ _ _ _ _ Hi); simpl; by rewrite at_key_same).
  rewrite Hbet in Hm. simpl in Hm.
  destruct (Z.ltb_spec (Z.of_nat (size z)) (MaxRequests cfg)) as [Hlt|Hge].
  2:{ rewrite (omap_keep _ _ _ _ _ Hi); [done|]. subst t'. simpl. rewrite !at_key_same.
      by destruct (Z.ltb_spec (Z.of_nat (size z)) (MaxRequests cfg)); [lia|]. }
  assert (omap (winner_time cfg key) (<[i := t']> ts) ≡ₚ u :: omap (winner_time cfg key) ts) as ->.
  { subst t'. apply (omap_enter _ _ _ _ _ _ Hi); simpl; rewrite at_key_same; [done|].
    by destruct (Z.ltb_spec (Z.of_nat (size z)) (MaxRequests cfg)); [|lia]. }
  rewrite filter_cons. case_decide as Hin; [|done]. simpl.
  pose proof (winners_split cfg key (λ v, a <= v < b) ts Hr) as Hsplit.
  enough (length (filter (λ v, (a <= v < b)%Z) (omap (kept_time key) ts)) ≤ size z)%nat by lia.
  apply (set_inv_count _ _ _ _ _ _ _ _ _ Hs).
  - destruct Hf as (Hnd & _). eapply sublist_NoDup; [exact Hnd|].
    etrans; [apply sublist_filter|]. apply omap_sublist. intros t v _ Hv. by apply stage_times in Hv.
  - intros v [Hv ?]%list_elem_of_filter. split; [done|]. lia.
Qed.

(** ZCARD. *)
Lemma turn_card ts w i u :
  fine (ts, w) → inv ts w → ts !! i = Some (LimPipe key u [Ok None]) →
  let s' := limit_turn cfg (LimPipe key u [Ok None]) w in
  fine (<[i := s'.1]> ts, s'.2) → inv (<[i := s'.1]> ts) s'.2.
Proof.
  intros Hf Hinv Hi s'. pose proof Hinv as (Hb & _ & Hh & _).
  destruct (holds_requests_now ts w Hf Hb Hh) as (z & d & Hk & [Ha _] & Hs).
  destruct (request_epoch ts w i _ u Hf Hb Hi) as [Hep Hu]; [simpl; by rewrite at_key_same|].
  subst s'. simpl. rewrite run_command_run by done. simpl.
  rewrite zset_command_runs by by eapply key_state_right. simpl.
  rewrite (key_state_card _ _ _ _ _ Hk Ha). intros (_ & _ & _ & Hm).
  eapply (limiter_inv_turn_intro ts i _ _ w); [exact Hi|done|unfold tick_grows; simpl; lia| | |exact Hk| |].
  - simpl. etrans; [exact Hu|]. apply env_now_mono. simpl. lia.
  - intros _. eexists _, 2%nat. split; [lia|done].
  - intros ts' ->. eapply set_inv_perm; [stage Hi..|done].
  - right. by eapply winners_count.
Qed.

(** EXPIRE, and the verdict. *)
Lemma turn_expire ts w i u c :
  fine (ts, w) → inv ts w → ts !! i = Some (LimPipe key u (replied c 3)) →
  inv (<[i := (limit_turn cfg (LimPipe key u (replied c 3)) w).1]> ts)
    (limit_turn cfg (LimPipe key u (replied c 3)) w).2.
Proof.
  intros Hf Hinv Hi. pose proof Hinv as (Hb & _ & Hh & _). pose proof window_seconds.
  destruct (holds_requests_now ts w Hf Hb Hh) as (z & d & Hk & [Ha _] & Hs).
  destruct (request_epoch ts w i _ u Hf Hb Hi) as [Hep Hu]; [simpl; by rewrite at_key_same|].
  simpl. rewrite run_command_run by done. simpl. set (t' := limit_verdict _ _ _ _).
  assert (added_time key t' = None ∧ trimmed_time key t' = None ∧
    (kept_time key t' = None ∨ kept_time key t' = Some u) ∧ timed_before w t' ∧ well_replied key t' ∧
    winner_time cfg key t' = winner_time cfg key (LimPipe key u (replied c 3))) as (Hadd & Htrim & Hkeep & Htb & Hwr & Hwin').
  { subst t'. unfold limit_verdict. simpl. unfold cardCmd_Val. simpl. rewrite at_key_same.
    destruct (Z.leb_spec (MaxRequests cfg) c), (Z.ltb_spec c (MaxRequests cfg)); try lia; simpl;
      rewrite ?at_key_same; auto 10. }
  destruct (set_inv_expire cfg delay (omap (trimmed_time key) (<[i := t']> ts)) (omap (added_time key) (<[i := t']> ts))
    (omap (kept_time key) ts) (omap (kept_time key) (<[i := t']> ts)) (w_now w) z d u) as [Hs' Hz].
  - lia.
  - lia.
  - by eapply pipe_punctual.
  - destruct Hkeep as [Hkeep|Hkeep].
    + intros v Hv. rewrite (omap_leave (kept_time key) ts i _ t' u Hi); [by right| |done].
      simpl. by rewrite at_key_same.
    + rewrite (omap_keep (kept_time key) ts i _ t' Hi); [done|]. rewrite Hkeep. simpl. by rewrite at_key_same.
  - apply list_elem_of_omap. exists (LimPipe key u (replied c 3)).
    split; [by eapply list_elem_of_lookup_2|]. simpl. by rewrite at_key_same.
  - intros v Hv. apply (proj2 (stage_facts ts w v Hf Hb)). apply (omap_subset (trimmed_time key)).
    + intros t x Hx. by apply stage_times in Hx.
    + rewrite (omap_leave (trimmed_time key) ts i _ t' u Hi); [by right| |done]. simpl. by rewrite at_key_same.
  - eapply set_inv_perm; [| |reflexivity|exact Hs]; apply (omap_leave _ _ _ _ _ _ Hi); try done;
      simpl; by rewrite at_key_same.
  - assert (tick_grows w (emit (EvRedis "EXPIRE" key) w)) as Hg by (unfold tick_grows; simpl; lia).
    eapply (limiter_inv_turn_intro ts i _ _ w _ z); [exact Hi|done|done| |done| |intros ts' ->; exact Hs'|by left].
    + by apply (timed_before_grows w).
    + pose proof (key_state_expire _ _ _ _ d (Window cfg + 10 ^ 9) ltac:(lia) Hk Ha) as He.
      by rewrite ex_window in He.
Qed.

(** ZREM. *)
Lemma turn_over ts w i u :
  fine (ts, w) → inv ts w → ts !! i = Some (LimOver key u) →
  inv (<[i := (limit_turn cfg (LimOver key u) w).1]> ts) (limit_turn cfg (LimOver key u) w).2.
Proof.
  intros Hf Hinv Hi. pose proof Hinv as (Hb & _ & Hh & _).
  destruct (holds_requests_now ts w Hf Hb Hh) as (z & d & Hk & _ & Hs).
  simpl. unfold rdb_ZRem. rewrite redis_call_run by done. simpl.
  eapply (limiter_inv_turn_intro ts i _ _ w); [exact Hi|done|unfold tick_grows; simpl; lia| |done| | |by left].
  - destruct (request_epoch ts w i _ u Hf Hb Hi) as [_ Hu]; [simpl; by rewrite at_key_same|].
    simpl. etrans; [exact Hu|]. apply env_now_mono. simpl. lia.
  - simpl. by apply key_state_rem.
  - intros ts' ->. eapply set_inv_perm; [stage Hi..|]. apply set_inv_rem; [|done].
    intros Hin. destruct Hf as (Hnd & _). simpl in Hnd.
    pose proof (omap_leave (request_time key) ts i _ (LimReady key) u Hi) as Hp. simpl in Hp.
    rewrite at_key_same in Hp. rewrite (Hp eq_refl eq_refl) in Hnd. apply NoDup_cons in Hnd as [Hnd _].
    apply Hnd, kept_requests. rewrite (omap_keep _ _ _ _ _ Hi); [done|]. done.
Qed.

(** Whatever leaves the key alone, and moves nobody to another stage. *)
Lemma inv_elsewhere ts ts' w w1 :
  inv ts w → tick_grows w w1 →
  (∀ t, w_now w1 <= t → redis_view (w_redis w1) t key = redis_view (w_redis w) t key) →
  Forall (timed_before w1) ts' → Forall (well_replied key) ts' →
  omap (trimmed_time key) ts' = omap (trimmed_time key) ts → omap (added_time key) ts' = omap (added_time key) ts →
  omap (kept_time key) ts' = omap (kept_time key) ts →
  omap (winner_time cfg key) ts' = omap (winner_time cfg key) ts → inv ts' w1.
Proof.
  intros (_ & _ & (z & d & Hk & Hs) & Hw) Hg Hv Hb Hr Ht Ha Hke Hwi. apply env_now_mono in Hg.
  split_and!; [done|done| |].
  - exists z, d. split.
    + intros t Hle. rewrite Hv by done. apply Hk. unfold w_now in *. lia.
    + rewrite Ht, Ha, Hke. by eapply set_inv_later.
  - intros a b Hab. rewrite Hwi. by apply Hw.
Qed.

(** A turn leaves the other keys alone. *)
Lemma limit_turn_others k t w :
  match t with LimReady k' | LimPipe k' _ _ | LimOver k' _ | LimDone k' _ _ => k' = k end →
  leaves_others k w (limit_turn cfg t w).2.
Proof.
  assert (leaves_others k w (advance w)) as Hadv by (split; [unfold tick_grows; simpl; lia|done]).
  destruct t as [k'|k' now rs|k' now|k' now r]; intros ->; simpl; [done| | |reflexivity].
  - destruct (commands cfg k (pretty now) (now - Window cfg) now !! length rs) as [c|] eqn:Hc; [|reflexivity].
    pose proof (commands_leave_others cfg k (pretty now) (now - Window cfg) now (Z.lt_le_incl _ _ Hwin)) as Hall.
    pose proof (Forall_lookup_1 _ _ _ _ Hall Hc w) as Hcall. unfold run_command, mbind, M_bind.
    by destruct (redis_call _ _ _ w) as [[[]|] w1].
  - apply rdb_ZRem_leaves_others.
Qed.

(** The time a request carries is the time it read. *)
Lemma limit_turn_time t w : timed_before w t → timed_before (limit_turn cfg t w).2 (limit_turn cfg t w).1.
Proof.
  intros Hb.
  assert (tick_grows w (limit_turn cfg t w).2) as Hg by (destruct t; by eapply limit_turn_others).
  destruct t as [k|k now rs|k now|k now r]; simpl in *.
  - apply env_now_mono. simpl. lia.
  - apply (timed_before_grows w _ (LimPipe k now rs)) in Hg; [|done]. simpl in Hg.
    destruct (_ !! length rs) as [c|]; [|done]. destruct (run_command _ _ _) as [a w1]. simpl in *.
    unfold limit_verdict. repeat case_match; done.
  - by apply (timed_before_grows w _ (LimDone k now (Ok (false, 0)))) in Hg.
  - done.
Qed.

(** A turn of a request on another key. *)
Lemma turn_elsewhere ts w i t k :
  ts !! i = Some t → k ≠ key → inv ts w →
  match t with LimReady k' | LimPipe k' _ _ | LimOver k' _ | LimDone k' _ _ => k' = k end →
  inv (<[i := (limit_turn cfg t w).1]> ts) (limit_turn cfg t w).2.
Proof.
  intros Hi Hne Hinv Hk. pose proof Hinv as (Hb & Hr & _).
  destruct (limit_turn_others k t w Hk) as [Hg Hv].
  pose proof (limit_turn_time t w (Forall_lookup_1 _ _ _ _ Hb Hi)) as Htb.
  assert (∀ t', match t' with LimReady k' | LimPipe k' _ _ | LimOver k' _ | LimDone k' _ _ => k' = k end →
    trimmed_time key t' = None ∧ added_time key t' = None ∧ kept_time key t' = None ∧
    winner_time cfg key t' = None ∧ well_replied key t') as Hnone.
  { intros [| | |? ? [[[] ?]|]]; simpl; intros ->; rewrite ?at_key_other by done; split_and!; try done. }
  assert (match (limit_turn cfg t w).1 with LimReady k' | LimPipe k' _ _ | LimOver k' _ | LimDone k' _ _ => k' = k end)
    as Hk'.
  { destruct t as [k'|k' now rs|k' now|k' now r]; simpl in *; try done.
    destruct (_ !! length rs) as [c|]; [|done]. destruct (run_command _ _ _) as [a w1]. simpl.
    unfold limit_verdict. destruct (_ <? 4)%nat; [done|].
    destruct (cmdsFirstErr _); [|done]. by destruct (_ <=? _). }
  destruct (Hnone _ Hk) as (Ht1 & Ht2 & Ht3 & Ht4 & _). destruct (Hnone _ Hk') as (? & ? & ? & ? & ?).
  apply (inv_elsewhere ts _ w); try done.
  - intros x Hx. apply Hv; [congruence|done].
  - apply Forall_insert; [|done]. eapply Forall_impl; [exact Hb|]. intros x. by apply timed_before_grows.
  - by apply Forall_insert.
  - apply (omap_keep _ _ _ _ _ Hi). congruence.
  - apply (omap_keep _ _ _ _ _ Hi). congruence.
  - apply (omap_keep _ _ _ _ _ Hi). congruence.
  - apply (omap_keep _ _ _ _ _ Hi). congruence.
Qed.

(** A request reads the clock. *)
Lemma turn_ready ts w i :
  ts !! i = Some (LimReady key) → inv ts w →
  inv (<[i := (limit_turn cfg (LimReady key) w).1]> ts) (limit_turn cfg (LimReady key) w).2.
Proof.
  intros Hi Hinv. pose proof Hinv as (Hb & Hr & _).
  assert (tick_grows w (advance w)) as Hg by (unfold tick_grows; simpl; lia).
  simpl. apply (inv_elsewhere ts _ w); try done.
  - apply Forall_insert; [|apply env_now_mono; simpl; lia].
    eapply Forall_impl; [exact Hb|]. intros x. by apply timed_before_grows.
  - apply Forall_insert; [done|]. intros _. exists 0, 0%nat. split; [lia|done].
  - apply (omap_keep _ _ _ _ _ Hi). simpl. by rewrite at_key_same.
  - apply (omap_keep _ _ _ _ _ Hi). simpl. by rewrite at_key_same.
  - apply (omap_keep _ _ _ _ _ Hi). simpl. by rewrite at_key_same.
  - apply (omap_keep _ _ _ _ _ Hi). simpl. by rewrite at_key_same.
Qed.

(** Every turn keeps the invariant. *)
Lemma limiter_inv_turn ts w i t :
  ts !! i = Some t → fine (ts, w) → inv ts w →
  fine (<[i := (limit_turn cfg t w).1]> ts, (limit_turn cfg t w).2) →
  inv (<[i := (limit_turn cfg t w).1]> ts) (limit_turn cfg t w).2.
Proof.
  intros Hi Hf Hinv Hf'.
  destruct (decide (match t with LimReady k | LimPipe k _ _ | LimOver k _ | LimDone k _ _ => k end = key)) as [Hk|Hk].
  2:{ eapply (turn_elsewhere ts w i t _ Hi Hk Hinv). by destruct t. }
  destruct t as [k|k u rs|k u|k u r]; subst k.
  - by apply turn_ready.
  - destruct Hinv as (Hb & Hr & Hrest). destruct (Forall_lookup_1 _ _ _ _ Hr Hi eq_refl) as (c & n & Hn & ->).
    destruct n as [|[|[|[|n]]]]; [..|lia].
    + by apply turn_trim.
    + by apply turn_card.
    + by apply turn_add.
    + by apply turn_expire.
  - by apply turn_over.
  - simpl. rewrite list_insert_id by done. done.
Qed.

Lemma limiter_inv_step s s' :
  orderly_step cfg key delay m s s' → fine s → inv s.1 s.2 → inv s'.1 s'.2.
Proof.
  intros [Hstep Hf'] Hf Hinv. destruct Hstep as [ts w i t Hi|ts w w1 Hg Hv|ts w k]; simpl in *.
  - by apply limiter_inv_turn.
  - pose proof Hinv as (Hb & Hr & _). apply (inv_elsewhere ts _ w); try done.
    eapply Forall_impl; [exact Hb|]. intros x. by apply timed_before_grows.
  - pose proof Hinv as (Hb & Hr & _). apply (inv_elsewhere ts _ w); try done.
    + apply Forall_app. split; [done|by apply Forall_singleton].
    + apply Forall_app. split; [done|by apply Forall_singleton].
    + rewrite omap_app. simpl. by rewrite app_nil_r.
    + rewrite omap_app. simpl. by rewrite app_nil_r.
    + rewrite omap_app. simpl. by rewrite app_nil_r.
    + rewrite omap_app. simpl. by rewrite app_nil_r.
Qed.

Lemma limiter_inv_run s s' :
  rtc (orderly_step cfg key delay m) s s' → fine s → inv s.1 s.2 → inv s'.1 s'.2.
Proof.
  induction 1 as [s|s1 s2 s3 Hstep _ IH]; [done|]. intros Hf Hinv.
  apply IH; [apply Hstep|]. by eapply limiter_inv_step.
Qed.

(** Requests that have not read the clock. *)
Lemma ready_fine (ts : list lstate) w : Forall (λ t, ∃ k, t = LimReady k) ts → fine (ts, w).
Proof.
  intros Hst. assert (omap (request_time key) ts = [] ∧ omap (between_time key) ts = []) as [Hreq Hbet].
  { induction Hst as [|t ts [k ->] _ [IH1 IH2]]; [done|]. by split. }
  unfold orderly_state. simpl. rewrite Hreq, Hbet. split_and!; [constructor|constructor| |simpl; lia].
  eapply Forall_impl; [exact Hst|]. by intros t [k ->].
Qed.

Lemma ready_inv (ts : list lstate) w :
  0 <= MaxRequests cfg → Forall (λ t, ∃ k, t = LimReady k) ts →
  (∀ t, w_now w <= t → redis_view (w_redis w) t key = None) → inv ts w.
Proof.
  intros Hmax Hst Hnone.
  assert (omap (trimmed_time key) ts = [] ∧ omap (kept_time key) ts = [] ∧ omap (winner_time cfg key) ts = [])
    as (Ht & Hk & Hw).
  { induction Hst as [|t ts [k ->] _ (IH1 & IH2 & IH3)]; [done|]. by split. }
  split_and!.
  - eapply Forall_impl; [exact Hst|]. by intros t [k ->].
  - eapply Forall_impl; [exact Hst|]. by intros t [k ->].
  - exists ∅, None. split; [by apply key_state_absent|]. rewrite Ht, Hk. split_and!; try done.
    by intros u []%not_elem_of_nil.
  - intros a b _. rewrite Hw. simpl. lia.
Qed.

Lemma admissions_win (P : Z → Prop) `{!∀ u, Decision (P u)} ts :
  (length (filter P (omap (admission key) ts)) ≤ length (filter P (omap (winner_time cfg key) ts)))%nat.
Proof.
  induction ts as [|t ts IH]; [done|]. pose proof (admitted_wins cfg key t) as Hw. rewrite !omap_cons_app, !filter_app, !length_app.
  destruct (admission key t) as [u|]; [rewrite (Hw u eq_refl)|]; simpl in *; lia.
Qed.

End laws.

(** ** Properties *)

(** C16. The budget under concurrency: however the commands of requests that
    pass the limiter at the same time mix, and whatever else happens in Redis,
    if at most [S m] requests on the key are ever between having counted and
    having added themselves, then in any stretch of time shorter than the
    window, by the longest time a pipeline takes and 256 nanoseconds, at most
    [MaxRequests + m] requests on the key are admitted; with [m = 0], when the
    two commands of a request are never separated by those of another one, the
    budget is kept exactly.  Without faults, from an empty key, for requests
    that read different times in the epoch and pipelines over in less than a
    second. *)
Theorem concurrent_budget `{!RedisLaws, !EnvLaws} cfg key delay m ts w ts' w' a b :
  no_faults → whole_seconds cfg → 0 < Window cfg → delay + 256 < 10 ^ 9 → 0 <= MaxRequests cfg →
  Forall (λ t, ∃ k, t = LimReady k) ts → (∀ t, w_now w <= t → redis_view (w_redis w) t key = None) →
  rtc (orderly_step cfg key delay m) (ts, w) (ts', w') →
  b <= a + Window cfg - 256 - delay →
  Z.of_nat (length (admitted_in key a b ts')) <= MaxRequests cfg + Z.of_nat m.
Proof.
  intros Hnf Hsec Hwin Hdelay Hmax Hst Hnone Hrun Hab.
  destruct (limiter_inv_run cfg key delay m Hnf Hsec Hwin Hdelay _ _ Hrun) as (_ & _ & _ & Hw).
  - by apply ready_fine.
  - by apply ready_inv.
  - specialize (Hw a b Hab). pose proof (admissions_win cfg key (λ u, a <= u < b) ts').
    unfold admitted_in. simpl in *. lia.
Qed.

End rate_concurrency.
