(* ===== verification/Token.v ===== *)
(** * Token: issuing, validating and revoking tokens ([internal/auth/token.go])

    A token is a JWT signed with HMAC-SHA256 by [github.com/golang-jwt/jwt];
    revoked tokens are remembered in Redis under their id. *)

From S2P Require Import Prelude Platform Errs Model Database GoM.
#[local] Open Scope Z_scope.

Section claims.
Context `{UuidLib}.

(** [Claims]: the registered claims the program sets, and its own.  Times are
    in nanoseconds. *)
Record Claims := mkClaims {
  Claims_ID : string;
  Claims_Issuer : string;
  Claims_Subject : string;
  Claims_IssuedAt : Z;
  Claims_ExpiresAt : Z;
  Claims_UserID : UUID;
  Claims_Username : string;
  Claims_IsSystemUser : bool
}.

(** [jwt.NewNumericDate]: whole seconds. *)
Definition NewNumericDate (t : Z) : Z := t / 10 ^ 9 * 10 ^ 9.

(** The library: [SignedString] of a token made with HS256, and
    [ParseWithClaims] at a time, with a key function that accepts HMAC only;
    an error is its text. *)
Class JwtLib := {
  jwt_Sign : string → Claims → result string string;
  jwt_Parse : string → Z → string → result string Claims
}.

(** A signed token parses back, with the same secret, until it expires, and
    does not parse afterwards. *)
Class JwtLaws `{JwtLib} := {
  jwt_roundtrip secret now c tok :
    jwt_Sign secret c = Ok tok →
    NewNumericDate (Claims_IssuedAt c) = Claims_IssuedAt c →
    NewNumericDate (Claims_ExpiresAt c) = Claims_ExpiresAt c →
    now < Claims_ExpiresAt c → jwt_Parse secret now tok = Ok c;
  jwt_expired secret now c tok :
    jwt_Sign secret c = Ok tok → Claims_ExpiresAt c <= now →
    is_ok (jwt_Parse secret now tok) = false
}.

End claims.

Section token.
Context `{UuidLib} `{DecimalLib} `{RedisServer} `{!Env} `{!JwtLib}.

(** [24 * time.Hour]. *)
Definition TokenTTL : Z := 24 * 3600 * 10 ^ 9.

Definition blacklistPrefix : string := "vault:blacklist:".

Definition blacklist_key (jti : string) : string := blacklistPrefix ++ jti.

Definition issued_claims (jti : string) (now : Z) (userID : UUID) (username : string)
    (isSystemUser : bool) : Claims :=
  mkClaims jti "omniledger" (uuid_String userID) (NewNumericDate now)
    (NewNumericDate (now + TokenTTL)) userID username isSystemUser.

(** The signed token and its id. *)
Definition IssueToken (secret : string) (userID : UUID) (username : string) (isSystemUser : bool)
    : M (string * string) :=
  id ← uuid_New;
  let jti := uuid_String id in
  now ← time_Now;
  match jwt_Sign secret (issued_claims jti now userID username isSystemUser) with
  | Err msg => fail (Errorf "sign token: " (ErrText msg))
  | Ok signed => mret (signed, jti)
  end.

(** The library reads the clock; a token it accepts is valid and carries
    [Claims], so that the last check of the code cannot fail. *)
Definition ValidateToken (secret tokenStr : string) : M Claims :=
  now ← time_Now;
  match jwt_Parse secret now tokenStr with
  | Err msg => fail (Errorf "parse token: " (ErrText msg))
  | Ok claims => mret claims
  end.

(** [time.Until] reads the clock. *)
Definition BlacklistToken (jti : string) (expiry : Z) : M unit :=
  now ← time_Now;
  let remaining := expiry - now in
  let remaining := if remaining <=? 0 then 10 ^ 9 else remaining in
  wrap "blacklist token: " (rdb_Set (blacklist_key jti) "blacklisted" remaining).

Definition IsBlacklisted (jti : string) : M bool :=
  exists_ ← wrap "check blacklist: " (rdb_Exists (blacklist_key jti));
  mret (0 <? exists_).

(** ** What the operations leave alone *)

Lemma NewNumericDate_idem t : NewNumericDate (NewNumericDate t) = NewNumericDate t.
Proof. unfold NewNumericDate. by rewrite Z.div_mul. Qed.

Lemma NewNumericDate_le t : NewNumericDate t <= t < NewNumericDate t + 10 ^ 9.
Proof.
  unfold NewNumericDate. pose proof (Z.div_mod t (10 ^ 9) ltac:(done)).
  pose proof (Z.mod_pos_bound t (10 ^ 9) ltac:(done)). lia.
Qed.

Lemma px_near ttl : 0 < ttl → ttl - 10 ^ 6 < px ttl.
Proof.
  intros Ht. unfold px, in_units. destruct (Z.ltb_spec ttl (10 ^ 6)); [lia|].
  pose proof (Z.div_mod ttl (10 ^ 6) ltac:(done)). pose proof (Z.mod_pos_bound ttl (10 ^ 6) ltac:(done)). lia.
Qed.

Lemma time_Now_frames :
  preserves same_db time_Now ∧ preserves same_tx time_Now ∧ preserves same_redis time_Now ∧
  preserves tick_grows time_Now.
Proof. split_and!; intros w; unfold tick_grows; simpl; try done; lia. Qed.

Lemma IssueToken_frame secret id name sys w :
  same_db w (IssueToken secret id name sys w).2 ∧ same_tx w (IssueToken secret id name sys w).2 ∧
  same_redis w (IssueToken secret id name sys w).2.
Proof.
  destruct time_Now_frames as (? & ? & ? & ?).
  pose proof uuid_New_db. pose proof uuid_New_tx. pose proof uuid_New_redis.
  split_and!; apply (preserves_bind _ uuid_New _); auto; intros jti;
    apply (preserves_bind _ time_Now _); auto; intros now;
    destruct (jwt_Sign _ _); auto using preserves_ret, preserves_fail with typeclass_instances.
Qed.

Lemma IsBlacklisted_frame jti w :
  same_db w (IsBlacklisted jti w).2 ∧ same_tx w (IsBlacklisted jti w).2 ∧
  same_redis w (IsBlacklisted jti w).2 ∧ tick_grows w (IsBlacklisted jti w).2.
Proof.
  unfold IsBlacklisted, mbind, M_bind, wrap, map_err, rdb_Exists, redis_call, tick_grows.
  destruct (env_fault (w_tick w)) as [[]|]; simpl; split_and!; try done; lia.
Qed.

Lemma IsBlacklisted_ok `{!RedisLaws} jti w b w' :
  IsBlacklisted jti w = (Ok b, w') →
  b = bool_decide (redis_view (w_redis w) (w_now w) (blacklist_key jti) ≠ None) ∧
  same_db w w' ∧ same_tx w w' ∧ same_redis w w'.
Proof.
  unfold IsBlacklisted. intros (n & w1 & Hn%wrap_ok & Hr%ret_ok)%bind_ok. destruct Hr as [<- <-].
  unfold rdb_Exists, redis_call in Hn.
  destruct (env_fault (w_tick w)) as [[]|]; [done..|]. injection Hn as <- <-.
  rewrite EXISTS_reply. split_and!; try done.
  case_decide; [rewrite bool_decide_false by tauto|rewrite bool_decide_true by done]; done.
Qed.

Lemma IsBlacklisted_run `{!RedisLaws} jti w :
  no_faults →
  ∃ w', IsBlacklisted jti w =
      (Ok (bool_decide (redis_view (w_redis w) (w_now w) (blacklist_key jti) ≠ None)), w') ∧
    same_db w w' ∧ same_tx w w' ∧ same_redis w w' ∧ tick_grows w w'.
Proof.
  intros Hnf. destruct (IsBlacklisted jti w) as [[b|e] w'] eqn:Hb.
  - exists w'. pose proof (IsBlacklisted_frame jti w) as Hfr. rewrite Hb in Hfr.
    by apply IsBlacklisted_ok in Hb as (-> & _).
  - unfold IsBlacklisted, mbind, M_bind, wrap, map_err, rdb_Exists in Hb.
    rewrite redis_call_run in Hb by done. done.
Qed.

(** ** Properties of the token manager *)

Lemma IssueToken_ValidateToken_run `{!JwtLaws} secret id name sys w tok jti w1 w2 :
  IssueToken secret id name sys w = (Ok (tok, jti), w1) →
  w_now w2 <= env_now (S (w_tick w)) + TokenTTL - 10 ^ 9 →
  ∃ c, jwt_Parse secret (w_now w2) tok = Ok c ∧
    Claims_ID c = jti ∧ Claims_UserID c = id ∧ Claims_Username c = name ∧ Claims_IsSystemUser c = sys.
Proof.
  unfold IssueToken, mbind, M_bind. simpl. unfold w_now at 1. simpl.
  set (c := issued_claims _ _ _ _ _). destruct (jwt_Sign secret c) as [signed|msg] eqn:Hs; [|done].
  intros Hr Hnow. injection Hr as <- <- _.
  pose proof (NewNumericDate_le (env_now (S (w_tick w)) + TokenTTL)) as Hdate.
  rewrite (jwt_roundtrip secret (w_now w2) c signed Hs); simpl; [by exists c|..|lia];
    apply NewNumericDate_idem.
Qed.

(** C25. Round trip: a token validates with the secret it was issued with, to
    its id and to the identity it was issued for, at any time up to a second
    before 24 hours after it was issued, and is refused from then on. *)
Theorem IssueToken_ValidateToken `{!JwtLaws} secret id name sys w tok jti w1 w2 :
  IssueToken secret id name sys w = (Ok (tok, jti), w1) →
  let issued := env_now (S (w_tick w)) in
  (w_now w2 <= issued + TokenTTL - 10 ^ 9 →
   ∃ c, ValidateToken secret tok w2 = (Ok c, advance w2) ∧
     Claims_ID c = jti ∧ Claims_UserID c = id ∧ Claims_Username c = name ∧
     Claims_IsSystemUser c = sys) ∧
  (issued + TokenTTL <= w_now w2 → is_ok (ValidateToken secret tok w2).1 = false).
Proof.
  intros Hr issued. unfold ValidateToken, mbind, M_bind; simpl. split; intros Hnow.
  - destruct (IssueToken_ValidateToken_run _ _ _ _ _ _ _ _ _ Hr Hnow) as (c & -> & ?). by exists c.
  - revert Hr. unfold IssueToken, mbind, M_bind. simpl. unfold w_now at 1. simpl.
    set (c := issued_claims _ _ _ _ _). destruct (jwt_Sign secret c) as [signed|msg] eqn:Hs; [|done].
    intros Hr. injection Hr as <- <- _.
    pose proof (NewNumericDate_le (env_now (S (w_tick w)) + TokenTTL)) as Hdate.
    pose proof (jwt_expired secret (w_now w2) c signed Hs) as He. simpl in He. unfold issued in Hnow.
    destruct (jwt_Parse secret (w_now w2) signed); [|done]. by apply He; lia.
Qed.

End token.
