(* ===== verification/AuthMiddleware.v ===== *)
(** * AuthMiddleware: authentication of requests ([internal/auth/middleware.go])

    [Protect] lets a request through to the handler behind it only with a valid
    token that was not revoked, of a user without a frozen account, and puts
    the identity into the request context. *)

From S2P Require Import Prelude Platform Errs Model Database GoM Store Http Token.
#[local] Open Scope Z_scope.

Section middleware.
Context `{UuidLib} `{DecimalLib} `{RedisServer} `{!Env} `{!JwtLib} `{!DriverText}.

Definition cookieName : string := "vault_token".

Definition writeAuthError (status : Z) (msg : string) (h : Header) : reply :=
  Replied (mkResponse status (header_Set "Content-Type" "application/json" h) (JError msg)).

Definition frozen_accounts (userID : UUID) (db : DB) : list Account :=
  filter (λ a, Account_Status a = AccountStatusFrozen) (accounts_of userID db).

(** [SELECT status ... WHERE user_id = $1 AND status = 'Frozen' LIMIT 1]. *)
Definition isAccountFrozen (userID : UUID) : M bool :=
  r ← try_ (db_scan (EvSelect "accounts")
        (λ scan db, one_row (Account_Status <$> head (scan _ (frozen_accounts userID db)))));
  match r with
  | Ok _ => mret true
  | Err e => if decide (e = ErrDriver ErrNoRows) then mret false else fail (Errorf "check frozen: " e)
  end.

(** Values missing from the context are zero values. *)
Definition UserIDFromCtx (r : Request) : UUID := default uuid_Nil (ctx_user_id r).
Definition UsernameFromCtx (r : Request) : string := default ""%string (ctx_username r).
Definition JTIFromCtx (r : Request) : string := default ""%string (ctx_jti r).

Definition Protect (secret : string) (next : Handler) : Handler := λ r h w,
  match req_cookies r !! cookieName with
  | None => (writeAuthError status_Unauthorized "missing authentication cookie" h, w)
  | Some cookie =>
    match ValidateToken secret cookie w with
    | (Err _, w1) => (writeAuthError status_Unauthorized "invalid or expired token" h, w1)
    | (Ok claims, w1) =>
      match IsBlacklisted (Claims_ID claims) w1 with
      | (Err _, w2) => (writeAuthError status_InternalServerError "authentication error" h, w2)
      | (Ok true, w2) => (writeAuthError status_Unauthorized "token has been revoked" h, w2)
      | (Ok false, w2) =>
        match isAccountFrozen (Claims_UserID claims) w2 with
        | (Err _, w3) => (writeAuthError status_InternalServerError "authentication error" h, w3)
        | (Ok true, w3) => (writeAuthError status_Forbidden "account is frozen" h, w3)
        | (Ok false, w3) =>
          next (with_identity (Claims_UserID claims) (Claims_Username claims) (Claims_ID claims) r) h w3
        end
      end
    end
  end.

(** ** What the theorems speak of *)

(** What the checks decide: the claims of the caller, or the refusal. *)
Definition protect_decision (secret : string) (r : Request) (w : World) : result (Z * string) Claims :=
  match req_cookies r !! cookieName with
  | None => Err (status_Unauthorized, "missing authentication cookie"%string)
  | Some cookie =>
    match jwt_Parse secret (w_now w) cookie with
    | Err _ => Err (status_Unauthorized, "invalid or expired token"%string)
    | Ok c =>
      if bool_decide (redis_view (w_redis w) (w_now (advance w)) (blacklist_key (Claims_ID c)) ≠ None)
      then Err (status_Unauthorized, "token has been revoked"%string)
      else if bool_decide (frozen_accounts (Claims_UserID c) (w_db w) ≠ [])
      then Err (status_Forbidden, "account is frozen"%string)
      else Ok c
    end
  end.

Definition identified (c : Claims) (r : Request) : Request :=
  with_identity (Claims_UserID c) (Claims_Username c) (Claims_ID c) r.

(** ** The check for a frozen account *)

Lemma isAccountFrozen_frame userID w :
  same_db w (isAccountFrozen userID w).2 ∧ same_tx w (isAccountFrozen userID w).2 ∧
  same_redis w (isAccountFrozen userID w).2 ∧ tick_grows w (isAccountFrozen userID w).2.
Proof.
  unfold isAccountFrozen, mbind, M_bind, try_, db_scan.
  set (q := λ db : DB, _). pose proof (db_query_tick (EvSelect "accounts") q w).
  pose proof (db_query_db (EvSelect "accounts") q w). pose proof (db_query_tx (EvSelect "accounts") q w).
  pose proof (db_query_redis (EvSelect "accounts") q w).
  destruct (db_query (EvSelect "accounts") q w) as [[a|e] w1]; simpl in *; [done|].
  by case_decide.
Qed.

Lemma scan_nonempty `{!EnvLaws} n {A} (l : list A) :
  head (env_scan n A l) = None ↔ l = [].
Proof.
  pose proof (env_scan_perm n A l) as Hp. rewrite head_None. split; intros Hl.
  - rewrite Hl in Hp. by apply Permutation_nil_l in Hp.
  - rewrite Hl in *. by apply Permutation_nil_r in Hp.
Qed.

Lemma isAccountFrozen_ok `{!EnvLaws} userID w b w' :
  isAccountFrozen userID w = (Ok b, w') → b = bool_decide (frozen_accounts userID (w_db w) ≠ []).
Proof.
  unfold isAccountFrozen. intros (r & w1 & Ht & Hr)%bind_ok. unfold try_, db_scan, db_query, db_call in Ht.
  injection Ht as <- <-. pose proof (scan_nonempty (w_tick w) (frozen_accounts userID (w_db w))) as Hs.
  destruct (head _) as [a|] eqn:Hh; simpl in Hr.
  - rewrite bool_decide_true by (intros Hnil; by apply Hs in Hnil).
    destruct (env_fault (w_tick w)) as [[]|]; simpl in Hr; repeat case_decide; try done;
      by injection Hr as <- _.
  - rewrite bool_decide_false by (intros Hne; by apply Hne, Hs).
    destruct (env_fault (w_tick w)) as [[]|]; simpl in Hr; repeat case_decide; try done;
      by injection Hr as <- _.
Qed.

Lemma isAccountFrozen_run `{!EnvLaws} userID w :
  no_faults → ∃ w', isAccountFrozen userID w = (Ok (bool_decide (frozen_accounts userID (w_db w) ≠ [])), w').
Proof.
  intros Hnf. destruct (isAccountFrozen userID w) as [[b|e] w'] eqn:Hf.
  - exists w'. by apply isAccountFrozen_ok in Hf as ->.
  - exfalso. revert Hf. unfold isAccountFrozen, mbind, M_bind, try_, db_scan.
    rewrite db_query_run by done. simpl. unfold one_row. by destruct (Account_Status <$> _).
Qed.

(** ** Properties of the middleware *)

Lemma Protect_follows_decision_tick `{!RedisLaws, !EnvLaws} secret next r h w :
  no_faults →
  ∃ w', same_db w w' ∧ same_tx w w' ∧ same_redis w w' ∧ tick_grows w w' ∧
    Protect secret next r h w =
      match protect_decision secret r w with
      | Ok c => next (identified c r) h w'
      | Err (status, msg) => (writeAuthError status msg h, w')
      end.
Proof.
  intros Hnf. unfold Protect, protect_decision.
  destruct (req_cookies r !! cookieName) as [cookie|]; [|by exists w].
  unfold ValidateToken, mbind, M_bind; simpl.
  destruct (jwt_Parse _ _ _) as [c|msg]; [|by exists (advance w); split_and!; try done; apply Nat.le_succ_diag_r].
  destruct (IsBlacklisted_run (Claims_ID c) (advance w) Hnf) as (w1 & Hb & Hdb & Htx & Hrd & Ht).
  unfold mret, M_ret. rewrite Hb. unfold same_db, same_tx, same_redis, tick_grows in *. simpl in *.
  case_bool_decide; [exists w1; split_and!; try done; lia|].
  destruct (isAccountFrozen_run (Claims_UserID c) w1 Hnf) as [w2 Hf].
  destruct (isAccountFrozen_frame (Claims_UserID c) w1) as (Hdb2 & Htx2 & Hrd2 & Ht2).
  unfold same_db, same_tx, same_redis, tick_grows in *. rewrite Hf in *. simpl in *.
  exists w2. split_and!; try congruence; [lia|]. rewrite Hdb. repeat case_bool_decide; done.
Qed.

(** Without faults [Protect] follows its decision: the handler behind runs,
    with the identity of the token, for a valid, unrevoked token of a user
    without frozen accounts; every other request gets its 401 or 403 and changes
    nothing. *)
Lemma Protect_follows_decision `{!RedisLaws, !EnvLaws} secret next r h w :
  no_faults →
  ∃ w', same_db w w' ∧ same_tx w w' ∧ same_redis w w' ∧
    Protect secret next r h w =
      match protect_decision secret r w with
      | Ok c => next (identified c r) h w'
      | Err (status, msg) => (writeAuthError status msg h, w')
      end.
Proof.
  intros Hnf. destruct (Protect_follows_decision_tick secret next r h w Hnf) as (w' & ? & ? & ? & _ & ?).
  by exists w'.
Qed.

Lemma Protect_cases `{!RedisLaws, !EnvLaws} secret next r h w :
  ∃ w', same_db w w' ∧ same_tx w w' ∧ same_redis w w' ∧
    ((∃ c cookie, req_cookies r !! cookieName = Some cookie ∧
        jwt_Parse secret (w_now w) cookie = Ok c ∧
        redis_view (w_redis w) (w_now (advance w)) (blacklist_key (Claims_ID c)) = None ∧
        frozen_accounts (Claims_UserID c) (w_db w) = [] ∧
        tick_grows (advance w) w' ∧ Protect secret next r h w = next (identified c r) h w') ∨
     (∃ status msg, status ∈ [status_Unauthorized; status_Forbidden; status_InternalServerError] ∧
        Protect secret next r h w = (writeAuthError status msg h, w'))).
Proof.
  unfold Protect.
  assert (∀ status msg (w' : World), status ∈ [status_Unauthorized; status_Forbidden; status_InternalServerError] →
    ∃ status' msg', status' ∈ [status_Unauthorized; status_Forbidden; status_InternalServerError] ∧
      (writeAuthError status msg h, w') = (writeAuthError status' msg' h, w')) as Hrefuse by eauto.
  destruct (req_cookies r !! cookieName) as [cookie|] eqn:Hc.
  2:{ exists w. split_and!; [done..|]. right. apply Hrefuse. set_solver. }
  unfold ValidateToken, mbind, M_bind; simpl.
  destruct (jwt_Parse _ _ _) as [c|msg] eqn:Hp.
  2:{ exists (advance w). split_and!; [done..|]. right. apply Hrefuse. set_solver. }
  unfold mret, M_ret. destruct (IsBlacklisted (Claims_ID c) (advance w)) as [[b|e] w1] eqn:Hb.
  2:{ exists w1. pose proof (IsBlacklisted_frame (Claims_ID c) (advance w)) as Hfr. rewrite Hb in Hfr.
      split_and!; [apply Hfr..|]. right. apply Hrefuse. set_solver. }
  assert (tick_grows (advance w) w1) as Ht.
  { pose proof (IsBlacklisted_frame (Claims_ID c) (advance w)) as (_ & _ & _ & Ht). by rewrite Hb in Ht. }
  apply IsBlacklisted_ok in Hb as (-> & Hdb & Htx & Hrd).
  unfold same_db, same_tx, same_redis in *. simpl in *.
  case_bool_decide as Hv.
  { exists w1. split_and!; [done..|]. right. apply Hrefuse. set_solver. }
  destruct (isAccountFrozen_frame (Claims_UserID c) w1) as (Hdb2 & Htx2 & Hrd2 & Ht2).
  destruct (isAccountFrozen (Claims_UserID c) w1) as [[b|e] w2] eqn:Hf;
    unfold same_db, same_tx, same_redis in *; simpl in *; exists w2; (split_and!; [congruence..|]).
  - apply isAccountFrozen_ok in Hf as ->. rewrite Hdb. case_bool_decide as Hfz.
    + right. apply Hrefuse. set_solver.
    + left. exists c, cookie. split_and!; try done. by etrans.
  - right. apply Hrefuse. set_solver.
Qed.

(** C13. [Protect] fails closed: whatever call fails, the handler behind runs only
    for a cookie that parsed, whose token was not in the blacklist when Redis was
    asked, of a user without frozen accounts, and under that identity; otherwise
    the answer is 401, 403 or 500 and nothing has changed. *)
Theorem Protect_fails_closed `{!RedisLaws, !EnvLaws} secret next r h w :
  ∃ w', same_db w w' ∧ same_tx w w' ∧ same_redis w w' ∧
    ((∃ c cookie, req_cookies r !! cookieName = Some cookie ∧
        jwt_Parse secret (w_now w) cookie = Ok c ∧
        redis_view (w_redis w) (w_now (advance w)) (blacklist_key (Claims_ID c)) = None ∧
        frozen_accounts (Claims_UserID c) (w_db w) = [] ∧
        Protect secret next r h w = next (identified c r) h w') ∨
     (∃ status msg, status ∈ [status_Unauthorized; status_Forbidden; status_InternalServerError] ∧
        Protect secret next r h w = (writeAuthError status msg h, w'))).
Proof.
  destruct (Protect_cases secret next r h w)
    as (w' & ? & ? & ? & [(c & cookie & ? & ? & ? & ? & _ & ?)|Hr]); exists w'; split_and!; try done.
  - left. by exists c, cookie.
  - by right.
Qed.

(** C26. Logging out works: from the moment a token's id was blacklisted until a
    millisecond before the given expiry, as long as Redis keeps the entry, a
    request with the token is refused and the handler behind does not run. *)
Theorem revoked_token_refused `{!RedisLaws, !EnvLaws} secret next jti expiry w w1 r h w2 cookie c :
  BlacklistToken jti expiry w = (Ok (), w1) →
  (∀ t, redis_view (w_redis w2) t (blacklist_key jti) = redis_view (w_redis w1) t (blacklist_key jti)) →
  w_now w1 <= w_now w2 → w_now (advance w2) <= expiry - 10 ^ 6 →
  req_cookies r !! cookieName = Some cookie →
  jwt_Parse secret (w_now w2) cookie = Ok c → Claims_ID c = jti →
  ∃ w3, same_db w2 w3 ∧
    (Protect secret next r h w2 = (writeAuthError status_Unauthorized "token has been revoked" h, w3) ∨
     Protect secret next r h w2 = (writeAuthError status_InternalServerError "authentication error" h, w3)).
Proof.
  intros Hb Hsame Hnow Hexp Hcookie Hparse Hjti.
  assert (redis_view (w_redis w2) (w_now (advance w2)) (blacklist_key jti) ≠ None) as Hheld.
  { unfold BlacklistToken, mbind, M_bind in Hb. simpl in Hb.
    apply wrap_ok in Hb. unfold rdb_Set, redis_call in Hb. simpl in Hb.
    destruct (env_fault (S (w_tick w))) as [[]|]; [done..|]. injection Hb as <-.
    rewrite Hsame. simpl.
    assert (w_now w <= w_now (advance w) <= w_now (advance w2)) as [Hw1 Hw2].
    { unfold w_now in *; simpl in *.
      pose proof (env_now_mono (w_tick w) (S (w_tick w)) ltac:(lia)).
      pose proof (env_now_mono (S (w_tick w)) (S (S (w_tick w))) ltac:(lia)).
      pose proof (env_now_mono (w_tick w2) (S (w_tick w2)) ltac:(lia)). lia. }
    destruct (Z.leb_spec (expiry - w_now w) 0); [lia|].
    rewrite SET_view by lia. rewrite decide_True by done.
    pose proof (px_near (expiry - w_now w)).
    destruct (Z.ltb_spec (w_now (advance w2)) (w_now (advance w) + px (expiry - w_now w))); [done|lia]. }
  unfold Protect. rewrite Hcookie. unfold ValidateToken, mbind, M_bind; simpl.
  rewrite Hparse. unfold mret, M_ret.
  destruct (IsBlacklisted (Claims_ID c) (advance w2)) as [[b|e] w3] eqn:Hbl.
  - apply IsBlacklisted_ok in Hbl as (-> & Hdb & _). simpl in Hdb. rewrite Hjti.
    rewrite bool_decide_true by done. exists w3. auto.
  - exists w3. split; [|auto]. pose proof (IsBlacklisted_frame (Claims_ID c) (advance w2)) as Hfr.
    rewrite Hbl in Hfr. apply Hfr.
Qed.

End middleware.
