(* ===== verification/Auth.v ===== *)
(** * Auth: registration, login, logout ([internal/service/auth.go])

    [Register] checks the two unique names, then inserts a user and a default
    account, one statement after the other and outside of any transaction. *)

From S2P Require Import Prelude Platform Errs Model Database GoM Store Books Schema Http Token.
#[local] Open Scope Z_scope.

(** [golang.org/x/crypto/bcrypt]: [GenerateFromPassword] with the salt of its
    [n]-th use, and [CompareHashAndPassword]. *)
Class BcryptLib := {
  bcrypt_Generate : nat → string → result string string;
  bcrypt_Compare : string → string → bool
}.

Class BcryptLaws `{BcryptLib} := {
  bcrypt_roundtrip n password hash :
    bcrypt_Generate n password = Ok hash → bcrypt_Compare hash password = true;
  (** A hash has 60 characters; what matters is that the column holds it. *)
  bcrypt_size n password hash :
    bcrypt_Generate n password = Ok hash → (String.length hash ≤ 255)%nat
}.

Section auth.
Context `{UuidLib} `{DecimalLib} `{RedisServer} `{!Env} `{!JwtLib} `{BcryptLib}.

Definition bcrypt_GenerateFromPassword (password : string) : M string := λ w,
  match bcrypt_Generate (w_tick w) password with
  | Ok hash => (Ok hash, advance w)
  | Err msg => (Err (ErrText msg), advance w)
  end.

Definition new_user (req : RegisterRequest) (id : UUID) (hash : string) (isFirst : bool) : User :=
  mkUser id (RegisterRequest_Username req) (RegisterRequest_Email req) hash
    (RegisterRequest_FullName req) isFirst true time_Zero time_Zero.

Definition default_account (id userID : UUID) : Account :=
  mkAccount id userID "INR" AccountStatusActive time_Zero.

Definition Register (secret : string) (req : RegisterRequest) : M AuthResponse :=
  if decide (RegisterRequest_Username req = ""%string ∨ RegisterRequest_Email req = ""%string ∨
             RegisterRequest_Password req = ""%string ∨ RegisterRequest_FullName req = ""%string)
  then fail (ErrSentinel ErrMissingFields)
  else
  existing ← try_ (GetUserByUsername (RegisterRequest_Username req));
  if is_ok existing then fail (ErrSentinel ErrUsernameTaken)
  else
  existingEmail ← try_ (GetUserByEmail (RegisterRequest_Email req));
  if is_ok existingEmail then fail (ErrSentinel ErrEmailTaken)
  else
  hash ← wrap "bcrypt hash: " (bcrypt_GenerateFromPassword (RegisterRequest_Password req));
  isFirst ← wrap "first user check: " IsFirstUser;
  id ← uuid_New;
  let user := new_user req id hash isFirst in
  _ ← wrap "create user: " (CreateUser user);
  acctID ← uuid_New;
  _ ← wrap "create default account: " (CreateAccount (default_account acctID id));
  token ← IssueToken secret (User_ID user) (User_Username user) (User_IsSystemUser user);
  mret (mkAuthResponse user token.1).

Definition Login (secret : string) (req : LoginRequest) : M AuthResponse :=
  if decide (LoginRequest_Username req = ""%string ∨ LoginRequest_Password req = ""%string)
  then fail (ErrSentinel ErrMissingFields)
  else
  user ← map_err (λ _, ErrSentinel ErrInvalidCredentials) (GetUserByUsername (LoginRequest_Username req));
  if negb (User_IsActive user) then fail (ErrSentinel ErrAccountNotActive)
  else if negb (bcrypt_Compare (User_PasswordHash user) (LoginRequest_Password req))
  then fail (ErrSentinel ErrInvalidCredentials)
  else
  token ← IssueToken secret (User_ID user) (User_Username user) (User_IsSystemUser user);
  mret (mkAuthResponse user token.1).

Definition Logout (jti : string) (expiry : Z) : M unit := BlacklistToken jti expiry.

Definition SetTokenCookie (token : string) (secure : bool) (h : Header) : Header :=
  http_SetCookie (mkCookie "vault_token" token "/" true secure
    (if secure then SameSiteNoneMode else SameSiteLaxMode) (TokenTTL / 10 ^ 9)) h.

Definition ClearTokenCookie (h : Header) : Header :=
  http_SetCookie (mkCookie "vault_token" "" "/" true true SameSiteNoneMode (-1)) h.

(** ** What the theorems speak of *)

(** A new user, and its account. *)
Definition with_user (u : User) (now : Z) (db : DB) : DB :=
  set_users (<[User_ID u := user_row u now]>) db.

Definition with_account (id userID : UUID) (now : Z) (db : DB) : DB :=
  set_accounts (<[id := mkAccount id userID "INR" AccountStatusActive now]>) db.

(** The user a request asks for: names that are new as the columns store them, a
    hash of its password, and the system role for the very first user only. *)
Definition user_for (req : RegisterRequest) (u : User) (db : DB) : Prop :=
  ∃ n id hash, bcrypt_Generate n (RegisterRequest_Password req) = Ok hash ∧
    u = new_user req id hash (bool_decide (users db = ∅)) ∧
    users db !! id = None ∧
    ¬ username_used (cut 50 (RegisterRequest_Username req)) db ∧
    ¬ email_used (cut 255 (RegisterRequest_Email req)) db.

(** What a registration can leave behind: nothing; a user without an account; a
    user with one active account. *)
Inductive register_effect (req : RegisterRequest) (db : DB) : option User → bool → DB → Prop :=
| register_nothing : register_effect req db None false db
| register_orphan u now :
    user_for req u db → register_effect req db (Some u) false (with_user u now db)
| register_full u now acctID now' :
    user_for req u db → accounts db !! acctID = None →
    register_effect req db (Some u) true (with_account acctID (User_ID u) now' (with_user u now db)).

(** The decision table of a login. *)
Definition login_decision (req : LoginRequest) (db : DB) : result error User :=
  if decide (LoginRequest_Username req = ""%string ∨ LoginRequest_Password req = ""%string)
  then Err (ErrSentinel ErrMissingFields)
  else match find_user (λ u, User_Username u = LoginRequest_Username req) db with
  | None => Err (ErrSentinel ErrInvalidCredentials)
  | Some u =>
    if negb (User_IsActive u) then Err (ErrSentinel ErrAccountNotActive)
    else if negb (bcrypt_Compare (User_PasswordHash u) (LoginRequest_Password req))
    then Err (ErrSentinel ErrInvalidCredentials)
    else Ok u
  end.

(** ** Users *)

Lemma find_user_Some (P : User → Prop) `{!∀ u, Decision (P u)} db u :
  db_wf db → find_user P db = Some u → users db !! User_ID u = Some u ∧ P u.
Proof.
  intros Hwf Hf. unfold find_user in Hf. apply head_Some_elem_of in Hf.
  apply list_elem_of_filter in Hf as [HP Hin]. split; [|done].
  apply list_elem_of_fmap in Hin as ([id u'] & -> & Hin%elem_of_map_to_list). simpl.
  by rewrite (wf_users _ Hwf id u' Hin).
Qed.

Lemma find_user_None (P : User → Prop) `{!∀ u, Decision (P u)} db :
  find_user P db = None ↔ ∀ id u, users db !! id = Some u → ¬ P u.
Proof.
  unfold find_user. rewrite head_None. split.
  - intros Hnil id u Hu HP. assert (u ∈ filter P (map_to_list (users db)).*2) as Hin.
    { apply list_elem_of_filter. split; [done|]. apply list_elem_of_fmap.
      exists (id, u). by rewrite elem_of_map_to_list. }
    rewrite Hnil in Hin. by apply not_elem_of_nil in Hin.
  - intros Hno. apply filter_none, Forall_forall. intros u Hin.
    apply list_elem_of_fmap in Hin as ([id u'] & -> & Hin%elem_of_map_to_list). by eapply Hno.
Qed.

(** A unique name finds its user. *)
Lemma find_user_unique {A} `{EqDecision A} (f : User → A) db id u :
  unique_on f (users db) → users db !! id = Some u → find_user (λ v, f v = f u) db = Some u.
Proof.
  intros Huniq Hu. destruct (find_user _ db) as [v|] eqn:Hf.
  - unfold find_user in Hf. apply head_Some_elem_of in Hf.
    apply list_elem_of_filter in Hf as [Heq Hin].
    apply list_elem_of_fmap in Hin as ([id' v'] & -> & Hin%elem_of_map_to_list). simpl in *.
    assert (id' = id) as -> by by eapply Huniq. congruence.
  - by pose proof (proj1 (find_user_None _ db) Hf id u Hu).
Qed.

(** Statements outside a transaction: the effect of one that returned an error
    may have taken place all the same. *)
Lemma db_exec_cases ev q w r w' :
  db_exec ev q w = (r, w') →
  w_tx w' = w_tx w ∧
  ((w_db w' = w_db w ∧ is_ok r = false) ∨ q (pg_now w) (w_db w) = Ok (w_db w')).
Proof.
  unfold db_exec, db_call. destruct (q _ _) as [db'|e] eqn:Hq;
    destruct (env_fault (w_tick w)) as [[]|]; intros Hr; injection Hr as <- <-; simpl; auto.
Qed.

(** ** Registration *)

Lemma GetUser_frames :
  (∀ n, preserves same_db (GetUserByUsername n)) ∧ (∀ n, preserves same_tx (GetUserByUsername n)) ∧
  (∀ e, preserves same_db (GetUserByEmail e)) ∧ (∀ e, preserves same_tx (GetUserByEmail e)) ∧
  preserves same_db IsFirstUser ∧ preserves same_tx IsFirstUser.
Proof.
  unfold GetUserByUsername, GetUserByEmail, IsFirstUser. split_and!; intros; solve_preserves.
Qed.

Lemma IsFirstUser_ok w b w' :
  IsFirstUser w = (Ok b, w') → b = bool_decide (users (w_db w) = ∅).
Proof.
  unfold IsFirstUser. intros (n & w1 & [Hn _]%wrap_ok%db_query_ok & [<- _]%ret_ok)%bind_ok.
  injection Hn as <-. destruct (decide (users (w_db w) = ∅)) as [He|Hne].
  - by rewrite bool_decide_true, He, map_size_empty.
  - rewrite bool_decide_false by done. apply Z.eqb_neq.
    apply map_size_ne_0_lookup_2 in Hne || (intros Hz; apply Hne, map_size_empty_inv; lia).
Qed.

(** The statements that write, and the token. *)
Lemma register_writes_cases secret req hash id w r w' db :
  w_tx w = None → w_db w = db →
  (∃ n, bcrypt_Generate n (RegisterRequest_Password req) = Ok hash) →
  let user := new_user req id hash (bool_decide (users db = ∅)) in
  (_ ← wrap "create user: " (CreateUser user);
   acctID ← uuid_New;
   _ ← wrap "create default account: " (CreateAccount (default_account acctID id));
   token ← IssueToken secret (User_ID user) (User_Username user) (User_IsSystemUser user);
   mret (mkAuthResponse user token.1)) w = (r, w') →
  w_tx w' = None ∧ ∃ ou acct, register_effect req db ou acct (w_db w') ∧
    (∀ resp, r = Ok resp → ou = Some (AuthResponse_User resp) ∧ acct = true).
Proof.
  intros Htx Hdb [n Hhash] user. unfold mbind, M_bind, wrap, map_err, CreateUser, wrap, map_err. destruct (db_exec _ _ w) as [r1 w1] eqn:Hu.
  apply db_exec_cases in Hu as [Htx1 Hu].
  assert (∀ db1, insert_user (pg_now w) user (w_db w) = Ok db1 →
    user_for req user db ∧ db1 = with_user user (pg_now w) db) as Huser.
  { intros db1 (Hid & Hn & He & ->)%insert_user_ok. rewrite <-Hdb. split; [|done].
    exists n, id, hash. rewrite Hdb in *. done. }
  destruct Hu as [[Hw1 Herr]|Hu].
  { destruct r1; [done|]. intros Hr. injection Hr as <- <-. split; [congruence|].
    exists None, false. rewrite Hw1, Hdb. split; [constructor|done]. }
  apply Huser in Hu as [Hfor Hdb1]. clear Huser. rewrite Htx in Htx1.
  assert (∀ e w2, w_db w2 = w_db w1 → w_tx w2 = None → (Err e, w2) = (r, w') →
    w_tx w' = None ∧ ∃ ou acct, register_effect req db ou acct (w_db w') ∧
    (∀ resp, r = Ok resp → ou = Some (AuthResponse_User resp) ∧ acct = true)) as Horphan.
  { intros e w2 Hw2 Htx2 Hr. injection Hr as <- <-. split; [done|]. exists (Some user), false.
    rewrite Hw2, Hdb1. by split; [constructor|]. }
  destruct r1 as [[]|e1]; [|by apply Horphan].
  simpl. unfold CreateAccount, wrap, map_err; simpl. match goal with |- context [db_exec ?ev ?q ?w0] => destruct (db_exec ev q w0) as [r2 w2] eqn:Ha end.
  apply db_exec_cases in Ha as [Htx2 Ha]. simpl in Htx2, Ha. rewrite Htx1 in Htx2.
  destruct Ha as [[Hw2 Herr]|(Hacct & _ & Hdb2)%insert_account_ok].
  { destruct r2; [done|]. by apply Horphan. }
  simpl in Hacct, Hdb2. rewrite Hdb1 in Hacct, Hdb2.
  set (acctID := env_uuid (w_tick w1)) in *.
  assert (register_effect req db (Some user) true (w_db w2)) as Hfull.
  { rewrite Hdb2. by apply register_full. }
  destruct r2 as [[]|e2].
  2:{ intros Hr. injection Hr as <- <-. split; [done|]. by exists (Some user), true. }
  destruct (IssueToken_frame secret (User_ID user) (User_Username user) (User_IsSystemUser user) w2)
    as (Hd & Ht & _). unfold same_db, same_tx in Hd, Ht.
  destruct (IssueToken _ _ _ _ w2) as [[tok|e] w3]; simpl in Hd, Ht; intros Hr; injection Hr as <- <-;
    (split; [congruence|]); exists (Some user), true; rewrite Hd; (split; [done|]); [|done].
  intros resp Hr. by injection Hr as <-.
Qed.

Lemma Register_cases secret req w r w' :
  w_tx w = None → Register secret req w = (r, w') →
  w_tx w' = None ∧ ∃ ou acct, register_effect req (w_db w) ou acct (w_db w') ∧
    (∀ resp, r = Ok resp → ou = Some (AuthResponse_User resp) ∧ acct = true).
Proof.
  intros Htx. destruct GetUser_frames as (Hn & Hnt & He & Het & Hf & Hft).
  assert (∀ e w2, w_db w2 = w_db w → w_tx w2 = None → (Err e, w2) = (r, w') →
    w_tx w' = None ∧ ∃ ou acct, register_effect req (w_db w) ou acct (w_db w') ∧
    (∀ resp, r = Ok resp → ou = Some (AuthResponse_User resp) ∧ acct = true)) as Hnothing.
  { intros e w2 Hw2 Htx2 Hr. injection Hr as <- <-. split; [done|]. exists None, false.
    rewrite Hw2. by split; [constructor|]. }
  unfold Register, fail. case_decide; [by apply Hnothing|].
  rewrite bind_try.
  specialize (Hn (RegisterRequest_Username req) w). specialize (Hnt (RegisterRequest_Username req) w).
  destruct (GetUserByUsername _ w) as [r1 w1]. unfold same_db, same_tx in *; simpl in Hn, Hnt |- *.
  rewrite Htx in Hnt. destruct (is_ok r1); [by apply Hnothing|].
  rewrite bind_try. specialize (He (RegisterRequest_Email req) w1). specialize (Het (RegisterRequest_Email req) w1).
  destruct (GetUserByEmail _ w1) as [r2 w2]. simpl in He, Het |- *. rewrite Hnt in Het. rewrite Hn in He.
  destruct (is_ok r2); [by apply Hnothing|].
  rewrite bind_wrap. unfold bcrypt_GenerateFromPassword.
  destruct (bcrypt_Generate (w_tick w2) _) as [hash|msg] eqn:Hhash; [|by apply Hnothing].
  rewrite bind_wrap. specialize (Hf (advance w2)). specialize (Hft (advance w2)).
  destruct (IsFirstUser (advance w2)) as [[b|e] w3] eqn:Hfirst; simpl in Hf, Hft.
  2:{ apply Hnothing; congruence. }
  apply IsFirstUser_ok in Hfirst as ->. simpl. rewrite He.
  apply (register_writes_cases secret req hash (env_uuid (w_tick w3)) (advance w3)); simpl;
    [congruence|congruence|eauto].
Qed.

(** C23. What a registration does, whatever fails: nothing; or it leaves a user
    with an active account; or, because the two rows are not inserted in one
    transaction, a user without an account.  A success is the second case: the
    names were new, the password hash is one of the request's password, the
    account is new, and only the first user of an empty bank gets the system
    role. *)
Theorem Register_effects secret req w r w' :
  w_tx w = None → Register secret req w = (r, w') →
  w_tx w' = None ∧ ∃ ou acct, register_effect req (w_db w) ou acct (w_db w') ∧
    (∀ resp, r = Ok resp → ou = Some (AuthResponse_User resp) ∧ acct = true).
Proof. apply Register_cases. Qed.

(** ** Users and accounts leave the books alone *)

Lemma with_user_wf u now db :
  db_wf db → users db !! User_ID u = None → ¬ username_used (cut 50 (User_Username u)) db →
  ¬ email_used (cut 255 (User_Email u)) db → db_wf (with_user u now db).
Proof.
  intros Hwf Hid Hn He. pose proof Hwf as []. set (db' := with_user u now db).
  assert (db_grows db db') as Hg.
  { split_and!; simpl; try done. intros id Hs. rewrite lookup_insert_is_Some'. auto. }
  split; simpl; auto.
  - by apply map_Forall_insert_2.
  - apply unique_on_insert; [done|]. simpl. intros i y _ Hy Hk. apply Hn. by exists i, y.
  - apply unique_on_insert; [done|]. simpl. intros i y _ Hy Hk. apply He. by exists i, y.
  - intros id a Ha. destruct (wf_accounts id a Ha). split; simpl; [done|].
    rewrite lookup_insert_is_Some'. auto.
Qed.

Lemma with_account_wf id userID now db :
  db_wf db → accounts db !! id = None → is_Some (users db !! userID) →
  db_wf (with_account id userID now db).
Proof.
  intros Hwf Hid Hu. pose proof Hwf as []. set (db' := with_account id userID now db).
  assert (db_grows db db') as Hg.
  { split_and!; simpl; try done. intros i Hs. rewrite lookup_insert_is_Some'. auto. }
  split; simpl; auto.
  - by apply map_Forall_insert_2.
  - by eapply txn_rows_grow.
  - by eapply led_rows_grow.
Qed.

Lemma register_effect_wf req db ou acct db' :
  db_wf db → register_effect req db ou acct db' → db_wf db'.
Proof.
  intros Hwf [|u now (n & id & hash & _ & -> & Hid & Hn & He)|
    u now acctID now' (n & id & hash & _ & -> & Hid & Hn & He) Ha]; [done|by apply with_user_wf|].
  apply with_account_wf; [by apply with_user_wf|done|]. simpl. rewrite lookup_insert_eq. eauto.
Qed.

(** Registrations keep the schema's constraints and the books, whatever
    fails, and move no money: every balance and every transaction is what it
    was. *)
Lemma Register_keeps_books secret req w :
  w_tx w = None → books (w_db w) →
  let w' := (Register secret req w).2 in
  w_tx w' = None ∧ books (w_db w') ∧ transactions (w_db w') = transactions (w_db w) ∧
  (∀ id, balance id (w_db w') = balance id (w_db w)) ∧ total_balance (w_db w') = total_balance (w_db w).
Proof.
  intros Htx Hb. destruct (Register secret req w) as [r w'] eqn:Hr. cbv zeta; simpl.
  apply Register_cases in Hr as (Htx' & ou & acct & He & _); [|done].
  pose proof (register_effect_wf _ _ _ _ _ (books_wf _ Hb) He) as Hwf.
  assert (transactions (w_db w') = transactions (w_db w) ∧ ledger (w_db w') = ledger (w_db w)) as [Ht Hl]
    by by destruct He.
  split; [done|]. split; [by eapply books_same_ledger|]. split; [done|].
  split; [intros id; by apply balance_ledger|].
  rewrite <-(total_supply_balances (w_db w')), <-(total_supply_balances (w_db w)) by (done || apply Hb).
  unfold total_supply. by rewrite Hl.
Qed.

(** ** Login *)

Lemma GetUserByUsername_run name w :
  no_faults →
  GetUserByUsername name w =
    (match find_user (λ u, User_Username u = name) (w_db w) with
     | Some u => Ok u
     | None => Err (ErrText "user not found")
     end, emit (EvSelect "users") w).
Proof.
  intros Hnf. unfold GetUserByUsername, map_err. rewrite db_query_run by done.
  unfold one_row. by destruct (find_user _ _).
Qed.

Lemma GetUserByEmail_run email w :
  no_faults →
  GetUserByEmail email w =
    (match find_user (λ u, User_Email u = email) (w_db w) with
     | Some u => Ok u
     | None => Err (ErrText "user not found")
     end, emit (EvSelect "users") w).
Proof.
  intros Hnf. unfold GetUserByEmail, map_err. rewrite db_query_run by done.
  unfold one_row. by destruct (find_user _ _).
Qed.

(** Registration refuses incomplete requests and names in use, in this
    order, with the error the handler maps to 400 or 409, and changes nothing. *)
Theorem Register_refuses secret req w :
  no_faults →
  let missing := RegisterRequest_Username req = ""%string ∨ RegisterRequest_Email req = ""%string ∨
    RegisterRequest_Password req = ""%string ∨ RegisterRequest_FullName req = ""%string in
  let refused e := ∃ w', Register secret req w = (Err (ErrSentinel e), w') ∧ w_db w' = w_db w in
  (missing → refused ErrMissingFields) ∧
  (¬ missing → username_used (RegisterRequest_Username req) (w_db w) → refused ErrUsernameTaken) ∧
  (¬ missing → ¬ username_used (RegisterRequest_Username req) (w_db w) →
   email_used (RegisterRequest_Email req) (w_db w) → refused ErrEmailTaken).
Proof.
  intros Hnf missing refused. unfold refused, Register, fail. split_and!.
  - intros Hm. rewrite decide_True by done. by eexists.
  - intros Hm (id & u & Hu & Hname). rewrite decide_False, bind_try by done.
    rewrite GetUserByUsername_run by done. simpl.
    destruct (find_user _ _) eqn:Hf; [by eexists|].
    exfalso. exact (proj1 (find_user_None _ (w_db w)) Hf id u Hu Hname).
  - intros Hm Hno (id & u & Hu & Hname). rewrite decide_False, bind_try by done.
    rewrite GetUserByUsername_run by done. simpl.
    destruct (find_user (λ u, User_Username u = _) _) as [v|] eqn:Hf.
    { exfalso. apply Hno. unfold find_user in Hf. apply head_Some_elem_of in Hf.
      apply list_elem_of_filter in Hf as [Hv Hin].
      apply list_elem_of_fmap in Hin as ([i v'] & -> & Hin%elem_of_map_to_list). by exists i, v'. }
    simpl. rewrite bind_try, GetUserByEmail_run by done. simpl.
    destruct (find_user (λ u, User_Email u = RegisterRequest_Email req) (w_db w)) eqn:Hg; [by eexists|].
    exfalso. exact (proj1 (find_user_None _ (w_db w)) Hg id u Hu Hname).
Qed.

Lemma Login_cases secret req w :
  no_faults →
  ∃ w', w_db w' = w_db w ∧
    match login_decision req (w_db w) with
    | Err e => Login secret req w = (Err e, w')
    | Ok u => ∃ w1 tok jti, w_db w1 = w_db w ∧
        match IssueToken secret (User_ID u) (User_Username u) (User_IsSystemUser u) w1 with
        | (Ok (tok', jti'), _) => tok' = tok ∧ jti' = jti ∧ Login secret req w = (Ok (mkAuthResponse u tok), w')
        | (Err e, _) => Login secret req w = (Err e, w')
        end
    end.
Proof.
  intros Hnf. unfold Login, login_decision, fail. case_decide; [by exists w|].
  unfold mbind, M_bind, map_err. rewrite GetUserByUsername_run by done.
  set (w1 := emit _ w). destruct (find_user _ _) as [u|]; [|by exists w1].
  destruct (User_IsActive u); simpl; [|by exists w1].
  destruct (bcrypt_Compare _ _); simpl; [|by exists w1].
  destruct (IssueToken_frame secret (User_ID u) (User_Username u) (User_IsSystemUser u) w1) as (Hd & _ & _).
  unfold same_db in Hd. destruct (IssueToken _ _ _ _ w1) as [[[tok jti]|e] w2] eqn:Hi; simpl in Hd;
    exists w2; (split; [done|]).
  - exists w1, tok, jti. rewrite Hi. auto.
  - exists w1, ""%string, ""%string. by rewrite Hi.
Qed.

(** Login never changes the tables; without faults it answers by its
    decision table (an unknown name and a wrong password get the same
    answer), and a success carries the stored user and a token for that user. *)
Theorem Login_correct secret req w :
  no_faults →
  ∃ w', w_db w' = w_db w ∧
    match login_decision req (w_db w) with
    | Err e => Login secret req w = (Err e, w')
    | Ok u => ∃ w1 tok jti, w_db w1 = w_db w ∧
        match IssueToken secret (User_ID u) (User_Username u) (User_IsSystemUser u) w1 with
        | (Ok (tok', jti'), _) => tok' = tok ∧ jti' = jti ∧ Login secret req w = (Ok (mkAuthResponse u tok), w')
        | (Err e, _) => Login secret req w = (Err e, w')
        end
    end.
Proof. apply Login_cases. Qed.

(** A login that succeeds, and the moment its token was issued. *)
Lemma Login_session `{!EnvLaws} secret req w u :
  no_faults → (∀ c, is_ok (jwt_Sign secret c) = true) → login_decision req (w_db w) = Ok u →
  ∃ w1 tok jti w', w_now w <= env_now (S (w_tick w1)) <= w_now w' ∧
    IssueToken secret (User_ID u) (User_Username u) (User_IsSystemUser u) w1 = (Ok (tok, jti), w') ∧
    Login secret req w = (Ok (mkAuthResponse u tok), w').
Proof.
  intros Hnf Hsign. unfold Login, login_decision, fail. case_decide; [done|].
  unfold mbind, M_bind, map_err. rewrite GetUserByUsername_run by done. set (w1 := emit _ w).
  destruct (find_user _ _) as [v|]; [|done]. destruct (User_IsActive v); simpl; [|done].
  destruct (bcrypt_Compare _ _); simpl; [|done]. intros Hu. injection Hu as ->.
  unfold IssueToken at 2, mbind, M_bind. simpl.
  match goal with |- context [jwt_Sign secret ?c] =>
    pose proof (Hsign c) as Hc; destruct (jwt_Sign secret c) as [tok|] eqn:Hs; [|done] end.
  simpl. eexists w1, tok, _, _. split_and!; [| |unfold IssueToken, mbind, M_bind; simpl; by rewrite Hs|done];
    unfold w_now; simpl; apply env_now_mono; lia.
Qed.

(** What a successful registration stored. *)
Lemma Register_stored secret req w resp w1 :
  w_tx w = None → Register secret req w = (Ok resp, w1) →
  ∃ n id hash sys now acctID now',
    bcrypt_Generate n (RegisterRequest_Password req) = Ok hash ∧
    AuthResponse_User resp = new_user req id hash sys ∧
    users (w_db w1) !! id = Some (user_row (AuthResponse_User resp) now) ∧
    accounts (w_db w1) !! acctID = Some (mkAccount acctID id "INR" AccountStatusActive now').
Proof.
  intros Htx Hr. apply Register_cases in Hr as (_ & ou & acct & He & Hok); [|done].
  destruct (Hok resp eq_refl) as [-> ->].
  inversion He as [| |u now acctID now' Hfor Hacct Hu Hb Hdb1]. subst u.
  destruct Hfor as (n & id & hash & Hhash & Hnew & _). rewrite Hnew in *.
  exists n, id, hash, (bool_decide (users (w_db w) = ∅)), now, acctID, now'.
  split_and!; [done|done|..]; simpl; apply lookup_insert_eq.
Qed.

(** The fields of a complete request. *)
Lemma Register_complete secret req w resp w1 :
  Register secret req w = (Ok resp, w1) →
  RegisterRequest_Username req ≠ ""%string ∧ RegisterRequest_Password req ≠ ""%string.
Proof. unfold Register. case_decide; [done|]. naive_solver. Qed.

(** Whoever registered can log in with the password and the name as the column
    stores it at any later time, and gets the row that was inserted. *)
Lemma login_after_register `{!BcryptLaws, !EnvLaws} secret req w resp w1 w2 :
  no_faults → w_tx w = None → (∀ c, is_ok (jwt_Sign secret c) = true) →
  Register secret req w = (Ok resp, w1) → extends (w_db w1) (w_db w2) → db_wf (w_db w2) →
  ∃ now tok w3,
    Login secret (mkLoginRequest (cut 50 (RegisterRequest_Username req)) (RegisterRequest_Password req)) w2
      = (Ok (mkAuthResponse (user_row (AuthResponse_User resp) now) tok), w3) ∧
    is_Some (head (accounts_of (User_ID (AuthResponse_User resp)) (w_db w2))).
Proof.
  intros Hnf Htx Hsign Hr (Hus & Hac & _ & _) Hwf2.
  destruct (Register_complete _ _ _ _ _ Hr) as [Hname Hpass].
  destruct (Register_stored _ _ _ _ _ Htx Hr) as (n & id & hash & sys & now & acctID & now' & Hhash & Hnew & Hu & Ha).
  apply (lookup_weaken _ _ _ _ Hu) in Hus. apply (lookup_weaken _ _ _ _ Ha) in Hac.
  rewrite Hnew in *. set (su := user_row _ now) in *.
  assert (find_user (λ v, User_Username v = cut 50 (RegisterRequest_Username req)) (w_db w2) = Some su) as Hf.
  { change (cut 50 (RegisterRequest_Username req)) with (User_Username su).
    eapply find_user_unique; [apply Hwf2|exact Hus]. }
  set (lreq := mkLoginRequest _ _).
  assert (login_decision lreq (w_db w2) = Ok su) as Hdec.
  { unfold login_decision. rewrite decide_False by (subst lreq; cbn [LoginRequest_Username LoginRequest_Password];
      intros [?%cut_empty|?]; done).
    cbn [LoginRequest_Username LoginRequest_Password lreq]. rewrite Hf.
    assert (User_PasswordHash su = hash) as ->.
    { apply cut_fits. etrans; [apply utf8_length_bytes|by eapply bcrypt_size]. }
    cbn [User_IsActive su user_row new_user negb]. by rewrite (bcrypt_roundtrip _ _ _ Hhash). }
  destruct (Login_session secret lreq w2 su Hnf Hsign Hdec) as (w3 & tok & jti & w4 & _ & _ & Hl).
  exists now, tok, w4. split; [exact Hl|].
  destruct (head (accounts_of _ (w_db w2))) as [a0|] eqn:Hh; [by eexists|].
  apply head_None in Hh. exfalso.
  assert (mkAccount acctID id "INR" AccountStatusActive now' ∈ accounts_of id (w_db w2)) as Hin;
    [|simpl in Hh; rewrite Hh in Hin; by apply not_elem_of_nil in Hin].
  apply list_elem_of_filter. split; [done|]. apply list_elem_of_fmap.
  eexists (acctID, _). split; [done|]. by apply elem_of_map_to_list.
Qed.

End auth.
