(* ===== verification/Threads.v ===== *)
(** * Threads: transfers, fundings and registrations at once

    Every service that writes to the tables, cut at its external steps: the
    turns of a transfer are those of [Concurrency]; a funding looks its system
    account up, then runs its SQL transaction; a registration runs one
    statement after the other, outside of any transaction.  [threads_keep_books]
    and [threads_accounting] hold of every interleaving of any number of them,
    whatever fails. *)

From S2P Require Import Prelude Platform Errs Model Database GoM Store Books Transfer Funding.
From S2P Require Import Schedule Concurrency Http Token Auth.
#[local] Open Scope Z_scope.

Section threads.
Context `{UuidLib} `{DecimalLib} `{RedisServer} `{!Env} `{!JwtLib} `{BcryptLib}.

(** ** Turns of a funding *)

Inductive fstate :=
| FundReady (req : FundRequest) (user : UUID)
| FundFound (req : FundRequest) (txnID : UUID) (sys : Account)
| FundDone (req : FundRequest) (r : result error FundResponse).

Definition fund_turn (t : fstate) (w : World) : fstate * World :=
  match t with
  | FundReady req user =>
    if negb (dec_IsPositive (FundRequest_Amount req))
    then (FundDone req (Err (ErrSentinel ErrInvalidAmount)), w)
    else
    let txnID := env_uuid (w_tick w) in
    match wrap "system account lookup: " (GetAccountByUserID user) (advance w) with
    | (Err e, w1) => (FundDone req (Err e), w1)
    | (Ok sys, w1) => (FundFound req txnID sys, w1)
    end
  | FundFound req txnID sys =>
    match WithTx (fund_tx req sys txnID) w with
    | (Err e, w1) => (FundDone req (Err e), w1)
    | (Ok _, w1) => (FundDone req (Ok (fund_response req txnID)), w1)
    end
  | FundDone req r => (t, w)
  end.

(** ** Turns of a registration *)

Inductive rstate :=
| RegReady (req : RegisterRequest)
| RegNamed (req : RegisterRequest)
| RegMailed (req : RegisterRequest)
| RegHashed (req : RegisterRequest) (hash : string)
| RegChecked (req : RegisterRequest) (hash : string) (isFirst : bool)
| RegStored (req : RegisterRequest) (user : User)
| RegFull (req : RegisterRequest) (user : User)
| RegDone (req : RegisterRequest) (r : result error AuthResponse).

Definition register_turn (secret : string) (t : rstate) (w : World) : rstate * World :=
  match t with
  | RegReady req =>
    if decide (RegisterRequest_Username req = ""%string ∨ RegisterRequest_Email req = ""%string ∨
               RegisterRequest_Password req = ""%string ∨ RegisterRequest_FullName req = ""%string)
    then (RegDone req (Err (ErrSentinel ErrMissingFields)), w)
    else
    let '(existing, w1) := GetUserByUsername (RegisterRequest_Username req) w in
    (if is_ok existing then RegDone req (Err (ErrSentinel ErrUsernameTaken)) else RegNamed req, w1)
  | RegNamed req =>
    let '(existing, w1) := GetUserByEmail (RegisterRequest_Email req) w in
    (if is_ok existing then RegDone req (Err (ErrSentinel ErrEmailTaken)) else RegMailed req, w1)
  | RegMailed req =>
    match wrap "bcrypt hash: " (bcrypt_GenerateFromPassword (RegisterRequest_Password req)) w with
    | (Err e, w1) => (RegDone req (Err e), w1)
    | (Ok hash, w1) => (RegHashed req hash, w1)
    end
  | RegHashed req hash =>
    match wrap "first user check: " IsFirstUser w with
    | (Err e, w1) => (RegDone req (Err e), w1)
    | (Ok isFirst, w1) => (RegChecked req hash isFirst, w1)
    end
  | RegChecked req hash isFirst =>
    let user := new_user req (env_uuid (w_tick w)) hash isFirst in
    match wrap "create user: " (CreateUser user) (advance w) with
    | (Err e, w1) => (RegDone req (Err e), w1)
    | (Ok _, w1) => (RegStored req user, w1)
    end
  | RegStored req user =>
    match wrap "create default account: "
        (CreateAccount (default_account (env_uuid (w_tick w)) (User_ID user))) (advance w) with
    | (Err e, w1) => (RegDone req (Err e), w1)
    | (Ok _, w1) => (RegFull req user, w1)
    end
  | RegFull req user =>
    match IssueToken secret (User_ID user) (User_Username user) (User_IsSystemUser user) w with
    | (Err e, w1) => (RegDone req (Err e), w1)
    | (Ok token, w1) => (RegDone req (Ok (mkAuthResponse user token.1)), w1)
    end
  | RegDone req r => (t, w)
  end.

(** ** Threads *)

Inductive thread :=
| Transferring (t : tstate)
| Funding (t : fstate)
| Registering (t : rstate).

Definition thread_turn (secret : string) (t : thread) (w : World) : thread * World :=
  match t with
  | Transferring t => let '(t', w') := turn t w in (Transferring t', w')
  | Funding t => let '(t', w') := fund_turn t w in (Funding t', w')
  | Registering t => let '(t', w') := register_turn secret t w in (Registering t', w')
  end.

(** ** What the theorems speak of *)

(** A thread that has not started. *)
Definition starting (t : thread) : Prop :=
  match t with
  | Transferring (Ready _) | Funding (FundReady _ _) | Registering (RegReady _) => True
  | _ => False
  end.

(** The units a funding mints. *)
Definition fund_units (req : FundRequest) : Z := round_half_away (dec_units (FundRequest_Amount req)).

(** What a thread did to the balance of [id], and to the money on the books,
    once it was answered with a success. *)
Definition thread_effect (id : UUID) (t : thread) : Z :=
  match t with
  | Transferring t => net_effect id t
  | Funding (FundDone req (Ok _)) => if decide (id = FundRequest_ToAccountID req) then fund_units req else 0
  | _ => 0
  end.

Definition thread_minted (t : thread) : Z :=
  match t with Funding (FundDone req (Ok _)) => fund_units req | _ => 0 end.

(** The answer to COMMIT was lost. *)
Definition thread_in_doubt (t : thread) : Prop :=
  match t with
  | Transferring t => in_doubt t
  | Funding (FundDone _ (Err e)) => e = commit_lost
  | _ => False
  end.

(** The account a funding found is in the tables. *)
Definition knows_account (db : DB) (t : thread) : Prop :=
  match t with Funding (FundFound _ _ sys) => is_Some (accounts db !! Account_ID sys) | _ => True end.

(** One turn moved the money as the answer of the thread says, or left it in
    doubt. *)
Definition thread_moves (t t' : thread) (db db' : DB) : Prop :=
  thread_in_doubt t' ∨
  total_supply db' = total_supply db + (thread_minted t' - thread_minted t) ∧
  ∀ id, balance id db' = balance id db + (thread_effect id t' - thread_effect id t).

(** Accounts are never removed. *)
Definition accounts_grow (db db' : DB) : Prop :=
  ∀ id, is_Some (accounts db !! id) → is_Some (accounts db' !! id).

(** A write outside a transaction that keeps the constraints and leaves
    transactions and ledger alone. *)
Definition writes_outside (w w' : World) : Prop :=
  w_tx w' = w_tx w ∧ (db_wf (w_db w) → db_wf (w_db w')) ∧
  transactions (w_db w') = transactions (w_db w) ∧ ledger (w_db w') = ledger (w_db w) ∧
  accounts_grow (w_db w) (w_db w').

(** What holds at any time of a run. *)
Definition threads_inv (w0 : World) (ts : list thread) (w : World) : Prop :=
  w_tx w = None ∧ books (w_db w) ∧ Forall (knows_account (w_db w)) ts ∧
  ((∃ i t, ts !! i = Some t ∧ thread_in_doubt t) ∨
   total_supply (w_db w) = total_supply (w_db w0) + Zsum (thread_minted <$> ts) ∧
   ∀ id, balance id (w_db w) = balance id (w_db w0) + Zsum (thread_effect id <$> ts)).

(** The user of this name, as the column stores it, was stored by a registration
    that knows it. *)
Definition registered_as (n : string) (t : thread) : bool :=
  match t with
  | Registering (RegStored req _ | RegFull req _ | RegDone req (Ok _)) =>
    bool_decide (cut 50 (RegisterRequest_Username req) = n)
  | _ => false
  end.

Definition registered (n : string) (ts : list thread) : list thread :=
  filter (λ t, registered_as n t = true) ts.

(** ** The turns are the services *)

Lemma fund_turns req user w :
  turns fund_turn 2 (FundReady req user) w = (FundDone req (FundAccount req user w).1, (FundAccount req user w).2).
Proof.
  unfold turns, FundAccount, fail, mbind, M_bind. simpl. destruct (negb _); [done|]. simpl.
  destruct (wrap _ _ (advance w)) as [[sys|e] w1]; [|done]. simpl.
  by destruct (WithTx _ w1) as [[]].
Qed.

Lemma register_turns secret req w :
  turns (register_turn secret) 7 (RegReady req) w = (RegDone req (Register secret req w).1, (Register secret req w).2).
Proof.
  unfold turns, Register, fail; simpl. case_decide; [done|].
  rewrite bind_try. destruct (GetUserByUsername _ w) as [existing w1]; simpl.
  destruct (is_ok existing); [done|]. simpl.
  rewrite bind_try. destruct (GetUserByEmail _ w1) as [existing2 w2]; simpl.
  destruct (is_ok existing2); [done|]. simpl. unfold mbind, M_bind.
  destruct (wrap _ _ w2) as [[hash|e] w3]; [|done]. simpl.
  destruct (wrap _ _ w3) as [[isFirst|e] w4]; [|done]. simpl.
  destruct (wrap _ _ (advance w4)) as [[[]|e] w5]; [|done]. simpl.
  destruct (wrap _ _ (advance w5)) as [[[]|e] w6]; [|done]. simpl.
  by destruct (IssueToken _ _ _ _ w6) as [[]].
Qed.

(** ** One turn *)

Lemma fund_turn_cases `{!DecimalLaws, !EnvLaws} t w :
  w_tx w = None → books (w_db w) → knows_account (w_db w) (Funding t) →
  let '(t', w') := fund_turn t w in
  w_tx w' = None ∧ books (w_db w') ∧ accounts (w_db w') = accounts (w_db w) ∧
  knows_account (w_db w') (Funding t') ∧ thread_moves (Funding t) (Funding t') (w_db w) (w_db w').
Proof.
  intros Htx Hb Hk. unfold thread_moves. destruct t as [req user|req txnID sys|req r]; simpl.
  - destruct (negb _); simpl; [split_and!; [done..|right; split; lia]|].
    destruct (wrap _ _ (advance w)) as [[sys|e] w1] eqn:Hg.
    + apply wrap_ok, GetAccountByUserID_ok in Hg as ((Hsys & _) & Hdb1 & Htx1); [|apply Hb].
      simpl in *. rewrite Hdb1, Htx1. split_and!; [done..|by eexists|]. right. split; lia.
    + pose proof (GetAccountByUserID_frame user (advance w)) as [Hd Ht].
      unfold wrap, map_err in Hg. destruct (GetAccountByUserID _ _) as [[] w3]; [done|].
      injection Hg as _ <-. unfold same_db, same_tx in *. simpl in *. rewrite Hd, Ht.
      split_and!; [done..|]. right. split; lia.
  - destruct (WithTx _ w) as [res w2] eqn:Hwt.
    apply WithTx_cases in Hwt as (Htx2 & Hcases); [|apply fund_tx_tx|done].
    destruct Hcases as [(e & -> & Hdb2)|([] & w3 & Hfn & Hdb2 & Hres)].
    { rewrite Hdb2. simpl. split_and!; [done..|]. right. split; lia. }
    apply fund_tx_ok in Hfn as (n & Hn & Hstep); [|by eexists|done].
    simpl in Hstep. rewrite <-Hdb2 in Hstep.
    assert (books (w_db w2)) as Hb2 by eauto with bank.
    assert (accounts (w_db w2) = accounts (w_db w)) as Hacc.
    { destruct Hstep as (_ & _ & _ & _ & _ & k & c & now & _ & _ & ->). done. }
    pose proof (numeric_column_ok _ _ Hn) as [Hnu _].
    destruct Hres as [->|[-> _]]; simpl; (split_and!; [done..|]); [right|by left].
    unfold fund_units. rewrite <-Hnu. split.
    + rewrite (funding_step_supply _ _ _ _ _ _ Hstep). lia.
    + intros id. rewrite (funding_step_balance id _ _ _ _ _ _ Hstep). lia.
  - split_and!; [done..|]. right. split; lia.
Qed.

Lemma db_same_writes w w' : w_db w' = w_db w → w_tx w' = w_tx w → writes_outside w w'.
Proof. intros Hd Ht. unfold writes_outside, accounts_grow. by rewrite Hd. Qed.

Lemma exec_writes ev q w :
  (∀ db', q (pg_now w) (w_db w) = Ok db' →
     (db_wf (w_db w) → db_wf db') ∧ transactions db' = transactions (w_db w) ∧
     ledger db' = ledger (w_db w) ∧ accounts_grow (w_db w) db') →
  writes_outside w (db_exec ev q w).2.
Proof.
  intros Hq. destruct (db_exec ev q w) as [r w'] eqn:Hr. apply db_exec_cases in Hr as [Ht [[Hd _]|Hd]].
  - by apply db_same_writes.
  - apply Hq in Hd as (? & ? & ? & ?). by split_and!.
Qed.

Lemma CreateUser_writes u w : writes_outside w (CreateUser u w).2.
Proof.
  unfold CreateUser, wrap, map_err.
  match goal with |- context [db_exec ?ev ?q w] => pose proof (exec_writes ev q w) as Hw;
    destruct (db_exec ev q w) as [[] w'] end; apply Hw; intros db' Hi;
    (split; [intros; by eapply insert_user_wf|]); apply insert_user_ok in Hi as (_ & _ & _ & ->);
    unfold accounts_grow; simpl; auto.
Qed.

Lemma CreateAccount_writes a w : writes_outside w (CreateAccount a w).2.
Proof.
  unfold CreateAccount, wrap, map_err.
  match goal with |- context [db_exec ?ev ?q w] => pose proof (exec_writes ev q w) as Hw;
    destruct (db_exec ev q w) as [[] w'] end; apply Hw; intros db' Hi;
    (split; [intros; by eapply insert_account_wf|]); apply insert_account_ok in Hi as (_ & _ & ->);
    unfold accounts_grow; simpl; (split_and!; [done..|]); intros id Hs; rewrite lookup_insert_is_Some'; auto.
Qed.

(** Calls that leave tables and transaction as they are. *)
Lemma reads_writes {A} (m : M A) w :
  preserves same_db m → preserves same_tx m → writes_outside w (m w).2.
Proof. intros Hd Ht. apply db_same_writes; [apply Hd|apply Ht]. Qed.

Lemma bcrypt_frames password :
  preserves same_db (bcrypt_GenerateFromPassword password) ∧
  preserves same_tx (bcrypt_GenerateFromPassword password).
Proof. by split; intros w; unfold bcrypt_GenerateFromPassword; destruct (bcrypt_Generate _ _). Qed.

Lemma register_turn_writes secret t w : writes_outside w (register_turn secret t w).2.
Proof.
  destruct GetUser_frames as (Hn & Hnt & He & Het & Hf & Hft).
  destruct t as [req|req|req|req hash|req hash isFirst|req user|req user|req r]; simpl.
  - case_decide; [by apply db_same_writes|].
    pose proof (reads_writes _ w (Hn (RegisterRequest_Username req)) (Hnt _)) as Hw.
    by destruct (GetUserByUsername _ w).
  - pose proof (reads_writes _ w (He (RegisterRequest_Email req)) (Het _)) as Hw.
    by destruct (GetUserByEmail _ w).
  - destruct (bcrypt_frames (RegisterRequest_Password req)) as [Hd Ht].
    pose proof (reads_writes (wrap "bcrypt hash: " (bcrypt_GenerateFromPassword (RegisterRequest_Password req))) w) as Hw.
    destruct (wrap _ _ w) as [[] w1]; apply Hw; solve_preserves.
  - pose proof (reads_writes (wrap "first user check: " IsFirstUser) w) as Hw.
    destruct (wrap _ _ w) as [[] w1]; apply Hw; solve_preserves.
  - pose proof (CreateUser_writes (new_user req (env_uuid (w_tick w)) hash isFirst) (advance w)) as Hw.
    unfold wrap, map_err. by destruct (CreateUser _ _) as [[] w1].
  - pose proof (CreateAccount_writes (default_account (env_uuid (w_tick w)) (User_ID user)) (advance w)) as Hw.
    unfold wrap, map_err. by destruct (CreateAccount _ _) as [[] w1].
  - destruct (IssueToken_frame secret (User_ID user) (User_Username user) (User_IsSystemUser user) w)
      as (Hd & Ht & _).
    destruct (IssueToken _ _ _ _ w) as [[] w1]; by apply db_same_writes.
  - by apply db_same_writes.
Qed.

(** ** Threads *)

Lemma thread_turn_cases `{!DecimalLaws, !EnvLaws} secret t w :
  w_tx w = None → books (w_db w) → knows_account (w_db w) t →
  let '(t', w') := thread_turn secret t w in
  w_tx w' = None ∧ books (w_db w') ∧ accounts_grow (w_db w) (w_db w') ∧ knows_account (w_db w') t' ∧
  thread_moves t t' (w_db w) (w_db w').
Proof.
  intros Htx Hb Hk. destruct t as [t|t|t]; simpl.
  - pose proof (turn_request t w) as Hreq. pose proof (turn_in_doubt t w).
    destruct (turn t w) as [t' w'] eqn:Ht. apply turn_cases in Ht as [Htx' He]; [|done].
    unfold thread_moves, accounts_grow; simpl in *. destruct He as [[-> Hs]|(txnID & Hc & Hs & Hs')].
    + split_and!; [done..|]. right. split; [lia|]. intros id. unfold net_effect. rewrite Hs, Hreq. lia.
    + pose proof Hc as (n & Hn & Hst).
      assert (accounts (w_db w') = accounts (w_db w)) as Hacc
        by by destruct (transfer_step_frame _ _ _ _ _ _ _ Hst) as (_ & ? & _).
      split_and!; [done|eauto with bank|by rewrite Hacc|done|].
      destruct Hs' as [Hs'|Hd]; [right|by left]. split.
      * rewrite (transfer_step_supply _ _ _ _ _ _ _ Hst). lia.
      * intros id. unfold net_effect. rewrite Hs, Hs', Hreq, (committed_balance _ _ _ _ id Hc). lia.
  - pose proof (fund_turn_cases t w Htx Hb Hk) as Hf. destruct (fund_turn t w) as [t' w'].
    destruct Hf as (? & ? & Hacc & ? & ?). unfold accounts_grow. rewrite Hacc. done.
  - pose proof (register_turn_writes secret t w) as (Htx' & Hwf & Htr & Hl & Hg).
    destruct (register_turn secret t w) as [t' w']; simpl in *.
    split_and!; [congruence| |done|done|].
    + eapply books_same_ledger; [done| |done|done]. apply Hwf, Hb.
    + right. unfold thread_moves; simpl. split; [unfold total_supply; rewrite Hl; lia|].
      intros id. rewrite (balance_ledger id _ _ Hl). lia.
Qed.

Lemma thread_turn_in_doubt secret t w : thread_in_doubt t → thread_in_doubt (thread_turn secret t w).1.
Proof.
  destruct t as [t|[| |? []]|t]; simpl; try done. intros Hd%(turn_in_doubt t w). by destruct (turn t w).
Qed.

Lemma threads_inv_turn `{!DecimalLaws, !EnvLaws} secret w ts' w' i t :
  ts' !! i = Some t → threads_inv w ts' w' →
  threads_inv w (<[i := (thread_turn secret t w').1]> ts') (thread_turn secret t w').2.
Proof.
  intros Hi (Htx' & Hb' & Hk & Hm).
  pose proof (thread_turn_cases secret t w' Htx' Hb' (Forall_lookup_1 _ _ _ _ Hk Hi)) as Ht.
  pose proof (thread_turn_in_doubt secret t w') as Hdoubt.
  destruct (thread_turn secret t w') as [t' w'']. destruct Ht as (? & ? & Hg & Hk' & Hmv). simpl.
  split_and!; [done..| |].
  - apply Forall_insert; [|done]. eapply Forall_impl; [exact Hk|].
    intros [|[]|]; simpl; try done. apply Hg.
  - pose proof (lookup_lt_Some _ _ _ Hi) as Hlt.
    destruct Hmv as [Hd|[Hsup Hbal]].
    { left. exists i, t'. by rewrite list_lookup_insert_eq. }
    destruct Hm as [(j & u & Hu & Hd)|[Hsup0 Hbal0]].
    + left. destruct (decide (i = j)) as [<-|]; [|exists j, u; by rewrite list_lookup_insert_ne].
      exists i, t'. rewrite list_lookup_insert_eq by done. split; [done|]. simplify_eq. auto.
    + right. rewrite (Zsum_insert _ _ _ _ _ Hi). split; [lia|].
      intros id. rewrite (Zsum_insert _ _ _ _ _ Hi), Hbal, Hbal0. lia.
Qed.

Lemma threads_inv_start ts w :
  w_tx w = None → books (w_db w) → Forall starting ts → threads_inv w ts w.
Proof.
  intros Htx Hb Hst. split_and!; [done..| |].
  - eapply Forall_impl; [exact Hst|]. intros [|[]|]; simpl; naive_solver.
  - right. assert (∀ t, t ∈ ts → thread_minted t = 0 ∧ ∀ id, thread_effect id t = 0) as Hzero.
    { intros t Ht. rewrite Forall_forall in Hst. specialize (Hst t Ht).
      destruct t as [[]|[]|[]]; simpl in *; done. }
    split; [|intros id]; rewrite Zsum_map_zero; try lia; intros t Ht; by apply Hzero.
Qed.

Lemma threads_inv_run `{!DecimalLaws, !EnvLaws} secret sched ts w :
  w_tx w = None → books (w_db w) → Forall starting ts →
  threads_inv w (run_schedule (thread_turn secret) sched ts w).1 (run_schedule (thread_turn secret) sched ts w).2.
Proof.
  intros Htx Hb Hst. apply (run_schedule_ind (thread_turn secret) (threads_inv w));
    [intros; by apply threads_inv_turn|by apply threads_inv_start].
Qed.

(** ** Names *)

Lemma username_used_users n db db' : users db' = users db → username_used n db' ↔ username_used n db.
Proof. unfold username_used. by intros ->. Qed.

(** A turn stores a name only if nobody had it, and no name is ever given up. *)
Definition names_step (n : string) (t t' : thread) (db db' : DB) : Prop :=
  (username_used n db → username_used n db') ∧
  (registered_as n t' = true → registered_as n t = true ∨ ¬ username_used n db ∧ username_used n db').

Lemma names_step_users n t t' db db' :
  users db' = users db → (registered_as n t' = true → registered_as n t = true) →
  names_step n t t' db db'.
Proof. intros Hu Hr. split; [by rewrite (username_used_users n _ _ Hu)|auto]. Qed.

Lemma CreateUser_names u w n :
  let '(r, w') := CreateUser u w in
  (username_used n (w_db w) → username_used n (w_db w')) ∧
  (is_ok r = true → cut 50 (User_Username u) = n → ¬ username_used n (w_db w) ∧ username_used n (w_db w')).
Proof.
  unfold CreateUser, wrap, map_err. destruct (db_exec _ _ w) as [r w'] eqn:Hr.
  apply db_exec_cases in Hr as [_ [[Hd Herr]|(Hid & Hn & _ & Hd)%insert_user_ok]].
  { destruct r; simpl; [done|]. by rewrite Hd. }
  assert (username_used n (w_db w) → username_used n (w_db w')) as Hmono.
  { intros (i & v & Hv & Hvn). rewrite Hd. exists i, v. split; [|done]. simpl.
    rewrite lookup_insert_ne by (intros <-; congruence). done. }
  destruct r as [[]|e]; (split; [done|]); [|done]. intros _ <-. split; [done|].
  rewrite Hd. exists (User_ID u), (user_row u (pg_now w)). split; [|done]. simpl. apply lookup_insert_eq.
Qed.

(** The other turns of a registration do not touch the users. *)
Lemma CreateAccount_users a w : users (w_db (CreateAccount a w).2) = users (w_db w).
Proof.
  unfold CreateAccount, wrap, map_err. destruct (db_exec _ _ w) as [r w'] eqn:Hr.
  apply db_exec_cases in Hr as [_ [[Hd _]|(_ & _ & Hd)%insert_account_ok]]; destruct r; simpl; by rewrite Hd.
Qed.

Lemma register_turn_names secret n t w :
  names_step n (Registering t) (Registering (register_turn secret t w).1)
    (w_db w) (w_db (register_turn secret t w).2).
Proof.
  destruct GetUser_frames as (Hn & _ & He & _ & Hf & _).
  destruct t as [req|req|req|req hash|req hash isFirst|req user|req user|req r]; simpl.
  - case_decide; [by apply names_step_users|]. specialize (Hn (RegisterRequest_Username req) w).
    unfold same_db in Hn. destruct (GetUserByUsername _ w) as [r w1]; simpl in *.
    destruct (is_ok r); apply names_step_users; simpl; congruence || done.
  - specialize (He (RegisterRequest_Email req) w). unfold same_db in He.
    destruct (GetUserByEmail _ w) as [r w1]; simpl in *.
    destruct (is_ok r); apply names_step_users; simpl; congruence || done.
  - unfold wrap, map_err, bcrypt_GenerateFromPassword.
    destruct (bcrypt_Generate _ _); by apply names_step_users.
  - specialize (Hf w). unfold same_db in Hf. unfold wrap, map_err.
    destruct (IsFirstUser w) as [[] w1]; simpl in *; apply names_step_users; simpl; congruence || done.
  - pose proof (CreateUser_names (new_user req (env_uuid (w_tick w)) hash isFirst) (advance w) n) as Hc.
    unfold wrap, map_err. destruct (CreateUser _ _) as [[[]|e] w1]; destruct Hc as [Hm Hc];
      (split; [exact Hm|]); simpl; [|done].
    intros Hreq%bool_decide_eq_true. right. by apply Hc.
  - pose proof (CreateAccount_users (default_account (env_uuid (w_tick w)) (User_ID user)) (advance w)) as Hc.
    unfold wrap, map_err. destruct (CreateAccount _ _) as [[[]|e] w1]; simpl in *; by apply names_step_users.
  - destruct (IssueToken_frame secret (User_ID user) (User_Username user) (User_IsSystemUser user) w)
      as (Hd & _). unfold same_db in Hd.
    destruct (IssueToken _ _ _ _ w) as [[] w1]; simpl in *; apply names_step_users; simpl; congruence || done.
  - by apply names_step_users.
Qed.

Lemma fund_turn_users `{!DecimalLaws, !EnvLaws} t w :
  w_tx w = None → books (w_db w) → knows_account (w_db w) (Funding t) →
  users (w_db (fund_turn t w).2) = users (w_db w).
Proof.
  intros Htx Hb Hk. destruct t as [req user|req txnID sys|req r]; simpl.
  - destruct (negb _); [done|]. pose proof (GetAccountByUserID_frame user (advance w)) as [Hd _].
    unfold same_db in Hd. unfold wrap, map_err.
    destruct (GetAccountByUserID _ _) as [[] w3]; simpl in *; by rewrite Hd.
  - destruct (WithTx _ w) as [res w2] eqn:Hwt.
    apply WithTx_cases in Hwt as (_ & [(e & -> & Hdb2)|([] & w3 & Hfn & Hdb2 & _)]);
      [| |apply fund_tx_tx|done]; [simpl; by rewrite Hdb2|].
    apply fund_tx_ok in Hfn as (n & _ & Hstep); [|by eexists|done].
    simpl in Hstep. rewrite <-Hdb2 in Hstep. apply funding_step_frame in Hstep as [Hu _].
    by destruct res.
  - done.
Qed.

Lemma thread_turn_names `{!DecimalLaws, !EnvLaws} secret n t w :
  w_tx w = None → books (w_db w) → knows_account (w_db w) t →
  let '(t', w') := thread_turn secret t w in names_step n t t' (w_db w) (w_db w').
Proof.
  intros Htx Hb Hk. destruct t as [t|t|t]; simpl.
  - destruct (turn t w) as [t' w'] eqn:Ht. apply turn_cases in Ht as [_ He]; [|done].
    apply names_step_users; [|done].
    destruct He as [[-> _]|(txnID & (m & _ & Hst) & _)]; [done|].
    by apply transfer_step_frame in Hst as (-> & _).
  - pose proof (fund_turn_users t w Htx Hb Hk) as Hu. destruct (fund_turn t w). by apply names_step_users.
  - pose proof (register_turn_names secret n t w). by destruct (register_turn secret t w).
Qed.

(** ** Properties *)

(** C5. Whatever is interleaved and whatever fails, any number of transfers,
    fundings and registrations leave the books in order: the constraints of the
    schema, every transaction posted once, no account overdrawn, no SQL
    transaction left open.  Unless the outcome of some COMMIT is in doubt, the
    money on the books is what it was plus what the answered fundings minted. *)
Theorem threads_keep_books `{!DecimalLaws, !EnvLaws} secret sched ts w :
  w_tx w = None → books (w_db w) → Forall starting ts →
  let '(ts', w') := run_schedule (thread_turn secret) sched ts w in
  w_tx w' = None ∧ books (w_db w') ∧
  (Forall (λ t, ¬ thread_in_doubt t) ts' →
   total_balance (w_db w') = total_balance (w_db w) + Zsum (thread_minted <$> ts')).
Proof.
  intros Htx Hb Hst. pose proof (threads_inv_run secret sched ts w Htx Hb Hst) as (Htx' & Hb' & _ & Hm).
  destruct (run_schedule _ sched ts w) as [ts' w']; simpl in *. split_and!; [done..|].
  intros Hno. rewrite <-!total_supply_balances by (apply Hb || apply Hb').
  destruct Hm as [(i & t & Ht & Hd)|[Hs _]]; [|done]. by destruct (Forall_lookup_1 _ _ _ _ Hno Ht).
Qed.

(** C4. Accounting: unless the outcome of some COMMIT is in doubt, every account
    ends with what it had, plus what successful transfers and fundings paid it,
    minus what successful transfers took from it; registrations and refused
    requests move nothing, whatever the interleaving. *)
Theorem threads_accounting `{!DecimalLaws, !EnvLaws} secret sched ts w id :
  w_tx w = None → books (w_db w) → Forall starting ts →
  let '(ts', w') := run_schedule (thread_turn secret) sched ts w in
  Forall (λ t, ¬ thread_in_doubt t) ts' →
  balance id (w_db w') = balance id (w_db w) + Zsum (thread_effect id <$> ts').
Proof.
  intros Htx Hb Hst. pose proof (threads_inv_run secret sched ts w Htx Hb Hst) as (_ & _ & _ & Hm).
  destruct (run_schedule _ sched ts w) as [ts' w']; simpl in *. intros Hno.
  destruct Hm as [(i & t & Ht & Hd)|[_ Hbal]]; [|done]. by destruct (Forall_lookup_1 _ _ _ _ Hno Ht).
Qed.

(** C11. One name, one user: however registrations are interleaved with anything
    else, and whatever fails, at most one registration of a name, as the column
    stores it, knows that it stored its user and has not failed since, and none
    if the name was taken before; the check of the names at the start of a
    registration is not what guarantees it. *)
Theorem one_registration_per_name `{!DecimalLaws, !EnvLaws} secret sched ts w n :
  w_tx w = None → books (w_db w) → Forall starting ts →
  let ts' := (run_schedule (thread_turn secret) sched ts w).1 in
  (length (registered n ts') ≤ 1)%nat ∧ (username_used n (w_db w) → registered n ts' = []).
Proof.
  intros Htx Hb Hst ts'.
  set (I := λ ts w', threads_inv w ts w' ∧ (username_used n (w_db w) → username_used n (w_db w')) ∧
    (length (registered n ts) + (if decide (username_used n (w_db w)) then 1 else 0) ≤
     if decide (username_used n (w_db w')) then 1 else 0)%nat).
  assert (I ts' (run_schedule (thread_turn secret) sched ts w).2) as (_ & Hm & Hle).
  { apply (run_schedule_ind (thread_turn secret) I); unfold I.
    - intros ts1 w1 i t Hi (Hinv & Hm & Hle). split; [by apply threads_inv_turn|].
      destruct Hinv as (Htx1 & Hb1 & Hk & _).
      pose proof (thread_turn_names secret n t w1 Htx1 Hb1 (Forall_lookup_1 _ _ _ _ Hk Hi)) as Hnm.
      destruct (thread_turn secret t w1) as [t' w2]. destruct Hnm as [Hmono Hreg]. simpl.
      split; [auto|].
      pose proof (length_filter_insert (λ t, registered_as n t = true) ts1 i t t' Hi) as Hlen.
      cbv beta in Hlen. fold (registered n ts1) (registered n (<[i := t']> ts1)) in Hlen.
      repeat case_decide; try lia; naive_solver lia.
    - split; [by apply threads_inv_start|]. split; [done|]. unfold registered.
      rewrite filter_none; [simpl; lia|]. eapply Forall_impl; [exact Hst|]. by intros [|[]|[]]. }
  split; [repeat case_decide; lia|]. intros Hu. apply nil_length_inv.
  rewrite !decide_True in Hle by auto. lia.
Qed.

End threads.
