(* ===== verification/Handlers.v ===== *)
(** * Handlers: the HTTP endpoints ([internal/handler], routes of [cmd/api/main.go])

    The endpoints for transfers, authentication and funding, the mapping of
    errors to status codes, and the routes [main] mounts with their middleware;
    the account endpoints are in [AccountHandler]. *)

From S2P Require Import Prelude Platform Errs Model Database GoM Store Books Transfer Funding Http.
From S2P Require Import RateLimit Token AuthMiddleware Auth.
#[local] Open Scope Z_scope.

Section handlers.
Context `{UuidLib} `{DecimalLib} `{RedisServer} `{!Env} `{!JwtLib} `{BcryptLib} `{!DriverText}.

(** ** Errors to status codes *)

Definition mapErrorToHTTP (e : error) : Z :=
  if errors_Is e ErrInsufficientFunds then status_UnprocessableEntity
  else if errors_Is e ErrAccountNotFound then status_NotFound
  else if errors_Is e ErrAccountNotActive then status_Forbidden
  else if errors_Is e ErrDuplicateTransaction then status_Conflict
  else if errors_Is e ErrSameAccount then status_BadRequest
  else if errors_Is e ErrInvalidAmount then status_BadRequest
  else status_InternalServerError.

Definition mapAuthErrorToHTTP (e : error) : Z :=
  if errors_Is e ErrInvalidCredentials then status_Unauthorized
  else if errors_Is e ErrUsernameTaken || errors_Is e ErrEmailTaken then status_Conflict
  else if errors_Is e ErrMissingFields then status_BadRequest
  else if errors_Is e ErrAccountNotActive then status_Forbidden
  else status_InternalServerError.

(** ** [handler.go] *)

Definition handleTransfer : Handler := λ r h w,
  match body_transfer (req_body r) with
  | None => (writeJSON status_BadRequest (JError "invalid request body") h, w)
  | Some req =>
    match TransferFunds req w with
    | (Err e, w1) => (writeJSON (mapErrorToHTTP e) (error_json e) h, w1)
    | (Ok resp, w1) => (writeJSON status_OK (JTransfer resp) h, w1)
    end
  end.

Definition handleHealth : Handler := λ _ h w, (writeJSON status_OK JHealth h, w).

(** ** [auth_handler.go] *)

Definition handleRegister (secret : string) (secure : bool) : Handler := λ r h w,
  match body_register (req_body r) with
  | None => (writeJSON status_BadRequest (JError "invalid request body") h, w)
  | Some req =>
    match Register secret req w with
    | (Err e, w1) => (writeJSON (mapAuthErrorToHTTP e) (error_json e) h, w1)
    | (Ok resp, w1) =>
      let h := SetTokenCookie (AuthResponse_Token resp) secure h in
      (writeJSON status_Created (JUser "registration successful" (AuthResponse_User resp)) h, w1)
    end
  end.

Definition handleLogin (secret : string) (secure : bool) : Handler := λ r h w,
  match body_login (req_body r) with
  | None => (writeJSON status_BadRequest (JError "invalid request body") h, w)
  | Some req =>
    match Login secret req w with
    | (Err e, w1) => (writeJSON (mapAuthErrorToHTTP e) (error_json e) h, w1)
    | (Ok resp, w1) =>
      let h := SetTokenCookie (AuthResponse_Token resp) secure h in
      (writeJSON status_OK (JUser "login successful" (AuthResponse_User resp)) h, w1)
    end
  end.

(** [cookie.Value[:8]] panics on a shorter value. *)
Definition handleLogout : Handler := λ r h w,
  let jti := JTIFromCtx r in
  if decide (jti = ""%string) then
    match req_cookies r !! "vault_token"%string with
    | None => (writeJSON status_Unauthorized (JError "not authenticated") h, w)
    | Some cookie =>
      if (String.length cookie <? 8)%nat then (Panicked, w)
      else (writeJSON status_BadRequest
        (JError ("missing token context, cookie: " ++ String.substring 0 8 cookie ++ "...")) h, w)
    end
  else
    match Logout jti (w_now w + 24 * 3600 * 10 ^ 9) (advance w) with
    | (Err _, w1) => (writeJSON status_InternalServerError (JError "logout failed") h, w1)
    | (Ok _, w1) => (writeJSON status_OK (JMessage "logged out successfully") (ClearTokenCookie h), w1)
    end.

(** ** [funding_handler.go] *)

(** [SELECT is_system_user FROM users WHERE id = $1]. *)
Definition isSystemUserInDB (userID : UUID) : M bool :=
  r ← try_ (db_query (EvSelect "users") (λ db, one_row (User_IsSystemUser <$> users db !! userID)));
  match r with
  | Ok isSystem => mret isSystem
  | Err e => if decide (e = ErrDriver ErrNoRows) then mret false else fail (Errorf "check system user: " e)
  end.

Definition requireSystemUser (next : Handler) : Handler := λ r h w,
  let userID := UserIDFromCtx r in
  if decide (userID = uuid_Nil)
  then (writeJSON status_Unauthorized (JError "not authenticated") h, w)
  else
    match isSystemUserInDB userID w with
    | (Err _, w1) => (writeJSON status_InternalServerError (JError "authorization check failed") h, w1)
    | (Ok isSystem, w1) =>
      if negb isSystem
      then (writeJSON status_Forbidden (JError "forbidden: system user access required") h, w1)
      else next r h w1
    end.

Definition handleFund : Handler := λ r h w,
  match body_fund (req_body r) with
  | None => (writeJSON status_BadRequest (JError "invalid request body") h, w)
  | Some req =>
    let systemUserID := UserIDFromCtx r in
    match FundAccount req systemUserID w with
    | (Err e, w1) => (writeJSON status_UnprocessableEntity (error_json e) h, w1)
    | (Ok resp, w1) => (writeJSON status_OK (JFund resp) h, w1)
    end
  end.

(** ** Routes, with their middleware *)

Definition route_register (secret : string) (secure : bool) : Handler :=
  Limit main_limits "auth:register" (handleRegister secret secure).
Definition route_login (secret : string) (secure : bool) : Handler :=
  Limit main_limits "auth:login" (handleLogin secret secure).
Definition route_logout : Handler := handleLogout.
Definition route_transfers (secret : string) : Handler :=
  Limit main_limits "transfers" (Protect secret handleTransfer).
Definition route_fund (secret : string) : Handler :=
  requireSystemUser (Protect secret handleFund).

(** A request as it comes from the network: nothing in its context yet. *)
Definition from_network (r : Request) : Prop :=
  ctx_user_id r = None ∧ ctx_username r = None ∧ ctx_jti r = None.

(** ** Status codes *)

(** The status of an error is that of the sentinel at its root, however many
    times it was wrapped on the way; errors of the database, of Redis and of any
    other kind are 500. *)
Lemma mapErrorToHTTP_root e :
  mapErrorToHTTP e =
    match root_sentinel e with
    | Some ErrInsufficientFunds => 422
    | Some ErrAccountNotFound => 404
    | Some ErrAccountNotActive => 403
    | Some ErrDuplicateTransaction => 409
    | Some (ErrSameAccount | ErrInvalidAmount) => 400
    | _ => 500
    end.
Proof.
  unfold mapErrorToHTTP. rewrite !errors_Is_eq.
  by destruct (root_sentinel e) as [[]|].
Qed.

(** The status a transfer is to be answered with, from the request, whether its
    key is held, and the bank: what the API promises, error by error. *)
Definition transfer_status (held : bool) (req : TransferRequest) (b : Bank) : Z :=
  let from := TransferRequest_FromAccountID req in
  let to := TransferRequest_ToAccountID req in
  let amount := TransferRequest_Amount req in
  if bool_decide (from = to) || negb (dec_IsPositive amount) then 400
  else if held then 409
  else match bank_status b from, bank_status b to with
  | Some AccountStatusActive, Some AccountStatusActive =>
    if dec_LessThan (dec_of_units (bank_balance b from)) amount then 422
    else match numeric_18_4 amount with
    | Some n => if (0 <? n) && negb (bank_key_used b (TransferRequest_IdempotencyKey req)) then 200 else 500
    | None => 500
    end
  | Some _, Some _ => 403
  | _, _ => 404
  end.

Lemma transfer_status_of held req b :
  transfer_status held req b =
    match bank_transfer held req b with Ok _ => 200 | Err e => mapErrorToHTTP e end.
Proof.
  unfold transfer_status, bank_transfer, transfer_decision, posting_result, numeric_column.
  case_bool_decide as Hne; [by rewrite decide_True, mapErrorToHTTP_root|]. rewrite decide_False by done.
  destruct (dec_IsPositive _); simpl; [|by rewrite mapErrorToHTTP_root].
  destruct held; [by rewrite mapErrorToHTTP_root|].
  destruct (bank_status b (TransferRequest_FromAccountID req)) as [[]|],
    (bank_status b (TransferRequest_ToAccountID req)) as [[]|]; simpl;
    rewrite ?mapErrorToHTTP_root; try done.
  destruct (dec_LessThan _ _); [by rewrite mapErrorToHTTP_root|].
  destruct (numeric_18_4 _) as [n|]; [|by rewrite mapErrorToHTTP_root].
  destruct (0 <? n); simpl; [|by rewrite mapErrorToHTTP_root].
  destruct (bank_key_used _ _); simpl; [by rewrite mapErrorToHTTP_root|done].
Qed.

(** C21. What the status of a transfer means, whatever fails: 200 says that the
    transfer was committed under the answered id, every status below 500 but
    200 that the tables are as they were, and 500 that they are, or that the
    transfer was committed and the reply to the COMMIT lost.  A body that does
    not decode is 400.  Without faults the status is the one [transfer_status]
    lists. *)
Theorem handleTransfer_correct `{!DecimalLaws, !RedisLaws} r h w :
  w_tx w = None →
  ∃ resp w', handleTransfer r h w = (Replied resp, w') ∧
  match body_transfer (req_body r) with
  | None => resp_status resp = 400 ∧ resp_body resp = JError "invalid request body" ∧ w' = w
  | Some req =>
    resp_status resp ∈ [200; 400; 403; 404; 409; 422; 500] ∧
    (resp_status resp = 200 → ∃ txnID, resp_body resp = JTransfer (transfer_ok txnID) ∧
       committed req txnID (w_db w) (w_db w')) ∧
    (resp_status resp ≠ 200 → (∃ msg, resp_body resp = JError msg) ∧
       (w_db w' = w_db w ∨ resp_status resp = 500 ∧ ∃ txnID, committed req txnID (w_db w) (w_db w'))) ∧
    (no_faults → fresh_uuids (w_tick w) 11 (w_db w) →
     resp_status resp =
       transfer_status (held (w_redis w) (w_now w) (TransferRequest_IdempotencyKey req)) req (bank_of (w_db w)))
  end.
Proof.
  intros Htx. unfold handleTransfer. destruct (body_transfer _) as [req|]; [|by eexists _, w].
  pose proof (λ Hnf, TransferFunds_run_bank req w Hnf Htx) as Hrun.
  destruct (TransferFunds req w) as [res w'] eqn:Hr.
  apply TransferFunds_cases in Hr as [_ Ho]; [|done]. rewrite transfer_status_of.
  destruct res as [resp|e]; (eexists _, w'; split; [reflexivity|]); simpl.
  - destruct Ho as [(e & ? & _)|(txnID & Hc & [[= ->]|?])]; [done| |done]. split_and!; [set_solver|by eauto|done|].
    intros Hnf Hfr. specialize (Hrun Hnf Hfr). destruct (bank_transfer _ _ _) as [b|e]; [done|].
    by destruct Hrun as (w2 & ? & _).
  - assert (mapErrorToHTTP e ∈ [200; 400; 403; 404; 409; 422; 500] ∧ mapErrorToHTTP e ≠ 200) as [Hin Hne].
    { rewrite mapErrorToHTTP_root. destruct (root_sentinel e) as [[]|]; (split; [set_solver|done]). }
    split_and!; [done|by intros ?| |].
    + intros _. split; [by eexists|]. destruct Ho as [(e' & _ & ->)|(txnID & Hc & [?|[= ->]])]; [by left|done|].
      right. split; [by rewrite mapErrorToHTTP_root|by exists txnID].
    + intros Hnf Hfr. specialize (Hrun Hnf Hfr). destruct (bank_transfer _ _ _) as [b|e'].
      * by destruct Hrun as (txnID & w2 & ? & _).
      * destruct Hrun as (w2 & [= <- _] & _). done.
Qed.

(** C31. The sender's account need not be the caller's: with any valid token, of
    whichever user, a transfer out of any account goes through as soon as the
    bank's own checks allow it. *)
Theorem transfer_of_any_account `{!DecimalLaws, !RedisLaws, !EnvLaws} secret r h w c req b :
  no_faults → w_tx w = None → (∀ n, (w_tick w ≤ n)%nat → fresh_uuids n 11 (w_db w)) →
  protect_decision secret r w = Ok c →
  body_transfer (req_body r) = Some req →
  (∀ t, held (w_redis w) t (TransferRequest_IdempotencyKey req) = false) →
  bank_transfer false req (bank_of (w_db w)) = Ok b →
  ∃ txnID w', Protect secret handleTransfer r h w = (writeJSON 200 (JTransfer (transfer_ok txnID)) h, w') ∧
    bank_of (w_db w') ≡ b.
Proof.
  intros Hnf Htx Hfr Hdec Hbody Hheld Hbank.
  destruct (Protect_follows_decision_tick secret handleTransfer r h w Hnf)
    as (w1 & Hdb & Htx1 & Hrd & Htick & Hp). rewrite Hdec in Hp.
  unfold same_db, same_tx, same_redis, tick_grows in *. rewrite Hp.
  unfold handleTransfer. change (body_transfer (req_body (identified c r))) with (body_transfer (req_body r)).
  rewrite Hbody. pose proof (TransferFunds_run_bank req w1 Hnf) as Hrun.
  rewrite Htx1, Hdb, Hrd, Hheld, Hbank in Hrun.
  destruct Hrun as (txnID & w' & -> & Hb); [done|by apply Hfr|]. by exists txnID, w'.
Qed.

Lemma fund_route_refuses secret r h w :
  from_network r → route_fund secret r h w = (writeJSON 401 (JError "not authenticated") h, w).
Proof.
  intros (Hu & _). unfold route_fund, requireSystemUser, UserIDFromCtx. rewrite Hu. simpl.
  by rewrite decide_True.
Qed.

Lemma logout_route_idle r h w :
  from_network r →
  (route_logout r h w).2 = w ∧
  match req_cookies r !! "vault_token"%string with
  | None => reply_status (route_logout r h w).1 = Some 401
  | Some cookie =>
    if (String.length cookie <? 8)%nat then (route_logout r h w).1 = Panicked
    else reply_status (route_logout r h w).1 = Some 400
  end.
Proof.
  intros (_ & _ & Hj). unfold route_logout, handleLogout, JTIFromCtx. rewrite Hj. simpl.
  destruct (req_cookies r !! "vault_token"%string) as [cookie|]; [|done].
  by destruct (String.length cookie <? 8)%nat.
Qed.

(** C32. Two endpoints are mounted without [Protect] and so never learn who asks.
    The funding endpoint refuses everybody: its check for the system user finds
    no identity and answers 401 whatever the request, the token and the user.
    The logout endpoint revokes nothing: it answers 401 or 400, or panics on a
    cookie shorter than 8 bytes, and leaves Redis and the cookie as they are. *)
Theorem unprotected_routes secret r h w :
  from_network r →
  route_fund secret r h w = (writeJSON 401 (JError "not authenticated") h, w) ∧
  (route_logout r h w).2 = w ∧
  match req_cookies r !! "vault_token"%string with
  | None => reply_status (route_logout r h w).1 = Some 401
  | Some cookie =>
    if (String.length cookie <? 8)%nat then (route_logout r h w).1 = Panicked
    else reply_status (route_logout r h w).1 = Some 400
  end.
Proof. intros Hnet. split; [by apply fund_route_refuses|by apply logout_route_idle]. Qed.

(** C22. Login to session: a login with the right credentials is answered 200 and
    sets one HttpOnly cookie; a request that carries it, up to a second before
    the 24 hours are over, gets through [Protect] to whatever handler is behind
    it, with the identity of the user who logged in and the tables as they were,
    unless the token was revoked or an account frozen. *)
Theorem login_gives_session `{!EnvLaws, !RedisLaws, !JwtLaws} secret secure r h w req u :
  no_faults → (∀ c, is_ok (jwt_Sign secret c) = true) →
  body_login (req_body r) = Some req → login_decision req (w_db w) = Ok u →
  ∃ resp w' cookie jti issued,
    handleLogin secret secure r h w = (Replied resp, w') ∧
    resp_status resp = 200 ∧ resp_body resp = JUser "login successful" u ∧
    h_cookies (resp_header resp) = h_cookies h ++ [cookie] ∧
    Cookie_Name cookie = cookieName ∧ Cookie_HttpOnly cookie = true ∧ Cookie_Secure cookie = secure ∧
    w_now w <= issued <= w_now w' ∧
    ∀ next r2 h2 w2, req_cookies r2 !! cookieName = Some (Cookie_Value cookie) →
      w_now w2 <= issued + TokenTTL - 10 ^ 9 →
      redis_view (w_redis w2) (w_now (advance w2)) (blacklist_key jti) = None →
      frozen_accounts (User_ID u) (w_db w2) = [] →
      ∃ w3, same_db w2 w3 ∧ same_tx w2 w3 ∧ same_redis w2 w3 ∧
        Protect secret next r2 h2 w2 = next (with_identity (User_ID u) (User_Username u) jti r2) h2 w3.
Proof.
  intros Hnf Hsign Hbody Hdec. unfold handleLogin. rewrite Hbody.
  assert (∃ w1 tok jti w', w_now w <= env_now (S (w_tick w1)) <= w_now w' ∧
    IssueToken secret (User_ID u) (User_Username u) (User_IsSystemUser u) w1 = (Ok (tok, jti), w') ∧
    Login secret req w = (Ok (mkAuthResponse u tok), w')) as (w1 & tok & jti & w' & Htime & Hi & Hl).
  { apply Login_session; done. }
  rewrite Hl. eexists _, w', _, jti, (env_now (S (w_tick w1))). split; [reflexivity|].
  split_and!; try reflexivity; [apply Htime..|]. simpl.
  intros next r2 h2 w2 Hc Hnow Hbl Hfz.
  destruct (IssueToken_ValidateToken_run secret _ _ _ _ _ _ _ w2 Hi Hnow) as (c & Hp & Hid & Hu & Hn & _).
  destruct (Protect_follows_decision secret next r2 h2 w2 Hnf) as (w3 & Hdb & Htx & Hrd & Hrun).
  exists w3. split_and!; [done..|]. rewrite Hrun. unfold protect_decision. rewrite Hc, Hp, Hid, Hu, Hbl, Hfz.
  rewrite !bool_decide_false by congruence. unfold identified. by rewrite Hid, Hu, Hn.
Qed.

End handlers.
