(* ===== verification/Wire.v ===== *)
(** * Wire: the API as its clients see it

    [call] puts the handlers between the JSON tree of a request and that of its
    response ([Json]).  What [Handlers] shows of decoded requests is carried to
    the trees: a transfer sent as the client writes it moves the money it names,
    and transfers sent without a key share one. *)

From S2P Require Import Prelude Platform Errs Model Database GoM Store Books Transfer Funding Http Json.
From S2P Require Import RateLimit Token AuthMiddleware Auth Handlers.
#[local] Open Scope Z_scope.

Section wire.
Context `{UuidLib} `{DecimalLib} `{RedisServer} `{!Env} `{!DriverText} `{DT : !DecimalText}.

(** A request with the given JSON value as its body. *)
Definition with_body (v : option jin) (r : Request) : Request :=
  mkRequest (req_header r) (req_cookies r) (req_remote_addr r) (req_path_id r) (req_query r)
    (body_of v) (ctx_user_id r) (ctx_username r) (ctx_jti r).

(** Status and body of a response. *)
Definition answer (rep : reply) : option (Z * jout) :=
  match rep with Replied resp => Some (resp_status resp, encode (resp_body resp)) | Panicked => None end.

Definition call (hd : Handler) (v : option jin) (r : Request) (w : World) : option (Z * jout) * World :=
  let '(rep, w') := hd (with_body v r) no_header w in (answer rep, w').

(** The bodies of a successful transfer and of an error. *)
Definition transferred (txnID : UUID) : jout :=
  OObject [("transaction_id", OString (uuid_String txnID)); ("status", OString "Completed");
    ("message", OString "Transfer completed successfully")]%string.
Definition refused (msg : string) : jout := OObject [("error"%string, OString msg)].

(** ** Transfers *)

Lemma call_transfer members r w :
  call handleTransfer (Some (IObject members)) r w =
    match decode_transfer (IObject members) with
    | None => (Some (400, refused "invalid request body"), w)
    | Some req =>
      match TransferFunds req w with
      | (Err e, w1) => (Some (mapErrorToHTTP e, refused (Error driver_text e)), w1)
      | (Ok resp, w1) => (Some (200, encode (JTransfer resp)), w1)
      end
    end.
Proof.
  unfold call, handleTransfer. cbn [req_body with_body body_of body_transfer mbind option_bind].
  destruct (decode_transfer _) as [req|]; [|done]. by destruct (TransferFunds req w) as [[] w1].
Qed.

Lemma mapErrorToHTTP_not_ok e : mapErrorToHTTP e ≠ 200.
Proof. rewrite mapErrorToHTTP_root. by destruct (root_sentinel e) as [[]|]. Qed.

(** ** Properties *)

(** C9. A transfer over JSON, without faults: whatever the order of the members a
    client writes, and however it writes the amount, the request is decoded to
    the one it stands for and answered as the abstract bank answers that one: a
    success with 200 and the members of the response, an error with the status
    [transfer_status] lists and the text of the error. *)
Theorem transfer_over_json `{!DecimalLaws, !RedisLaws, !UuidTextLaws, !DecimalTextLaws} req members r w :
  members ≡ₚ transfer_members req →
  no_faults → w_tx w = None → fresh_uuids (w_tick w) 11 (w_db w) →
  let on_hold := held (w_redis w) (w_now w) (TransferRequest_IdempotencyKey req) in
  match bank_transfer on_hold req (bank_of (w_db w)) with
  | Ok b => ∃ txnID w', call handleTransfer (Some (IObject members)) r w = (Some (200, transferred txnID), w') ∧
      bank_of (w_db w') ≡ b
  | Err e => ∃ w', call handleTransfer (Some (IObject members)) r w =
        (Some (transfer_status on_hold req (bank_of (w_db w)), refused (Error driver_text e)), w') ∧
      w_db w' = w_db w
  end.
Proof.
  intros Hm Hnf Htx Hfr. destruct (decode_transfer_members req members Hm) as (req' & Hd & Hs).
  pose proof (TransferFunds_run_bank req' w Hnf Htx Hfr) as Hrun.
  rewrite (bank_transfer_same _ _ _ _ Hs) in Hrun. destruct Hs as (_ & _ & _ & Hk). rewrite Hk in Hrun.
  cbv zeta. rewrite transfer_status_of, call_transfer, Hd. destruct (bank_transfer _ _ _) as [b|e].
  - destruct Hrun as (txnID & w' & -> & Hb). by exists txnID, w'.
  - destruct Hrun as (w' & -> & Hb). by exists w'.
Qed.

(** C33. Transfers without a key collide: after one whose body has no
    [idempotency_key] member was answered 200, any other such transfer of a
    positive amount, of whoever between whichever two accounts, is refused with
    409 as a duplicate for 24 hours, if nobody touched Redis in between and SETNX
    meets no fault, and changes nothing; the key both decode to is the zero
    UUID. *)
Theorem keyless_transfers_collide `{!DecimalLaws, !RedisLaws, !EnvLaws} members r w body w' members2 req2 r2 w2 :
  keyless members → call handleTransfer (Some (IObject members)) r w = (Some (200, body), w') →
  keyless members2 → decode_transfer (IObject members2) = Some req2 →
  TransferRequest_FromAccountID req2 ≠ TransferRequest_ToAccountID req2 →
  dec_IsPositive (TransferRequest_Amount req2) = true →
  w_redis w2 = w_redis w' → w_now w' <= w_now w2 < w_now w + idempotencyTTL →
  env_fault (w_tick w2) = None →
  ∃ w3, call handleTransfer (Some (IObject members2)) r2 w2 =
      (Some (409, refused (sentinel_text ErrDuplicateTransaction)), w3) ∧ w_db w3 = w_db w2.
Proof.
  intros Hk1 Hc Hk2 Hd2 Hne Hpos Hred Hnow Hnf. rewrite call_transfer in Hc.
  destruct (decode_transfer (IObject members)) as [req|] eqn:Hd; [|done].
  destruct (TransferFunds req w) as [[resp|e] w1] eqn:Hr; simplify_eq;
    [|by destruct (mapErrorToHTTP_not_ok e)].
  pose proof (decode_transfer_keyless _ _ Hk1 Hd) as Hn1.
  pose proof (decode_transfer_keyless _ _ Hk2 Hd2) as Hn2.
  destruct (replay_refused req w resp w' req2 w2 Hr) as (w3 & Hr2 & Hdb & _); [congruence|done..|].
  exists w3. by rewrite call_transfer, Hd2, Hr2.
Qed.

End wire.
