(* ===== verification/AccountHandler.v ===== *)
(** * AccountHandler: the account endpoints ([internal/handler/account_handler.go])

    A user's accounts, the balance of one of them, and its transaction history
    page by page.  [requested_page], [requested_size] and [is_history] say, apart
    from the handler, what a request for a page asks for and what the history of
    an account is. *)

From S2P Require Import Prelude Platform Errs Model Database GoM Store Http RateLimit Token.
From S2P Require Import AuthMiddleware Strconv.
#[local] Open Scope Z_scope.

(** ** Floats *)

(** The integer nearest to [a / b], ties to even. *)
Definition nearest (a b : Z) : Z :=
  let q := a / b in
  let m := a mod b in
  if 2 * m <? b then q else if b <? 2 * m then q + 1 else if Z.even q then q else q + 1.

(** [math.Ceil(float64(a) / float64(b))] for nonnegative [a] and small positive
    [b]: the quotient is rounded to 53 bits. *)
Definition f64_ceil_div (a b : Z) : Z :=
  let a := f64_of_int64 a in
  if a =? 0 then 0
  else if a <? b then 1
  else
    let k := 52 - Z.log2 (a / b) in
    if k <=? 0 then nearest a (b * 2 ^ (- k)) * 2 ^ (- k)
    else - (- nearest (a * 2 ^ k) b / 2 ^ k).

Section account_handler.
Context `{UuidLib} `{DecimalLib} `{RedisServer} `{!Env} `{!JwtLib} `{!DriverText}.

Definition defaultPage : Z := 1.
Definition defaultPerPage : Z := 20.
Definition maxPerPage : Z := 100.

Definition parseIntParam (r : Request) (key : string) (fallback : Z) : Z :=
  let val := get (req_query r) key in
  if decide (val = ""%string) then fallback
  else match Atoi val with (n, None) => n | (_, Some _) => fallback end.

Definition handleGetAccounts : Handler := λ r h w,
  let userID := UserIDFromCtx r in
  if decide (userID = uuid_Nil)
  then (writeJSON status_Unauthorized (JError "not authenticated") h, w)
  else
    match GetAccountsByUserID userID w with
    | (Err _, w1) => (writeJSON status_InternalServerError (JError "failed to fetch accounts") h, w1)
    | (Ok accounts, w1) =>
      (writeJSON status_OK (JAccounts accounts (Z.of_nat (length accounts))) h, w1)
    end.

(** The first account of the user with that id, or the reply that was written. *)
Definition verifyOwnership (h : Header) (userID accountID : UUID) (w : World)
    : result reply Account * World :=
  match GetAccountsByUserID userID w with
  | (Err _, w1) =>
    (Err (writeJSON status_InternalServerError (JError "failed to verify account ownership") h), w1)
  | (Ok accounts, w1) =>
    match list_find (λ a, Account_ID a = accountID) accounts with
    | Some (_, a) => (Ok a, w1)
    | None =>
      (Err (writeJSON status_Forbidden (JError "account does not belong to authenticated user") h), w1)
    end
  end.

Definition handleGetBalance : Handler := λ r h w,
  let userID := UserIDFromCtx r in
  match uuid_Parse (req_path_id r) with
  | None => (writeJSON status_BadRequest (JError "invalid account id") h, w)
  | Some accountID =>
    match verifyOwnership h userID accountID w with
    | (Err rep, w1) => (rep, w1)
    | (Ok account, w1) =>
      match GetBalanceReadOnly accountID w1 with
      | (Err _, w2) => (writeJSON status_InternalServerError (JError "failed to compute balance") h, w2)
      | (Ok balance, w2) =>
        (writeJSON status_OK (JBalance (mkBalanceResponse accountID (Account_Currency account)
          (dec_StringFixed balance 4))) h, w2)
      end
    end
  end.

(** The page and its size a request asks for. *)
Definition page_of (r : Request) : Z :=
  let page := parseIntParam r "page" defaultPage in
  if page <? 1 then 1 else page.

Definition per_page_of (r : Request) : Z :=
  let perPage := parseIntParam r "per_page" defaultPerPage in
  let perPage := if perPage <? 1 then defaultPerPage else perPage in
  if maxPerPage <? perPage then maxPerPage else perPage.

Definition handleGetHistory : Handler := λ r h w,
  let userID := UserIDFromCtx r in
  match uuid_Parse (req_path_id r) with
  | None => (writeJSON status_BadRequest (JError "invalid account id") h, w)
  | Some accountID =>
    match verifyOwnership h userID accountID w with
    | (Err rep, w1) => (rep, w1)
    | (Ok _, w1) =>
      let page := page_of r in
      let perPage := per_page_of r in
      let offset := int64 (int64 (page - 1) * perPage) in
      match GetTransactionHistory accountID perPage offset w1 with
      | (Err _, w2) => (writeJSON status_InternalServerError (JError "failed to fetch history") h, w2)
      | (Ok (items, total), w2) =>
        let totalPages := f64_ceil_div total perPage in
        (writeJSON status_OK (JHistory (mkPaginatedHistory items total page perPage totalPages)) h, w2)
      end
    end
  end.

(** Routes. *)
Definition route_accounts (secret : string) : Handler := Protect secret handleGetAccounts.
Definition route_balance (secret : string) : Handler := Protect secret handleGetBalance.
Definition route_history (secret : string) : Handler := Protect secret handleGetHistory.

(** ** What the theorems speak of *)

Definition owns (user account : UUID) (db : DB) : Prop :=
  ∃ a, accounts db !! account = Some a ∧ Account_UserID a = user.

(** The history of an account, newest first, as the server returned the rows. *)
Definition history (rows : list TxnRow) (accountID : UUID) : list TransactionHistoryItem :=
  history_item accountID <$> merge_sort created_after rows.

(** What the query asks for: the number under a name, when there is one. *)
Definition query_number (r : Request) (key : string) : option Z :=
  match Atoi (get (req_query r) key) with (n, None) => Some n | _ => None end.

(** Pages are numbered from 1, which is also the page without a number; a page
    has 20 transactions if nothing else is asked for, and 100 at most. *)
Definition requested_page (r : Request) : Z :=
  match query_number r "page" with Some n => Z.max 1 n | None => 1 end.
Definition requested_size (r : Request) : Z :=
  match query_number r "per_page" with
  | Some n => if decide (n < 1) then 20 else Z.min n 100
  | None => 20
  end.

(** [items] is the history of the account: one item for each transaction it
    sent or received, the newest first. *)
Definition shows (id : UUID) (it : TransactionHistoryItem) (t : TxnRow) : Prop :=
  HistoryItem_FromAccountID it = txn_from_account_id t ∧ HistoryItem_ToAccountID it = txn_to_account_id t ∧
  HistoryItem_Amount it = dec_of_units (txn_amount t) ∧ HistoryItem_Status it = txn_status t ∧
  HistoryItem_IdempotencyKey it = txn_idempotency_key t ∧
  HistoryItem_CreatedAt it = txn_created_at t ∧ HistoryItem_UpdatedAt it = txn_updated_at t ∧
  (HistoryItem_Direction it = Sent ↔ txn_from_account_id t = id).

Definition is_history (db : DB) (id : UUID) (items : list TransactionHistoryItem) : Prop :=
  NoDup (HistoryItem_ID <$> items) ∧
  (∀ it, it ∈ items ↔ ∃ t, transactions db !! HistoryItem_ID it = Some t ∧
     (txn_from_account_id t = id ∨ txn_to_account_id t = id) ∧ shows id it t) ∧
  StronglySorted (λ a b, HistoryItem_CreatedAt b <= HistoryItem_CreatedAt a) items.

(** No two transactions of the account were made at the same time. *)
Definition times_differ (id : UUID) (db : DB) : Prop :=
  ∀ i j t u, transactions db !! i = Some t → transactions db !! j = Some u →
    (txn_from_account_id t = id ∨ txn_to_account_id t = id) →
    (txn_from_account_id u = id ∨ txn_to_account_id u = id) →
    txn_created_at t = txn_created_at u → i = j.

(** The page in a reply, and what it says of the number of pages. *)
Definition history_page (rep : reply) : option PaginatedHistory :=
  match rep with
  | Replied resp => match resp_body resp with JHistory p => Some p | _ => None end
  | Panicked => None
  end.
Definition page_items (rep : reply) : list TransactionHistoryItem :=
  match history_page rep with Some p => PaginatedHistory_Items p | None => [] end.

(** ** Accounts of a user *)

Lemma elem_of_accounts_of user a db :
  db_wf db → a ∈ accounts_of user db ↔ accounts db !! Account_ID a = Some a ∧ Account_UserID a = user.
Proof.
  intros Hwf. unfold accounts_of. rewrite list_elem_of_filter, list_elem_of_fmap. split.
  - intros [Hu ([id a'] & -> & Hin%elem_of_map_to_list)]. simpl in *.
    by destruct (wf_accounts _ Hwf id a' Hin) as [<- _].
  - intros [Ha Hu]. split; [done|]. exists (Account_ID a, a). by rewrite elem_of_map_to_list.
Qed.

Lemma accounts_NoDup db : db_wf db → NoDup (map_to_list (accounts db)).*2.
Proof.
  intros Hwf. apply NoDup_fmap_2_strong; [|apply NoDup_map_to_list].
  intros [i a] [j b] Hi%elem_of_map_to_list Hj%elem_of_map_to_list Hab. simpl in Hab. subst b.
  destruct (wf_accounts _ Hwf i a Hi) as [<- _]. by destruct (wf_accounts _ Hwf j a Hj) as [<- _].
Qed.

Lemma GetAccountsByUserID_ok `{!EnvLaws} user w l w' :
  GetAccountsByUserID user w = (Ok l, w') →
  l ≡ₚ accounts_of user (w_db w) ∧ StronglySorted created_before l ∧
  same_db w w' ∧ same_tx w w' ∧ same_redis w w'.
Proof.
  intros [Hq ->]%wrap_ok%db_query_ok. injection Hq as <-. split_and!; [|..|done|done|done].
  - by rewrite merge_sort_Permutation, env_scan_perm.
  - apply Sorted_StronglySorted; [|apply Sorted_merge_sort];
      unfold created_before; intros ?; lia || intros ??; lia.
Qed.

Lemma GetAccountsByUserID_frame user w :
  same_db w (GetAccountsByUserID user w).2 ∧ same_tx w (GetAccountsByUserID user w).2.
Proof.
  unfold GetAccountsByUserID, wrap, map_err, db_scan.
  match goal with |- context [db_query ?ev ?q w] =>
    pose proof (db_query_db ev q w); pose proof (db_query_tx ev q w);
    by destruct (db_query ev q w) as [[]] end.
Qed.

Lemma GetAccountsByUserID_run user w :
  no_faults → is_ok (GetAccountsByUserID user w).1 = true.
Proof.
  intros Hnf. unfold GetAccountsByUserID, wrap, map_err, db_scan. by rewrite db_query_run.
Qed.

Lemma verifyOwnership_cases `{!EnvLaws} h user id w :
  db_wf (w_db w) →
  ∃ w', same_db w w' ∧ same_tx w w' ∧
    ((∃ a, verifyOwnership h user id w = (Ok a, w') ∧ accounts (w_db w) !! id = Some a ∧ Account_UserID a = user) ∨
     (verifyOwnership h user id w =
        (Err (writeJSON 403 (JError "account does not belong to authenticated user") h), w') ∧
        ¬ owns user id (w_db w)) ∨
     (¬ no_faults ∧ verifyOwnership h user id w =
        (Err (writeJSON 500 (JError "failed to verify account ownership") h), w'))).
Proof.
  intros Hwf. unfold verifyOwnership. pose proof (GetAccountsByUserID_frame user w) as [Hd Ht].
  pose proof (GetAccountsByUserID_run user w) as Hrun.
  destruct (GetAccountsByUserID user w) as [[l|e] w1] eqn:Hg; simpl in *; exists w1.
  2:{ split_and!; [done..|]. right. right. split; [|done]. intros Hnf. by apply Hrun in Hnf. }
  apply GetAccountsByUserID_ok in Hg as (Hl & _). split_and!; [done..|].
  destruct (list_find _ l) as [[i a]|] eqn:Hf.
  - left. exists a. split; [done|]. apply list_find_Some in Hf as (Hi & Hid & _).
    apply list_elem_of_lookup_2 in Hi. rewrite Hl, elem_of_accounts_of in Hi by done. by subst.
  - right. left. split; [done|]. intros (a & Ha & Hu). apply list_find_None in Hf.
    rewrite Forall_forall in Hf. destruct (wf_accounts _ Hwf id a Ha) as [Hid _].
    apply (Hf a); [|done]. rewrite Hl, elem_of_accounts_of by done. by rewrite Hid.
Qed.

(** ** Pages *)

(** Rounding the quotient to 53 bits does not change its ceiling, for any
    number of rows below 2^46. *)
Lemma f64_ceil_div_exact a b :
  0 <= a < 2 ^ 46 → 0 < b <= 100 → f64_ceil_div a b = (a + b - 1) / b.
Proof.
  intros Ha Hb. unfold f64_ceil_div.
  assert (f64_of_int64 a = a) as ->.
  { unfold f64_of_int64. rewrite Z.abs_eq by lia. destruct (Z.ltb_spec a (2 ^ 53)); lia. }
  destruct (Z.eqb_spec a 0) as [->|Hne]; [symmetry; apply Z.div_small; lia|].
  destruct (Z.ltb_spec a b); [apply (Z.div_unique _ _ _ (a - 1)); lia|].
  set (l := Z.log2 (a / b)).
  assert (0 <= l <= 45) as Hl.
  { split; [apply Z.log2_nonneg|]. apply Z.lt_succ_r. apply Z.log2_lt_pow2.
    - apply Z.div_str_pos. lia.
    - apply Z.div_lt_upper_bound; [lia|]. change (2 ^ Z.succ 45) with (2 ^ 46). nia. }
  destruct (Z.leb_spec (52 - l) 0); [lia|].
  assert (128 <= 2 ^ (52 - l)) as Hk by (change 128 with (2 ^ 7); apply Z.pow_le_mono_r; lia).
  fold l. set (s := 2 ^ (52 - l)) in *. set (c := (a + b - 1) / b).
  assert ((c - 1) * b < a <= c * b) as Hc.
  { pose proof (Z.div_mod (a + b - 1) b ltac:(lia)). pose proof (Z.mod_pos_bound (a + b - 1) b ltac:(lia)).
    unfold c. nia. }
  set (r := nearest (a * s) b).
  assert ((c - 1) * s < r <= c * s) as Hr.
  { unfold r, nearest.
    pose proof (Z.div_mod (a * s) b ltac:(lia)) as Hdm. pose proof (Z.mod_pos_bound (a * s) b ltac:(lia)) as Hm.
    set (q := a * s / b) in *. set (m := (a * s) mod b) in *.
    assert ((c - 1) * s + 1 <= q) by nia.
    assert (q <= c * s) by nia. assert (q = c * s → m = 0) by nia.
    destruct (Z.ltb_spec (2 * m) b); [lia|].
    assert (q ≠ c * s) by lia. repeat case_match; lia. }
  assert (- r / s = - c) as ->; [|lia].
  symmetry. apply (Z.div_unique _ _ _ (c * s - r)); lia.
Qed.

(** Consecutive pages, put together. *)
Lemma concat_pages {A} (l : list A) (n k : nat) :
  concat ((λ i, take k (drop (i * k) l)) <$> seq 0 n) = take (n * k) l.
Proof.
  induction n as [|n IH]; [done|].
  rewrite seq_S, fmap_app, concat_app, IH. simpl. rewrite app_nil_r.
  replace (k + n * k)%nat with (n * k + k)%nat by lia. apply take_take_drop.
Qed.

Lemma GetTransactionHistory_run `{!EnvLaws} id limit offset w :
  no_faults →
  ∃ rows w', rows ≡ₚ history_rows id (w_db w) ∧ same_db w w' ∧ same_tx w w' ∧
    GetTransactionHistory id limit offset w =
      match limit_offset limit offset (history rows id) with
      | Ok items => (Ok (items, Z.of_nat (length (history_rows id (w_db w)))), w')
      | Err e => (Err (Errorf "get transaction history: " (ErrDriver e)), w')
      end.
Proof.
  intros Hnf. unfold GetTransactionHistory, mbind, M_bind, wrap, map_err.
  rewrite db_query_run by done. unfold db_scan. rewrite db_query_run by done. simpl.
  exists (env_scan (S (w_tick w)) _ (history_rows id (w_db w))). unfold history.
  exists (emit (EvSelect "transactions") (emit (EvSelect "transactions") w)).
  split; [apply env_scan_perm|]. destruct (limit_offset _ _ _); by split_and!.
Qed.

(** ** The page a request asks for *)

Lemma page_of_requested r : page_of r = requested_page r ∧ per_page_of r = requested_size r.
Proof.
  unfold page_of, per_page_of, requested_page, requested_size, query_number, parseIntParam.
  unfold defaultPage, defaultPerPage, maxPerPage. split.
  - case_decide as He; [rewrite He; reflexivity|]. destruct (Atoi _) as [n [e|]]; [done|].
    destruct (Z.ltb_spec n 1); lia.
  - case_decide as He; [rewrite He; reflexivity|]. destruct (Atoi _) as [n [e|]]; [done|].
    destruct (Z.ltb_spec n 1), (decide (n < 1)); try lia; [done|]. destruct (Z.ltb_spec 100 n); lia.
Qed.

Lemma requested_range r : 1 <= requested_page r < 2 ^ 63 ∧ 1 <= requested_size r <= 100.
Proof.
  unfold requested_page, requested_size, query_number.
  pose proof (Atoi_range (get (req_query r) "page")). destruct (Atoi _) as [n [e|]]; simpl in *;
    (split; [lia|]); destruct (Atoi (get (req_query r) "per_page")) as [k [e'|]]; try case_decide; lia.
Qed.

Lemma per_page_range r : 1 <= per_page_of r <= 100.
Proof. destruct (page_of_requested r) as [_ ->]. apply requested_range. Qed.

(** ** The history of an account *)

Lemma history_rows_elem id db t :
  db_wf db → t ∈ history_rows id db ↔
    transactions db !! txn_id t = Some t ∧ (txn_from_account_id t = id ∨ txn_to_account_id t = id).
Proof.
  intros Hwf. unfold history_rows. rewrite list_elem_of_filter, list_elem_of_fmap. split.
  - intros [Ht ([i t'] & -> & Hi%elem_of_map_to_list)]. simpl in *.
    by destruct (wf_transactions _ Hwf i t' Hi) as [<- _].
  - intros [Hi Ht]. split; [done|]. exists (txn_id t, t). by rewrite elem_of_map_to_list.
Qed.

Lemma history_rows_NoDup id db : db_wf db → NoDup (txn_id <$> history_rows id db).
Proof.
  intros Hwf. unfold history_rows.
  assert (txn_id <$> (map_to_list (transactions db)).*2 = (map_to_list (transactions db)).*1) as Heq.
  { rewrite <-list_fmap_compose. apply list_fmap_ext. intros k [i t] Hk%list_elem_of_lookup_2%elem_of_map_to_list.
    by destruct (wf_transactions _ Hwf i t Hk) as [<- _]. }
  eapply sublist_NoDup; [|apply fmap_sublist, sublist_filter]. rewrite Heq. apply NoDup_fst_map_to_list.
Qed.

Lemma history_item_shows id t it :
  it = history_item id t ↔ HistoryItem_ID it = txn_id t ∧ shows id it t.
Proof.
  unfold shows, history_item. split.
  - intros ->. simpl. split_and!; try done. by case_decide.
  - destruct it as [? ? ? ? ? ? ? ? d]. simpl. intros (-> & -> & -> & -> & -> & -> & -> & -> & Hd).
    f_equal. destruct d; case_decide; naive_solver.
Qed.

Lemma history_is_history id db rows :
  db_wf db → rows ≡ₚ history_rows id db → is_history db id (history rows id).
Proof.
  intros Hwf Hrows. unfold history.
  assert (merge_sort created_after rows ≡ₚ history_rows id db) as Hperm by by rewrite merge_sort_Permutation.
  split_and!.
  - rewrite <-list_fmap_compose. rewrite (list_fmap_ext _ txn_id) by done.
    rewrite Hperm. by apply history_rows_NoDup.
  - intros it. rewrite list_elem_of_fmap. setoid_rewrite Hperm. setoid_rewrite history_rows_elem; [|done].
    setoid_rewrite history_item_shows. split.
    + intros (t & (Hid & Hs) & Ht & Hof). exists t. rewrite Hid. done.
    + intros (t & Ht & Hof & Hs). destruct (wf_transactions _ Hwf _ t Ht) as [Hid _].
      exists t. rewrite Hid. split_and!; try done.
  - apply (StronglySorted_fmap _ created_after); [done|].
    apply StronglySorted_merge_sort; unfold created_after; intros ?; lia || intros ??; lia.
Qed.

(** Without ties the server has no choice. *)
Lemma history_unique id db rows rows' :
  db_wf db → times_differ id db → rows ≡ₚ history_rows id db → rows' ≡ₚ history_rows id db →
  history rows id = history rows' id.
Proof.
  intros Hwf Hdiff Hrows Hrows'. unfold history. f_equal.
  assert (Transitive created_after ∧ Total created_after) as [? ?]
    by (unfold created_after; split; intros ?; lia || intros ??; lia).
  apply (StronglySorted_unique_strong created_after);
    [|by apply StronglySorted_merge_sort..|by rewrite !merge_sort_Permutation, Hrows, Hrows'].
  intros t u. rewrite !merge_sort_Permutation, Hrows, Hrows', !history_rows_elem by done.
  unfold created_after. intros [Ht Htof] [Hu Huof] ? ?.
  assert (txn_id t = txn_id u) as Heq by (eapply Hdiff; [exact Ht|exact Hu|done|done|lia]).
  rewrite Heq in Ht. congruence.
Qed.

Lemma history_length id db rows :
  rows ≡ₚ history_rows id db → length (history rows id) = length (history_rows id db).
Proof. intros Hrows. unfold history. by rewrite length_fmap, merge_sort_Permutation, Hrows. Qed.

Lemma history_rows_size id db : (length (history_rows id db) ≤ size (transactions db))%nat.
Proof.
  unfold history_rows. rewrite <-length_map_to_list, <-(length_fmap snd). apply length_filter.
Qed.

Lemma handleGetHistory_run `{!EnvLaws} r h w id :
  no_faults → db_wf (w_db w) → uuid_Parse (req_path_id r) = Some id →
  owns (UserIDFromCtx r) id (w_db w) →
  ∃ rows w', rows ≡ₚ history_rows id (w_db w) ∧ same_db w w' ∧
    handleGetHistory r h w =
      match limit_offset (per_page_of r) (int64 (int64 (page_of r - 1) * per_page_of r)) (history rows id) with
      | Ok items =>
        let total := Z.of_nat (length (history_rows id (w_db w))) in
        (writeJSON 200 (JHistory (mkPaginatedHistory items total (page_of r) (per_page_of r)
          (f64_ceil_div total (per_page_of r)))) h, w')
      | Err _ => (writeJSON 500 (JError "failed to fetch history") h, w')
      end.
Proof.
  intros Hnf Hwf Hid Hown. unfold handleGetHistory. rewrite Hid.
  destruct (verifyOwnership_cases h (UserIDFromCtx r) id w Hwf) as (w1 & Hd & Ht & Hcases).
  destruct Hcases as [(a & -> & _)|[[_ Hno]|[Hf _]]]; [|done|done].
  destruct (GetTransactionHistory_run id (per_page_of r)
    (int64 (int64 (page_of r - 1) * per_page_of r)) w1 Hnf) as (rows & w2 & Hrows & Hd2 & _ & ->).
  unfold same_db in *. rewrite Hd in *. exists rows, w2. split; [done|]. split; [congruence|].
  by destruct (limit_offset _ _ _).
Qed.

(** ** Properties of the account endpoints *)

(** C27. The balance endpoint shows a balance to its owner only, whatever fails:
    a 200 answer is for an account of the authenticated user and carries the sum
    of its ledger with four decimals; nothing is ever changed. Without faults
    the owner gets it, anybody else 403, and an id that does not parse 400. *)
Theorem handleGetBalance_correct `{!EnvLaws} r h w :
  db_wf (w_db w) →
  let user := UserIDFromCtx r in
  ∃ rep w', handleGetBalance r h w = (rep, w') ∧ same_db w w' ∧
    (reply_status rep = Some 200 → ∃ id a, uuid_Parse (req_path_id r) = Some id ∧
       accounts (w_db w) !! id = Some a ∧ Account_UserID a = user ∧
       rep = writeJSON 200 (JBalance (mkBalanceResponse id (Account_Currency a)
         (dec_StringFixed (dec_of_units (balance id (w_db w))) 4))) h) ∧
    (no_faults → reply_status rep = Some
       match uuid_Parse (req_path_id r) with
       | None => 400
       | Some id => if bool_decide (Account_UserID <$> accounts (w_db w) !! id = Some user) then 200 else 403
       end).
Proof.
  intros Hwf user. unfold handleGetBalance.
  destruct (uuid_Parse _) as [id|]; [|by eexists _, w].
  destruct (verifyOwnership_cases h user id w Hwf) as (w1 & Hd & Ht & Hcases). fold user.
  destruct Hcases as [(a & -> & Ha & Hu)|[[-> Hno]|[Hf ->]]].
  - assert (preserves same_db (GetBalanceReadOnly id)) as Hpr
      by (unfold GetBalanceReadOnly; solve_preserves). specialize (Hpr w1).
    destruct (GetBalanceReadOnly id w1) as [[b|e] w2] eqn:Hb; unfold same_db in *; simpl in Hpr.
    + eexists _, w2. split; [done|]. split; [congruence|]. split.
      * intros _. exists id, a. split_and!; try done.
        apply wrap_ok, db_query_ok in Hb as [Hq _]. injection Hq as <-. by rewrite Hd.
      * intros _. rewrite Ha. simpl. by rewrite bool_decide_true by congruence.
    + eexists _, w2. split; [done|]. split; [congruence|]. split; [done|]. intros Hnf.
      unfold GetBalanceReadOnly, wrap, map_err in Hb. by rewrite db_query_run in Hb.
  - eexists _, w1. split; [done|]. split; [done|]. split; [done|]. intros _.
    rewrite bool_decide_false; [done|]. intros (a & Ha & Hu)%fmap_Some. apply Hno. by exists a.
  - eexists _, w1. split; [done|]. split; [done|]. split; [done|]. intros Hnf. by destruct Hf.
Qed.

(** The list of accounts is exactly that of the user, oldest first, with its
    length; nothing is ever changed, and without an identity the answer is 401. *)
Lemma handleGetAccounts_correct `{!EnvLaws} r h w :
  no_faults → db_wf (w_db w) →
  let user := UserIDFromCtx r in
  ∃ rep w', handleGetAccounts r h w = (rep, w') ∧ same_db w w' ∧
    if decide (user = uuid_Nil) then rep = writeJSON 401 (JError "not authenticated") h
    else ∃ l, rep = writeJSON 200 (JAccounts l (Z.of_nat (length l))) h ∧
      NoDup l ∧ StronglySorted created_before l ∧
      ∀ a, a ∈ l ↔ accounts (w_db w) !! Account_ID a = Some a ∧ Account_UserID a = user.
Proof.
  intros Hnf Hwf user. unfold handleGetAccounts. fold user. case_decide; [by eexists _, w|].
  pose proof (GetAccountsByUserID_run user w Hnf) as Hok.
  destruct (GetAccountsByUserID user w) as [[l|] w'] eqn:Hg; [|done].
  apply GetAccountsByUserID_ok in Hg as (Hl & Hs & Hd & _).
  eexists _, w'. split; [done|]. split; [done|]. exists l. split_and!; [done| |done|].
  - rewrite Hl. apply NoDup_filter, accounts_NoDup, Hwf.
  - intros a. rewrite Hl. by apply elem_of_accounts_of.
Qed.

(** The answer to the owner, offset and pages in plain arithmetic. *)
Lemma handleGetHistory_answer `{!EnvLaws} r h w id :
  no_faults → db_wf (w_db w) → uuid_Parse (req_path_id r) = Some id →
  owns (UserIDFromCtx r) id (w_db w) → Z.of_nat (size (transactions (w_db w))) < 2 ^ 46 →
  let p := requested_page r in
  let n := requested_size r in
  let offset := ((p - 1) * n) mod 2 ^ 64 in
  let total := Z.of_nat (length (history_rows id (w_db w))) in
  ∃ rows w', rows ≡ₚ history_rows id (w_db w) ∧ same_db w w' ∧
    handleGetHistory r h w =
      if offset <? 2 ^ 63
      then (writeJSON 200 (JHistory (mkPaginatedHistory
              (take (Z.to_nat n) (drop (Z.to_nat offset) (history rows id))) total p n ((total + n - 1) / n))) h, w')
      else (writeJSON 500 (JError "failed to fetch history") h, w').
Proof.
  intros Hnf Hwf Hid Hown Hsize p n offset total.
  destruct (handleGetHistory_run r h w id Hnf Hwf Hid Hown) as (rows & w' & Hrows & Hd & Hrun).
  destruct (page_of_requested r) as [Hp Hn]. destruct (requested_range r) as [Hpr Hnr].
  rewrite Hp, Hn in Hrun. fold p n in Hrun, Hpr, Hnr. exists rows, w'. split; [done|]. split; [done|].
  rewrite Hrun. pose proof (history_rows_size id (w_db w)).
  rewrite (int64_id (p - 1)) by lia. rewrite int64_mod. fold offset.
  pose proof (Z.mod_pos_bound ((p - 1) * n) (2 ^ 64) ltac:(done)). unfold limit_offset.
  destruct (Z.ltb_spec n 0); [lia|]. destruct (Z.ltb_spec offset (2 ^ 63)); simpl.
  - destruct (Z.ltb_spec offset 0); [lia|]. simpl. by rewrite f64_ceil_div_exact by lia.
  - by destruct (Z.ltb_spec (offset - 2 ^ 64) 0); [|lia].
Qed.

(** [k] pages of [n] hold [total] items, and no fewer pages do. *)
Lemma pages_needed total n :
  0 <= total → 1 <= n → let k := (total + n - 1) / n in (k - 1) * n < total <= k * n ∨ total = 0 ∧ k = 0.
Proof.
  intros Ht Hn k. pose proof (Z.div_mod (total + n - 1) n ltac:(lia)).
  pose proof (Z.mod_pos_bound (total + n - 1) n ltac:(lia)). unfold k.
  destruct (decide (total = 0)) as [->|Hne]; [right|left; nia].
  split; [done|]. apply Z.div_small. lia.
Qed.

(** A page of a history without ties. *)
Lemma page_reply `{!EnvLaws} db id n pages r h w :
  no_faults → db_wf db → times_differ id db → Z.of_nat (size (transactions db)) < 2 ^ 46 →
  w_db w = db → uuid_Parse (req_path_id r) = Some id → owns (UserIDFromCtx r) id db → requested_size r = n →
  pages = (Z.of_nat (length (history_rows id db)) + n - 1) / n → requested_page r <= pages →
  let rep := (handleGetHistory r h w).1 in
  reply_status rep = Some 200 ∧ PaginatedHistory_TotalPages <$> history_page rep = Some pages ∧
  page_items rep = take (Z.to_nat n)
    (drop (Z.to_nat (requested_page r - 1) * Z.to_nat n) (history (history_rows id db) id)).
Proof.
  intros Hnf Hwf Hdiff Hsize <- Hid Hown <- -> Hp.
  destruct (handleGetHistory_answer r h w id Hnf Hwf Hid Hown Hsize) as (rows & w' & Hrows & _ & ->).
  destruct (requested_range r) as [Hpr Hnr]. pose proof (history_rows_size id (w_db w)) as Hlen.
  set (n := requested_size r) in *. set (total := Z.of_nat (length (history_rows id (w_db w)))) in *.
  set (p := requested_page r) in *.
  assert ((p - 1) * n <= total) as Hoff.
  { destruct (pages_needed total n) as [?|[? Hk]]; [lia|lia|nia|lia]. }
  rewrite Z.mod_small by nia. destruct (Z.ltb_spec ((p - 1) * n) (2 ^ 63)); [|lia].
  split; [done|]. split; [done|]. unfold page_items. simpl.
  rewrite (history_unique id (w_db w) rows (history_rows id (w_db w))) by done.
  by rewrite Z2Nat.inj_mul by lia.
Qed.

(** C28. The history endpoint, without faults, for the owner of the account: the
    answer is the requested page, in the requested size, of the transactions the
    account sent or received, newest first, with their number and the number of
    pages they fill.  The offset of a page is its number less one times the
    size; as an int64 it wraps around at [2^64], and from [2^63] on it is
    negative and refused with 500. *)
Theorem handleGetHistory_correct `{!EnvLaws} r h w id :
  no_faults → db_wf (w_db w) → uuid_Parse (req_path_id r) = Some id →
  owns (UserIDFromCtx r) id (w_db w) → Z.of_nat (size (transactions (w_db w))) < 2 ^ 46 →
  let p := requested_page r in
  let n := requested_size r in
  let offset := ((p - 1) * n) mod 2 ^ 64 in
  ∃ items resp w', is_history (w_db w) id items ∧ same_db w w' ∧
    handleGetHistory r h w = (Replied resp, w') ∧
    (offset < 2 ^ 63 → resp_status resp = 200 ∧ ∃ pages,
       resp_body resp = JHistory (mkPaginatedHistory (take (Z.to_nat n) (drop (Z.to_nat offset) items))
         (Z.of_nat (length items)) p n pages) ∧
       ((pages - 1) * n < Z.of_nat (length items) <= pages * n ∨ items = [] ∧ pages = 0)) ∧
    (2 ^ 63 <= offset → resp_status resp = 500 ∧ resp_body resp = JError "failed to fetch history").
Proof.
  intros Hnf Hwf Hid Hown Hsize p n offset.
  destruct (handleGetHistory_answer r h w id Hnf Hwf Hid Hown Hsize) as (rows & w' & Hrows & Hd & Hrun).
  fold p n offset in Hrun. destruct (requested_range r) as [_ Hnr]. fold n in Hnr.
  exists (history rows id). rewrite Hrun, (history_length _ _ _ Hrows).
  destruct (Z.ltb_spec offset (2 ^ 63)); eexists _, w'; (split; [by apply history_is_history|]);
    (split; [done|]); (split; [reflexivity|]); (split; intros ?; [|lia || done]); [|lia].
  split; [done|]. eexists. split; [reflexivity|].
  destruct (pages_needed (Z.of_nat (length (history_rows id (w_db w)))) n) as [?|[He Hk]]; [lia..|by left|right].
  split; [|done]. apply nil_length_inv. rewrite (history_length _ _ _ Hrows). lia.
Qed.

(** C29. The pages cover the history: the owner who asks for page 1, page 2 and so
    on, in one size and up to the number of pages the answers report, while the
    tables stay as they are, gets answers that, put together, show every
    transaction of the account exactly once, the newest first; provided no two
    of them were made at the same time, for which the order is left open and may
    differ from one request to the next. *)
Theorem pages_cover_history `{!EnvLaws} db id n :
  no_faults → db_wf db → times_differ id db → Z.of_nat (size (transactions db)) < 2 ^ 46 → 1 <= n <= 100 →
  ∃ items pages, is_history db id items ∧
  ∀ reqs : list (Request * Header * World),
    Forall (λ q, w_db q.2 = db ∧ uuid_Parse (req_path_id q.1.1) = Some id ∧
      owns (UserIDFromCtx q.1.1) id db ∧ requested_size q.1.1 = n) reqs →
    (requested_page ∘ fst ∘ fst) <$> reqs = seqZ 1 pages →
    let replies := (λ q, (handleGetHistory q.1.1 q.1.2 q.2).1) <$> reqs in
    Forall (λ rep, reply_status rep = Some 200 ∧
      PaginatedHistory_TotalPages <$> history_page rep = Some pages) replies ∧
    concat (page_items <$> replies) = items.
Proof.
  intros Hnf Hwf Hdiff Hsize Hn. set (items := history (history_rows id db) id).
  set (pages := (Z.of_nat (length (history_rows id db)) + n - 1) / n).
  exists items, pages. split; [by apply history_is_history|]. intros reqs Hreqs Hpages replies.
  assert (∀ q, q ∈ reqs → reply_status (handleGetHistory q.1.1 q.1.2 q.2).1 = Some 200 ∧
    PaginatedHistory_TotalPages <$> history_page (handleGetHistory q.1.1 q.1.2 q.2).1 = Some pages ∧
    page_items (handleGetHistory q.1.1 q.1.2 q.2).1 =
      take (Z.to_nat n) (drop (Z.to_nat (requested_page q.1.1 - 1) * Z.to_nat n) items)) as Hq.
  { intros q Hin. rewrite Forall_forall in Hreqs. destruct (Hreqs q Hin) as (Hdb & Hid & Hown & Hs).
    assert (requested_page q.1.1 ∈ seqZ 1 pages) as Hp%elem_of_seqZ.
    { rewrite <-Hpages. apply list_elem_of_fmap. by exists q. }
    apply (page_reply db); try done. lia. }
  split.
  - apply Forall_fmap, Forall_forall. intros q Hin. simpl. by destruct (Hq q Hin) as (? & ? & _).
  - transitivity (concat ((λ p, take (Z.to_nat n) (drop (Z.to_nat (p - 1) * Z.to_nat n) items)) <$> seqZ 1 pages)).
    + rewrite <-Hpages. unfold replies. rewrite <-!list_fmap_compose. f_equal.
      apply list_fmap_ext. intros i q Hi%list_elem_of_lookup_2. simpl. by apply Hq.
    + unfold seqZ. rewrite <-list_fmap_compose.
      rewrite (list_fmap_ext _ (λ i, take (Z.to_nat n) (drop (i * Z.to_nat n) items))).
      2:{ intros i j _. simpl. do 3 f_equal. lia. }
      rewrite concat_pages. apply take_ge. unfold items. rewrite (history_length id db) by done.
      destruct (pages_needed (Z.of_nat (length (history_rows id db))) n) as [Hb|[Hz _]]; [lia..| |lia].
      fold pages in Hb. nia.
Qed.

End account_handler.
