(* ===== verification/Server.v ===== *)
(** * Server: the routes of the program ([cmd/api/main.go])

    [main] mounts every endpoint with its middleware; [mux] is that table, and
    [serve_http] a session of the server, one request after the other.  What
    holds of each service holds of the server: no request from the network,
    however it fails, disturbs the books or makes money. *)

From S2P Require Import Prelude Platform Errs Model Database GoM Pipeline Store Books Schema Transfer Funding Http.
From S2P Require Import RateLimit Token AuthMiddleware Auth Handlers AccountHandler.
From stdpp Require Import pretty.
#[local] Open Scope Z_scope.

Section server.
Context `{UuidLib} `{DecimalLib} `{RedisServer} `{!Env} `{!JwtLib} `{BcryptLib} `{!DriverText}.

(** The patterns the multiplexer knows. *)
Inductive endpoint :=
| GetHealth
| PostRegister
| PostLogin
| PostLogout
| PostTransfers
| PostFund
| GetAccounts
| GetAccountBalance
| GetAccountHistory.

(** The health check [main] defines in place. *)
Definition route_health : Handler := λ _ h w,
  (Replied (mkResponse status_OK (header_Set "Content-Type" "application/json" h) JHealth), w).

Definition mux (secret : string) (secure : bool) (ep : endpoint) : Handler :=
  match ep with
  | GetHealth => route_health
  | PostRegister => route_register secret secure
  | PostLogin => route_login secret secure
  | PostLogout => route_logout
  | PostTransfers => route_transfers secret
  | PostFund => route_fund secret
  | GetAccounts => route_accounts secret
  | GetAccountBalance => route_balance secret
  | GetAccountHistory => route_history secret
  end.

(** A session: requests in the order the server takes them. *)
Fixpoint serve_http (secret : string) (secure : bool) (reqs : list (endpoint * Request)) (w : World)
    : list reply * World :=
  match reqs with
  | [] => ([], w)
  | (ep, r) :: reqs' =>
    let '(rep, w1) := mux secret secure ep r no_header w in
    let '(reps, w2) := serve_http secret secure reqs' w1 in
    (rep :: reps, w2)
  end.

(** ** What the theorems speak of *)

(** No user became a system user, once there was a user. *)
Definition no_new_system_user (db db' : DB) : Prop :=
  users db ≠ ∅ → ∀ id u, users db' !! id = Some u → User_IsSystemUser u = true → users db !! id = Some u.

(** From [w] to [w'] the books stayed in order, no money was made or lost, and
    rows were only added. *)
Definition orderly (w w' : World) : Prop :=
  w_tx w = None → books (w_db w) →
  w_tx w' = None ∧ books (w_db w') ∧ total_balance (w_db w') = total_balance (w_db w) ∧
  extends (w_db w) (w_db w') ∧ no_new_system_user (w_db w) (w_db w').

#[global] Instance orderly_preorder : PreOrder orderly.
Proof.
  split.
  - intros w Htx Hb. split_and!; [done..|by intros _ id u Hu _].
  - intros w1 w2 w3 H12 H23 Htx Hb. destruct (H12 Htx Hb) as (Htx2 & Hb2 & Ht2 & He2 & Hn2).
    destruct (H23 Htx2 Hb2) as (Htx3 & Hb3 & Ht3 & He3 & Hn3).
    split_and!; [done|done|congruence|by etrans|]. intros Hne id u Hu Hsys. apply Hn2; [done| |done].
    apply Hn3; [|done..]. intros Hemp. apply Hne. destruct He2 as [Hsub _]. rewrite Hemp in Hsub.
    apply map_empty. intros i. destruct (users (w_db w1) !! i) as [x|] eqn:Hi; [|done].
    by apply (lookup_weaken _ _ _ _ Hi) in Hsub.
Qed.

Definition orderly_handler (hd : Handler) : Prop := ∀ r h w, orderly w (hd r h w).2.

(** The tables and the transaction are as they were. *)
Definition idle (w w' : World) : Prop := same_db w w' ∧ same_tx w w'.

#[global] Instance idle_preorder : PreOrder idle.
Proof. unfold idle, same_db, same_tx. split; [done|]. intros w1 w2 w3 [] []. split; congruence. Qed.

(** ** Calls that only read *)

Lemma idle_orderly w w' : idle w w' → orderly w w'.
Proof.
  intros [Hd Ht] Htx Hb. unfold same_db, same_tx in *. rewrite Hd, Ht.
  split_and!; [done..|by intros _ id u Hu _].
Qed.

Lemma preserves_idle {A} (m : M A) w : preserves same_db m → preserves same_tx m → idle w (m w).2.
Proof. intros Hd Ht. split; [apply Hd|apply Ht]. Qed.

Lemma ValidateToken_idle secret tok w r w' : ValidateToken secret tok w = (r, w') → idle w w'.
Proof.
  unfold ValidateToken, mbind, M_bind; simpl. destruct (jwt_Parse _ _ _); intros Hr; by injection Hr as _ <-.
Qed.

Lemma Protect_orderly secret next : orderly_handler next → orderly_handler (Protect secret next).
Proof.
  intros Hnext r h w. unfold Protect. destruct (req_cookies r !! cookieName) as [cookie|]; [|done].
  destruct (ValidateToken secret cookie w) as [[c|e] w1] eqn:Hv; apply ValidateToken_idle in Hv;
    [|by apply idle_orderly].
  destruct (IsBlacklisted_frame (Claims_ID c) w1) as (Hd & Ht & _).
  destruct (IsBlacklisted (Claims_ID c) w1) as [b w2] eqn:Hb.
  assert (idle w w2) as Hw2 by (etrans; [exact Hv|]; done).
  destruct b as [[]|e]; [by apply idle_orderly| |by apply idle_orderly].
  destruct (isAccountFrozen_frame (Claims_UserID c) w2) as (Hd2 & Ht2 & _).
  destruct (isAccountFrozen (Claims_UserID c) w2) as [f w3].
  assert (idle w w3) as Hw3 by (etrans; [exact Hw2|]; done).
  destruct f as [[]|e]; [by apply idle_orderly| |by apply idle_orderly].
  etrans; [by apply idle_orderly|]. apply Hnext.
Qed.

(** The limiter answers itself, or calls the handler behind in a world with the
    same tables. *)
Lemma Limit_passes cfg route next r h w :
  ∃ w1, idle w w1 ∧
    ((Limit cfg route next r h w).2 = w1 ∨ ∃ h1, Limit cfg route next r h w = next r h1 w1).
Proof.
  destruct (Limit_follows_check cfg route next r h w) as (Hd & Ht & Hc).
  destruct (check _ _ _ _ _ _) as [[[[] remaining]|e] w1]; exists w1; (split; [done|]).
  - destruct Hc as (h1 & _ & _ & ->). eauto.
  - destruct Hc as (resp & _ & _ & _ & ->). by left.
  - rewrite Hc. eauto.
Qed.

Lemma Limit_orderly cfg route next : orderly_handler next → orderly_handler (Limit cfg route next).
Proof.
  intros Hnext r h w. destruct (Limit_passes cfg route next r h w) as (w1 & Hw1%idle_orderly & [-> | [h1 ->]]);
    [done|]. etrans; [exact Hw1|apply Hnext].
Qed.

(** ** The endpoints *)

Lemma same_users_no_new db db' : users db' = users db → no_new_system_user db db'.
Proof. intros Hu _ id u Hl _. by rewrite <-Hu. Qed.

Lemma TransferFunds_orderly `{!DecimalLaws} req w : orderly w (TransferFunds req w).2.
Proof.
  intros Htx Hb. pose proof (TransferFunds_in_order req w Htx Hb) as [Hb' Ht'].
  destruct (TransferFunds req w) as [res w'] eqn:Hr. pose proof (TransferFunds_cases _ _ _ _ Htx Hr) as [Htx' Ho].
  assert (extends (w_db w) (w_db w') ∧ users (w_db w') = users (w_db w)) as [He Hu].
  { destruct Ho as [(e & _ & ->)|(txnID & (n & _ & Hs) & _)]; [done|].
    split; [by eapply transfer_step_extends|].
    destruct Hs as (_ & _ & _ & _ & _ & _ & _ & debitID & creditID & now & _ & _ & _ & ->). done. }
  split_and!; [done..|by apply same_users_no_new].
Qed.

Lemma handleTransfer_orderly `{!DecimalLaws} : orderly_handler handleTransfer.
Proof.
  intros r h w. unfold handleTransfer. destruct (body_transfer _) as [req|]; [|done].
  pose proof (TransferFunds_orderly req w) as Ho. by destruct (TransferFunds req w) as [[] w'].
Qed.

Lemma register_effect_extends req db ou acct db' :
  register_effect req db ou acct db' → extends db db' ∧ no_new_system_user db db'.
Proof.
  assert (∀ u now, user_for req u db → extends db (with_user u now db) ∧
    no_new_system_user db (with_user u now db)) as Hu.
  { intros u now (n & id & hash & _ & -> & Hid & _). split.
    - by apply extends_users, insert_subseteq.
    - intros Hne id' u' Hu' Hsys. simpl in Hu'. rewrite bool_decide_false in Hu' by done.
      apply lookup_insert_Some in Hu' as [[_ <-]|[_ Hu']]; done. }
  intros [|u now Hfor|u now acctID now' Hfor Hacct].
  - split; [done|by intros _ id u Hu' _].
  - by apply Hu.
  - destruct (Hu u now Hfor) as [He Hn]. split; [|done]. etrans; [exact He|].
    by apply extends_accounts, insert_subseteq.
Qed.

Lemma handleRegister_orderly secret secure : orderly_handler (handleRegister secret secure).
Proof.
  intros r h w Htx Hb. unfold handleRegister. destruct (body_register _) as [req|]; [|by apply orderly_preorder].
  pose proof (Register_keeps_books secret req w Htx Hb) as (Htx' & Hb' & _ & _ & Ht').
  destruct (Register secret req w) as [res w'] eqn:Hr.
  pose proof (Register_cases secret req w res w' Htx Hr) as (_ & ou & acct & He & _).
  apply register_effect_extends in He as [He Hn]. by destruct res.
Qed.

Lemma Login_idle secret req w : idle w (Login secret req w).2.
Proof.
  destruct GetUser_frames as (Hd & Ht & _).
  assert (∀ id n sys, preserves same_db (IssueToken secret id n sys)) as Hid
    by (intros id n sys w'; apply IssueToken_frame).
  assert (∀ id n sys, preserves same_tx (IssueToken secret id n sys)) as Hit
    by (intros id n sys w'; apply IssueToken_frame).
  apply preserves_idle; unfold Login; solve_preserves.
Qed.

Lemma handleLogin_idle secret secure r h w : idle w (handleLogin secret secure r h w).2.
Proof.
  unfold handleLogin. destruct (body_login _) as [req|]; [|done].
  pose proof (Login_idle secret req w) as Hl. by destruct (Login secret req w) as [[] w'].
Qed.

Lemma account_reads_idle :
  (∀ u w, idle w (GetAccountsByUserID u w).2) ∧ (∀ id w, idle w (GetBalanceReadOnly id w).2) ∧
  (∀ id l o w, idle w (GetTransactionHistory id l o w).2).
Proof.
  split_and!; intros; apply preserves_idle;
    unfold GetAccountsByUserID, GetBalanceReadOnly, GetTransactionHistory; solve_preserves.
Qed.

Lemma verifyOwnership_idle h u id w : idle w (verifyOwnership h u id w).2.
Proof.
  destruct account_reads_idle as (Ha & _ & _). specialize (Ha u w). unfold verifyOwnership.
  destruct (GetAccountsByUserID u w) as [[l|e] w1]; [|done]. by destruct (list_find _ l) as [[]|].
Qed.

Lemma account_handlers_idle r h w :
  idle w (handleGetAccounts r h w).2 ∧ idle w (handleGetBalance r h w).2 ∧ idle w (handleGetHistory r h w).2.
Proof.
  destruct account_reads_idle as (Ha & Hb & Hh). split_and!.
  - unfold handleGetAccounts. case_decide; [done|]. specialize (Ha (UserIDFromCtx r) w).
    by destruct (GetAccountsByUserID _ w) as [[] w1].
  - unfold handleGetBalance. destruct (uuid_Parse _) as [id|]; [|done].
    pose proof (verifyOwnership_idle h (UserIDFromCtx r) id w) as Hv.
    destruct (verifyOwnership _ _ _ w) as [[a|rep] w1]; [|done]. etrans; [exact Hv|].
    specialize (Hb id w1). by destruct (GetBalanceReadOnly id w1) as [[] w2].
  - unfold handleGetHistory. destruct (uuid_Parse _) as [id|]; [|done].
    pose proof (verifyOwnership_idle h (UserIDFromCtx r) id w) as Hv.
    destruct (verifyOwnership _ _ _ w) as [[a|rep] w1]; [|done]. etrans; [exact Hv|].
    match goal with |- context [GetTransactionHistory id ?l ?o w1] => specialize (Hh id l o w1) end.
    by destruct (GetTransactionHistory _ _ _ w1) as [[[] |] w2].
Qed.

Lemma mux_orderly `{!DecimalLaws} secret secure ep r h w :
  from_network r → orderly w (mux secret secure ep r h w).2.
Proof.
  intros Hnet. destruct ep; simpl.
  - done.
  - apply Limit_orderly, handleRegister_orderly.
  - apply Limit_orderly. intros ???. apply idle_orderly, handleLogin_idle.
  - destruct (logout_route_idle r h w Hnet) as [-> _]. done.
  - apply Limit_orderly, Protect_orderly, handleTransfer_orderly.
  - by rewrite fund_route_refuses.
  - apply Protect_orderly. intros ???. apply idle_orderly, account_handlers_idle.
  - apply Protect_orderly. intros ???. apply idle_orderly, account_handlers_idle.
  - apply Protect_orderly. intros ???. apply idle_orderly, account_handlers_idle.
Qed.

(** A session is orderly. *)
Lemma serve_http_orderly `{!DecimalLaws} secret secure reqs w :
  Forall (λ p, from_network p.2) reqs → orderly w (serve_http secret secure reqs w).2.
Proof.
  intros Hnet. revert w. induction Hnet as [|[ep r] reqs Hr _ IH]; intros w; simpl; [done|].
  pose proof (mux_orderly secret secure ep r no_header w Hr) as Hstep.
  destruct (mux _ _ _ _ _ w) as [rep w1]. specialize (IH w1).
  destruct (serve_http _ _ reqs w1) as [reps w2]. by etrans.
Qed.

(** C6. The server keeps the books: over any session of requests from the
    network to any endpoints, by anybody and whatever fails, the constraints of
    the schema hold, no account is overdrawn, every transaction is posted once,
    no transaction is left open, and not a unit of money is made or lost. *)
Theorem server_keeps_books `{!DecimalLaws} secret secure reqs w :
  Forall (λ p, from_network p.2) reqs → w_tx w = None → books (w_db w) →
  let w' := (serve_http secret secure reqs w).2 in
  w_tx w' = None ∧ books (w_db w') ∧ total_balance (w_db w') = total_balance (w_db w).
Proof.
  intros Hnet Htx Hb. destruct (serve_http_orderly secret secure reqs w Hnet Htx Hb) as (? & ? & ? & _). done.
Qed.

(** C8. The history is append-only: over any session, whatever fails, no row of
    any table is changed or removed, rows are only added, the ledger at its end;
    and once there is a user no registration makes a system user. *)
Theorem server_appends_only `{!DecimalLaws} secret secure reqs w :
  Forall (λ p, from_network p.2) reqs → w_tx w = None → books (w_db w) →
  let db' := w_db (serve_http secret secure reqs w).2 in
  extends (w_db w) db' ∧
  (users (w_db w) ≠ ∅ →
   ∀ id u, users db' !! id = Some u → User_IsSystemUser u = true → users (w_db w) !! id = Some u).
Proof.
  intros Hnet Htx Hb. destruct (serve_http_orderly secret secure reqs w Hnet Htx Hb) as (_ & _ & _ & ? & ?). done.
Qed.

(** C7. From the migration on, the bank stays without money: over any session on
    the tables the schema sets up, whatever the requests and whatever fails, no
    account ever has a balance, and the seed's user is the only system user;
    the one operation that makes money cannot be reached. *)
Theorem migrated_bank_stays_empty `{!DecimalLaws} secret secure reqs w id now :
  Forall (λ p, from_network p.2) reqs → w_tx w = None → migrate id now = Ok (w_db w) →
  let db' := w_db (serve_http secret secure reqs w).2 in
  (∀ acct, is_Some (accounts db' !! acct) → balance acct db' = 0) ∧
  (∀ i u, users db' !! i = Some u → User_IsSystemUser u = true → i = id).
Proof.
  intros Hnet Htx Hm db'. destruct (migrate_ok id now) as (db & Hm' & Hb & Hu & _ & Hl).
  rewrite Hm' in Hm. injection Hm as ->.
  destruct (serve_http_orderly secret secure reqs w Hnet Htx Hb) as (_ & Hb' & Ht & _ & Hn).
  assert (total_balance (w_db w) = 0) as Hzero.
  { rewrite <-total_supply_balances by apply Hb. unfold total_supply. by rewrite Hl. }
  split.
  - intros acct [a Hacct]. rewrite Hzero in Ht. pose proof (books_solvent _ Hb') as Hs.
    apply (Zsum_zero (λ i, balance i db') (map_to_list (accounts db')).*1); [done|exact Ht|].
    apply list_elem_of_fmap. exists (acct, a). split; [done|]. by apply elem_of_map_to_list.
  - intros i u Hi Hsys. assert (users (w_db w) !! i = Some u) as Hw.
    { apply Hn; [rewrite Hu; apply insert_non_empty|done|done]. }
    rewrite Hu in Hw. by apply lookup_singleton_Some in Hw as [-> _].
Qed.

Lemma Protect_reads `{!RedisLaws, !EnvLaws} secret next r h w :
  (∀ r h w, idle w (next r h w).2) → idle w (Protect secret next r h w).2.
Proof.
  intros Hnext. destruct (Protect_cases secret next r h w)
    as (w' & Hd & Ht & _ & [(c & cookie & _ & _ & _ & _ & _ & ->)|(status & msg & _ & ->)]); [|done].
  assert (idle w w') as Hw by done. etrans; [exact Hw|apply Hnext].
Qed.

(** A request that passes the limiter finds the blacklist as it was. *)
Lemma Limit_keeps_blacklist `{!RedisLaws, !EnvLaws} cfg route next r h w :
  0 <= Window cfg →
  ∃ w1, idle w w1 ∧ tick_grows (advance w) w1 ∧
    (∀ t jti, w_now w1 <= t →
      redis_view (w_redis w1) t (blacklist_key jti) = redis_view (w_redis w) t (blacklist_key jti)) ∧
    ((Limit cfg route next r h w).2 = w1 ∨ ∃ h1, Limit cfg route next r h w = next r h1 w1).
Proof.
  intros HW. destruct (Limit_follows_check cfg route next r h w) as (Hd & Ht & Hc).
  destruct (check_leaves_others cfg (limit_key (extractIP r) route) (pretty (w_now w)) (w_now w - Window cfg)
    (w_now w) HW (advance w)) as [Hg Hv].
  destruct (check _ _ _ _ _ _) as [[[[] remaining]|e] w1]; exists w1; (split; [done|]); (split; [done|]);
    (split; [intros t jti; by apply Hv|]).
  - destruct Hc as (h1 & _ & _ & ->). eauto.
  - destruct Hc as (resp & _ & _ & _ & ->). by left.
  - rewrite Hc. eauto.
Qed.

Lemma handleTransfer_tick r h w : tick_grows w (handleTransfer r h w).2.
Proof.
  unfold handleTransfer. destruct (body_transfer _) as [req|]; [|done].
  pose proof (TransferFunds_tick req w) as Ht. by destruct (TransferFunds req w) as [[] w1].
Qed.

(** C14. Only two kinds of requests from the network can change a table,
    whatever fails: registrations, and transfers that carry a token which
    parses, whose id is not in the blacklist, and which belongs to a user
    without frozen accounts; the two are as they were when the request arrived,
    at moments between its arrival and its answer. *)
Theorem changes_need_session `{!RedisLaws, !EnvLaws} secret secure ep r h w :
  let w' := (mux secret secure ep r h w).2 in
  from_network r → w_db w' ≠ w_db w →
  ep = PostRegister ∨
  ep = PostTransfers ∧ ∃ cookie c t1 t2,
    w_now w <= t1 ∧ t1 <= t2 ∧ t2 <= w_now w' ∧
    req_cookies r !! cookieName = Some cookie ∧ jwt_Parse secret t1 cookie = Ok c ∧
    redis_view (w_redis w) t2 (blacklist_key (Claims_ID c)) = None ∧
    frozen_accounts (Claims_UserID c) (w_db w) = [].
Proof.
  intros w' Hnet Hdb. subst w'. destruct ep; simpl in Hdb; [done|by left|..].
  - exfalso. apply Hdb. unfold route_login.
    destruct (Limit_passes main_limits "auth:login" (handleLogin secret secure) r h w)
      as (w1 & [Hd _] & [-> | [h1 ->]]); [done|]. rewrite <-Hd. apply handleLogin_idle.
  - destruct (logout_route_idle r h w Hnet) as [Heq _]. by rewrite Heq in Hdb.
  - right. split; [done|]. unfold mux, route_transfers in *.
    destruct (Limit_keeps_blacklist main_limits "transfers" (Protect secret handleTransfer) r h w)
      as (w1 & [Hd _] & Hg & Hv & [Heq|[h1 Heq]]); [done|by rewrite Heq in Hdb|]. rewrite Heq in *.
    destruct (Protect_cases secret handleTransfer r h1 w1)
      as (w2 & Hd2 & _ & _ & [(c & cookie & Hc & Hp & Hbl & Hfz & Hg2 & Hrun)|(status & msg & _ & Hp)]).
    + exists cookie, c, (w_now w1), (w_now (advance w1)). rewrite Hrun.
      pose proof (handleTransfer_tick (identified c r) h1 w2) as Hg3. unfold same_db, tick_grows in *. simpl in *.
      rewrite <-Hv, <-Hd by (apply env_now_mono; simpl; lia).
      split_and!; try done; apply env_now_mono; simpl; lia.
    + rewrite Hp in Hdb. unfold same_db in *. simpl in Hdb. congruence.
  - by rewrite fund_route_refuses in Hdb.
  - exfalso. apply Hdb. apply Protect_reads. intros ???. apply account_handlers_idle.
  - exfalso. apply Hdb. apply Protect_reads. intros ???. apply account_handlers_idle.
  - exfalso. apply Hdb. apply Protect_reads. intros ???. apply account_handlers_idle.
Qed.

End server.
