(* ===== verification/Replies.v ===== *)
(** * Replies: what every endpoint answers with

    The type of the API: for each endpoint the body of a success with its
    status, the statuses of errors, and the content type.  It holds of every
    reply to every request, whatever fails. *)

From S2P Require Import Prelude Platform Errs Model Database GoM Store Books Schema Transfer Funding Http.
From S2P Require Import RateLimit Token AuthMiddleware Auth Handlers AccountHandler Server.
#[local] Open Scope Z_scope.

Section replies.
Context `{UuidLib} `{DecimalLib} `{RedisServer} `{!Env} `{!JwtLib} `{BcryptLib} `{!DriverText}.

(** ** The type of an endpoint *)

Definition success_typed (ep : endpoint) (status : Z) (body : json) : Prop :=
  match ep, body with
  | GetHealth, JHealth => status = 200
  | PostRegister, JUser _ _ => status = 201
  | PostLogin, JUser _ _ => status = 200
  | PostLogout, JMessage _ => status = 200
  | PostTransfers, JTransfer _ => status = 200
  | PostFund, JFund _ => status = 200
  | GetAccounts, JAccounts l n => status = 200 ∧ n = Z.of_nat (length l)
  | GetAccountBalance, JBalance _ => status = 200
  | GetAccountHistory, JHistory p =>
    status = 200 ∧ 1 <= PaginatedHistory_Page p ∧ 1 <= PaginatedHistory_PerPage p <= maxPerPage
  | _, _ => False
  end.

Definition error_statuses : list Z := [400; 401; 403; 404; 409; 422; 429; 500].

Definition reply_typed (ep : endpoint) (rep : reply) : Prop :=
  match rep with
  | Panicked => ep = PostLogout
  | Replied resp =>
    h_values (resp_header resp) !! "Content-Type"%string = Some "application/json"%string ∧
    match resp_body resp with
    | JError _ => resp_status resp ∈ error_statuses
    | body => success_typed ep (resp_status resp) body
    end
  end.

Definition handler_typed (ep : endpoint) (hd : Handler) : Prop := ∀ r h w, reply_typed ep (hd r h w).1.

(** ** Replies *)

Lemma error_typed ep status msg h : status ∈ error_statuses → reply_typed ep (writeJSON status (JError msg) h).
Proof. intros Hs. split; [apply lookup_insert_eq|done]. Qed.

Lemma success_reply ep status body h :
  success_typed ep status body → reply_typed ep (writeJSON status body h).
Proof. intros Hs. split; [apply lookup_insert_eq|]. by destruct body, ep. Qed.

Lemma mapErrorToHTTP_error e : mapErrorToHTTP e ∈ error_statuses.
Proof. unfold mapErrorToHTTP, error_statuses. repeat case_match; set_solver. Qed.

Lemma mapAuthErrorToHTTP_error e : mapAuthErrorToHTTP e ∈ error_statuses.
Proof. unfold mapAuthErrorToHTTP, error_statuses. repeat case_match; set_solver. Qed.

#[local] Hint Resolve error_typed success_reply mapErrorToHTTP_error mapAuthErrorToHTTP_error : bank.

(** Closes a reply written in place. *)
Ltac typed :=
  first [done | apply error_typed; solve [auto with bank | by apply (bool_decide_unpack _)]
        | apply success_reply; done].

Lemma page_range r : 1 <= page_of r.
Proof. unfold page_of. case_match; lia. Qed.

Lemma Protect_typed ep secret next : handler_typed ep next → handler_typed ep (Protect secret next).
Proof.
  intros Hn r h w. unfold Protect, writeAuthError.
  destruct (req_cookies r !! cookieName) as [cookie|]; [|typed].
  destruct (ValidateToken secret cookie w) as [[c|e] w1]; [|typed].
  destruct (IsBlacklisted (Claims_ID c) w1) as [[[]|e] w2]; [typed| |typed].
  destruct (isAccountFrozen (Claims_UserID c) w2) as [[[]|e] w3]; [typed|apply Hn|typed].
Qed.

Lemma Limit_typed ep cfg route next : handler_typed ep next → handler_typed ep (Limit cfg route next).
Proof.
  intros Hn r h w. unfold Limit. destruct (check _ _ _ _ _ _) as [[[[] n]|e] w1]; cbn [negb]; [apply Hn|typed|apply Hn].
Qed.

Lemma handlers_typed secret secure :
  handler_typed PostTransfers handleTransfer ∧ handler_typed PostRegister (handleRegister secret secure) ∧
  handler_typed PostLogin (handleLogin secret secure) ∧ handler_typed PostLogout handleLogout ∧
  handler_typed PostFund handleFund ∧ handler_typed GetAccounts handleGetAccounts.
Proof.
  split_and!; intros r h w.
  - unfold handleTransfer. destruct (body_transfer _) as [req|]; [|typed].
    destruct (TransferFunds req w) as [[] w1]; typed.
  - unfold handleRegister. destruct (body_register _) as [req|]; [|typed].
    destruct (Register secret req w) as [[] w1]; typed.
  - unfold handleLogin. destruct (body_login _) as [req|]; [|typed].
    destruct (Login secret req w) as [[] w1]; typed.
  - unfold handleLogout. case_decide.
    + destruct (req_cookies r !! _) as [cookie|]; [|typed]. case_match; typed.
    + destruct (Logout _ _ _) as [[] w1]; typed.
  - unfold handleFund. destruct (body_fund _) as [req|]; [|typed].
    destruct (FundAccount req _ w) as [[] w1]; typed.
  - unfold handleGetAccounts. case_decide; [typed|].
    destruct (GetAccountsByUserID _ w) as [[] w1]; typed.
Qed.

Lemma verifyOwnership_typed ep h u id w rep w1 :
  verifyOwnership h u id w = (Err rep, w1) → reply_typed ep rep.
Proof.
  unfold verifyOwnership. destruct (GetAccountsByUserID u w) as [[l|e] w2].
  - destruct (list_find _ l) as [[]|]; [done|]. intros [= <- _]. typed.
  - intros [= <- _]. typed.
Qed.

Lemma account_handlers_typed :
  handler_typed GetAccountBalance handleGetBalance ∧ handler_typed GetAccountHistory handleGetHistory.
Proof.
  split; intros r h w.
  - unfold handleGetBalance. destruct (uuid_Parse _) as [id|]; [|typed].
    destruct (verifyOwnership _ _ _ w) as [[a|rep] w1] eqn:Hv; [|by eapply verifyOwnership_typed].
    destruct (GetBalanceReadOnly id w1) as [[] w2]; typed.
  - unfold handleGetHistory. destruct (uuid_Parse _) as [id|]; [|typed].
    destruct (verifyOwnership _ _ _ w) as [[a|rep] w1] eqn:Hv; [|by eapply verifyOwnership_typed].
    destruct (GetTransactionHistory _ _ _ w1) as [[[items total]|e] w2]; [|typed].
    apply success_reply. split; [done|]. split; [apply page_range|apply per_page_range].
Qed.

Lemma requireSystemUser_typed ep next : handler_typed ep next → handler_typed ep (requireSystemUser next).
Proof.
  intros Hn r h w. unfold requireSystemUser. case_decide; [typed|].
  destruct (isSystemUserInDB _ w) as [[[]|e] w1]; cbn [negb]; [apply Hn|typed|typed].
Qed.

(** ** Properties *)

(** C10. The API is typed: whatever the request to one of the nine endpoints (the
    404 and 405 of the router are not among them) and whatever fails, every reply
    is JSON, an error carries a message under one of eight statuses, and a success
    has the status and the body of its endpoint, with a count that is the
    number of accounts and page parameters in range; only the logout endpoint
    can panic. *)
Theorem replies_typed secret secure ep r w : reply_typed ep (mux secret secure ep r no_header w).1.
Proof.
  destruct (handlers_typed secret secure) as (Ht & Hr & Hl & Ho & Hf & Ha).
  destruct account_handlers_typed as [Hb Hh].
  enough (handler_typed ep (mux secret secure ep)) as Hty by apply Hty.
  destruct ep; simpl.
  - intros r' h w'. apply success_reply. done.
  - by apply Limit_typed.
  - by apply Limit_typed.
  - done.
  - by apply Limit_typed, Protect_typed.
  - by apply requireSystemUser_typed, Protect_typed.
  - by apply Protect_typed.
  - by apply Protect_typed.
  - by apply Protect_typed.
Qed.

End replies.
