(* ===== verification/Session.v ===== *)
(** * Session: a user of the API from registration to login

    [Wire] and [Server] together: what a client that registers over JSON can
    count on, whatever requests the server serves in between. *)

From S2P Require Import Prelude Platform Errs Model Database GoM Store Books Schema Transfer Funding Http Json.
From S2P Require Import RateLimit Token AuthMiddleware Auth Handlers AccountHandler Wire Server.
#[local] Open Scope Z_scope.

Section session.
Context `{UuidLib} `{DecimalLib} `{RedisServer} `{!Env} `{!JwtLib} `{BcryptLib} `{!DriverText}.
Context `{DT : !DecimalText}.

(** The body of an answer with a user. *)
Definition welcomed (msg : string) (u : User) : jout :=
  OObject [("message", OString msg); ("user", encode_user u)]%string.

Lemma mapAuthErrorToHTTP_not_created e : mapAuthErrorToHTTP e ≠ 201.
Proof. unfold mapAuthErrorToHTTP. by repeat case_match. Qed.

Lemma call_register secret secure req members r w body w1 :
  members ≡ₚ register_members req →
  call (handleRegister secret secure) (Some (IObject members)) r w = (Some (201, body), w1) →
  ∃ resp, Register secret req w = (Ok resp, w1) ∧
    body = welcomed "registration successful" (AuthResponse_User resp).
Proof.
  intros Hm. unfold call, handleRegister. cbn [req_body with_body body_of body_register mbind option_bind].
  rewrite (decode_register_members req members Hm).
  destruct (Register secret req w) as [[resp|e] w2]; simpl; intros Hc.
  - injection Hc as <- <-. by exists resp.
  - injection Hc as He _ _. by apply mapAuthErrorToHTTP_not_created in He.
Qed.

Lemma call_login secret secure req members r w resp w1 :
  members ≡ₚ login_members req → Login secret req w = (Ok resp, w1) →
  call (handleLogin secret secure) (Some (IObject members)) r w =
    (Some (200, welcomed "login successful" (AuthResponse_User resp)), w1).
Proof.
  intros Hm Hl. unfold call, handleLogin. cbn [req_body with_body body_of body_login mbind option_bind].
  by rewrite (decode_login_members req members Hm), Hl.
Qed.

(** ** Properties *)

(** C24. Round trip: whoever was registered over JSON can log in over JSON with
    the same password and the name as its column stores it, which is the name
    that was sent when it has no more than 50 characters, after any session of
    requests to the server, and is answered with the row of the same user, in
    whatever order the members are written. *)
Theorem Register_then_Login `{!DecimalLaws, !BcryptLaws, !EnvLaws} secret secure req members r w body w1 reqs lmembers r2 :
  let name := cut 50 (RegisterRequest_Username req) in
  no_faults → w_tx w = None → books (w_db w) → (∀ c, is_ok (jwt_Sign secret c) = true) →
  members ≡ₚ register_members req →
  call (handleRegister secret secure) (Some (IObject members)) r w = (Some (201, body), w1) →
  Forall (λ p, from_network p.2) reqs →
  lmembers ≡ₚ login_members (mkLoginRequest name (RegisterRequest_Password req)) →
  let w2 := (serve_http secret secure reqs w1).2 in
  ((utf8_length (RegisterRequest_Username req) ≤ 50)%nat → name = RegisterRequest_Username req) ∧
  ∃ u now w3, body = welcomed "registration successful" u ∧
    call (handleLogin secret secure) (Some (IObject lmembers)) r2 w2 =
      (Some (200, welcomed "login successful" (user_row u now)), w3) ∧
    User_Username u = RegisterRequest_Username req ∧
    is_Some (head (accounts_of (User_ID u) (w_db w2))).
Proof.
  intros name Hnf Htx Hb Hsign Hm Hc Hnet Hlm w2. split; [apply cut_fits|].
  destruct (call_register secret secure req members r w body w1 Hm Hc) as (resp & Hr & ->).
  pose proof (Register_keeps_books secret req w Htx Hb) as (Htx1 & Hb1 & _). rewrite Hr in Htx1, Hb1.
  destruct (serve_http_orderly secret secure reqs w1 Hnet Htx1 Hb1) as (_ & Hb2 & _ & Hext & _).
  destruct (login_after_register secret req w resp w1 w2 Hnf Htx Hsign Hr Hext (books_wf _ Hb2))
    as (now & tok & w3 & Hl & Hacct).
  exists (AuthResponse_User resp), now, w3. split_and!; [done|by apply (call_login _ _ _ _ _ _ _ _ Hlm Hl)| |done].
  destruct (Register_stored secret req w resp w1 Htx Hr) as (n & id & hash & sys & ? & ? & ? & _ & -> & _). done.
Qed.

End session.
