(* ===== verification/Config.v ===== *)
(** * Config: configuration from the environment ([internal/config/config.go])

    [Load] reads the variables of the process, after a [.env] file was merged
    into them by [github.com/joho/godotenv]; the result of that is the argument
    [env] here. *)

From S2P Require Import Prelude Strconv.
#[local] Open Scope Z_scope.

Record Config := mkConfig {
  DatabaseURL : string;
  RedisURL : string;
  RedisPassword : string;
  RedisDB : Z;
  Port : string;
  cfg_Env : string;
  JWTSecret : string;
  CORSOrigin : string;
  SMTPHost : string;
  SMTPPort : string;
  SMTPUsername : string;
  SMTPPassword : string;
  SMTPFrom : string
}.

(** [os.Getenv] gives the empty string for a variable that is not set. *)
Definition getEnv (env : gmap string string) (key fallback : string) : string :=
  let v := default ""%string (env !! key) in
  if decide (v ≠ ""%string) then v else fallback.

Definition Load (env : gmap string string) : result string Config :=
  let redisDB := (Atoi (getEnv env "REDIS_DB" "0")).1 in
  let cfg := {|
    DatabaseURL := getEnv env "DATABASE_URL" "";
    RedisURL := getEnv env "REDIS_URL" "localhost:6379";
    RedisPassword := getEnv env "REDIS_PASSWORD" "";
    RedisDB := redisDB;
    Port := getEnv env "PORT" "8080";
    cfg_Env := getEnv env "ENV" "development";
    JWTSecret := getEnv env "JWT_SECRET" "change-me-in-production";
    CORSOrigin := getEnv env "CORS_ORIGIN" "http://localhost:3000";
    SMTPHost := getEnv env "SMTP_HOST" "smtp.gmail.com";
    SMTPPort := getEnv env "SMTP_PORT" "587";
    SMTPUsername := getEnv env "SMTP_USERNAME" "";
    SMTPPassword := getEnv env "SMTP_PASSWORD" "";
    SMTPFrom := getEnv env "SMTP_FROM" "noreply@thevault.dev"
  |} in
  if decide (DatabaseURL cfg = ""%string) then Err "DATABASE_URL is required"%string else Ok cfg.

(** [isSecure] of [main]. *)
Definition isSecure (cfg : Config) : bool := bool_decide (cfg_Env cfg = "production"%string).

(** ** Properties *)

(** A set variable is taken as it is; an empty one counts as unset. *)
Lemma getEnv_cases env key fallback :
  getEnv env key fallback =
    match env !! key with
    | Some v => if decide (v = ""%string) then fallback else v
    | None => fallback
    end.
Proof. unfold getEnv. destruct (env !! key) as [v|]; simpl; repeat case_decide; naive_solver. Qed.

(** Only a missing database URL is an error; the number of the Redis database is
    an int64 whatever the variable says. *)
Lemma Load_cases env :
  (∃ cfg, Load env = Ok cfg ∧ DatabaseURL cfg ≠ ""%string ∧ - 2 ^ 63 <= RedisDB cfg < 2 ^ 63) ∨
  (Load env = Err "DATABASE_URL is required"%string ∧ default ""%string (env !! "DATABASE_URL"%string) = ""%string).
Proof.
  unfold Load. cbv zeta. case_decide as Hd; simpl in Hd.
  - right. split; [done|]. rewrite getEnv_cases in Hd. destruct (env !! _) as [v|]; simpl; [|done].
    by case_decide.
  - left. eexists. split; [done|]. split; [done|]. apply Atoi_range.
Qed.

(** Without JWT_SECRET, in production too, tokens are signed with a secret that
    is in the repository. *)
Lemma Load_default_secret env cfg :
  env !! "JWT_SECRET"%string = None → Load env = Ok cfg → JWTSecret cfg = "change-me-in-production"%string.
Proof.
  intros Hno. unfold Load. cbv zeta. case_decide; [done|]. intros Hl. injection Hl as <-. simpl.
  by rewrite getEnv_cases, Hno.
Qed.
