(* ===== verification/Email.v ===== *)
(** * Email: the pool of mail workers ([internal/email/worker.go])

    Workers take jobs from a buffered channel.  The state of the pool is the
    channel, the two closed flags, and what each worker is doing; a step is one
    thing that one goroutine does.  Sending a mail takes a while and may fail;
    what is sent is in [Mail]. *)

From S2P Require Import Prelude.
#[local] Open Scope Z_scope.

(** A string type with three named values. *)
Definition JobType : Type := string.
Definition JobWelcome : JobType := "welcome".
Definition JobTransactionSuccess : JobType := "transaction_success".
Definition JobTransactionFailed : JobType := "transaction_failed".

Record Job := mkJob {
  Job_Type : JobType;
  Job_To : string;
  Job_Username : string;
  Job_ExtraData : gmap string string
}.

(** Where a worker goroutine is: at its [select], in [send], or returned. *)
Inductive worker := Selecting | Sending (job : Job) | Returned.

#[global] Instance JobType_eq_dec : EqDecision JobType.
Proof. unfold JobType. apply _. Defined.
#[global] Instance Job_eq_dec : EqDecision Job.
Proof. solve_decision. Defined.
#[global] Instance worker_eq_dec : EqDecision worker.
Proof. solve_decision. Defined.

(** [Worker]: the channel of jobs with its capacity, the closed flags of the two
    channels, and the goroutines the wait group counts. *)
Record Worker := mkWorker {
  w_jobs : list Job;
  w_queue_size : nat;
  w_jobs_closed : bool;
  w_quit_closed : bool;
  w_pool : list worker
}.

(** [NewWorker]: the pool size is not used. *)
Definition NewWorker (poolSize queueSize : nat) : Worker := mkWorker [] queueSize false false [].

(** [Start]. *)
Definition Start (poolSize : nat) (w : Worker) : Worker :=
  mkWorker (w_jobs w) (w_queue_size w) (w_jobs_closed w) (w_quit_closed w)
    (w_pool w ++ replicate poolSize Selecting).

Definition set_pool (f : list worker → list worker) (w : Worker) : Worker :=
  mkWorker (w_jobs w) (w_queue_size w) (w_jobs_closed w) (w_quit_closed w) (f (w_pool w)).
Definition set_jobs (js : list Job) (w : Worker) : Worker :=
  mkWorker js (w_queue_size w) (w_jobs_closed w) (w_quit_closed w) (w_pool w).

(** What became of a job handed to [Enqueue]; a send on the closed channel
    panics. *)
Inductive enqueued := Queued (w : Worker) | Dropped | EnqueuePanicked.

Definition Enqueue (job : Job) (w : Worker) : enqueued :=
  if w_jobs_closed w then EnqueuePanicked
  else if (length (w_jobs w) <? w_queue_size w)%nat then Queued (set_jobs (w_jobs w ++ [job]) w)
  else Dropped.

(** The two closes of [Shutdown]; it then waits for all workers to return. *)
Definition close_quit (w : Worker) : Worker :=
  mkWorker (w_jobs w) (w_queue_size w) (w_jobs_closed w) true (w_pool w).
Definition close_jobs (w : Worker) : Worker :=
  mkWorker (w_jobs w) (w_queue_size w) true (w_quit_closed w) (w_pool w).
Definition shutdown_returns (w : Worker) : Prop :=
  w_quit_closed w = true ∧ w_jobs_closed w = true ∧ Forall (λ p, p = Returned) (w_pool w).

(** What the log of a run records. *)
Inductive entry :=
| Accepted (job : Job)
| Refused (job : Job)
| Taken (job : Job)
| Attempted (job : Job) (ok : bool).

(** One iteration of [process]: a [select] with several ready cases takes any
    of them. *)
Inductive process_step : Worker → list entry → Worker → Prop :=
| process_take w i job rest :
    w_pool w !! i = Some Selecting → w_jobs w = job :: rest →
    process_step w [Taken job] (set_pool <[i := Sending job]> (set_jobs rest w))
| process_drained w i :
    w_pool w !! i = Some Selecting → w_jobs w = [] → w_jobs_closed w = true →
    process_step w [] (set_pool <[i := Returned]> w)
| process_quit w i :
    w_pool w !! i = Some Selecting → w_quit_closed w = true →
    process_step w [] (set_pool <[i := Returned]> w)
| process_sent w i job ok :
    w_pool w !! i = Some (Sending job) →
    process_step w [Attempted job ok] (set_pool <[i := Selecting]> w).

(** A run of the pool: workers, and callers of [Enqueue] and [Shutdown]. *)
Inductive pool_step : Worker → list entry → Worker → Prop :=
| pool_process w evs w' : process_step w evs w' → pool_step w evs w'
| pool_queued w job w' : Enqueue job w = Queued w' → pool_step w [Accepted job] w'
| pool_dropped w job : Enqueue job w = Dropped → pool_step w [Refused job] w
| pool_close_quit w : w_quit_closed w = false → pool_step w [] (close_quit w)
| pool_close_jobs w :
    w_quit_closed w = true → w_jobs_closed w = false → pool_step w [] (close_jobs w).

Inductive pool_run : Worker → list entry → Worker → Prop :=
| run_nil w : pool_run w [] w
| run_snoc w evs w' evs' w'' :
    pool_run w evs w' → pool_step w' evs' w'' → pool_run w (evs ++ evs') w''.

(** ** What the theorems speak of *)

Definition accepted (evs : list entry) : list Job :=
  omap (λ e, match e with Accepted j => Some j | _ => None end) evs.
Definition taken (evs : list entry) : list Job :=
  omap (λ e, match e with Taken j => Some j | _ => None end) evs.
Definition attempted (evs : list entry) : list Job :=
  omap (λ e, match e with Attempted j _ => Some j | _ => None end) evs.
Definition in_flight (w : Worker) : list Job :=
  omap (λ p, match p with Sending j => Some j | _ => None end) (w_pool w).

(** [Shutdown] has closed both channels. *)
Definition closed (w : Worker) : Prop := w_quit_closed w = true ∧ w_jobs_closed w = true.

(** The main pool: 3 workers, a queue of 100. *)
Definition main_pool : Worker := Start 3 (NewWorker 3 100).

(** Steps left to a worker, at most, after the channels were closed. *)
Definition worker_weight (p : worker) : nat :=
  match p with Selecting => 1 | Sending _ => 2 | Returned => 0 end%nat.
Definition pool_weight (w : Worker) : nat :=
  (2 * length (w_jobs w) + sum_list_with worker_weight (w_pool w))%nat.

(** ** Queue discipline *)

(** One step moves jobs from callers to the queue, from its front to a worker,
    and from a worker to the attempted ones. *)
Lemma process_step_inv w evs w' :
  process_step w evs w' →
  w_queue_size w' = w_queue_size w ∧ accepted evs = [] ∧
  w_jobs w = taken evs ++ w_jobs w' ∧ in_flight w ++ taken evs ≡ₚ attempted evs ++ in_flight w'.
Proof.
  unfold in_flight. intros Hp.
  destruct Hp as [w i job rest Hi Hj|w i Hi Hj Hc|w i Hi Hc|w i job ok Hi]; simpl;
    pose proof (omap_insert_perm (λ p, match p with Sending j => Some j | _ => None end)
      (w_pool w) i) as Hperm; split_and!; try done; rewrite ?app_nil_r.
  - specialize (Hperm _ (Sending job) Hi). simpl in Hperm. by rewrite app_nil_r in Hperm.
  - specialize (Hperm _ Returned Hi). simpl in Hperm. by rewrite !app_nil_r in Hperm.
  - specialize (Hperm _ Returned Hi). simpl in Hperm. by rewrite !app_nil_r in Hperm.
  - specialize (Hperm _ Selecting Hi). simpl in Hperm. rewrite app_nil_r in Hperm.
    rewrite <-Hperm. by rewrite Permutation_app_comm.
Qed.

Lemma pool_step_inv w evs w' :
  pool_step w evs w' →
  w_queue_size w' = w_queue_size w ∧
  ((length (w_jobs w) ≤ w_queue_size w)%nat → (length (w_jobs w') ≤ w_queue_size w)%nat) ∧
  w_jobs w ++ accepted evs = taken evs ++ w_jobs w' ∧
  in_flight w ++ taken evs ≡ₚ attempted evs ++ in_flight w'.
Proof.
  intros [w1 evs1 w2 Hp|w1 job w2 He|w1 job He|w1 Hc|w1 Hc Hc']; simpl;
    rewrite ?app_nil_r; try done.
  - destruct (process_step_inv _ _ _ Hp) as (Hq & Ha & Hj & Hm).
    rewrite Ha, app_nil_r. split_and!; try done. intros Hlen. rewrite Hj, length_app in Hlen. lia.
  - unfold Enqueue in He. destruct (w_jobs_closed w1); [done|].
    destruct (Nat.ltb_spec (length (w_jobs w1)) (w_queue_size w1)); [|done]. injection He as <-.
    simpl. rewrite length_app. simpl. split_and!; try done. lia.
Qed.

(** First in, first out: the jobs taken so far, then those in the queue, are the
    accepted ones in order; the taken ones were attempted or are in flight. *)
Lemma pool_run_inv n w evs w' :
  w = Start n (NewWorker n (w_queue_size w)) → pool_run w evs w' →
  w_queue_size w' = w_queue_size w ∧ (length (w_jobs w') ≤ w_queue_size w)%nat ∧
  accepted evs = taken evs ++ w_jobs w' ∧ taken evs ≡ₚ attempted evs ++ in_flight w'.
Proof.
  intros Hw Hrun. induction Hrun as [w|w evs w1 evs1 w2 Hrun IH Hs].
  - rewrite Hw. simpl. split_and!; [done|lia|done|]. unfold in_flight; simpl.
    clear. by induction n.
  - destruct (IH Hw) as (Hq & Hlen & Hfifo & Hmul).
    destruct (pool_step_inv _ _ _ Hs) as (Hq' & Hlen' & Hfifo' & Hmul').
    unfold accepted, taken, attempted in *. rewrite !omap_app.
    split_and!; [congruence|rewrite <-Hq; apply Hlen'; lia| |].
    + by rewrite Hfifo, <-!app_assoc, Hfifo'.
    + rewrite Hmul, <-!app_assoc. by f_equiv.
Qed.

(** C39. Mail queue: in every run of a pool of [n] workers with a queue of [q],
    the queue never holds more than [q] jobs, the accepted jobs are, in order,
    the ones the workers took followed by the ones in the queue (first in, first
    out, none lost), and a job that was taken was sent once, or is being sent by
    one of the [n] workers. *)
Theorem mail_queue n q evs w :
  pool_run (Start n (NewWorker n q)) evs w →
  (length (w_jobs w) ≤ q)%nat ∧ accepted evs = taken evs ++ w_jobs w ∧
  taken evs ≡ₚ attempted evs ++ in_flight w.
Proof.
  intros Hrun.
  destruct (pool_run_inv n _ _ _ eq_refl Hrun) as (_ & Hlen & Hfifo & Hmul). done.
Qed.

(** ** Shutdown *)

Lemma sum_list_with_insert {A} (f : A → nat) l i x y :
  l !! i = Some x → (sum_list_with f (<[i := y]> l) + f x = sum_list_with f l + f y)%nat.
Proof. revert i. induction l as [|z l IH]; intros [|i] Hi; simplify_eq/=; [lia|specialize (IH i Hi); lia]. Qed.

(** A step of a worker uses one unit of what is left to do. *)
Lemma process_step_weight w evs w' :
  process_step w evs w' →
  w_quit_closed w' = w_quit_closed w ∧ w_jobs_closed w' = w_jobs_closed w ∧
  (pool_weight w' < pool_weight w)%nat.
Proof.
  unfold pool_weight. intros [w1 i job rest Hi Hj|w1 i Hi Hj Hc'|w1 i Hi Hc'|w1 i job ok Hi];
    pose proof (λ y, sum_list_with_insert worker_weight _ _ _ y Hi) as Hsum.
  - specialize (Hsum (Sending job)). rewrite Hj. simpl in *. split_and!; [done..|lia].
  - specialize (Hsum Returned). simpl in *. split_and!; [done..|lia].
  - specialize (Hsum Returned). simpl in *. split_and!; [done..|lia].
  - specialize (Hsum Selecting). simpl in *. split_and!; [done..|lia].
Qed.

Lemma closed_step w evs w' :
  closed w → pool_step w evs w' → closed w' ∧ (pool_weight w' < pool_weight w)%nat.
Proof.
  unfold closed. intros [Hq Hc] Hs.
  destruct Hs as [w1 evs1 w2 Hp|w1 job w2 He|w1 job He|w1 Hq'|w1 Hq' Hc']; [|exfalso..].
  - apply process_step_weight in Hp as (-> & -> & Hlt). done.
  - unfold Enqueue in He. by rewrite Hc in He.
  - unfold Enqueue in He. by rewrite Hc in He.
  - congruence.
  - congruence.
Qed.

Lemma closed_run w evs w' : closed w → pool_run w evs w' → closed w'.
Proof. intros Hc Hrun. induction Hrun; [done|]. eapply closed_step; [by apply IHHrun|done]. Qed.

(** A worker that has not returned can always go on: [Shutdown] closed [quit]. *)
Lemma closed_progress w : closed w → shutdown_returns w ∨ ∃ evs w', process_step w evs w'.
Proof.
  intros [Hq Hc]. destruct (decide (Forall (λ p, p = Returned) (w_pool w))) as [Hall|Hex].
  { left. by split_and!. }
  right. apply not_Forall_Exists in Hex; [|intros ?; solve_decision].
  apply Exists_exists in Hex as (p & [i Hi]%list_elem_of_lookup & Hp).
  destruct p as [|job|]; [..|by destruct Hp].
  - exists [], (set_pool <[i := Returned]> w). by apply process_quit.
  - exists [Attempted job true], (set_pool <[i := Selecting]> w). by apply process_sent.
Qed.

(** C40. Shutdown ends: once [Shutdown] closed both channels, no run of the pool
    is infinite, a run that cannot go on has all its workers returned, so the
    [Wait] of [Shutdown] is over, and a later [Enqueue] panics. *)
Theorem Shutdown_ends w :
  closed w →
  Acc (λ w2 w1, ∃ evs, pool_step w1 evs w2) w ∧
  ∀ evs w', pool_run w evs w' →
    (∀ job, Enqueue job w' = EnqueuePanicked) ∧
    ((∀ evs' w'', ¬ pool_step w' evs' w'') → shutdown_returns w').
Proof.
  intros Hc. split.
  - remember (pool_weight w) as k eqn:Hk. revert w Hc Hk.
    induction k as [k IH] using lt_wf_ind. intros w Hc ->. constructor. intros w' [evs Hs].
    destruct (closed_step _ _ _ Hc Hs) as [Hc' Hlt]. by eapply IH.
  - intros evs w' Hrun. pose proof (closed_run _ _ _ Hc Hrun) as Hc'. split.
    + intros job. unfold Enqueue. by rewrite (proj2 Hc').
    + intros Hstuck. destruct (closed_progress _ Hc') as [|(evs' & w'' & Hs)]; [done|].
      destruct (Hstuck evs' w''). by constructor.
Qed.

Lemma run_silent w evs w1 w2 : pool_run w evs w1 → pool_step w1 [] w2 → pool_run w evs w2.
Proof. intros Hrun Hs. rewrite <-(app_nil_r evs). by eapply run_snoc. Qed.

(** [Shutdown] need not drain the queue: its workers may take the [quit] case of
    their [select] while a job is waiting. *)
Lemma Shutdown_may_leave_mail job :
  ∃ w, pool_run main_pool [Accepted job] w ∧ shutdown_returns w ∧ w_jobs w = [job].
Proof.
  assert (pool_run main_pool [Accepted job] (set_jobs [job] main_pool)) as Hrun.
  { change [Accepted job] with ([] ++ [Accepted job]).
    eapply run_snoc; [apply run_nil|by apply pool_queued]. }
  eapply run_silent in Hrun; [|by apply pool_close_quit].
  eapply run_silent in Hrun; [|by apply pool_close_jobs].
  eapply run_silent in Hrun; [|by apply pool_process, (process_quit _ 0%nat)].
  eapply run_silent in Hrun; [|by apply pool_process, (process_quit _ 1%nat)].
  eapply run_silent in Hrun; [|by apply pool_process, (process_quit _ 2%nat)].
  eexists. split; [exact Hrun|]. split; [|done]. repeat split. simpl. repeat constructor.
Qed.

(** ** Witnesses *)

Lemma mail_queue_witness :
  let job := mkJob JobWelcome "a@b.c" "alice" ∅ in
  (length [job] ≤ 100)%nat ∧ accepted [Accepted job] = taken [Accepted job] ++ [job] ∧
  taken [Accepted job] ≡ₚ attempted [Accepted job] ++ in_flight (set_jobs [job] main_pool).
Proof.
  intros job. apply (mail_queue 3 100 [Accepted job] (set_jobs [job] main_pool)).
  apply (run_snoc main_pool [] main_pool [Accepted job] _); [apply run_nil|apply pool_queued; reflexivity].
Defined.

Lemma Shutdown_ends_witness :
  let w := close_jobs (close_quit (set_jobs [mkJob JobWelcome "a@b.c" "alice" ∅] main_pool)) in
  Acc (λ w2 w1, ∃ evs, pool_step w1 evs w2) w ∧
  ∀ evs w', pool_run w evs w' →
    (∀ job, Enqueue job w' = EnqueuePanicked) ∧
    ((∀ evs' w'', ¬ pool_step w' evs' w'') → shutdown_returns w').
Proof.
  intros w.
  apply (Shutdown_ends (close_jobs (close_quit (set_jobs [mkJob JobWelcome "a@b.c" "alice" ∅] main_pool)))).
  split; reflexivity.
Defined.
