(* ===== verification/Mail.v ===== *)
(** * Mail: the mails that are sent ([internal/email/templates.go], [send])

    Subject and HTML body of the three mails, and the message handed to
    [smtp.SendMail].  In the templates a backquote stands for a double quote;
    the Go templates, being raw strings, hold no backquote of their own. *)

From S2P Require Import Prelude Email.
From Stdlib Require Import Ascii.
#[local] Open Scope string_scope.

(** [fmt.Sprintf] with string arguments, for formats with [%s] and [%%] only. *)
Fixpoint Sprintf (format : string) (args : list string) : string :=
  match format with
  | String "%"%char (String "s"%char rest) =>
    match args with
    | a :: args' => a ++ Sprintf rest args'
    | [] => "%!s(MISSING)" ++ Sprintf rest []
    end
  | String "%"%char (String "%"%char rest) => String "%"%char (Sprintf rest args)
  | String c rest => String c (Sprintf rest args)
  | EmptyString => ""
  end.

Definition double_quote : ascii := "034"%char.
Definition CR : ascii := "013"%char.
Definition LF : ascii := "010"%char.
Definition CRLF : string := String CR (String LF "").

(** Backquotes to double quotes. *)
Fixpoint html (s : string) : string :=
  match s with
  | EmptyString => ""
  | String c s' => String (if decide (c = "`"%char) then double_quote else c) (html s')
  end.

(** A key that is not in the map gives the empty string. *)
Definition extra (job : Job) (key : string) : string := default "" (Job_ExtraData job !! key).

Definition welcome_body : string := html "
<!DOCTYPE html>
<html>
<head><meta charset=`UTF-8`></head>
<body style=`font-family: 'Segoe UI', Arial, sans-serif; background: #0f0f0f; color: #e0e0e0; padding: 40px;`>
  <div style=`max-width: 560px; margin: auto; background: #1a1a2e; border-radius: 12px; padding: 32px; border: 1px solid #2a2a4a;`>
    <h1 style=`color: #a78bfa; margin-top: 0;`>Welcome to OmniLedger</h1>
    <p>Hello <strong>%s</strong>,</p>
    <p>Your account has been created successfully. You are now part of the most secure banking system ever built.</p>
    <hr style=`border-color: #2a2a4a;`>
    <p style=`font-size: 13px; color: #888;`>If you did not create this account, please contact support immediately.</p>
  </div>
</body>
</html>".

Definition success_body : string := html "
<!DOCTYPE html>
<html>
<head><meta charset=`UTF-8`></head>
<body style=`font-family: 'Segoe UI', Arial, sans-serif; background: #0f0f0f; color: #e0e0e0; padding: 40px;`>
  <div style=`max-width: 560px; margin: auto; background: #1a1a2e; border-radius: 12px; padding: 32px; border: 1px solid #2a2a4a;`>
    <h1 style=`color: #34d399; margin-top: 0;`>Transaction Successful ✓</h1>
    <p>Hello <strong>%s</strong>,</p>
    <p>Your transaction has been completed successfully.</p>
    <table style=`width: 100%%; border-collapse: collapse; margin: 16px 0;`>
      <tr><td style=`padding: 8px; color: #888;`>Amount</td><td style=`padding: 8px; font-weight: bold;`>₹%s</td></tr>
      <tr><td style=`padding: 8px; color: #888;`>Direction</td><td style=`padding: 8px;`>%s</td></tr>
      <tr><td style=`padding: 8px; color: #888;`>Transaction ID</td><td style=`padding: 8px; font-family: monospace; font-size: 12px;`>%s</td></tr>
    </table>
    <hr style=`border-color: #2a2a4a;`>
    <p style=`font-size: 13px; color: #888;`>This is an automated notification from OmniLedger.</p>
  </div>
</body>
</html>".

Definition failed_body : string := html "
<!DOCTYPE html>
<html>
<head><meta charset=`UTF-8`></head>
<body style=`font-family: 'Segoe UI', Arial, sans-serif; background: #0f0f0f; color: #e0e0e0; padding: 40px;`>
  <div style=`max-width: 560px; margin: auto; background: #1a1a2e; border-radius: 12px; padding: 32px; border: 1px solid #2a2a4a;`>
    <h1 style=`color: #f87171; margin-top: 0;`>Transaction Failed ✗</h1>
    <p>Hello <strong>%s</strong>,</p>
    <p>Unfortunately, your transaction of <strong>₹%s</strong> could not be processed.</p>
    <table style=`width: 100%%; border-collapse: collapse; margin: 16px 0;`>
      <tr><td style=`padding: 8px; color: #888;`>Amount</td><td style=`padding: 8px; font-weight: bold;`>₹%s</td></tr>
      <tr><td style=`padding: 8px; color: #888;`>Reason</td><td style=`padding: 8px; color: #f87171;`>%s</td></tr>
    </table>
    <hr style=`border-color: #2a2a4a;`>
    <p style=`font-size: 13px; color: #888;`>Please retry or contact support if the issue persists.</p>
  </div>
</body>
</html>".

Definition renderWelcome (job : Job) : string * string :=
  ("Welcome to OmniLedger 🏦", Sprintf welcome_body [Job_Username job]).

Definition renderTransactionSuccess (job : Job) : string * string :=
  let amount := extra job "amount" in
  let txnID := extra job "transaction_id" in
  let direction := extra job "direction" in
  (Sprintf "Transaction Successful — ₹%s %s" [amount; direction],
   Sprintf success_body [Job_Username job; amount; direction; txnID]).

Definition renderTransactionFailed (job : Job) : string * string :=
  let amount := extra job "amount" in
  let reason := extra job "reason" in
  (Sprintf "Transaction Failed — ₹%s" [amount],
   Sprintf failed_body [Job_Username job; amount; amount; reason]).

Definition RenderTemplate (job : Job) : string * string :=
  if decide (Job_Type job = JobWelcome) then renderWelcome job
  else if decide (Job_Type job = JobTransactionSuccess) then renderTransactionSuccess job
  else if decide (Job_Type job = JobTransactionFailed) then renderTransactionFailed job
  else ("OmniLedger Notification", "<p>You have a new notification from OmniLedger.</p>").

(** [SMTPConfig]. *)
Record SMTPConfig := mkSMTPConfig {
  smtp_Host : string;
  smtp_Port : string;
  smtp_Username : string;
  smtp_Password : string;
  smtp_From : string
}.

(** The server's address, the envelope and the message of [send]. *)
Definition send (cfg : SMTPConfig) (job : Job) : string * string * list string * string :=
  let '(subject, body) := RenderTemplate job in
  let msg := Sprintf (html (String.concat CRLF
      ["From: %s"; "To: %s"; "Subject: %s"; "MIME-Version: 1.0";
       "Content-Type: text/html; charset=`UTF-8`"; ""; "%s"]))
    [smtp_From cfg; Job_To job; subject; body] in
  (Sprintf "%s:%s" [smtp_Host cfg; smtp_Port cfg], smtp_From cfg, [Job_To job], msg).

(** ** What the properties speak of *)

(** A message: headers that end with CR LF, an empty line, the body. *)
Definition message (from to subject body : string) : string :=
  "From: " ++ from ++ CRLF ++ "To: " ++ to ++ CRLF ++ "Subject: " ++ subject ++ CRLF ++
  html ("MIME-Version: 1.0" ++ CRLF ++ "Content-Type: text/html; charset=`UTF-8`") ++ CRLF ++ CRLF ++ body.

(** The text around the arguments of a template. *)
Definition before_arg (format : string) : string :=
  match String.index 0 "%s" format with Some n => String.substring 0 n format | None => format end.
Definition after_arg (format : string) : string :=
  match String.index 0 "%s" format with
  | Some n => String.substring (n + 2) (String.length format) format
  | None => ""
  end.

(** ** Properties *)

Lemma app_empty_r s : s ++ "" = s.
Proof. induction s as [|c s IH]; [done|]. change (String c (s ++ "") = String c s). by rewrite IH. Qed.

(** What is sent is that message, with nothing escaped. *)
Lemma send_message cfg job :
  send cfg job =
    (smtp_Host cfg ++ ":" ++ smtp_Port cfg, smtp_From cfg, [Job_To job],
     message (smtp_From cfg) (Job_To job) (RenderTemplate job).1 (RenderTemplate job).2).
Proof.
  unfold send. destruct (RenderTemplate job) as [subject body]. simpl fst. simpl snd.
  trans (smtp_Host cfg ++ ":" ++ smtp_Port cfg ++ "", smtp_From cfg, [Job_To job],
    message (smtp_From cfg) (Job_To job) subject (body ++ "")); [vm_compute; reflexivity|].
  by rewrite !app_empty_r.
Qed.

(** The name of the user is put into the HTML as it is: a name with markup in it
    changes the page. *)
Lemma welcome_embeds_name job :
  Job_Type job = JobWelcome →
  (RenderTemplate job).2 = before_arg welcome_body ++ Job_Username job ++ after_arg welcome_body.
Proof.
  intros Ht. unfold RenderTemplate. rewrite decide_True by done. destruct job as [ty to name ed].
  vm_compute. reflexivity.
Qed.

(** A mail of an unknown type is a general notification. *)
Lemma unknown_type_notification job :
  Job_Type job ∉ [JobWelcome; JobTransactionSuccess; JobTransactionFailed] →
  (RenderTemplate job).1 = "OmniLedger Notification".
Proof.
  intros Ht. unfold RenderTemplate. rewrite !decide_False by set_solver. done.
Qed.
