(* ===== verification/Main.v ===== *)
(** * Main: the life of the server process ([cmd/api/main.go])

    [main_start] is [main] up to the moment the server listens: configuration,
    logger, PostgreSQL, Redis, mail workers, the server with its routes; it ends
    in an exit code or in an [App] with its stack of deferred calls.
    [main_step] is the rest: the goroutine that listens, the requests in
    flight, the signal, [srv.Shutdown] with its timeout, and the deferred calls,
    the last one first.  [os.Exit] skips them.

    Third-party: [sqlx.Connect], [redis.Client.Ping], [http.Server], [cors]. *)

From S2P Require Import Prelude Platform Errs Model Database GoM Store Books Transfer Funding Http.
From S2P Require Import RateLimit Token AuthMiddleware Auth Handlers AccountHandler Server.
From S2P Require Import Config Email Mail.
#[local] Open Scope Z_scope.

(** ** [internal/logger/logger.go] *)

Inductive slog_handler := TextHandler | JSONHandler.

(** [Init]: the handler of the global logger. *)
Definition logger_Init (env : string) : slog_handler :=
  if decide (env = "development"%string) then TextHandler else JSONHandler.

(** ** Options handed to the libraries *)

Definition second : Z := 10 ^ 9.
Definition minute : Z := 60 * second.

Record RedisOptions := mkRedisOptions {
  redis_Addr : string;
  redis_Password : string;
  redis_DB : Z
}.

Record CorsOptions := mkCorsOptions {
  AllowedOrigins : list string;
  AllowedMethods : list string;
  AllowedHeaders : list string;
  AllowCredentials : bool
}.

Definition redis_options (cfg : Config) : RedisOptions :=
  mkRedisOptions (RedisURL cfg) (RedisPassword cfg) (RedisDB cfg).

Definition smtp_config (cfg : Config) : SMTPConfig :=
  mkSMTPConfig (SMTPHost cfg) (SMTPPort cfg) (SMTPUsername cfg) (SMTPPassword cfg) (SMTPFrom cfg).

Definition cors_options (cfg : Config) : CorsOptions :=
  mkCorsOptions [CORSOrigin cfg] ["GET"; "POST"; "PUT"; "PATCH"; "DELETE"; "OPTIONS"]%string
    ["Content-Type"; "Authorization"]%string true.

(** Whether PostgreSQL accepts a connection and Redis answers a ping. *)
Class Services := {
  sqlx_Connect : string → bool;
  rdb_Ping : RedisOptions → bool
}.

Section main.
Context `{UuidLib} `{DecimalLib} `{RedisServer} `{!Env} `{!JwtLib} `{BcryptLib} `{!DriverText}.

(** [http.Server], its handler behind [cors]. *)
Record HttpServer := mkHttpServer {
  srv_Addr : string;
  srv_Cors : CorsOptions;
  srv_Handler : endpoint → Handler;
  srv_ReadTimeout : Z;
  srv_WriteTimeout : Z;
  srv_IdleTimeout : Z
}.

Definition http_server (cfg : Config) : HttpServer :=
  mkHttpServer (":" ++ Port cfg) (cors_options cfg) (mux (JWTSecret cfg) (isSecure cfg))
    (10 * second) (15 * second) (30 * second).

(** ** Start *)

(** The deferred calls. *)
Inductive deferred := CancelTimeout | WorkerShutdown | RedisClose | PostgresClose.

(** What [main] does on its way, in order. *)
Inductive action :=
| InitLogger (h : slog_handler)
| ConnectPostgres (url : string)
| SetPoolLimits (max_open max_idle lifetime : Z)
| PingRedis (o : RedisOptions)
| StartWorkers (smtp : SMTPConfig) (n : nat).

Record App := mkApp {
  app_config : Config;
  app_server : HttpServer;
  app_pool : Worker;
  app_limits : RateLimiterConfig;
  app_defers : list deferred
}.

(** Up to the start of the listening goroutine; [inl]: [os.Exit]. *)
Definition main_start `{!Services} (env : gmap string string) : (Z + App) * list action :=
  match Load env with
  | Err _ => (inl 1, [])
  | Ok cfg =>
    let acts := [InitLogger (logger_Init (cfg_Env cfg)); ConnectPostgres (DatabaseURL cfg)] in
    if negb (sqlx_Connect (DatabaseURL cfg)) then (inl 1, acts)
    else
    let defers := [PostgresClose] in
    let acts := acts ++ [SetPoolLimits 25 10 (5 * minute); PingRedis (redis_options cfg)] in
    if negb (rdb_Ping (redis_options cfg)) then (inl 1, acts)
    else
    let defers := RedisClose :: defers in
    let emailWorker := Start 3 (NewWorker 3 100) in
    let acts := acts ++ [StartWorkers (smtp_config cfg) 3] in
    let defers := WorkerShutdown :: defers in
    let rateLimiter := mkRateLimiterConfig 5 (1 * minute) in
    (inr (mkApp cfg (http_server cfg) emailWorker rateLimiter defers), acts)
  end.

(** ** The running process *)

(** The goroutine in [ListenAndServe]; [Broken]: about to call [os.Exit]. *)
Inductive listener := NotListening | Listening | Broken | ListenerClosed.

#[global] Instance listener_eq_dec : EqDecision listener.
Proof. solve_decision. Defined.

(** The goroutine of [main]: at [<-quit], in [srv.Shutdown], running deferred
    calls, or gone with the process. *)
Inductive phase :=
| Waiting
| Draining
| Unwinding (defers : list deferred)
| Exited (code : Z).

Record Process := mkProcess {
  p_phase : phase;
  p_listener : listener;
  p_in_flight : list (endpoint * Request);
  p_pool : Worker;
  p_postgres_open : bool;
  p_redis_open : bool;
  p_defers : list deferred
}.

Definition process_of (app : App) : Process :=
  mkProcess Waiting NotListening [] (app_pool app) true true (app_defers app).

Definition set_phase (ph : phase) (p : Process) : Process :=
  mkProcess ph (p_listener p) (p_in_flight p) (p_pool p) (p_postgres_open p) (p_redis_open p) (p_defers p).
Definition set_listener (l : listener) (p : Process) : Process :=
  mkProcess (p_phase p) l (p_in_flight p) (p_pool p) (p_postgres_open p) (p_redis_open p) (p_defers p).
Definition set_in_flight (qs : list (endpoint * Request)) (p : Process) : Process :=
  mkProcess (p_phase p) (p_listener p) qs (p_pool p) (p_postgres_open p) (p_redis_open p) (p_defers p).
Definition set_worker (w : Worker) (p : Process) : Process :=
  mkProcess (p_phase p) (p_listener p) (p_in_flight p) w (p_postgres_open p) (p_redis_open p) (p_defers p).

(** What [defer] pushes. *)
Definition push_defer (d : deferred) (p : Process) : Process :=
  mkProcess (p_phase p) (p_listener p) (p_in_flight p) (p_pool p) (p_postgres_open p) (p_redis_open p)
    (d :: p_defers p).

(** What the outside sees. *)
Inductive sighting :=
| Arrived (q : endpoint * Request)
| Finished (q : endpoint * Request)
| Closed (d : deferred).

(** One thing that one goroutine does while the process lives. *)
Inductive main_step : Process → list sighting → Process → Prop :=
| listen_ok p :
    p_phase p = Waiting → p_listener p = NotListening → main_step p [] (set_listener Listening p)
| listen_fails p :
    p_phase p = Waiting → p_listener p = NotListening ∨ p_listener p = Listening →
    main_step p [] (set_listener Broken p)
| listen_exits p :
    p_listener p = Broken → (∀ c, p_phase p ≠ Exited c) → main_step p [] (set_phase (Exited 1) p)
| accept p q :
    p_listener p = Listening → p_phase p = Waiting →
    main_step p [Arrived q] (set_in_flight (p_in_flight p ++ [q]) p)
| finish p l q r :
    p_in_flight p = l ++ q :: r → (∀ c, p_phase p ≠ Exited c) →
    main_step p [Finished q] (set_in_flight (l ++ r) p)
| mail p evs w :
    process_step (p_pool p) evs w → (∀ c, p_phase p ≠ Exited c) →
    main_step p [] (set_worker w p)
| signal p :
    p_phase p = Waiting →
    main_step p [] (set_phase Draining (push_defer CancelTimeout
      (if decide (p_listener p = Broken) then p else set_listener ListenerClosed p)))
| drained p :
    p_phase p = Draining → p_in_flight p = [] → main_step p [] (set_phase (Unwinding (p_defers p)) p)
| drain_timeout p :
    p_phase p = Draining → main_step p [] (set_phase (Exited 1) p)
| unwind_cancel p ds :
    p_phase p = Unwinding (CancelTimeout :: ds) →
    main_step p [Closed CancelTimeout] (set_phase (Unwinding ds) p)
| unwind_close_quit p ds :
    p_phase p = Unwinding (WorkerShutdown :: ds) → w_quit_closed (p_pool p) = false →
    main_step p [] (set_worker (close_quit (p_pool p)) p)
| unwind_close_jobs p ds :
    p_phase p = Unwinding (WorkerShutdown :: ds) → w_quit_closed (p_pool p) = true →
    w_jobs_closed (p_pool p) = false →
    main_step p [] (set_worker (close_jobs (p_pool p)) p)
| unwind_wait p ds :
    p_phase p = Unwinding (WorkerShutdown :: ds) → shutdown_returns (p_pool p) →
    main_step p [Closed WorkerShutdown] (set_phase (Unwinding ds) p)
| unwind_redis p ds :
    p_phase p = Unwinding (RedisClose :: ds) →
    main_step p [Closed RedisClose]
      (mkProcess (Unwinding ds) (p_listener p) (p_in_flight p) (p_pool p) (p_postgres_open p) false (p_defers p))
| unwind_postgres p ds :
    p_phase p = Unwinding (PostgresClose :: ds) →
    main_step p [Closed PostgresClose]
      (mkProcess (Unwinding ds) (p_listener p) (p_in_flight p) (p_pool p) false (p_redis_open p) (p_defers p))
| main_returns p :
    p_phase p = Unwinding [] → main_step p [] (set_phase (Exited 0) p).

Inductive main_run : Process → list sighting → Process → Prop :=
| main_nil p : main_run p [] p
| main_snoc p evs p' evs' p'' :
    main_run p evs p' → main_step p' evs' p'' → main_run p (evs ++ evs') p''.

(** ** What the theorems speak of *)

Definition arrived (evs : list sighting) : list (endpoint * Request) :=
  omap (λ e, match e with Arrived q => Some q | _ => None end) evs.
Definition handled (evs : list sighting) : list (endpoint * Request) :=
  omap (λ e, match e with Finished q => Some q | _ => None end) evs.
Definition released (evs : list sighting) : list deferred :=
  omap (λ e, match e with Closed d => Some d | _ => None end) evs.

(** The deferred calls of a process that got a signal, the last one first. *)
Definition all_defers : list deferred := [CancelTimeout; WorkerShutdown; RedisClose; PostgresClose].

(** Steps left to a process that got a signal, at most. *)
Definition phase_weight (p : Process) : nat :=
  match p_phase p with
  | Waiting | Draining => 2 + length (p_defers p)
  | Unwinding ds => 1 + length ds
  | Exited _ => 0
  end%nat.
Definition flag_weight (b : bool) : nat := if b then 0%nat else 1%nat.
Definition stop_weight (p : Process) : nat :=
  (phase_weight p + length (p_in_flight p) + pool_weight (p_pool p) +
   flag_weight (w_quit_closed (p_pool p)) + flag_weight (w_jobs_closed (p_pool p)))%nat.

(** What is open and closed in each phase, given the deferred calls made so far. *)
Definition stores_open (p : Process) : Prop := p_postgres_open p = true ∧ p_redis_open p = true.
Definition mail_open (p : Process) : Prop :=
  w_quit_closed (p_pool p) = false ∧ w_jobs_closed (p_pool p) = false.

Definition phase_inv (done : list deferred) (p : Process) : Prop :=
  match p_phase p with
  | Waiting => stores_open p ∧ mail_open p ∧ CancelTimeout :: p_defers p = all_defers ∧ done = []
  | Draining =>
    stores_open p ∧ mail_open p ∧ p_defers p = all_defers ∧ done = [] ∧ p_listener p ≠ Listening
  | Unwinding ds =>
    p_in_flight p = [] ∧ done ++ ds = all_defers ∧ p_listener p ≠ Listening ∧
    (WorkerShutdown ∉ ds → shutdown_returns (p_pool p))
  | Exited c =>
    c = 0 ∧ p_in_flight p = [] ∧ done = all_defers ∧ shutdown_returns (p_pool p) ∨ c = 1
  end.

(** ** Start *)

(** What is called, in order, and how each failure ends the program; a
    connection made before a failure is left to the system. *)
Lemma main_start_cases `{!Services} env :
  match main_start env with
  | (inl c, acts) => c = 1 ∧
    (Load env = Err "DATABASE_URL is required"%string ∧ acts = [] ∨
     ∃ cfg, Load env = Ok cfg ∧
       (sqlx_Connect (DatabaseURL cfg) = false ∧ length acts = 2%nat ∨
        sqlx_Connect (DatabaseURL cfg) = true ∧ rdb_Ping (redis_options cfg) = false ∧ length acts = 4%nat))
  | (inr app, acts) => ∃ cfg,
    Load env = Ok cfg ∧ sqlx_Connect (DatabaseURL cfg) = true ∧ rdb_Ping (redis_options cfg) = true ∧
    app = mkApp cfg (http_server cfg) main_pool main_limits [WorkerShutdown; RedisClose; PostgresClose] ∧
    acts = [InitLogger (logger_Init (cfg_Env cfg)); ConnectPostgres (DatabaseURL cfg);
            SetPoolLimits 25 10 (5 * minute); PingRedis (redis_options cfg); StartWorkers (smtp_config cfg) 3]
  end.
Proof.
  unfold main_start. destruct (Load_cases env) as [(cfg & -> & _)|[-> _]]; [|by eauto].
  destruct (sqlx_Connect (DatabaseURL cfg)) eqn:Hc; simpl; [|by naive_solver].
  destruct (rdb_Ping (redis_options cfg)) eqn:Hp; simpl; naive_solver.
Qed.

(** ** The running process *)

Lemma returned_stay w evs w' : shutdown_returns w → ¬ process_step w evs w'.
Proof.
  intros (_ & _ & Hall) Hs.
  destruct Hs as [w i job rest Hi _|w i Hi _ _|w i Hi _|w i job ok Hi];
    pose proof (Forall_lookup_1 _ _ _ _ Hall Hi); discriminate.
Qed.

Lemma main_step_requests p evs p' :
  main_step p evs p' → p_in_flight p ++ arrived evs ≡ₚ handled evs ++ p_in_flight p'.
Proof.
  destruct 1 as [ | | | |p l q r Hq _| | | | | | | | | | | ]; simpl; rewrite ?app_nil_r; try done.
  - by rewrite Hq, Permutation_middle.
  - by case_decide.
Qed.

(** Steps of [main] itself. *)
Lemma main_step_phase done p evs p' :
  phase_inv done p → main_step p evs p' → phase_inv (done ++ released evs) p'.
Proof.
  unfold phase_inv, stores_open, mail_open. intros Hinv Hs.
  destruct Hs as [p Hp Hl|p Hp Hl|p Hl Hx|p q Hl Hp|p l q r Hq Hx|p evs w Hm Hx|p Hp|p Hp Hq|p Hp
    |p ds Hp|p ds Hp Hf|p ds Hp Hf Hf'|p ds Hp Hr|p ds Hp|p ds Hp|p Hp]; simpl; rewrite ?app_nil_r;
    try rewrite Hp in Hinv; try rewrite Hp; simpl in *.
  - done.
  - done.
  - by right.
  - done.
  - destruct (p_phase p) as [| |ds|c]; [done..| |by destruct (Hx c)].
    destruct Hinv as [He _]. rewrite He in Hq. by destruct l.
  - pose proof (process_step_weight _ _ _ Hm) as (Hfq & Hfj & _). rewrite Hfq, Hfj.
    destruct (p_phase p) as [| |ds|c]; [done..| |by destruct (Hx c)].
    destruct Hinv as (? & ? & ? & Hret). split_and!; [done..|].
    intros Hin. by destruct (returned_stay _ _ _ (Hret Hin) Hm).
  - destruct Hinv as (? & ? & ? & ?). case_decide as Hb; simpl; naive_solver congruence.
  - destruct Hinv as (? & ? & -> & -> & ?). split_and!; [done..|]. intros Hin. destruct Hin. set_solver.
  - by right.
  - destruct Hinv as (? & <- & ? & Hret). rewrite <-app_assoc. split_and!; [done..|]. set_solver.
  - destruct Hinv as (? & ? & ? & Hret). split_and!; [done..|]. set_solver.
  - destruct Hinv as (? & ? & ? & Hret). split_and!; [done..|]. set_solver.
  - destruct Hinv as (? & <- & ? & Hret). rewrite <-app_assoc. by split_and!.
  - destruct Hinv as (? & <- & ? & Hret). rewrite <-app_assoc. split_and!; [done..|]. set_solver.
  - destruct Hinv as (? & <- & ? & Hret). rewrite <-app_assoc. split_and!; [done..|]. set_solver.
  - destruct Hinv as (? & Hd & ? & Hret). rewrite app_nil_r in Hd. left. split_and!; [done..|set_solver].
Qed.

Lemma app_run_inv app evs p :
  app_defers app = [WorkerShutdown; RedisClose; PostgresClose] → app_pool app = main_pool →
  main_run (process_of app) evs p →
  arrived evs ≡ₚ handled evs ++ p_in_flight p ∧ phase_inv (released evs) p.
Proof.
  intros Hd Hw Hrun. remember (process_of app) as p0 eqn:Hp0. induction Hrun as [p|p evs p1 evs1 p2 Hrun IH Hs].
  - rewrite Hp0. unfold phase_inv, stores_open, mail_open; simpl. by rewrite Hd, Hw.
  - destruct (IH Hp0) as [Hreq Hph]. split.
    + unfold arrived, handled in *. rewrite !omap_app, Hreq, <-!app_assoc.
      f_equiv. by apply main_step_requests.
    + unfold released. rewrite omap_app. by eapply main_step_phase.
Qed.

Lemma started_inv `{!Services} env app acts evs p :
  main_start env = (inr app, acts) → main_run (process_of app) evs p →
  arrived evs ≡ₚ handled evs ++ p_in_flight p ∧ phase_inv (released evs) p.
Proof.
  intros Hst. pose proof (main_start_cases env) as Hc. rewrite Hst in Hc.
  destruct Hc as (cfg & _ & _ & _ & -> & _). by apply app_run_inv.
Qed.

Lemma main_run_app p1 evs1 p2 evs2 p3 :
  main_run p1 evs1 p2 → main_run p2 evs2 p3 → main_run p1 (evs1 ++ evs2) p3.
Proof.
  intros H12 H23. induction H23 as [p|p evs p' evs' p'' _ IH Hs]; [by rewrite app_nil_r|].
  rewrite app_assoc. eapply main_snoc; [by apply IH|done].
Qed.

Lemma main_step_weight p evs p' :
  p_phase p ≠ Waiting → main_step p evs p' → p_phase p' ≠ Waiting ∧ (stop_weight p' < stop_weight p)%nat.
Proof.
  intros Hw Hs. unfold stop_weight, phase_weight.
  destruct Hs as [p Hp Hl|p Hp Hl|p Hl Hx|p q Hl Hp|p l q r Hq Hx|p evs w Hm Hx|p Hp|p Hp Hq|p Hp
    |p ds Hp|p ds Hp Hf|p ds Hp Hf Hf'|p ds Hp Hr|p ds Hp|p ds Hp|p Hp]; simpl; try done;
    try (split; [done|]); try (rewrite Hp; simpl; lia).
  - destruct (p_phase p) as [| | |c]; simpl; try lia. by destruct (Hx c).
  - rewrite Hq, !length_app; simpl. lia.
  - pose proof (process_step_weight _ _ _ Hm) as (-> & -> & Hlt). lia.
  - rewrite Hp, Hf; simpl. unfold pool_weight; simpl. lia.
  - rewrite Hp, Hf, Hf'; simpl. unfold pool_weight; simpl. lia.
Qed.

(** A process that has not exited can go on. *)
Lemma main_progress p : (∃ c, p_phase p = Exited c) ∨ ∃ evs p', main_step p evs p'.
Proof.
  destruct (p_phase p) as [| |ds|c] eqn:Hp; [..|by eauto]; right.
  - eexists _, _. by apply signal.
  - eexists _, _. by apply drain_timeout.
  - destruct ds as [|[] ds].
    + eexists _, _. by apply main_returns.
    + eexists _, _. by apply unwind_cancel.
    + destruct (w_quit_closed (p_pool p)) eqn:Hq; [|eexists _, _; by eapply unwind_close_quit].
      destruct (w_jobs_closed (p_pool p)) eqn:Hj; [|eexists _, _; by eapply unwind_close_jobs].
      destruct (closed_progress (p_pool p)) as [Hr|(evs & w & Hm)]; [done|..].
      * eexists _, _. by eapply unwind_wait.
      * eexists _, _. apply (mail p evs w Hm). by rewrite Hp.
    + eexists _, _. by apply unwind_redis.
    + eexists _, _. by apply unwind_postgres.
Qed.

(** ** Properties *)

(** C34. Whenever a request is being handled, the database and Redis are open and
    the mail queue takes jobs; no request is lost: what arrived has been
    finished or is in flight.  A process that ends with code 0 has finished
    every request it accepted, and made its deferred calls, the last first:
    the mail workers returned before Redis and the database were closed. *)
Theorem stop_is_clean `{!Services} env app acts evs p :
  main_start env = (inr app, acts) → main_run (process_of app) evs p →
  arrived evs ≡ₚ handled evs ++ p_in_flight p ∧
  ((∀ c, p_phase p ≠ Exited c) → p_in_flight p ≠ [] → stores_open p ∧ mail_open p) ∧
  (p_phase p = Exited 0 →
   arrived evs ≡ₚ handled evs ∧ released evs = all_defers ∧ shutdown_returns (p_pool p)).
Proof.
  intros Hst Hrun. destruct (started_inv _ _ _ _ _ Hst Hrun) as [Hreq Hph]. unfold phase_inv in Hph.
  split_and!; [done|..].
  - intros Hx Hq. destruct (p_phase p) as [| |ds|c]; [naive_solver..|]. by destruct (Hx c).
  - intros Hx. rewrite Hx in Hph. destruct Hph as [(_ & Hq & Hd & Hr)|?]; [|done].
    rewrite Hq, app_nil_r in Hreq. done.
Qed.

(** C35. A signal stops the process: whatever the goroutines do afterwards, there
    is no infinite run, and a process with nothing left to do has exited, with
    code 0 or 1. *)
Theorem signal_stops `{!Services} env app acts evs p :
  main_start env = (inr app, acts) → main_run (process_of app) evs p → p_phase p ≠ Waiting →
  Acc (λ p2 p1, ∃ evs, main_step p1 evs p2) p ∧
  ∀ evs' p', main_run p evs' p' → (∀ evs'' p'', ¬ main_step p' evs'' p'') →
    p_phase p' = Exited 0 ∨ p_phase p' = Exited 1.
Proof.
  intros Hst Hrun Hw. split.
  - clear Hst Hrun. remember (stop_weight p) as k eqn:Hk. revert p Hw Hk.
    induction k as [k IH] using lt_wf_ind. intros p Hw ->. constructor. intros p' [evs' Hs].
    destruct (main_step_weight _ _ _ Hw Hs) as [Hw' Hlt]. by eapply IH.
  - intros evs' p' Hrun' Hstuck.
    destruct (main_progress p') as [[c Hc]|(evs'' & p'' & Hs)]; [|by destruct (Hstuck evs'' p'')].
    destruct (started_inv _ _ _ _ _ Hst (main_run_app _ _ _ _ _ Hrun Hrun')) as [_ Hph].
    unfold phase_inv in Hph. rewrite Hc in Hph |- *. naive_solver.
Qed.

End main.
