(* ===== verification/ConcurrencyExamples.v ===== *)
(** * ConcurrencyExamples: interleaved requests on the example bank

    The properties of [Concurrency] and [Locks], applied to a run in which two
    requests with one key and a third with another key take their turns
    alternately, and to the locks of two transfers and a balance read. *)

From S2P Require Import Prelude Platform Concrete Errs Model Database GoM Store Books Example.
From S2P Require Import Transfer Funding Concurrency Locks.
#[local] Open Scope Z_scope.

Section concurrency_examples.

#[local] Instance calm_env : @Env text_uuid := test_env never Ex.start.

(** 10 from alice to bob, the same again, and 2 back under another key. *)
Definition three_requests : list TransferRequest :=
  [Ex.pay 100000; Ex.pay 100000; mkTransferRequest "a-bob" "a-alice" (mkDec 20000 (-4)) "k-2"].

(** Everybody at the gate first; then the two that passed it by turns. *)
Definition schedule : list nat := [0; 1; 2; 0; 2; 1; 2; 0; 1]%nat.

#[local] Abbreviation ex_world := (Ex.world never).
#[local] Abbreviation ex_run := (interleave schedule (Ready <$> three_requests) ex_world).

Definition answer_of (t : tstate) : option (result error TransferResponse) :=
  match t with Done _ r => Some r | _ => None end.

Lemma ex_run_answers :
  answer_of <$> ex_run.1 = Some <$>
  [Ok (transfer_ok (Ex.uid "gen-3")); Err (ErrSentinel ErrDuplicateTransaction);
   Ok (transfer_ok (Ex.uid "gen-17"))].
Proof. vm_compute. reflexivity. Qed.

Lemma interleave_keeps_books_witness :
  books (w_db ex_run.2) ∧ total_balance (w_db ex_run.2) = total_balance (w_db ex_world).
Proof. exact (interleave_keeps_books schedule three_requests ex_world eq_refl Ex.db_books). Defined.

Lemma interleave_key_once_witness :
  length (winners (Ex.uid "k-1") ex_run.1) = 1%nat ∧
  (length (winners (Ex.uid "k-1") ex_run.1) ≤ 1)%nat ∧
  (key_used (Ex.uid "k-1") (w_db ex_world) → winners (Ex.uid "k-1") ex_run.1 = []).
Proof.
  split; [vm_compute; reflexivity|].
  exact (interleave_key_once schedule three_requests ex_world (Ex.uid "k-1") eq_refl).
Defined.

Lemma ex_run_certain : Forall (λ t, ¬ in_doubt t) ex_run.1.
Proof.
  assert (∀ ts rs, answer_of <$> ts = Some <$> rs → Forall (λ r, r ≠ Err commit_lost) rs →
    Forall (λ t, ¬ in_doubt t) ts) as Hall.
  { induction ts as [|t ts IH]; intros [|r rs] He Hrs; simplify_eq/=; constructor.
    - destruct t; simplify_eq/=. apply Forall_cons in Hrs as [Hr _].
      destruct r; [tauto|]. simpl. congruence.
    - apply Forall_cons in Hrs as [_ Hrs]. by eapply IH. }
  eapply Hall; [exact ex_run_answers|]. repeat constructor; discriminate.
Qed.

Lemma interleave_accounting_witness :
  Zsum (net_effect (Ex.uid "a-bob") <$> ex_run.1) = 100000 - 20000 ∧
  balance (Ex.uid "a-bob") (w_db ex_run.2) =
    balance (Ex.uid "a-bob") (w_db ex_world) + Zsum (net_effect (Ex.uid "a-bob") <$> ex_run.1).
Proof.
  split; [vm_compute; reflexivity|].
  refine (_ (interleave_accounting schedule three_requests ex_world (Ex.uid "a-bob") eq_refl)).
  pose proof ex_run_certain as Hok. revert Hok. destruct ex_run as [ts w']. simpl. auto.
Defined.

(** ** Locks *)

Lemma transfers_never_deadlock_witness :
  ¬ deadlock ((transfer_locker <$> three_requests) ++ (balance_locker <$> [Ex.uid "a-bob"])).
Proof.
  refine (transfers_never_deadlock three_requests [Ex.uid "a-bob"] _ _ (rtc_refl _ _)).
  repeat constructor; discriminate.
Defined.

(** A transfer from the system account to alice and a funding of alice. *)
Lemma funding_can_deadlock_witness :
  ∃ ls, rtc lock_step
    [transfer_locker (mkTransferRequest (Ex.uid "1-system") (Ex.uid "2-alice") (mkDec 1 0) (Ex.uid "k-1"));
     funding_locker (Ex.uid "1-system") (Ex.uid "k-2") (mkFundRequest (Ex.uid "2-alice") (mkDec 1 0))] ls ∧
    deadlock ls.
Proof.
  refine (funding_can_deadlock (Ex.uid "1-system") (Ex.uid "2-alice") (Ex.uid "k-1") (Ex.uid "k-2")
    (mkDec 1 0) (mkDec 1 0) _). reflexivity.
Defined.

End concurrency_examples.
