(* ===== verification/ConcreteAuth.v ===== *)
(** * ConcreteAuth: instances of the token, password and driver interfaces

    Executable instances of [JwtLib], [BcryptLib] and [DriverText] with proofs
    of their laws, for the examples of the HTTP service. *)

From S2P Require Import Prelude Platform Concrete Http Token Auth.
From stdpp Require Import pretty countable.
From Stdlib Require Import Ascii.
#[local] Open Scope Z_scope.

(** ** Tokens as the bits of the secret and the claims *)

Fixpoint bits (p : positive) : string :=
  match p with
  | xH => ""
  | xO p' => String "0"%char (bits p')
  | xI p' => String "1"%char (bits p')
  end.

Fixpoint unbits (s : string) : positive :=
  match s with
  | EmptyString => xH
  | String c s' => if Ascii.eqb c "0"%char then xO (unbits s') else xI (unbits s')
  end.

Lemma unbits_bits p : unbits (bits p) = p.
Proof. induction p as [p IH|p IH|]; simpl; by rewrite ?IH. Qed.

Definition token_of (secret : string) (c : @Claims text_uuid) : string :=
  bits (positives_flatten [encode secret; encode (Claims_ID c); encode (Claims_Issuer c);
    encode (Claims_Subject c); encode (Claims_IssuedAt c); encode (Claims_ExpiresAt c);
    encode (Claims_UserID c : string); encode (Claims_Username c); encode (Claims_IsSystemUser c)]).

Definition parse_claims (tok : string) : option (string * @Claims text_uuid) :=
  match positives_unflatten (unbits tok) with
  | Some [secret; id; issuer; subject; iat; exp; user; name; sys] =>
    secret ← decode secret; id ← decode id; issuer ← decode issuer; subject ← decode subject;
    iat ← decode iat; exp ← decode exp; user ← decode user; name ← decode name; sys ← decode sys;
    Some (secret, @mkClaims text_uuid id issuer subject iat exp user name sys)
  | _ => None
  end.

Lemma parse_token secret c : parse_claims (token_of secret c) = Some (secret, c).
Proof.
  unfold parse_claims, token_of. rewrite unbits_bits, positives_unflatten_flatten.
  rewrite !decode_encode. by destruct c.
Qed.

#[global] Instance text_jwt : @JwtLib text_uuid := {|
  jwt_Sign secret c := Ok (token_of secret c);
  jwt_Parse secret now tok :=
    match parse_claims tok with
    | Some (secret', c) =>
      if bool_decide (secret' = secret) then
        if now <? Claims_ExpiresAt c then Ok c else Err "token is expired"%string
      else Err "signature is invalid"%string
    | None => Err "token is malformed"%string
    end
|}.

#[global] Instance text_jwt_laws : @JwtLaws text_uuid text_jwt.
Proof.
  split; simpl.
  - intros secret now c tok Htok _ _ Hnow. injection Htok as <-.
    rewrite parse_token, bool_decide_true by done. by destruct (Z.ltb_spec now (Claims_ExpiresAt c)); [|lia].
  - intros secret now c tok Htok Hnow. injection Htok as <-.
    rewrite parse_token, bool_decide_true by done. by destruct (Z.ltb_spec now (Claims_ExpiresAt c)); [lia|].
Qed.

(** ** Password hashes as the password and a digit *)

#[global] Instance text_bcrypt : BcryptLib := {|
  bcrypt_Generate n password :=
    if (72 <? String.length password)%nat then Err "bcrypt: password length exceeds 72 bytes"%string
    else Ok (password ++ "$" ++ (if Nat.even n then "0" else "1"))%string;
  bcrypt_Compare hash password := String.prefix (password ++ "$") hash
|}.

Lemma prefix_salted s t : String.prefix (s ++ "$") (s ++ String "$"%char t) = true.
Proof. induction s as [|c s IH]; [by destruct t|]. simpl. by destruct (ascii_dec c c). Qed.

#[global] Instance text_bcrypt_laws : BcryptLaws.
Proof.
  split; intros n password hash; simpl; (destruct (Nat.ltb_spec 72 (String.length password)) as [|Hle]; [done|]);
    intros Hh; injection Hh as <-.
  - apply prefix_salted.
  - assert (∀ s t, String.length (s ++ t)%string = (String.length s + String.length t)%nat) as Hlen.
    { intros s t. induction s as [|c s IH]; [done|]. simpl. by rewrite IH. }
    rewrite Hlen. simpl. destruct (Nat.even n); simpl; lia.
Qed.

#[global] Instance plain_text : DriverText := λ _, "driver error"%string.
