(* ===== verification/ConcreteText.v ===== *)
(** * ConcreteText: decimals and UUIDs as text

    Instances of [DecimalText] and proofs of its laws and of [UuidTextLaws] for
    the decimals and UUIDs of [Concrete].  A decimal is written as its
    coefficient and exponent, [123e-2]; without an exponent it is a whole
    number. *)

From S2P Require Import Prelude Platform Concrete Http Json.
From Stdlib Require Import Ascii DecimalString DecimalZ.
#[local] Open Scope Z_scope.

Definition Z_text (z : Z) : string := NilEmpty.string_of_int (Z.to_int z).
Definition Z_of_text (s : string) : option Z := Z.of_int <$> NilEmpty.int_of_string s.

(** A text up to the first [c], and what follows it. *)
Fixpoint cut_at (c : ascii) (s : string) : string * option string :=
  match s with
  | EmptyString => ("", None)
  | String c' s' =>
    if decide (c' = c) then ("", Some s') else let '(a, b) := cut_at c s' in (String c' a, b)
  end.

Definition dec_text (d : dec) : string := (Z_text (coef d) ++ "e" ++ Z_text (dexp d))%string.

Definition dec_parse (s : string) : option dec :=
  if decide (s = ""%string) then None else
  let '(a, b) := cut_at "e" s in
  c ← Z_of_text a;
  e ← match b with Some t => Z_of_text t | None => Some 0 end;
  Some (mkDec c e).

#[export] Instance text_decimal : @DecimalText coef_decimal := {|
  dec_String := dec_text : @Decimal coef_decimal → string;
  dec_NewFromString := dec_parse
|}.

(** ** Laws *)

Lemma Z_of_text_text z : Z_of_text (Z_text z) = Some z.
Proof. unfold Z_of_text, Z_text. rewrite NilEmpty.isi. simpl. by rewrite of_to. Qed.

Lemma cut_at_uint d t : cut_at "e" (NilEmpty.string_of_uint d ++ String "e" t) = (NilEmpty.string_of_uint d, Some t).
Proof. induction d as [|d IH|d IH|d IH|d IH|d IH|d IH|d IH|d IH|d IH|d IH]; simpl; by rewrite ?IH. Qed.

Lemma cut_at_Z z t : cut_at "e" (Z_text z ++ String "e" t) = (Z_text z, Some t).
Proof.
  unfold Z_text. destruct (Z.to_int z) as [d|d]; simpl; [apply cut_at_uint|]. by rewrite cut_at_uint.
Qed.

Lemma dec_text_not_empty d : dec_text d ≠ ""%string.
Proof. unfold dec_text. by destruct (Z_text (coef d)). Qed.

Lemma dec_parse_text d : dec_parse (dec_text d) = Some d.
Proof.
  unfold dec_parse. rewrite decide_False by apply dec_text_not_empty.
  unfold dec_text. change ("e" ++ Z_text (dexp d))%string with (String "e" (Z_text (dexp d))).
  rewrite cut_at_Z, !Z_of_text_text. by destruct d.
Qed.

#[export] Instance text_decimal_laws : @DecimalTextLaws coef_decimal text_decimal.
Proof.
  split; [|apply dec_text_not_empty].
  intros d. exists d. split; [apply dec_parse_text|reflexivity].
Qed.

#[export] Instance text_uuid_text_laws : @UuidTextLaws text_uuid.
Proof. split. intros u. reflexivity. Qed.

Example text_of_amount : dec_text (mkDec (-1234) (-2)) = "-1234e-2"%string ∧ dec_parse "50" = Some (mkDec 50 0).
Proof. done. Qed.
