(* ===== verification/ThreadsExamples.v ===== *)
(** * ThreadsExamples: concurrent writers on the example bank

    The properties of [Threads] on a run in which a transfer, a funding and two
    registrations under one name take their turns alternately. *)

From S2P Require Import Prelude Platform Concrete ConcreteAuth Errs Model Database GoM Store Books Example.
From S2P Require Import Transfer Funding Schedule Concurrency Http Token Auth Threads Handlers.
#[local] Open Scope Z_scope.

Section threads_examples.

#[local] Instance steady_env : @Env text_uuid := test_env never Ex.start.

Definition erin (email : string) : RegisterRequest := mkRegisterRequest "erin" email "correct horse" "Erin".

(** 10 from alice to bob, 12.3456 minted for bob, and erin twice. *)
Definition writers : list thread :=
  [Transferring (Ready (Ex.pay 100000)); Funding (FundReady (mkFundRequest "a-bob" (mkDec 123456 (-4))) "u-system"%string);
   Registering (RegReady (erin "e1@x.org")); Registering (RegReady (erin "e2@x.org"))].

(** Everybody in turn, seven times. *)
Definition round_robin : list nat := concat (replicate 7 [0; 1; 2; 3]%nat).

#[local] Abbreviation ex_world := (Ex.world never).
#[local] Abbreviation ex_run := (run_schedule (thread_turn "s3cret") round_robin writers ex_world).

Definition thread_status (t : thread) : option Z :=
  match t with
  | Transferring (Done _ (Ok _)) | Funding (FundDone _ (Ok _)) => Some 200
  | Registering (RegDone _ (Ok _)) => Some 201
  | Registering (RegDone _ (Err e)) => Some (mapAuthErrorToHTTP e)
  | _ => None
  end.

Lemma ex_run_statuses : thread_status <$> ex_run.1 = [Some 200; Some 200; Some 201; Some 500].
Proof. vm_compute. reflexivity. Qed.

Lemma writers_start : Forall starting writers.
Proof. repeat constructor. Qed.

Lemma threads_keep_books_witness :
  Zsum (thread_minted <$> ex_run.1) = 123456 ∧
  w_tx ex_run.2 = None ∧ books (w_db ex_run.2) ∧
  (Forall (λ t, ¬ thread_in_doubt t) ex_run.1 →
   total_balance (w_db ex_run.2) = total_balance (w_db ex_world) + Zsum (thread_minted <$> ex_run.1)).
Proof.
  split; [vm_compute; reflexivity|].
  refine (_ (threads_keep_books "s3cret" round_robin writers ex_world eq_refl Ex.db_books writers_start)).
  destruct ex_run as [ts w']. simpl. auto.
Defined.

Lemma threads_accounting_witness :
  Zsum (thread_effect (Ex.uid "a-bob") <$> ex_run.1) = 100000 + 123456 ∧
  (Forall (λ t, ¬ thread_in_doubt t) ex_run.1 →
   balance (Ex.uid "a-bob") (w_db ex_run.2) =
     balance (Ex.uid "a-bob") (w_db ex_world) + Zsum (thread_effect (Ex.uid "a-bob") <$> ex_run.1)).
Proof.
  split; [vm_compute; reflexivity|].
  refine (_ (threads_accounting "s3cret" round_robin writers ex_world (Ex.uid "a-bob") eq_refl
    Ex.db_books writers_start)).
  destruct ex_run as [ts w']. simpl. auto.
Defined.

(** The second erin passed both checks of the names, and is answered 500. *)
Lemma one_registration_per_name_witness :
  length (registered "erin" ex_run.1) = 1%nat ∧
  (length (registered "erin" ex_run.1) ≤ 1)%nat ∧
  (username_used "erin" (w_db ex_world) → registered "erin" ex_run.1 = []).
Proof.
  split; [vm_compute; reflexivity|].
  exact (one_registration_per_name "s3cret" round_robin writers ex_world "erin" eq_refl Ex.db_books writers_start).
Defined.

(** ** The first user

    On tables without users, two registrations that both asked whether they
    are the first are both made system users. *)

Definition empty_world : @World _ map_redis := mkWorld empty_db None ∅ 0 [].

Definition two_firsts : list thread :=
  [Registering (RegReady (mkRegisterRequest "erin" "e@x.org" "pw" "Erin"));
   Registering (RegReady (mkRegisterRequest "finn" "f@x.org" "pw" "Finn"))].

Definition answered_system_user (t : thread) : option bool :=
  match t with
  | Registering (RegDone _ (Ok resp)) => Some (User_IsSystemUser (AuthResponse_User resp))
  | _ => None
  end.

Lemma two_system_users :
  answered_system_user <$>
    (run_schedule (thread_turn "s3cret") (concat (replicate 7 [0; 1]%nat)) two_firsts empty_world).1
  = [Some true; Some true].
Proof. vm_compute. reflexivity. Qed.

End threads_examples.
