(* ===== verification/HttpExamples.v ===== *)
(** * HttpExamples: the HTTP service on the example bank

    The properties of [RateLimit], [Token], [AuthMiddleware], [Auth],
    [Handlers], [AccountHandler] and [Server] applied to concrete requests. *)

From S2P Require Import Prelude Platform Concrete ConcreteAuth Errs Model Database GoM Store Books Schema Example.
From S2P Require Import Transfer Funding Http RateLimit Token AuthMiddleware Auth Handlers AccountHandler Server Strconv.
From S2P Require Import Schedule RateTurns RateConcurrency.
From stdpp Require Import pretty.
#[local] Open Scope Z_scope.

Section http_examples.

(** No faults; the clock starts in November 2023. *)
Definition http_start : Z := 1700000000 * 10 ^ 9.
#[local] Instance http_env : @Env text_uuid := test_env never http_start.

#[local] Abbreviation ex_world := (Ex.world never).
#[local] Abbreviation ex_db := (w_db (Ex.world never)).

(** ** The rate limiter: one request a minute *)

Definition strict : RateLimiterConfig := mkRateLimiterConfig 1 (60 * 10 ^ 9).
Definition strict_key : string := limit_key "10.0.0.1" "transfers".

#[local] Abbreviation ex_check w :=
  (check strict strict_key (pretty (w_now w)) (w_now w - Window strict) (w_now w) (advance w)).
#[local] Abbreviation ex_once := (ex_check ex_world).2.
#[local] Abbreviation ex_twice := (ex_check ex_once).2.
#[local] Abbreviation ex_obs := [(w_now ex_world, true); (w_now ex_once, false)].

Lemma ex_limited : limited strict strict_key ex_world ex_obs ex_twice.
Proof.
  apply (limited_check strict strict_key ex_world true 0 ex_once [(w_now ex_once, false)] ex_twice).
  { apply run_split. vm_compute. reflexivity. }
  apply (limited_check strict strict_key ex_once false 0 ex_twice [] ex_twice); [|apply limited_nil].
  apply run_split. vm_compute. reflexivity.
Qed.

Lemma ex_prompt : prompt.
Proof. intros n. simpl. lia. Qed.

Lemma ex_whole_seconds : whole_seconds strict.
Proof. apply (bool_decide_unpack _). vm_compute. reflexivity. Qed.

Lemma ex_times_sorted : StronglySorted Z.lt ex_obs.*1.
Proof. repeat constructor; vm_compute; reflexivity. Qed.

Lemma ex_times_epoch : Forall (in_epoch strict) ex_obs.*1.
Proof. repeat constructor; apply (bool_decide_unpack _); vm_compute; reflexivity. Qed.

Lemma limiter_is_sliding_window_witness :
  ex_obs.*2 = [true; false] ∧ ex_obs.*2 = sliding_window strict [] ex_obs.*1.
Proof.
  split; [reflexivity|].
  exact (limiter_is_sliding_window strict strict_key ex_world ex_obs ex_twice (λ n, eq_refl) ex_prompt
    ex_whole_seconds (λ t _, eq_refl) ex_limited ex_times_sorted ex_times_epoch).
Defined.

Lemma limiter_budget_witness :
  Z.of_nat (length (admitted_within http_start (http_start + 10 ^ 9) ex_obs)) <= 1.
Proof.
  refine (limiter_budget strict strict_key ex_world ex_obs ex_twice http_start (http_start + 10 ^ 9)
    (λ n, eq_refl) ex_prompt ex_whole_seconds _ (λ t _, eq_refl) ex_limited ex_times_sorted
    ex_times_epoch _); apply (bool_decide_unpack _); vm_compute; reflexivity.
Defined.

(** Two requests at once, the commands of their pipelines in turns: both have
    counted before either has added itself, and both are admitted. *)
#[local] Abbreviation ex_ready := [LimReady strict_key; LimReady strict_key].
#[local] Abbreviation ex_race :=
  (run_schedule (limit_turn strict) [0; 1; 0; 1; 0; 1; 0; 1; 0; 1]%nat ex_ready ex_world).

Lemma ex_race_ends :
  ex_race.1 = [LimDone strict_key (w_now ex_world) (Ok (true, 0));
    LimDone strict_key (w_now (advance ex_world)) (Ok (true, 0))].
Proof. vm_compute. reflexivity. Qed.

(** The bound is reached: one more than the budget. *)
Lemma concurrent_budget_witness :
  length (admitted_in strict_key http_start (http_start + 10 ^ 9) ex_race.1) = 2%nat ∧
  Z.of_nat (length (admitted_in strict_key http_start (http_start + 10 ^ 9) ex_race.1)) <= 1 + 1.
Proof.
  split; [vm_compute; reflexivity|].
  refine (concurrent_budget strict strict_key (10 ^ 8) 1 ex_ready ex_world ex_race.1 ex_race.2 http_start
    (http_start + 10 ^ 9) (λ n, eq_refl) ex_whole_seconds eq_refl eq_refl _ _ (λ t _, eq_refl) _ _).
  - discriminate.
  - repeat constructor; by eexists.
  - rewrite <-surjective_pairing. apply schedule_run. vm_compute. reflexivity.
  - apply (bool_decide_unpack _). vm_compute. reflexivity.
Defined.

(** One after the other, the second is refused, and no request ever comes
    between the count and the addition of another. *)
Lemma ex_in_turn :
  let sched := [0; 0; 0; 0; 0; 1; 1; 1; 1; 1; 1]%nat in
  orderly_schedule strict strict_key (10 ^ 8) 0 sched ex_ready ex_world = true ∧
  length (admitted_in strict_key http_start (http_start + 10 ^ 9)
    (run_schedule (limit_turn strict) sched ex_ready ex_world).1) = 1%nat.
Proof. split; vm_compute; reflexivity. Qed.

(** ** Tokens *)

#[local] Abbreviation alice_claims := (issued_claims "gen-0" (env_now 1) (Ex.uid "u-alice") "alice" false).
#[local] Abbreviation ex_issue := (IssueToken "s3cret" (Ex.uid "u-alice") "alice" false ex_world).

Lemma ex_issued : ex_issue = (Ok (token_of "s3cret" alice_claims, "gen-0"%string), ex_issue.2).
Proof. apply run_split. vm_compute. reflexivity. Qed.

Lemma IssueToken_ValidateToken_witness :
  ∃ c, ValidateToken "s3cret" (token_of "s3cret" alice_claims) ex_issue.2 = (Ok c, advance ex_issue.2) ∧
    Claims_ID c = "gen-0"%string ∧ Claims_UserID c = Ex.uid "u-alice" ∧
    Claims_Username c = "alice"%string ∧ Claims_IsSystemUser c = false.
Proof.
  refine (proj1 (IssueToken_ValidateToken "s3cret" (Ex.uid "u-alice") "alice" false ex_world
    (token_of "s3cret" alice_claims) "gen-0" ex_issue.2 ex_issue.2 ex_issued) _).
  apply (bool_decide_unpack _). vm_compute. reflexivity.
Defined.

(** A request with a body and, if any, a token for the user. *)
Definition request (body : Body) (token : option string) : Request :=
  mkRequest ∅ (match token with Some t => {[cookieName := t]} | None => ∅ end) "10.0.0.1:4711"
    "a-alice" ∅ body None None None.
Definition no_body : Body := mkBody None None None None.

#[local] Abbreviation alice_request := (request no_body (Some (token_of "s3cret" alice_claims))).

Lemma Protect_fails_closed_witness :
  reply_status (Protect "s3cret" handleHealth alice_request no_header ex_world).1 = Some 200 ∧
  ∃ w', same_db ex_world w' ∧ same_tx ex_world w' ∧ same_redis ex_world w' ∧
    ((∃ c cookie, req_cookies alice_request !! cookieName = Some cookie ∧
        jwt_Parse "s3cret" (w_now ex_world) cookie = Ok c ∧
        redis_view (w_redis ex_world) (w_now (advance ex_world)) (blacklist_key (Claims_ID c)) = None ∧
        frozen_accounts (Claims_UserID c) (w_db ex_world) = [] ∧
        Protect "s3cret" handleHealth alice_request no_header ex_world =
          handleHealth (identified c alice_request) no_header w') ∨
     (∃ status msg, status ∈ [status_Unauthorized; status_Forbidden; status_InternalServerError] ∧
        Protect "s3cret" handleHealth alice_request no_header ex_world =
          (writeAuthError status msg no_header, w'))).
Proof.
  split; [vm_compute; reflexivity|].
  exact (Protect_fails_closed "s3cret" handleHealth alice_request no_header ex_world).
Defined.

(** Alice's token is revoked until its expiry, then used. *)
#[local] Abbreviation ex_revoke :=
  (BlacklistToken "gen-0" (http_start + TokenTTL) ex_world).

Lemma ex_revoked : ex_revoke = (Ok (), ex_revoke.2).
Proof. apply run_split. vm_compute. reflexivity. Qed.

Lemma ex_parsed w :
  w_now w < Claims_ExpiresAt alice_claims →
  jwt_Parse "s3cret" (w_now w) (token_of "s3cret" alice_claims) = Ok alice_claims.
Proof. intros Hnow. by apply jwt_roundtrip. Qed.

Lemma revoked_token_refused_witness :
  ∃ w3, same_db ex_revoke.2 w3 ∧
    (Protect "s3cret" handleTransfer alice_request no_header ex_revoke.2 =
       (writeAuthError status_Unauthorized "token has been revoked" no_header, w3) ∨
     Protect "s3cret" handleTransfer alice_request no_header ex_revoke.2 =
       (writeAuthError status_InternalServerError "authentication error" no_header, w3)).
Proof.
  refine (revoked_token_refused "s3cret" handleTransfer "gen-0" (http_start + TokenTTL) ex_world
    ex_revoke.2 alice_request no_header ex_revoke.2 (token_of "s3cret" alice_claims) alice_claims
    ex_revoked (λ t, eq_refl) (Z.le_refl _) _ _ (ex_parsed _ _) eq_refl);
    [apply (bool_decide_unpack _); vm_compute; reflexivity|reflexivity|vm_compute; reflexivity].
Defined.

(** ** Registration and login *)

Definition dave : RegisterRequest := mkRegisterRequest "dave" "dave@x.org" "hunter2" "Dave".
Definition dave_login : LoginRequest := mkLoginRequest "dave" "hunter2".

#[local] Abbreviation ex_register := (Register "s3cret" dave ex_world).
#[local] Abbreviation ex_answer :=
  (match ex_register.1 with Ok resp => resp | Err _ => mkAuthResponse Ex.alice "" end).
#[local] Abbreviation ex_registered := ex_register.2.

Lemma ex_register_run : ex_register = (Ok ex_answer, ex_registered).
Proof. apply run_split. vm_compute. reflexivity. Qed.

Lemma ex_db_wf : db_wf ex_db.
Proof. exact (books_wf _ Ex.db_books). Qed.

Lemma Register_effects_witness :
  w_tx ex_registered = None ∧ ∃ ou acct, register_effect dave ex_db ou acct (w_db ex_registered) ∧
    (∀ resp, @Ok error _ ex_answer = Ok resp → ou = Some (AuthResponse_User resp) ∧ acct = true).
Proof. exact (Register_effects "s3cret" dave ex_world _ ex_registered eq_refl ex_register_run). Defined.

(** Somebody else asks for the name of alice. *)
Definition impostor : RegisterRequest := mkRegisterRequest "alice" "a2@x.org" "pw" "Not Alice".

Lemma Register_refuses_witness :
  let missing := RegisterRequest_Username impostor = ""%string ∨ RegisterRequest_Email impostor = ""%string ∨
    RegisterRequest_Password impostor = ""%string ∨ RegisterRequest_FullName impostor = ""%string in
  let refused e := ∃ w', Register "s3cret" impostor ex_world = (Err (ErrSentinel e), w') ∧ w_db w' = ex_db in
  (missing → refused ErrMissingFields) ∧
  (¬ missing → username_used (RegisterRequest_Username impostor) ex_db → refused ErrUsernameTaken) ∧
  (¬ missing → ¬ username_used (RegisterRequest_Username impostor) ex_db →
   email_used (RegisterRequest_Email impostor) ex_db → refused ErrEmailTaken).
Proof. exact (Register_refuses "s3cret" impostor ex_world (λ n, eq_refl)). Defined.

Lemma Login_correct_witness :
  ∃ w', w_db w' = w_db ex_registered ∧
    match login_decision dave_login (w_db ex_registered) with
    | Err e => Login "s3cret" dave_login ex_registered = (Err e, w')
    | Ok u => ∃ w1 tok jti, w_db w1 = w_db ex_registered ∧
        match IssueToken "s3cret" (User_ID u) (User_Username u) (User_IsSystemUser u) w1 with
        | (Ok (tok', jti'), _) => tok' = tok ∧ jti' = jti ∧
            Login "s3cret" dave_login ex_registered = (Ok (mkAuthResponse u tok), w')
        | (Err e, _) => Login "s3cret" dave_login ex_registered = (Err e, w')
        end
    end.
Proof. exact (Login_correct "s3cret" dave_login ex_registered (λ n, eq_refl)). Defined.

(** ** Endpoints *)

Definition pay_body : Body := mkBody (Some (Ex.pay 100000)) None None None.
Definition login_body : Body := mkBody None None (Some dave_login) None.

#[local] Abbreviation bob_claims := (issued_claims "gen-0" (env_now 1) (Ex.uid "u-bob") "bob" false).
#[local] Abbreviation bob_request := (request pay_body (Some (token_of "s3cret" bob_claims))).
#[local] Abbreviation ex_bank :=
  (match bank_transfer false (Ex.pay 100000) (bank_of ex_db) with Ok b => b | Err _ => bank_of ex_db end).

Lemma http_fresh n k : fresh_uuids n k ex_db.
Proof. apply Ex.test_fresh; vm_compute; repeat constructor. Qed.

Lemma ex_bank_ok : bank_transfer false (Ex.pay 100000) (bank_of ex_db) = Ok ex_bank.
Proof.
  assert (is_ok (bank_transfer false (Ex.pay 100000) (bank_of ex_db)) = true) as Hok
    by (vm_compute; reflexivity).
  by destruct (bank_transfer _ _ _).
Qed.

Lemma handleTransfer_correct_witness :
  ∃ resp w', handleTransfer bob_request no_header ex_world = (Replied resp, w') ∧
    resp_status resp ∈ [200; 400; 403; 404; 409; 422; 500] ∧
    (resp_status resp = 200 → ∃ txnID, resp_body resp = JTransfer (transfer_ok txnID) ∧
       committed (Ex.pay 100000) txnID ex_db (w_db w')) ∧
    (resp_status resp ≠ 200 → (∃ msg, resp_body resp = JError msg) ∧
       (w_db w' = ex_db ∨ resp_status resp = 500 ∧ ∃ txnID, committed (Ex.pay 100000) txnID ex_db (w_db w'))) ∧
    (no_faults → fresh_uuids (w_tick ex_world) 11 ex_db →
     resp_status resp =
       transfer_status (held (w_redis ex_world) (w_now ex_world) (Ex.uid "k-1")) (Ex.pay 100000) (bank_of ex_db)).
Proof. exact (handleTransfer_correct bob_request no_header ex_world eq_refl). Defined.

(** Bob pays himself out of the account of alice. *)
Lemma transfer_of_any_account_witness :
  ∃ txnID w', Protect "s3cret" handleTransfer bob_request no_header ex_world =
      (writeJSON 200 (JTransfer (transfer_ok txnID)) no_header, w') ∧ bank_of (w_db w') ≡ ex_bank.
Proof.
  refine (transfer_of_any_account "s3cret" bob_request no_header ex_world bob_claims (Ex.pay 100000) ex_bank
    (λ n, eq_refl) eq_refl (λ n _, http_fresh n 11) _ eq_refl (λ t, eq_refl) ex_bank_ok).
  vm_compute. reflexivity.
Defined.

Lemma unprotected_routes_witness :
  route_fund "s3cret" bob_request no_header ex_world =
    (writeJSON 401 (JError "not authenticated") no_header, ex_world) ∧
  (route_logout bob_request no_header ex_world).2 = ex_world ∧
  reply_status (route_logout bob_request no_header ex_world).1 = Some 400.
Proof.
  refine (_ (unprotected_routes "s3cret" bob_request no_header ex_world (conj eq_refl (conj eq_refl eq_refl)))).
  intros (Hf & Hl & _). split; [exact Hf|]. split; [exact Hl|]. vm_compute. reflexivity.
Defined.

#[local] Abbreviation ex_user :=
  (match login_decision dave_login (w_db ex_registered) with Ok u => u | Err _ => Ex.alice end).

Lemma ex_user_ok : login_decision dave_login (w_db ex_registered) = Ok ex_user.
Proof.
  assert (is_ok (login_decision dave_login (w_db ex_registered)) = true) as Hok by (vm_compute; reflexivity).
  by destruct (login_decision _ _).
Qed.

#[local] Abbreviation login_request := (request login_body None).

Lemma login_gives_session_witness :
  ∃ resp w' cookie jti issued,
    handleLogin "s3cret" true login_request no_header ex_registered = (Replied resp, w') ∧
    resp_status resp = 200 ∧ resp_body resp = JUser "login successful" ex_user ∧
    h_cookies (resp_header resp) = h_cookies no_header ++ [cookie] ∧
    Cookie_Name cookie = cookieName ∧ Cookie_HttpOnly cookie = true ∧ Cookie_Secure cookie = true ∧
    w_now ex_registered <= issued <= w_now w' ∧
    ∀ next r2 h2 w2, req_cookies r2 !! cookieName = Some (Cookie_Value cookie) →
      w_now w2 <= issued + TokenTTL - 10 ^ 9 →
      redis_view (w_redis w2) (w_now (advance w2)) (blacklist_key jti) = None →
      frozen_accounts (User_ID ex_user) (w_db w2) = [] →
      ∃ w3, same_db w2 w3 ∧ same_tx w2 w3 ∧ same_redis w2 w3 ∧
        Protect "s3cret" next r2 h2 w2 = next (with_identity (User_ID ex_user) (User_Username ex_user) jti r2) h2 w3.
Proof.
  exact (login_gives_session "s3cret" true login_request no_header ex_registered dave_login ex_user
    (λ n, eq_refl) (λ c, eq_refl) eq_refl ex_user_ok).
Defined.

(** ** Account endpoints *)

(** Alice asks for her own account. *)
#[local] Abbreviation own_request := (with_identity (Ex.uid "u-alice") "alice" "gen-0" (request no_body None)).

Lemma handleGetBalance_correct_witness :
  ∃ rep w', handleGetBalance own_request no_header ex_world = (rep, w') ∧ same_db ex_world w' ∧
    (reply_status rep = Some 200 → ∃ id a, uuid_Parse (req_path_id own_request) = Some id ∧
       accounts ex_db !! id = Some a ∧ Account_UserID a = Ex.uid "u-alice" ∧
       rep = writeJSON 200 (JBalance (mkBalanceResponse id (Account_Currency a)
         (dec_StringFixed (dec_of_units (balance id ex_db)) 4))) no_header) ∧
    (no_faults → reply_status rep = Some
       match uuid_Parse (req_path_id own_request) with
       | None => 400
       | Some id => if bool_decide (Account_UserID <$> accounts ex_db !! id = Some (Ex.uid "u-alice"))
                    then 200 else 403
       end).
Proof. exact (handleGetBalance_correct own_request no_header ex_world ex_db_wf). Defined.

Lemma own_account : owns (UserIDFromCtx own_request) (Ex.uid "a-alice") ex_db.
Proof.
  exists (Ex.account "a-alice" "u-alice" AccountStatusActive).
  split; [|reflexivity]. apply (bool_decide_unpack _). vm_compute. reflexivity.
Qed.

Lemma few_transactions : Z.of_nat (size (transactions ex_db)) < 2 ^ 46.
Proof. apply (bool_decide_unpack _). vm_compute. reflexivity. Qed.

Lemma handleGetHistory_correct_witness :
  let offset := ((1 - 1) * 20) mod 2 ^ 64 in
  ∃ items resp w', is_history ex_db (Ex.uid "a-alice") items ∧ same_db ex_world w' ∧
    handleGetHistory own_request no_header ex_world = (Replied resp, w') ∧
    (offset < 2 ^ 63 → resp_status resp = 200 ∧ ∃ pages,
       resp_body resp = JHistory (mkPaginatedHistory (take (Z.to_nat 20) (drop (Z.to_nat offset) items))
         (Z.of_nat (length items)) 1 20 pages) ∧
       ((pages - 1) * 20 < Z.of_nat (length items) <= pages * 20 ∨ items = [] ∧ pages = 0)) ∧
    (2 ^ 63 <= offset → resp_status resp = 500 ∧ resp_body resp = JError "failed to fetch history").
Proof.
  exact (handleGetHistory_correct own_request no_header ex_world (Ex.uid "a-alice") (λ n, eq_refl)
    ex_db_wf eq_refl own_account few_transactions).
Defined.

(** The single transaction of the example: page 1 is all there is. *)
Lemma ex_times_differ : times_differ (Ex.uid "a-alice") ex_db.
Proof.
  assert (map_Forall (λ i _, i = Ex.uid "t-seed") (transactions ex_db)) as Hone
    by (apply (bool_decide_unpack _); vm_compute; reflexivity).
  intros i j t u Hi Hj _ _ _. by rewrite (Hone i t Hi), (Hone j u Hj).
Qed.

Lemma pages_cover_history_witness :
  length (page_items (handleGetHistory own_request no_header ex_world).1) = 1%nat ∧
  PaginatedHistory_TotalPages <$> history_page (handleGetHistory own_request no_header ex_world).1 = Some 1 ∧
  ∃ items pages, is_history ex_db (Ex.uid "a-alice") items ∧
  ∀ reqs : list (Request * Header * World),
    Forall (λ q, w_db q.2 = ex_db ∧ uuid_Parse (req_path_id q.1.1) = Some (Ex.uid "a-alice") ∧
      owns (UserIDFromCtx q.1.1) (Ex.uid "a-alice") ex_db ∧ requested_size q.1.1 = 20) reqs →
    (requested_page ∘ fst ∘ fst) <$> reqs = seqZ 1 pages →
    let replies := (λ q, (handleGetHistory q.1.1 q.1.2 q.2).1) <$> reqs in
    Forall (λ rep, reply_status rep = Some 200 ∧
      PaginatedHistory_TotalPages <$> history_page rep = Some pages) replies ∧
    concat (page_items <$> replies) = items.
Proof.
  split; [vm_compute; reflexivity|]. split; [vm_compute; reflexivity|].
  refine (pages_cover_history ex_db (Ex.uid "a-alice") 20 (λ n, eq_refl) ex_db_wf ex_times_differ few_transactions _).
  split; discriminate.
Defined.

(** ** The server *)

(** Somebody registers, bob pays himself, tries to mint, and reads the balance
    of alice's account. *)
Definition session : list (endpoint * Request) :=
  [(PostRegister, request (mkBody None (Some dave) None None) None); (PostTransfers, bob_request);
   (PostFund, bob_request); (GetAccountBalance, bob_request)].

Lemma session_answers :
  reply_status <$> (serve_http "s3cret" true session ex_world).1 = [Some 201; Some 200; Some 401; Some 403].
Proof. vm_compute. reflexivity. Qed.

Lemma server_keeps_books_witness :
  let w' := (serve_http "s3cret" true session ex_world).2 in
  w_tx w' = None ∧ books (w_db w') ∧ total_balance (w_db w') = total_balance ex_db.
Proof.
  refine (server_keeps_books "s3cret" true session ex_world _ eq_refl Ex.db_books).
  repeat constructor.
Defined.

Lemma server_appends_only_witness :
  let db' := w_db (serve_http "s3cret" true session ex_world).2 in
  extends ex_db db' ∧
  (users ex_db ≠ ∅ →
   ∀ id u, users db' !! id = Some u → User_IsSystemUser u = true → users ex_db !! id = Some u).
Proof.
  refine (server_appends_only "s3cret" true session ex_world _ eq_refl Ex.db_books).
  repeat constructor.
Defined.

(** The same session on the tables of the migration. *)
Definition migrated_world : World :=
  mkWorld (match migrate (Ex.uid "u-1") 0 with Ok db => db | Err _ => empty_db end) None ∅ 0 [].

Lemma migrated_world_ok : migrate (Ex.uid "u-1") 0 = Ok (w_db migrated_world).
Proof.
  unfold migrated_world. destruct (migrate_ok (Ex.uid "u-1") 0) as (db & Hm & _). by rewrite Hm.
Qed.

Lemma migrated_bank_stays_empty_witness :
  let db' := w_db (serve_http "s3cret" true session migrated_world).2 in
  (∀ acct, is_Some (accounts db' !! acct) → balance acct db' = 0) ∧
  (∀ i u, users db' !! i = Some u → User_IsSystemUser u = true → i = Ex.uid "u-1").
Proof.
  refine (migrated_bank_stays_empty "s3cret" true session migrated_world (Ex.uid "u-1") 0 _ eq_refl migrated_world_ok).
  repeat constructor.
Defined.

Lemma changes_need_session_witness :
  PostTransfers = PostRegister ∨
  PostTransfers = PostTransfers ∧ ∃ cookie c t1 t2,
    w_now ex_world <= t1 ∧ t1 <= t2 ∧
    t2 <= w_now (mux "s3cret" true PostTransfers bob_request no_header ex_world).2 ∧
    req_cookies bob_request !! cookieName = Some cookie ∧ jwt_Parse "s3cret" t1 cookie = Ok c ∧
    redis_view (w_redis ex_world) t2 (blacklist_key (Claims_ID c)) = None ∧
    frozen_accounts (Claims_UserID c) ex_db = [].
Proof.
  refine (changes_need_session "s3cret" true PostTransfers bob_request no_header ex_world
    (conj eq_refl (conj eq_refl eq_refl)) _).
  intros Heq%(f_equal (λ db, length (ledger db))). vm_compute in Heq. discriminate.
Defined.

End http_examples.
