(* ===== verification/MainExamples.v ===== *)
(** * MainExamples: the server process started, used and stopped

    A run of [Main] with one request: the process listens, takes the request,
    gets a signal while it is in flight, and ends with code 0. *)

From S2P Require Import Prelude Platform Concrete ConcreteAuth Errs Model Database GoM Store Books Example.
From S2P Require Import Transfer Funding Http RateLimit Token AuthMiddleware Auth Handlers AccountHandler Server.
From S2P Require Import Config Email Mail Main.
#[local] Open Scope Z_scope.

Section main_examples.

#[local] Instance main_env : @Env text_uuid := test_env never 0.
(** PostgreSQL and Redis are up. *)
#[local] Instance all_up : Services := {| sqlx_Connect := λ _, true; rdb_Ping := λ _, true |}.

Definition ex_variables : gmap string string := {["DATABASE_URL"%string := "postgres://db"%string]}.

Definition ex_app : App :=
  match (main_start ex_variables).1 with
  | inr app => app
  | inl _ => mkApp (mkConfig "" "" "" 0 "" "" "" "" "" "" "" "" "") (http_server (mkConfig "" "" "" 0 "" "" "" "" "" "" "" "" ""))
      main_pool main_limits []
  end.

Definition ex_health : endpoint * Request :=
  (GetHealth, mkRequest ∅ ∅ "10.0.0.1:4711" "" ∅ (mkBody None None None None) None None None).

Lemma ex_main_starts : main_start ex_variables = (inr ex_app, (main_start ex_variables).2).
Proof. reflexivity. Qed.

(** Without a database URL, and without Redis, the program exits with code 1. *)
Lemma ex_main_fails :
  main_start ∅ = (inl 1, []) ∧
  (@main_start _ _ _ _ _ _ _ {| sqlx_Connect := λ _, true; rdb_Ping := λ _, false |} ex_variables).1 = inl 1.
Proof. done. Qed.

(** One request in flight when the signal comes. *)
Definition ex_draining : Process :=
  mkProcess Draining ListenerClosed [ex_health] main_pool true true all_defers.

Lemma main_silent p evs p1 p2 : main_run p evs p1 → main_step p1 [] p2 → main_run p evs p2.
Proof. intros Hrun Hs. rewrite <-(app_nil_r evs). by eapply main_snoc. Qed.

Lemma worker_quits i p0 evs p :
  main_run p0 evs p → w_pool (p_pool p) !! i = Some Selecting → w_quit_closed (p_pool p) = true →
  (∀ c, p_phase p ≠ Exited c) → main_run p0 evs (set_worker (set_pool <[i := Returned]> (p_pool p)) p).
Proof. intros Hrun Hi Hq Hx. eapply main_silent; [done|]. eapply mail; [by apply process_quit|done]. Qed.

Lemma ex_drains : main_run (process_of ex_app) [Arrived ex_health] ex_draining.
Proof.
  pose proof (main_nil (process_of ex_app)) as Hrun.
  eapply main_silent in Hrun; [|by apply listen_ok].
  eapply main_snoc in Hrun; [|by apply (accept _ ex_health)].
  eapply main_silent in Hrun; [|by apply signal].
  exact Hrun.
Qed.

Definition ex_stopped : Process :=
  mkProcess (Exited 0) ListenerClosed [] (mkWorker [] 100 true true [Returned; Returned; Returned])
    false false all_defers.

Lemma ex_stops :
  main_run (process_of ex_app)
    [Arrived ex_health; Finished ex_health; Closed CancelTimeout; Closed WorkerShutdown;
     Closed RedisClose; Closed PostgresClose] ex_stopped.
Proof.
  pose proof (main_snoc _ _ _ _ _ ex_drains (finish ex_draining [] ex_health [] eq_refl ltac:(done))) as Hrun.
  eapply main_silent in Hrun; [|by apply drained].
  eapply main_snoc in Hrun; [|by eapply unwind_cancel].
  eapply main_silent in Hrun; [|by eapply unwind_close_quit].
  eapply main_silent in Hrun; [|by eapply unwind_close_jobs].
  eapply (worker_quits 0) in Hrun; [|done..].
  eapply (worker_quits 1) in Hrun; [|done..].
  eapply (worker_quits 2) in Hrun; [|done..].
  eapply main_snoc in Hrun; [|eapply unwind_wait; [done|by repeat constructor]].
  eapply main_snoc in Hrun; [|by eapply unwind_redis].
  eapply main_snoc in Hrun; [|by eapply unwind_postgres].
  eapply main_silent in Hrun; [|by apply main_returns].
  exact Hrun.
Qed.

Lemma stop_is_clean_witness :
  [ex_health] ≡ₚ [ex_health] ++ [] ∧ released
    [Arrived ex_health; Finished ex_health; Closed CancelTimeout; Closed WorkerShutdown;
     Closed RedisClose; Closed PostgresClose] = all_defers ∧ shutdown_returns (p_pool ex_stopped).
Proof.
  destruct (stop_is_clean ex_variables ex_app _ _ ex_stopped ex_main_starts ex_stops) as (Hreq & _ & Hexit).
  destruct (Hexit eq_refl) as (_ & Hd & Hr). split_and!; [exact Hreq|exact Hd|exact Hr].
Defined.

Lemma signal_stops_witness :
  Acc (λ p2 p1, ∃ evs, main_step p1 evs p2) ex_draining ∧
  ∀ evs' p', main_run ex_draining evs' p' → (∀ evs'' p'', ¬ main_step p' evs'' p'') →
    p_phase p' = Exited 0 ∨ p_phase p' = Exited 1.
Proof.
  refine (signal_stops ex_variables ex_app _ _ ex_draining ex_main_starts ex_drains _). discriminate.
Defined.

End main_examples.
