(* ===== verification/WireExamples.v ===== *)
(** * WireExamples: JSON bodies on the example bank

    The properties of [Wire] and [Session] applied to requests sent as JSON. *)

From S2P Require Import Prelude Platform Concrete ConcreteAuth ConcreteText Errs Model Database GoM Store Books.
From S2P Require Import Example Transfer Funding Http Json RateLimit Token AuthMiddleware Auth Handlers AccountHandler Wire Server Session HttpExamples.
#[local] Open Scope Z_scope.

Section wire_examples.

#[local] Instance wire_env : @Env text_uuid := test_env never Ex.start.

#[local] Abbreviation ex_world := (Ex.world never).
Definition plain_request : Request :=
  mkRequest ∅ ∅ "10.0.0.1:4711" "" ∅ (mkBody None None None None) None None None.

(** Bob is paid; the members come in another order than the fields. *)
Definition pay_members : list (string * jin) :=
  [("idempotency_key", text "k-1"); ("amount", text "100000e-4");
   ("to_account_id", text "a-bob"); ("from_account_id", text "a-alice")]%string.

(** An upper-case name is folded, an unknown member skipped, a number is read. *)
Definition keyless_members : list (string * jin) :=
  [("From_Account_ID", text "a-alice"); ("note", text "rent"); ("to_account_id", text "a-bob");
   ("amount", INumber "7")]%string.
Definition keyless_back : list (string * jin) :=
  [("from_account_id", text "a-bob"); ("to_account_id", text "a-alice"); ("amount", INumber "3")]%string.

#[local] Abbreviation ex_call := (call handleTransfer (Some (IObject keyless_members)) plain_request ex_world).

Lemma transfer_over_json_witness :
  match bank_transfer (held (w_redis ex_world) (w_now ex_world) (Ex.uid "k-1")) (Ex.pay 100000)
          (bank_of (w_db ex_world)) with
  | Ok b => ∃ txnID w', call handleTransfer (Some (IObject pay_members)) plain_request ex_world =
      (Some (200, transferred txnID), w') ∧ bank_of (w_db w') ≡ b
  | Err e => ∃ w', call handleTransfer (Some (IObject pay_members)) plain_request ex_world =
      (Some (transfer_status (held (w_redis ex_world) (w_now ex_world) (Ex.uid "k-1")) (Ex.pay 100000)
         (bank_of (w_db ex_world)), refused (Error driver_text e)), w') ∧ w_db w' = w_db ex_world
  end.
Proof.
  refine (transfer_over_json (Ex.pay 100000) pay_members plain_request ex_world _ (λ n, eq_refl) eq_refl _).
  - symmetry. exact (Permutation_rev (transfer_members (Ex.pay 100000))).
  - apply Ex.test_fresh; vm_compute; repeat constructor.
Defined.

Lemma keyless_call :
  ex_call = (Some (200, transferred (Ex.uid "gen-1")), ex_call.2).
Proof. apply run_split. vm_compute. reflexivity. Qed.

Lemma keyless_transfers_collide_witness :
  ∃ w3, call handleTransfer (Some (IObject keyless_back)) plain_request ex_call.2 =
      (Some (409, refused (sentinel_text ErrDuplicateTransaction)), w3) ∧ w_db w3 = w_db ex_call.2.
Proof.
  refine (keyless_transfers_collide keyless_members plain_request ex_world (transferred (Ex.uid "gen-1")) ex_call.2
    keyless_back (mkTransferRequest (Ex.uid "a-bob") (Ex.uid "a-alice") (mkDec 3 0) uuid_Nil) plain_request
    ex_call.2 _ keyless_call _ eq_refl _ eq_refl eq_refl _ eq_refl).
  - repeat constructor; by apply (bool_decide_unpack _).
  - repeat constructor; by apply (bool_decide_unpack _).
  - by apply (bool_decide_unpack _).
  - split; [reflexivity|]. apply Z.ltb_lt. vm_compute. reflexivity.
Defined.

(** Dave registers; others use the server; he logs in. *)
#[local] Abbreviation ex_joined :=
  (call (handleRegister "s3cret" true) (Some (IObject (register_members dave))) plain_request ex_world).

Lemma dave_joins :
  ex_joined = (Some (201, default (OBool false) (snd <$> ex_joined.1)), ex_joined.2).
Proof. apply run_split. vm_compute. reflexivity. Qed.

Lemma Register_then_Login_witness :
  let w2 := (serve_http "s3cret" true session ex_joined.2).2 in
  ((utf8_length "dave" ≤ 50)%nat → cut 50 "dave" = "dave"%string) ∧
  ∃ u now w3, default (OBool false) (snd <$> ex_joined.1) = welcomed "registration successful" u ∧
    call (handleLogin "s3cret" true) (Some (IObject (rev (login_members dave_login)))) plain_request w2 =
      (Some (200, welcomed "login successful" (user_row u now)), w3) ∧
    User_Username u = "dave"%string ∧
    is_Some (head (accounts_of (User_ID u) (w_db w2))).
Proof.
  refine (Register_then_Login "s3cret" true dave (register_members dave) plain_request ex_world _ ex_joined.2
    session (rev (login_members dave_login)) plain_request (λ n, eq_refl) eq_refl Ex.db_books (λ c, eq_refl)
    (Permutation_refl _) dave_joins _ _).
  - repeat constructor.
  - symmetry. exact (Permutation_rev _).
Defined.

(** Eve asks for a name of 50 characters and a space.  The column drops the
    space: she is registered under another name than the one she gave, and the
    name she gave does not log her in. *)
Definition spaced_name : string := "eve_has_chosen_a_name_of_exactly_fifty_characters_ ".
Definition eve : RegisterRequest := mkRegisterRequest spaced_name "eve@x.org" "hunter2" "Eve".

Lemma spaced_name_locks_out :
  let joined := call (handleRegister "s3cret" true) (Some (IObject (register_members eve))) plain_request ex_world in
  let login name :=
    (call (handleLogin "s3cret" true) (Some (IObject (login_members (mkLoginRequest name "hunter2"))))
      plain_request joined.2).1 in
  fst <$> joined.1 = Some 201 ∧ fst <$> login spaced_name = Some 401 ∧
  fst <$> login (cut 50 spaced_name) = Some 200 ∧ utf8_length spaced_name = 51%nat.
Proof. split_and!; vm_compute; reflexivity. Qed.

End wire_examples.
